(** * AskQL: the streaming transcript engine of the web client

    A shallow embedding of the client code that consumes the backend's
    event stream and folds it into the chat transcript:

    - [lib/api.ts]: the three read loops [sendAskQueryStream],
      [sendAgentQueryStream] and [confirmAgentOperationStream];
    - [hooks/use-message-handler.ts]: the per-event callbacks of
      [handleSendMessage] (ask and agent mode), [buildContent],
      [handleStopGeneration] and the synchronous part of [loadConversation];
    - [components/main-layout.tsx]: [onConfirmAction] (cancel and execute
      branches) with the callback of the confirmation round.

    JavaScript strings are modelled by the UTF-8 bytes of their text, one
    [ascii] per byte.  React state updates ([setMessages] and friends) are
    applied when they are issued; the message objects live in a store and the
    [messages] array holds references to them, as the updaters mutate the last
    object in place. *)

From Stdlib Require Import ZArith String Ascii List Lia Bool Arith DecimalString.
From stdpp Require Import base list strings.
Import ListNotations.

Local Open Scope string_scope.
Set Warnings "-register-all".
Set Default Proof Using "Type".

(** ** Strings *)

Module JsString.

Definition chr (n : nat) : ascii := ascii_of_nat n.

(** A string given by its bytes: used for the non-ASCII literals of the
    sources, which are written here byte for byte as they stand in the
    files. *)
Definition utf8 (l : list nat) : string := string_of_list_ascii (map chr l).

Definition nl : string := utf8 [10].
Definition dq : string := utf8 [34].

(** [s.length]: the number of UTF-16 code units of the text, counted on its
    UTF-8 bytes: a continuation byte counts for none, the first byte of a
    character of four bytes for two, any other byte for one. *)
Definition unitsOfByte (c : ascii) : nat :=
  let n := nat_of_ascii c in
  if (n <? 128)%nat then 1
  else if (n <? 192)%nat then 0
  else if (n <? 240)%nat then 1
  else 2.

Fixpoint codeUnits (s : string) : nat :=
  match s with
  | EmptyString => 0
  | String c s' => unitsOfByte c + codeUnits s'
  end.

(** [s.startsWith(p)] *)
Fixpoint startsWith (p s : string) : bool :=
  match p with
  | EmptyString => true
  | String a p' =>
      match s with
      | EmptyString => false
      | String b s' => if Ascii.eqb a b then startsWith p' s' else false
      end
  end.

(** [s.includes(p)] *)
Fixpoint includes (p s : string) : bool :=
  if startsWith p s then true
  else match s with
       | EmptyString => false
       | String _ s' => includes p s'
       end.

Definition rev (s : string) : string :=
  string_of_list_ascii (List.rev (list_ascii_of_string s)).

(** [s.endsWith(p)] *)
Definition endsWith (p s : string) : bool := startsWith (rev p) (rev s).

(** [s.slice(n)] for [0 <= n] *)
Fixpoint slice (n : nat) (s : string) : string :=
  match n with
  | O => s
  | S k => match s with
           | EmptyString => EmptyString
           | String _ s' => slice k s'
           end
  end.

(** [s.slice(0, -1)] *)
Definition dropLast (s : string) : string :=
  string_of_list_ascii (removelast (list_ascii_of_string s)).

(** [s.split("\n")]: always at least one piece. *)
Fixpoint splitLines (s : string) : list string :=
  match s with
  | EmptyString => [EmptyString]
  | String c s' =>
      if Ascii.eqb c (chr 10) then EmptyString :: splitLines s'
      else match splitLines s' with
           | [] => [String c EmptyString]
           | l :: ls => String c l :: ls
           end
  end.

(** [s.toLowerCase()], on the ASCII letters; bytes of other characters are
    left as they are. *)
Definition lowerChar (c : ascii) : ascii :=
  let n := nat_of_ascii c in
  if (65 <=? n)%nat && (n <=? 90)%nat then chr (n + 32) else c.

Fixpoint toLowerCase (s : string) : string :=
  match s with
  | EmptyString => EmptyString
  | String c s' => String (lowerChar c) (toLowerCase s')
  end.

(** White space and line terminators of ECMAScript, as UTF-8 byte
    sequences: TAB LF VT FF CR SP, U+00A0, U+1680, U+2000..U+200A, U+2028,
    U+2029, U+202F, U+205F, U+3000, U+FEFF. *)
Definition whiteSpace : list string :=
  map utf8
    ([[9]; [10]; [11]; [12]; [13]; [32]; [194; 160]; [225; 154; 128]]
     ++ map (fun k => [226; 128; k]) (seq 128 11)
     ++ [[226; 128; 168]; [226; 128; 169]; [226; 128; 175]; [226; 129; 159];
         [227; 128; 128]; [239; 187; 191]]).

(** One leading white-space character removed, if there is one. *)
Definition stripWs (s : string) : option string :=
  match List.filter (fun w => startsWith w s) whiteSpace with
  | w :: _ => Some (slice (String.length w) s)
  | [] => None
  end.

Fixpoint stripWsN (n : nat) (s : string) : string :=
  match n with
  | O => s
  | S k => match stripWs s with
           | Some r => stripWsN k r
           | None => s
           end
  end.

Definition trimStart (s : string) : string := stripWsN (String.length s) s.

(** One trailing white-space character removed, on the reversed string. *)
Definition stripWsRev (r : string) : option string :=
  match List.filter (fun w => startsWith (rev w) r) whiteSpace with
  | w :: _ => Some (slice (String.length w) r)
  | [] => None
  end.

Fixpoint stripWsRevN (n : nat) (r : string) : string :=
  match n with
  | O => r
  | S k => match stripWsRev r with
           | Some r' => stripWsRevN k r'
           | None => r
           end
  end.

Definition trimEnd (s : string) : string :=
  rev (stripWsRevN (String.length s) (rev s)).

(** [s.trim()] *)
Definition trim (s : string) : string := trimEnd (trimStart s).

(** Replacement of every match of a pattern by the empty string, scanning
    left to right as [String.prototype.replace] does with a [g] regular
    expression: [matchLen s] is the length of the match that starts at the
    head of [s], if there is one.  [skip] counts the characters of the
    current match that are still to be dropped. *)
Fixpoint removeAll (matchLen : string -> option nat) (skip : nat) (s : string)
  : string :=
  match s with
  | EmptyString => EmptyString
  | String c s' =>
      match skip with
      | S k => removeAll matchLen k s'
      | O =>
          match matchLen s with
          | Some (S n) => removeAll matchLen n s'
          | _ => String c (removeAll matchLen 0 s')
          end
      end
  end.

(** Length of the longest prefix made of characters satisfying [p]. *)
Fixpoint spanLen (p : ascii -> bool) (s : string) : nat :=
  match s with
  | EmptyString => 0
  | String c s' => if p c then S (spanLen p s') else 0
  end.

(** *** [btoa] *)

(** The code points of a string all of whose characters are below U+0100,
    read off its UTF-8 bytes; [None] when it has any other character. *)
Fixpoint latin1 (s : string) : option (list N) :=
  match s with
  | EmptyString => Some []
  | String c r =>
      let n := N_of_ascii c in
      if (n <? 128)%N then option_map (cons n) (latin1 r)
      else if (n =? 194)%N || (n =? 195)%N then
        match r with
        | String d r' =>
            let k := N_of_ascii d in
            if (128 <=? k)%N && (k <=? 191)%N
            then option_map (cons (if (n =? 194)%N then k else k + 64)%N)
                            (latin1 r')
            else None
        | EmptyString => None
        end
      else None
  end.

Definition b64char (n : N) : ascii :=
  (if n <? 26 then ascii_of_N (65 + n)
   else if n <? 52 then ascii_of_N (71 + n)
   else if n <? 62 then ascii_of_N (n - 4)
   else if n =? 62 then ascii_of_N 43
   else ascii_of_N 47)%N.

Fixpoint base64 (l : list N) : string :=
  match l with
  | [] => EmptyString
  | [a] =>
      String (b64char (a / 4)) (String (b64char (a mod 4 * 16)) "==")
  | [a; b] =>
      String (b64char (a / 4))
        (String (b64char (a mod 4 * 16 + b / 16))
           (String (b64char (b mod 16 * 4)) "="))
  | a :: b :: c :: r =>
      String (b64char (a / 4))
        (String (b64char (a mod 4 * 16 + b / 16))
           (String (b64char (b mod 16 * 4 + c / 64))
              (String (b64char (c mod 64)) (base64 r))))
  end%N.

(** [btoa(s)]: [None] stands for the [InvalidCharacterError] thrown on a
    character above U+00FF. *)
Definition btoa (s : string) : option string :=
  option_map base64 (latin1 s).

(** *** The two patterns that strip a confirmation *)

Definition isChar (n : nat) (c : ascii) : bool := (nat_of_ascii c =? n)%nat.

Definition directiveOpen : string := nl ++ nl ++ "<confirmation".

(** [/\n\n<confirmation[^>]+\/>/] at the head of [s]: after the opening,
    the maximal run of characters other than [>] must be followed by [>],
    end with [/] and have at least one character before that [/]. *)
Definition matchDirective (s : string) : option nat :=
  if startsWith directiveOpen s then
    let r := slice (String.length directiveOpen) s in
    let k := spanLen (fun c => negb (isChar 62 c)) r in
    if (2 <=? k)%nat && startsWith ">" (slice k r)
       && startsWith "/" (slice (k - 1) r)
    then Some (String.length directiveOpen + k + 1)%nat
    else None
  else None.

(** [/W\n*/] at the head of [s], for a literal [W]. *)
Definition matchLiteralNl (W s : string) : option nat :=
  if startsWith W s
  then Some (String.length W + spanLen (isChar 10) (slice (String.length W) s))%nat
  else None.

(** [s.replace(/\n\n<confirmation[^>]+\/>/g, '')]: every match is removed. *)
Definition removeDirective (s : string) : string :=
  removeAll matchDirective 0 s.

(** [s.replace(/W\n*/g, '')]: every match is removed. *)
Definition removeWarning (W s : string) : string :=
  removeAll (matchLiteralNl W) 0 s.

End JsString.

(** ** Values produced by [JSON.parse] *)

Module Json.
Import JsString.

(** A number is kept as the exact decimal [m * 10 ^ e] of its literal, in
    normal form ([m] has no trailing zero, and zero is [0 * 10 ^ 0]); the
    rounding of literals of more than seventeen digits to IEEE doubles is
    not part of the model. *)
Inductive json : Type :=
| JNull
| JBool (b : bool)
| JNum (m e : Z)
| JStr (s : string)
| JArr (l : list json)
| JObj (l : list (string * json)).

(** A JavaScript value read out of a parsed object: [None] is [undefined]. *)
Definition value : Type := option json.

Fixpoint assoc (k : string) (l : list (string * json)) : value :=
  match l with
  | [] => None
  | (k', v) :: r => if String.eqb k k' then Some v else assoc k r
  end.

(** [v.k] for a value [v] that is neither [null] nor [undefined]; the keys
    read by the client are fixed names, of which only [length] exists on
    strings and arrays. *)
Definition prop (v : json) (k : string) : value :=
  match v with
  | JObj l => assoc k l
  | JStr s => if String.eqb k "length"
              then Some (JNum (Z.of_nat (codeUnits s)) 0) else None
  | JArr l => if String.eqb k "length"
              then Some (JNum (Z.of_nat (List.length l)) 0) else None
  | _ => None
  end.

(** [v.k] where [v] may be [null] or [undefined]: a [TypeError] then. *)
Definition propOf (v : value) (k : string) : option value :=
  match v with
  | None | Some JNull => None
  | Some o => Some (prop o k)
  end.

(** ToBoolean *)
Definition truthy (v : value) : bool :=
  match v with
  | None | Some JNull => false
  | Some (JBool b) => b
  | Some (JNum m _) => negb (m =? 0)%Z
  | Some (JStr s) => negb (String.eqb s EmptyString)
  | Some (JArr _) | Some (JObj _) => true
  end.

Definition digits (n : Z) : string :=
  NilZero.string_of_uint (N.to_uint (Z.abs_N n)).

Fixpoint zeros (n : nat) : string :=
  match n with O => EmptyString | S k => String "0" (zeros k) end.

(** Number::toString, on the decimal digits of the number. *)
Definition numToString (m e : Z) : string :=
  if (m =? 0)%Z then "0"
  else
    let ds := digits m in
    let k := Z.of_nat (String.length ds) in
    let n := (k + e)%Z in
    (if (m <? 0)%Z then "-" else EmptyString) ++
    (if (k <=? n)%Z && (n <=? 21)%Z then ds ++ zeros (Z.to_nat (n - k))
     else if (0 <? n)%Z && (n <=? 21)%Z then
       substring 0 (Z.to_nat n) ds ++ "." ++ slice (Z.to_nat n) ds
     else if (-6 <? n)%Z && (n <=? 0)%Z then
       "0." ++ zeros (Z.to_nat (- n)) ++ ds
     else
       let x := (n - 1)%Z in
       let xs := (if (x <? 0)%Z then "-" else "+") ++ digits x in
       if (k =? 1)%Z then ds ++ "e" ++ xs
       else substring 0 1 ds ++ "." ++ slice 1 ds ++ "e" ++ xs).

(** ToString, as a template literal or a string concatenation applies it.
    Array elements that are [null] print as the empty string. *)
Fixpoint jsonToString (v : json) : string :=
  match v with
  | JNull => "null"
  | JBool true => "true"
  | JBool false => "false"
  | JNum m e => numToString m e
  | JStr s => s
  | JArr l =>
      let elt x := match x with JNull => EmptyString | _ => jsonToString x end in
      match l with
      | [] => EmptyString
      | x :: r =>
          elt x ++
          (fix rest (r : list json) : string :=
             match r with
             | [] => EmptyString
             | y :: t =>
                 "," ++ match y with JNull => EmptyString | _ => jsonToString y end
                 ++ rest t
             end) r
      end
  | JObj _ => "[object Object]"
  end.

Definition toStr (v : value) : string :=
  match v with
  | None => "undefined"
  | Some j => jsonToString j
  end.

(** [v === "lit"] *)
Definition isStr (lit : string) (v : value) : bool :=
  match v with
  | Some (JStr s) => String.eqb s lit
  | _ => false
  end.

(** [v !== 1] *)
Definition isNotOne (v : value) : bool :=
  match v with
  | Some (JNum 1 0) => false
  | _ => true
  end.

(** [typeof v === 'boolean'] and [typeof v === 'number'] *)
Definition isBoolean (v : value) : bool :=
  match v with Some (JBool _) => true | _ => false end.
Definition isNumber (v : value) : bool :=
  match v with Some (JNum _ _) => true | _ => false end.

Definition isNull (v : json) : bool :=
  match v with JNull => true | _ => false end.

(** [a || b] *)
Definition orElse (a b : value) : value := if truthy a then a else b.

(** [v.length > 0] for a truthy [v] *)
Definition lengthPositive (v : json) : bool :=
  match prop v "length" with
  | Some (JNum m _) => (0 <? m)%Z
  | _ => false
  end.

(** *** [JSON.stringify(v, null, 2)] *)

Definition hexDigit (n : nat) : ascii :=
  if (n <? 10)%nat then chr (48 + n) else chr (87 + n).

Definition quoteChar (c : ascii) : string :=
  let n := nat_of_ascii c in
  if (n =? 34)%nat then utf8 [92; 34]
  else if (n =? 92)%nat then utf8 [92; 92]
  else if (n =? 8)%nat then utf8 [92; 98]
  else if (n =? 12)%nat then utf8 [92; 102]
  else if (n =? 10)%nat then utf8 [92; 110]
  else if (n =? 13)%nat then utf8 [92; 114]
  else if (n =? 9)%nat then utf8 [92; 116]
  else if (n <? 32)%nat then
    utf8 [92; 117; 48; 48] ++
    String (hexDigit (n / 16)) (String (hexDigit (n mod 16)) EmptyString)
  else String c EmptyString.

Fixpoint quoteBody (s : string) : string :=
  match s with
  | EmptyString => EmptyString
  | String c s' => quoteChar c ++ quoteBody s'
  end.

Definition quote (s : string) : string := dq ++ quoteBody s ++ dq.

Fixpoint stringify (ind : string) (v : json) : string :=
  match v with
  | JNull => "null"
  | JBool true => "true"
  | JBool false => "false"
  | JNum m e => numToString m e
  | JStr s => quote s
  | JArr l =>
      let ind' := ind ++ "  " in
      match l with
      | [] => "[]"
      | x :: r =>
          "[" ++ nl ++ ind' ++ stringify ind' x ++
          (fix rest (r : list json) : string :=
             match r with
             | [] => EmptyString
             | y :: t => "," ++ nl ++ ind' ++ stringify ind' y ++ rest t
             end) r
          ++ nl ++ ind ++ "]"
      end
  | JObj l =>
      let ind' := ind ++ "  " in
      match l with
      | [] => "{}"
      | (k, x) :: r =>
          "{" ++ nl ++ ind' ++ quote k ++ ": " ++ stringify ind' x ++
          (fix rest (r : list (string * json)) : string :=
             match r with
             | [] => EmptyString
             | (k', y) :: t =>
                 "," ++ nl ++ ind' ++ quote k' ++ ": " ++ stringify ind' y
                 ++ rest t
             end) r
          ++ nl ++ ind ++ "}"
      end
  end.

(** [`${JSON.stringify(v, null, 2)}`]: [JSON.stringify(undefined)] is
    [undefined]. *)
Definition stringify2 (v : value) : string :=
  match v with
  | None => "undefined"
  | Some j => stringify EmptyString j
  end.

End Json.

(** ** [JSON.parse] *)

Module JsonParser.
Import JsString Json.

Definition isWs (c : ascii) : bool :=
  let n := nat_of_ascii c in
  (n =? 32)%nat || (n =? 9)%nat || (n =? 10)%nat || (n =? 13)%nat.

Definition isDigit (c : ascii) : bool :=
  let n := nat_of_ascii c in (48 <=? n)%nat && (n <=? 57)%nat.

Fixpoint skipWs (s : string) : string :=
  match s with
  | String c r => if isWs c then skipWs r else s
  | EmptyString => s
  end.

Fixpoint digitsVal (acc : Z) (s : string) : Z :=
  match s with
  | EmptyString => acc
  | String c r => digitsVal (10 * acc + Z.of_nat (nat_of_ascii c - 48)) r
  end.

(** Trailing zeros of the mantissa move into the exponent. *)
Fixpoint normalise (fuel : nat) (m e : Z) : Z * Z :=
  match fuel with
  | O => (m, e)
  | S f =>
      if (m =? 0)%Z then (0, 0)%Z
      else if (m mod 10 =? 0)%Z then normalise f (m / 10)%Z (e + 1)%Z
      else (m, e)
  end.

(** The number grammar of JSON: an optional minus sign; an integer part
    that is a single zero or starts with a non-zero digit; an optional
    fraction (a dot and at least one digit); an optional exponent ([e] or
    [E], an optional sign, at least one digit). *)
Definition parseNumber (s : string) : option (json * string) :=
  let '(neg, s1) :=
    match s with
    | String c r => if isChar 45 c then (true, r) else (false, s)
    | EmptyString => (false, s)
    end in
  let ni := if startsWith "0" s1 then 1%nat else spanLen isDigit s1 in
  if (ni =? 0)%nat then None
  else
    let ip := substring 0 ni s1 in
    let s2 := slice ni s1 in
    let fracOpt :=
      match s2 with
      | String c r =>
          if isChar 46 c then
            let nf := spanLen isDigit r in
            if (nf =? 0)%nat then None
            else Some (substring 0 nf r, slice nf r)
          else Some (EmptyString, s2)
      | EmptyString => Some (EmptyString, s2)
      end in
    match fracOpt with
    | None => None
    | Some (fp, s3) =>
        let expOpt :=
          match s3 with
          | String c r =>
              if isChar 101 c || isChar 69 c then
                let '(eneg, r1) :=
                  match r with
                  | String d r' =>
                      if isChar 45 d then (true, r')
                      else if isChar 43 d then (false, r')
                      else (false, r)
                  | EmptyString => (false, r)
                  end in
                let ne := spanLen isDigit r1 in
                if (ne =? 0)%nat then None
                else
                  let x := digitsVal 0 (substring 0 ne r1) in
                  Some ((if eneg then - x else x)%Z, slice ne r1)
              else Some (0%Z, s3)
          | EmptyString => Some (0%Z, s3)
          end in
        match expOpt with
        | None => None
        | Some (x, s4) =>
            let mag := digitsVal 0 (ip ++ fp) in
            let m := (if neg then - mag else mag)%Z in
            let '(m', e') :=
              normalise (S (String.length (ip ++ fp))) m
                        (x - Z.of_nat (String.length fp))%Z in
            Some (JNum m' e', s4)
        end
    end.

(** A string literal is read as raw bytes and [\uXXXX] code units; a
    surrogate pair of code units is one code point. *)
Inductive strItem : Type :=
| Byte (c : ascii)
| Unit16 (n : N).

Definition hexVal (c : ascii) : option N :=
  let n := N_of_ascii c in
  if (48 <=? n)%N && (n <=? 57)%N then Some (n - 48)%N
  else if (97 <=? n)%N && (n <=? 102)%N then Some (n - 87)%N
  else if (65 <=? n)%N && (n <=? 70)%N then Some (n - 55)%N
  else None.

Definition hex4 (a b c d : ascii) : option N :=
  match hexVal a, hexVal b, hexVal c, hexVal d with
  | Some x, Some y, Some z, Some w =>
      Some (x * 4096 + y * 256 + z * 16 + w)%N
  | _, _, _, _ => None
  end.

Fixpoint parseStrItems (s : string) (acc : list strItem)
  : option (list strItem * string) :=
  match s with
  | EmptyString => None
  | String c r =>
      let n := nat_of_ascii c in
      if (n =? 34)%nat then Some (List.rev acc, r)
      else if (n <? 32)%nat then None
      else if (n =? 92)%nat then
        match r with
        | String x r' =>
            let k := nat_of_ascii x in
            if (k =? 34)%nat || (k =? 92)%nat || (k =? 47)%nat
            then parseStrItems r' (Byte x :: acc)
            else if (k =? 98)%nat then parseStrItems r' (Byte (chr 8) :: acc)
            else if (k =? 102)%nat then parseStrItems r' (Byte (chr 12) :: acc)
            else if (k =? 110)%nat then parseStrItems r' (Byte (chr 10) :: acc)
            else if (k =? 114)%nat then parseStrItems r' (Byte (chr 13) :: acc)
            else if (k =? 116)%nat then parseStrItems r' (Byte (chr 9) :: acc)
            else if (k =? 117)%nat then
              match r' with
              | String h1 (String h2 (String h3 (String h4 r''))) =>
                  match hex4 h1 h2 h3 h4 with
                  | Some v => parseStrItems r'' (Unit16 v :: acc)
                  | None => None
                  end
              | _ => None
              end
            else None
        | EmptyString => None
        end
      else parseStrItems r (Byte c :: acc)
  end.

Definition utf8N (l : list N) : string := utf8 (map N.to_nat l).

Definition utf8Encode (cp : N) : string :=
  (if cp <? 128 then utf8N [cp]
   else if cp <? 2048 then utf8N [192 + cp / 64; 128 + cp mod 64]
   else if cp <? 65536 then
     utf8N [224 + cp / 4096; 128 + (cp / 64) mod 64; 128 + cp mod 64]
   else
     utf8N [240 + cp / 262144; 128 + (cp / 4096) mod 64;
            128 + (cp / 64) mod 64; 128 + cp mod 64])%N.

Definition isHigh (n : N) : bool := (55296 <=? n)%N && (n <=? 56319)%N.
Definition isLow (n : N) : bool := (56320 <=? n)%N && (n <=? 57343)%N.

Fixpoint encodeItems (l : list strItem) : string :=
  match l with
  | [] => EmptyString
  | Byte c :: r => String c (encodeItems r)
  | Unit16 hi :: r =>
      match r with
      | Unit16 lo :: r' =>
          if isHigh hi && isLow lo
          then utf8Encode (65536 + (hi - 55296) * 1024 + (lo - 56320))%N
               ++ encodeItems r'
          else utf8Encode hi ++ encodeItems r
      | _ => utf8Encode hi ++ encodeItems r
      end
  end.

Definition parseString (s : string) : option (string * string) :=
  match parseStrItems s [] with
  | Some (items, r) => Some (encodeItems items, r)
  | None => None
  end.

(** A repeated key keeps its first position and takes the last value. *)
Fixpoint setKey (k : string) (v : json) (l : list (string * json))
  : list (string * json) :=
  match l with
  | [] => [(k, v)]
  | (k', v') :: r =>
      if String.eqb k k' then (k', v) :: r else (k', v') :: setKey k v r
  end.

(** Recursive descent; every call is made after at least one character of
    the input was consumed, and the fuel given at the top is twice the
    length of the text. *)
Fixpoint parseValue (fuel : nat) (s : string) : option (json * string) :=
  match fuel with
  | O => None
  | S f =>
      match skipWs s with
      | EmptyString => None
      | String c r as s0 =>
          if isChar 123 c then
            match skipWs r with
            | String c1 r1 as s1 =>
                if isChar 125 c1 then Some (JObj [], r1)
                else parseMembers f s1 []
            | EmptyString => None
            end
          else if isChar 91 c then
            match skipWs r with
            | String c1 r1 as s1 =>
                if isChar 93 c1 then Some (JArr [], r1)
                else parseElems f s1 []
            | EmptyString => None
            end
          else if isChar 34 c then
            match parseString r with
            | Some (str, r1) => Some (JStr str, r1)
            | None => None
            end
          else if startsWith "null" s0 then Some (JNull, slice 4 s0)
          else if startsWith "true" s0 then Some (JBool true, slice 4 s0)
          else if startsWith "false" s0 then Some (JBool false, slice 5 s0)
          else parseNumber s0
      end
  end
with parseElems (fuel : nat) (s : string) (acc : list json)
  : option (json * string) :=
  match fuel with
  | O => None
  | S f =>
      match parseValue f s with
      | None => None
      | Some (v, r) =>
          match skipWs r with
          | String c r1 =>
              if isChar 44 c then parseElems f r1 (v :: acc)
              else if isChar 93 c then Some (JArr (List.rev (v :: acc)), r1)
              else None
          | EmptyString => None
          end
      end
  end
with parseMembers (fuel : nat) (s : string) (acc : list (string * json))
  : option (json * string) :=
  match fuel with
  | O => None
  | S f =>
      match skipWs s with
      | String q r =>
          if isChar 34 q then
            match parseString r with
            | None => None
            | Some (k, r1) =>
                match skipWs r1 with
                | String c r2 =>
                    if isChar 58 c then
                      match parseValue f r2 with
                      | None => None
                      | Some (v, r3) =>
                          match skipWs r3 with
                          | String d r4 =>
                              if isChar 44 d
                              then parseMembers f r4 (setKey k v acc)
                              else if isChar 125 d
                              then Some (JObj (setKey k v acc), r4)
                              else None
                          | EmptyString => None
                          end
                      end
                    else None
                | EmptyString => None
                end
            end
          else None
      | EmptyString => None
      end
  end.

(** [JSON.parse(text)]: [None] stands for the [SyntaxError] it throws. *)
Definition parse (text : string) : option json :=
  match parseValue (2 * String.length text + 2) text with
  | Some (v, r) =>
      match skipWs r with
      | EmptyString => Some v
      | String _ _ => None
      end
  | None => None
  end.

End JsonParser.

(** ** [lib/api.ts]: the read loops *)

Module Api.
Import JsString Json.

Inductive Error : Type :=
| SyntaxError            (* JSON.parse on a malformed text *)
| TypeError              (* property read on null or undefined *)
| InvalidCharacterError. (* btoa on a character above U+00FF *)

Inductive completion : Type :=
| Normal
| Throw (e : Error).

Section ReadLoop.
Context {S : Type}.

(** The callback, which may change the caller's state and may throw. *)
Variable onChunk : json -> S -> S * completion.

(** [for (const line of lines) if (line.startsWith("data: "))
    onChunk(JSON.parse(line.slice(6)))] *)
Fixpoint forLines (lines : list string) (s : S) : S * completion :=
  match lines with
  | [] => (s, Normal)
  | line :: rest =>
      if startsWith "data: " line then
        match JsonParser.parse (slice 6 line) with
        | None => (s, Throw SyntaxError)
        | Some data =>
            match onChunk data s with
            | (s', Normal) => forLines rest s'
            | (s', Throw e) => (s', Throw e)
            end
        end
      else forLines rest s
  end.

(** [signal?: AbortSignal]: the flag of a signal is read from the state the
    controller lives in; [None] when the caller passes no signal. *)
Variable signal : option (S -> bool).

(** [signal?.aborted] *)
Definition signalAbortedIn (s : S) : bool :=
  match signal with
  | Some flag => flag s
  | None => false
  end.

(** The loop of [sendAskQueryStream] over the chunks the reader delivers
    (already decoded to text); the end of the list is [done].  The flag is
    tested before each read; an exception is swallowed when the signal is
    aborted and rethrown otherwise.  The signal is given to [fetch] as well:
    a read that is pending when the signal is aborted is rejected, and the
    [catch] returns. *)
Fixpoint sendAskQueryStream (chunks : list string) (s : S) : S * completion :=
  match chunks with
  | [] => (s, Normal)
  | chunk :: rest =>
      if signalAbortedIn s then (s, Normal)
      else
        match forLines (splitLines chunk) s with
        | (s', Normal) => sendAskQueryStream rest s'
        | (s', Throw e) =>
            if signalAbortedIn s' then (s', Normal) else (s', Throw e)
        end
  end.

(** [sendAgentQueryStream] has the same loop; the two functions differ in
    the endpoint they post to. *)
Definition sendAgentQueryStream : list string -> S -> S * completion :=
  sendAskQueryStream.

(** The loop of [confirmAgentOperationStream]: no test before a read. *)
Fixpoint confirmAgentOperationStream (chunks : list string) (s : S)
  : S * completion :=
  match chunks with
  | [] => (s, Normal)
  | chunk :: rest =>
      match forLines (splitLines chunk) s with
      | (s', Normal) => confirmAgentOperationStream rest s'
      | (s', Throw e) =>
          if signalAbortedIn s' then (s', Normal) else (s', Throw e)
      end
  end.
End ReadLoop.

(** The events a chunk hands to the callback, with the way the line loop
    ends: the loops with a callback that records its argument. *)
Definition record (data : json) (log : list json) : list json * completion :=
  ((log ++ [data])%list, Normal).

Definition decodeChunk (chunk : string) : list json * completion :=
  forLines record (splitLines chunk) [].

Definition decodeStream (chunks : list string) : list json * completion :=
  sendAskQueryStream record None chunks [].

(** A piece of text closed by a newline. *)
Definition terminated (p : string) : string := p ++ nl.

(** The text a list of chunks adds up to. *)
Definition joinChunks (chunks : list string) : string :=
  fold_right String.append EmptyString chunks.

(** The texts after the prefix of the [data: ] lines of a chunk. *)
Definition dataTexts (chunk : string) : list string :=
  map (slice 6)
      (List.filter (fun line => startsWith "data: " line) (splitLines chunk)).

(** The values at the head of a list, up to the first [None]. *)
Fixpoint somePrefix {A : Type} (l : list (option A)) : list A :=
  match l with
  | Some x :: r => x :: somePrefix r
  | _ => []
  end.

Definition allSome {A : Type} (l : list (option A)) : bool :=
  forallb (fun o => match o with Some _ => true | None => false end) l.

End Api.

(** ** [hooks/use-message-handler.ts] *)

Module Hook.
Import JsString Json Api.

Inductive Role : Type := user | assistant.

Record Attachment : Type := {
  url : string;
  filename : string;
  file_type : string;
  size : Z
}.

Record Message : Type := {
  id : string;
  role : Role;
  content : string;
  timestamp : string;
  model : option string;
  attachments : option (list Attachment)
}.

Record PendingOperation : Type := {
  operation : string;
  sql : string;
  explanation : string;
  pending_model : string
}.

(** The state of the hook.  [store] holds the message objects and
    [messages] the references the React array is made of; an updater copies
    the array ([[...prev]]) and writes to the object its last reference
    points to.  [abortControllerRef] tells whether the ref holds a
    controller, [signalAborted] is the flag of the signal that was handed
    to the stream in flight. *)
Record State : Type := {
  store : list Message;
  messages : list nat;
  conversationId : value;
  isLoading : bool;
  isLoadingChat : bool;
  currentStatus : string;
  pendingOperation : option PendingOperation;
  abortControllerRef : bool;
  signalAborted : bool
}.

Definition setStore (v : list Message) (st : State) : State :=
  {| store := v; messages := messages st;
     conversationId := conversationId st; isLoading := isLoading st;
     isLoadingChat := isLoadingChat st; currentStatus := currentStatus st;
     pendingOperation := pendingOperation st;
     abortControllerRef := abortControllerRef st;
     signalAborted := signalAborted st |}.

Definition setMessageRefs (v : list nat) (st : State) : State :=
  {| store := store st; messages := v;
     conversationId := conversationId st; isLoading := isLoading st;
     isLoadingChat := isLoadingChat st; currentStatus := currentStatus st;
     pendingOperation := pendingOperation st;
     abortControllerRef := abortControllerRef st;
     signalAborted := signalAborted st |}.

Definition setConversationId (v : value) (st : State) : State :=
  {| store := store st; messages := messages st;
     conversationId := v; isLoading := isLoading st;
     isLoadingChat := isLoadingChat st; currentStatus := currentStatus st;
     pendingOperation := pendingOperation st;
     abortControllerRef := abortControllerRef st;
     signalAborted := signalAborted st |}.

Definition setIsLoading (v : bool) (st : State) : State :=
  {| store := store st; messages := messages st;
     conversationId := conversationId st; isLoading := v;
     isLoadingChat := isLoadingChat st; currentStatus := currentStatus st;
     pendingOperation := pendingOperation st;
     abortControllerRef := abortControllerRef st;
     signalAborted := signalAborted st |}.

Definition setIsLoadingChat (v : bool) (st : State) : State :=
  {| store := store st; messages := messages st;
     conversationId := conversationId st; isLoading := isLoading st;
     isLoadingChat := v; currentStatus := currentStatus st;
     pendingOperation := pendingOperation st;
     abortControllerRef := abortControllerRef st;
     signalAborted := signalAborted st |}.

Definition setCurrentStatus (v : string) (st : State) : State :=
  {| store := store st; messages := messages st;
     conversationId := conversationId st; isLoading := isLoading st;
     isLoadingChat := isLoadingChat st; currentStatus := v;
     pendingOperation := pendingOperation st;
     abortControllerRef := abortControllerRef st;
     signalAborted := signalAborted st |}.

Definition setPendingOperation (v : option PendingOperation) (st : State)
  : State :=
  {| store := store st; messages := messages st;
     conversationId := conversationId st; isLoading := isLoading st;
     isLoadingChat := isLoadingChat st; currentStatus := currentStatus st;
     pendingOperation := v;
     abortControllerRef := abortControllerRef st;
     signalAborted := signalAborted st |}.

Definition setAbort (ref flag : bool) (st : State) : State :=
  {| store := store st; messages := messages st;
     conversationId := conversationId st; isLoading := isLoading st;
     isLoadingChat := isLoadingChat st; currentStatus := currentStatus st;
     pendingOperation := pendingOperation st;
     abortControllerRef := ref;
     signalAborted := flag |}.

(** *** The [messages] array *)

Definition withContent (c : string) (m : Message) : Message :=
  {| id := id m; role := role m; content := c; timestamp := timestamp m;
     model := model m; attachments := attachments m |}.

(** [updated[updated.length - 1]]: the address and the object, or
    [undefined] on the empty array. *)
Definition lastMsg (st : State) : option (nat * Message) :=
  match last (messages st) with
  | Some a =>
      match store st !! a with
      | Some m => Some (a, m)
      | None => None
      end
  | None => None
  end.

(** [obj.content = c] on the object at address [a] *)
Definition writeContent (a : nat) (c : string) (st : State) : State :=
  match store st !! a with
  | Some m => setStore (<[a := withContent c m]> (store st)) st
  | None => st
  end.

(** [setMessages((prev) => [...prev, m])] with a new object [m] *)
Definition pushMessage (m : Message) (st : State) : State :=
  setMessageRefs (messages st ++ [length (store st)])%list
                 (setStore (store st ++ [m])%list st).

(** What the array shows: the objects of its references, in order. *)
Definition transcript (st : State) : list Message :=
  omap (fun a => store st !! a) (messages st).

(** The content of the last message, or the empty string without one. *)
Definition lastContent (st : State) : string :=
  match lastMsg st with
  | Some (_, m) => content m
  | None => EmptyString
  end.

(** *** Literals of the file, byte for byte *)

Definition glyphBulb : string := utf8 [239; 163; 191; 195; 188; 195; 173; 194; 176].
Definition glyphThought : string :=
  utf8 [239; 163; 191; 195; 188; 195; 173; 226; 137; 160].
Definition glyphClipboard : string :=
  utf8 [239; 163; 191; 195; 188; 195; 172; 195; 163].
Definition glyphBrain : string :=
  utf8 [239; 163; 191; 195; 188; 195; 159; 226; 128; 160].
Definition glyphChart : string :=
  utf8 [239; 163; 191; 195; 188; 195; 172; 195; 164].
Definition glyphCheck : string := utf8 [226; 128; 154; 195; 186; 195; 150].
Definition glyphWarning : string :=
  utf8 [226; 128; 154; 195; 182; 226; 128; 160; 195; 148; 226; 136; 143;
        195; 168].

Definition warningText : string :=
  "**" ++ glyphWarning ++ " This operation will modify your data. Please confirm:**".

Definition fence : string := "```".

(** *** The closure of one [handleSendMessage] call *)

Record Closure : Type := {
  aiResponse : string;
  accumulatedContent : string;
  finalAnswer : string
}.

Definition initialClosure : Closure :=
  {| aiResponse := EmptyString; accumulatedContent := EmptyString;
     finalAnswer := EmptyString |}.

Definition setAiResponse (v : string) (c : Closure) : Closure :=
  {| aiResponse := v; accumulatedContent := accumulatedContent c;
     finalAnswer := finalAnswer c |}.

Definition appendAccumulated (v : string) (c : Closure) : Closure :=
  {| aiResponse := aiResponse c;
     accumulatedContent := accumulatedContent c ++ v;
     finalAnswer := finalAnswer c |}.

Definition setFinalAnswer (v : string) (c : Closure) : Closure :=
  {| aiResponse := aiResponse c; accumulatedContent := accumulatedContent c;
     finalAnswer := v |}.

(** The constants of the closure: the id given to the streamed message,
    the arguments [model] and [selectedTables], the [conversationId] the
    callback was created with, and the clock reading formatted for a
    message that the callback creates. *)
Record Env : Type := {
  streamingMessageId : string;
  send_model : string;
  selectedTables : option (list string);
  closureConversationId : value;
  now : string
}.

Definition nonEmpty (s : string) : bool := negb (String.eqb s EmptyString).

(** [selectedTables?.some((t) => t.toLowerCase() === "general")] *)
Definition isGeneralMode (env : Env) : bool :=
  match selectedTables env with
  | Some l => existsb (fun t => String.eqb (toLowerCase t) "general") l
  | None => false
  end.

(** [buildContent] of the ask branch *)
Definition buildContentAsk (env : Env) (c : Closure) : string :=
  let content := accumulatedContent c in
  if nonEmpty (finalAnswer c) then
    let hasSqlExecution :=
      includes "**Executed SQL Query:**" (accumulatedContent c) in
    let hasAtSymbol := includes "@" content in
    if isGeneralMode env || negb hasSqlExecution || negb hasAtSymbol then
      if nonEmpty (trim content)
      then content ++ nl ++ nl ++ finalAnswer c
      else finalAnswer c
    else
      content ++ nl ++ nl ++ "---" ++ nl ++ nl ++ "**" ++ glyphBulb
      ++ " Conclusion:**" ++ nl ++ finalAnswer c
  else content.

(** [buildContent] of the agent branch *)
Definition buildContentAgent (env : Env) (c : Closure) : string :=
  let content := accumulatedContent c in
  if nonEmpty (finalAnswer c) then
    let hasAtSymbol := includes "@" content in
    if isGeneralMode env || negb hasAtSymbol then
      if nonEmpty (trim content)
      then content ++ nl ++ nl ++ finalAnswer c
      else finalAnswer c
    else
      content ++ nl ++ nl ++ "---" ++ nl ++ nl ++ "**" ++ glyphBulb
      ++ " Summary:**" ++ nl ++ finalAnswer c
  else content.

Definition streamingMessage (env : Env) (c : string) : Message :=
  {| id := streamingMessageId env; role := assistant; content := c;
     timestamp := now env; model := Some (send_model env);
     attachments := None |}.

(** [setMessages] with the updater that writes [c] to the last message
    when [lastMsg && lastMsg.id === streamingMessageId]. *)
Definition updateStreaming (env : Env) (c : string) (st : State) : State :=
  match lastMsg st with
  | Some (a, m) =>
      if String.eqb (id m) (streamingMessageId env)
      then writeContent a c st
      else st
  | None => st
  end.

(** The same, with the [else] branch that pushes a new message of content
    [c']. *)
Definition updateOrPush (env : Env) (c c' : string) (st : State) : State :=
  match lastMsg st with
  | Some (a, m) =>
      if String.eqb (id m) (streamingMessageId env)
      then writeContent a c st
      else pushMessage (streamingMessage env c') st
  | None => pushMessage (streamingMessage env c') st
  end.

(** [setMessages] with the updater of [cancelled]: on a last message of
    role assistant, both patterns are removed and the result trimmed. *)
Definition stripConfirmation (W : string) (st : State) : State :=
  match lastMsg st with
  | Some (a, m) =>
      match role m with
      | assistant =>
          writeContent a (trim (removeWarning W (removeDirective (content m)))) st
      | user => st
      end
  | None => st
  end.

(** Fragments appended to [accumulatedContent] *)

Definition sqlQueryBlock (title : string) (v : value) : string :=
  nl ++ nl ++ title ++ nl ++ fence ++ "sql" ++ nl ++ toStr v ++ nl ++ fence ++ nl.

Definition stepBlock (v : value) : string :=
  nl ++ nl ++ "---" ++ nl ++ nl ++ "### " ++ toStr v ++ nl.

Definition reasoningBlock (v : value) : string :=
  nl ++ nl ++ "---" ++ nl ++ nl ++ glyphThought ++ " **Next Step:** "
  ++ toStr v ++ nl ++ nl.

Definition rowsBlock (result : json) : string :=
  (nl ++ "**" ++ glyphClipboard ++ " Query Result:** ("
   ++ toStr (prop result "row_count") ++ " row"
   ++ (if isNotOne (prop result "row_count") then "s" else EmptyString)
   ++ " returned)" ++ nl ++ nl)
  ++ ("<details open>" ++ nl ++ "<summary>Results</summary>" ++ nl ++ nl
      ++ fence ++ "json" ++ nl ++ stringify2 (prop result "data") ++ nl
      ++ fence ++ nl ++ "</details>" ++ nl).

Definition mutationLine (result : json) : string :=
  nl ++ "**" ++ glyphCheck ++ " Result:** "
  ++ toStr (orElse (prop result "message")
              (Some (JStr (toStr (prop result "row_count") ++ " row(s) affected")))).

Definition chartBlock (v : value) : string :=
  nl ++ nl ++ "**" ++ glyphChart ++ " Visualization:**" ++ nl ++ fence
  ++ "chart" ++ nl ++ stringify2 v ++ nl ++ fence ++ nl.

(** [if (!conversationId) setConversationId(data.conversation_id)] *)
Definition adoptConversationId (env : Env) (data : json) (st : State) : State :=
  if truthy (closureConversationId env) then st
  else setConversationId (prop data "conversation_id") st.

(** *** The callbacks given to the stream functions *)

Definition Session : Type := (Closure * State)%type.

(** The callback of the ask branch.  Reading [data.type] on [null] throws;
    on any other value that is not an object it is [undefined] and no
    branch is taken.  The buffers are declared as strings and a payload
    that goes into one is taken as the string it converts to. *)
Definition askOnChunk (env : Env) (data : json) (cs : Session)
  : Session * completion :=
  let '(c, st) := cs in
  if isNull data then (cs, Throw TypeError)
  else
      let type := prop data "type" in
      let payload := prop data "content" in
      if isStr "ai_response" type then
        let c1 := setAiResponse (toStr payload) c in
        ((c1, pushMessage (streamingMessage env (buildContentAsk env c1)) st),
         Normal)
      else if isStr "sql_query" type then
        let c1 :=
          appendAccumulated (sqlQueryBlock "**Executed SQL Query:**" payload) c in
        ((c1, updateStreaming env (buildContentAsk env c1) st), Normal)
      else if isStr "step_indicator" type then
        let c1 := appendAccumulated (stepBlock payload) c in
        ((c1, updateStreaming env (buildContentAsk env c1) st), Normal)
      else if isStr "brief_reasoning" type then
        let c1 := appendAccumulated (reasoningBlock payload) c in
        ((c1, updateStreaming env (buildContentAsk env c1) st), Normal)
      else if isStr "loading" type then
        ((c, setCurrentStatus
               (toStr (orElse payload (Some (JStr "Processing...")))) st),
         Normal)
      else if isStr "sql_result" type then
        let c1 :=
          match payload with
          | Some result =>
              if truthy payload && truthy (prop result "success")
              then appendAccumulated (rowsBlock result) c
              else c
          | None => c
          end in
        ((c1, updateStreaming env (buildContentAsk env c1) st), Normal)
      else if isStr "analyzing" type then
        ((c, updateStreaming env
               (buildContentAsk env c ++ nl ++ nl ++ "> " ++ glyphBrain ++ " "
                ++ toStr payload) st), Normal)
      else if isStr "final_answer_chunk" type then
        let c1 := setFinalAnswer (finalAnswer c ++ toStr payload) c in
        ((c1, updateStreaming env (buildContentAsk env c1)
                (setCurrentStatus "AI is generating conclusion..." st)),
         Normal)
      else if isStr "final_answer_complete" type then
        let c1 := setFinalAnswer (toStr payload) c in
        ((c1, updateStreaming env (buildContentAsk env c1) st), Normal)
      else if isStr "final_answer" type then
        let c1 := setFinalAnswer (toStr payload) c in
        ((c1, updateOrPush env (buildContentAsk env c1)
                (buildContentAsk env c1) st), Normal)
      else if isStr "checking_graph" type then
        ((c, updateStreaming env
               (buildContentAsk env c ++ nl ++ nl ++ "> " ++ glyphChart ++ " "
                ++ toStr payload) st), Normal)
      else if isStr "chart_config" type then
        let c1 := appendAccumulated (chartBlock payload) c in
        ((c1, updateStreaming env (buildContentAsk env c1)
                (setCurrentStatus "AI is generating visualization..." st)),
         Normal)
      else if isStr "graph_decision" type then
        ((c, updateStreaming env (buildContentAsk env c) st), Normal)
      else if isStr "done" type then
        ((c, adoptConversationId env data (setCurrentStatus EmptyString st)),
         Normal)
      else (cs, Normal).

(** The text shown with the Execute and Cancel buttons; [None] when one of
    the two [btoa] calls throws. *)
Definition confirmationContent (env : Env) (op sqlv msg : value)
  : option string :=
  match btoa (toStr sqlv), btoa (toStr msg) with
  | Some sql64, Some msg64 =>
      Some (toStr msg ++ nl ++ nl ++ "**SQL to Execute:**" ++ nl ++ fence
            ++ "sql" ++ nl ++ toStr sqlv ++ nl ++ fence ++ nl ++ nl
            ++ warningText ++ nl ++ nl ++ "<confirmation operation=" ++ dq
            ++ toStr op ++ dq ++ " sql=" ++ dq ++ sql64 ++ dq ++ " message="
            ++ dq ++ msg64 ++ dq ++ " model=" ++ dq ++ send_model env ++ dq
            ++ " />")
  | _, _ => None
  end.

(** The callback of the agent branch. *)
Definition agentOnChunk (env : Env) (data : json) (cs : Session)
  : Session * completion :=
  let '(c, st) := cs in
  if isNull data then (cs, Throw TypeError)
  else
      let type := prop data "type" in
      let payload := prop data "content" in
      if isStr "ai_response" type then
        let c1 := setAiResponse (toStr payload) c in
        ((c1, pushMessage (streamingMessage env (buildContentAgent env c1)) st),
         Normal)
      else if isStr "sql_query" type then
        let c1 := appendAccumulated (sqlQueryBlock "**Executed SQL:**" payload) c in
        ((c1, updateStreaming env (buildContentAgent env c1) st), Normal)
      else if isStr "sql_result" type then
        let c1 :=
          match payload with
          | Some result =>
              if truthy payload && truthy (prop result "success") then
                match prop result "data" with
                | Some rows =>
                    if truthy (Some rows) && lengthPositive rows
                    then appendAccumulated (rowsBlock result) c
                    else appendAccumulated (mutationLine result) c
                | None => appendAccumulated (mutationLine result) c
                end
              else c
          | None => c
          end in
        ((c1, updateStreaming env (buildContentAgent env c1) st), Normal)
      else if isStr "step_indicator" type then
        let c1 := appendAccumulated (stepBlock payload) c in
        ((c1, updateStreaming env (buildContentAgent env c1) st), Normal)
      else if isStr "brief_reasoning" type then
        let c1 := appendAccumulated (reasoningBlock payload) c in
        ((c1, updateStreaming env (buildContentAgent env c1) st), Normal)
      else if isStr "chart_config" type then
        let c1 := appendAccumulated (chartBlock payload) c in
        ((c1, updateStreaming env (buildContentAgent env c1)
                (setCurrentStatus "AI is generating visualization..." st)),
         Normal)
      else if isStr "final_answer_chunk" type then
        let c1 := setFinalAnswer (finalAnswer c ++ toStr payload) c in
        ((c1, updateStreaming env (buildContentAgent env c1)
                (setCurrentStatus "AI is generating conclusion..." st)),
         Normal)
      else if isStr "final_answer_complete" type then
        let c1 := setFinalAnswer (toStr payload) c in
        ((c1, updateStreaming env (buildContentAgent env c1) st), Normal)
      else if isStr "final_answer" type then
        let c1 := setFinalAnswer (toStr payload) c in
        ((c1, updateOrPush env (buildContentAgent env c1)
                (buildContentAgent env c1) st), Normal)
      else if isStr "confirmation_required" type then
        match propOf payload "operation", propOf payload "sql",
              propOf payload "message" with
        | Some op, Some sqlv, Some msg =>
            let st1 :=
              setPendingOperation
                (Some {| operation := toStr op; sql := toStr sqlv;
                         explanation := toStr msg;
                         pending_model := send_model env |}) st in
            match confirmationContent env op sqlv msg with
            | Some text =>
                ((c, updateOrPush env
                       (buildContentAgent env c ++ nl ++ nl ++ text) text st1),
                 Normal)
            | None => ((c, st1), Throw InvalidCharacterError)
            end
        | _, _, _ => (cs, Throw TypeError)
        end
      else if isStr "cancelled" type then
        ((c, stripConfirmation warningText st), Normal)
      else if isStr "loading" type then
        ((c, setCurrentStatus (toStr payload) st), Normal)
      else if isStr "done" type then
        ((c, adoptConversationId env data (setCurrentStatus EmptyString st)),
         Normal)
      else (cs, Normal).

Inductive Mode : Type := ask | agent.

Definition onChunk (mode : Mode) : Env -> json -> Session -> Session * completion :=
  match mode with
  | ask => askOnChunk
  | agent => agentOnChunk
  end.

Definition buildContent (mode : Mode) : Env -> Closure -> string :=
  match mode with
  | ask => buildContentAsk
  | agent => buildContentAgent
  end.

(** *** [handleStopGeneration] *)
Definition handleStopGeneration (st : State) : State :=
  if abortControllerRef st
  then setIsLoading false (setAbort false true st)
  else st.

(** [handleSendMessage] up to the call of the stream function: the user's
    message is shown and a new controller is put in the ref. *)
Definition beginSend (userMessage : Message) (st : State) : State :=
  setAbort true false
    (setCurrentStatus "AI is planning..."
       (setIsLoading true (pushMessage userMessage st))).

(** The [catch] and [finally] blocks of [handleSendMessage]: an exception
    that is not an abort is reported in a new message; the ref is cleared. *)
Definition endSend (errorMessage : option Message) (st : State) : State :=
  let st1 :=
    match errorMessage with
    | Some m => pushMessage m st
    | None => st
    end in
  setAbort false (signalAborted st1) (setIsLoading false st1).

(** The part of [loadConversation] that runs before its first [await]. *)
Definition loadConversationSync (token : option string) (st : State) : State :=
  match token with
  | Some t =>
      if nonEmpty t
      then setMessageRefs [] (setIsLoadingChat true st)
      else st
  | None => st
  end.

(** *** A stream in flight *)

(** While a stream is open the reader delivers a chunk or the user
    presses stop; both run to completion, one after the other. *)
Inductive Occurrence : Type :=
| Delivered (chunk : string)
| StopPressed.

Definition aborted (cs : Session) : bool := signalAborted (snd cs).

(** The read loop of [sendAskQueryStream] / [sendAgentQueryStream] with
    the callback of [handleSendMessage], interleaved with stop requests. *)
Fixpoint streamRun (mode : Mode) (env : Env) (occ : list Occurrence)
  (cs : Session) : Session * completion :=
  match occ with
  | [] => (cs, Normal)
  | StopPressed :: rest =>
      streamRun mode env rest (fst cs, handleStopGeneration (snd cs))
  | Delivered chunk :: rest =>
      if aborted cs then (cs, Normal)
      else
        match forLines (onChunk mode env) (splitLines chunk) cs with
        | (cs', Normal) => streamRun mode env rest cs'
        | (cs', Throw e) =>
            if aborted cs' then (cs', Normal) else (cs', Throw e)
        end
  end.

(** The callback applied to a list of events, one after the other, up to
    the first that throws. *)
Fixpoint applyEvents (mode : Mode) (env : Env) (events : list json)
  (cs : Session) : Session * completion :=
  match events with
  | [] => (cs, Normal)
  | e :: rest =>
      match onChunk mode env e cs with
      | (cs', Normal) => applyEvents mode env rest cs'
      | (cs', Throw x) => (cs', Throw x)
      end
  end.

(** The message that reports an exception of the stream: its id and its
    time come from the clock, [message] is [error.message]. *)
Definition errorReport (newId time message : string) : Message :=
  {| id := newId; role := assistant;
     content := "Error: " ++ message
                ++ ". Please make sure the backend server is running.";
     timestamp := time; model := None; attachments := None |}.

(** [handleSendMessage] on its streaming paths (agent mode, and ask mode
    with selected tables), for a response that is ok: [occ] is what occurs
    while the stream is open and [report] gives the message shown for an
    exception. *)
Definition handleSendMessage (mode : Mode) (env : Env) (userMessage : Message)
  (report : Error -> Message) (occ : list Occurrence) (st : State) : State :=
  let st1 := beginSend userMessage st in
  match streamRun mode env occ (initialClosure, st1) with
  | (cs, Normal) => endSend None (snd cs)
  | (cs, Throw e) => endSend (Some (report e)) (snd cs)
  end.

End Hook.

(** ** [components/main-layout.tsx]: [onConfirmAction] *)

Module Layout.
Import JsString Json Api Hook.

Record LayoutState : Type := {
  hook : State;
  localStatus : string;
  isStreaming : bool
}.

Definition onHook (f : State -> State) (ls : LayoutState) : LayoutState :=
  {| hook := f (hook ls); localStatus := localStatus ls;
     isStreaming := isStreaming ls |}.

Definition setLocalStatus (v : string) (ls : LayoutState) : LayoutState :=
  {| hook := hook ls; localStatus := v; isStreaming := isStreaming ls |}.

Definition setIsStreaming (v : bool) (ls : LayoutState) : LayoutState :=
  {| hook := hook ls; localStatus := localStatus ls; isStreaming := v |}.

(** Literals of the file, byte for byte *)

Definition glyphWarning : string :=
  utf8 [195; 162; 197; 161; 194; 160; 195; 175; 194; 184].
Definition glyphCheck : string := utf8 [195; 162; 197; 147; 226; 128; 166].
Definition glyphCross : string := utf8 [195; 162; 197; 146].
Definition glyphClipboard : string :=
  utf8 [195; 176; 197; 184; 226; 128; 156; 226; 128; 185].
Definition glyphThought : string :=
  utf8 [195; 176; 197; 184; 226; 128; 153; 194; 173].
Definition glyphBulb : string :=
  utf8 [195; 176; 197; 184; 226; 128; 153; 194; 161].

Definition warningText : string :=
  "**" ++ glyphWarning ++ " This operation will modify your data. Please confirm:**".

Definition summaryMark : string := nl ++ nl ++ "**" ++ glyphBulb ++ " Summary:**".
Definition summaryHeader : string := summaryMark ++ nl.

(** What the component closes over: the auth token, the tables, the
    [conversationId] of the render, and the text of the message of each
    exception ([error.message], which the engine words). *)
Record ConfirmEnv : Type := {
  token : option string;
  availableTables : list string;
  renderConversationId : value;
  messageOf : Error -> string
}.

Inductive Action : Type := execute | cancel.

(** The requests the client sends. *)
Inductive Request : Type :=
| AgentQuery (query : string) (conversation_id : value) (model : string)
    (selected_tables : list string)               (* POST /api/agent *)
| ConfirmExecute (conversation_id : value)
    (operation sql_query explanation : string) (confirmed : bool)
    (model : string).                             (* POST /api/agent/confirm *)

(** How a request ends: a response with [ok] and the chunks of its body,
    a response without [ok] and the [detail] of its error body, or a
    rejected [fetch] with the message of its error. *)
Inductive Response : Type :=
| Ok (body : list string)
| NotOk (detail : value)
| Rejected (message : string).

(** The updater that appends [text] to a last message of role assistant
    unless [skip] holds of its content. *)
Definition appendUnless (skip : string -> bool) (text : string) (st : State)
  : State :=
  match lastMsg st with
  | Some (a, m) =>
      match role m with
      | assistant =>
          if skip (content m) then st
          else writeContent a (content m ++ text) st
      | user => st
      end
  | None => st
  end.

(** The suffix of [s] after the last occurrence of [p]:
    [s.substring(s.lastIndexOf(p) + p.length)], when there is one. *)
Fixpoint afterLast (p s : string) : option string :=
  match
    match s with
    | String _ s' => afterLast p s'
    | EmptyString => None
    end
  with
  | Some r => Some r
  | None => if startsWith p s then Some (slice (String.length p) s) else None
  end.

(** [operation.toLowerCase()] put in the past tense *)
Definition operationText (operation : string) : string :=
  let t := toLowerCase operation in
  if endsWith "e" t then dropLast t ++ "ed" else t ++ "ed".

Definition resultText (operation : string) (result : json) : string :=
  "**" ++ glyphCheck ++ " Result:** Successfully " ++ operationText operation
  ++ " " ++ toStr (orElse (prop result "row_count") (Some (JNum 0 0)))
  ++ " record(s).".

Definition errorText (result : json) : string :=
  "**" ++ glyphCross ++ " Error:** "
  ++ toStr (orElse (prop result "error") (Some (JStr "Operation failed"))).

Definition resultContent (result : json) : string :=
  let row_count := orElse (prop result "row_count") (Some (JNum 0 0)) in
  nl ++ nl ++ "**" ++ glyphClipboard ++ " Query Result:** (" ++ toStr row_count
  ++ " row" ++ (if isNotOne row_count then "s" else EmptyString)
  ++ " returned)" ++ nl ++ nl ++ fence ++ "table" ++ nl
  ++ stringify2 (orElse (prop result "data") (Some (JArr [])))
  ++ nl ++ fence.

(** The test that sends a [sql_result] to the branch of a modification:
    [operation && result && typeof result.success === 'boolean' &&
     typeof result.row_count === 'number' && !result.data] *)
Definition isConfirmationResult (operation : string) (payload : value) : bool :=
  match payload with
  | Some result =>
      nonEmpty operation && truthy payload
      && isBoolean (prop result "success")
      && isNumber (prop result "row_count")
      && negb (truthy (prop result "data"))
  | None => false
  end.

(** The updater of [final_answer_chunk]: the header is written to the
    message before the chunk is compared with the end of the summary, so it
    stays when the chunk is skipped. *)
Definition appendSummaryChunk (chunk : string) (st : State) : State :=
  match lastMsg st with
  | Some (a, m) =>
      match role m with
      | assistant =>
          let c1 :=
            if includes summaryMark (content m) then content m
            else content m ++ summaryHeader in
          let st1 := writeContent a c1 st in
          match afterLast summaryHeader c1 with
          | Some currentSummary =>
              if endsWith chunk currentSummary then st1
              else writeContent a (c1 ++ chunk) st1
          | None => writeContent a (c1 ++ chunk) st1
          end
      | user => st
      end
  | None => st
  end.

(** The callback given to [confirmAgentOperationStream] *)
Definition onEvent (cenv : ConfirmEnv) (operation model : string)
  (data : json) (ls : LayoutState) : LayoutState * completion :=
  if isNull data then (ls, Throw TypeError)
  else
      let type := prop data "type" in
      let payload := prop data "content" in
      if isStr "sql_result" type then
        if isConfirmationResult operation payload then
          let ls1 :=
            setLocalStatus "Operation completed, analyzing next steps..." ls in
          match payload with
          | Some result =>
              if truthy (prop result "success") then
                let text := resultText operation result in
                (onHook (appendUnless (includes text) (nl ++ nl ++ text)) ls1,
                 Normal)
              else
                let text := errorText result in
                (onHook (appendUnless (includes text) (nl ++ nl ++ text)) ls1,
                 Normal)
          | None => (ls1, Normal)
          end
        else
          match payload with
          | Some result =>
              if truthy payload && truthy (prop result "success") then
                let text := resultContent result in
                (onHook (appendUnless (includes text) text) ls, Normal)
              else (ls, Normal)
          | None => (ls, Normal)
          end
      else if isStr "brief_reasoning" type then
        let reasoningText := glyphThought ++ " **Next Step:** " ++ toStr payload in
        (onHook (appendUnless (includes reasoningText)
                   (nl ++ nl ++ "---" ++ nl ++ nl ++ glyphThought
                    ++ " **Next Step:** " ++ toStr payload ++ nl ++ nl)) ls,
         Normal)
      else if isStr "loading" type then
        (setLocalStatus (toStr payload) ls, Normal)
      else if isStr "confirmation_required" type then
        let ls1 := setIsStreaming false (setLocalStatus EmptyString ls) in
        match propOf payload "operation", propOf payload "sql",
              propOf payload "message" with
        | Some op, Some sqlv, Some msg =>
            let ls2 :=
              onHook (setPendingOperation
                        (Some {| operation := toStr op; sql := toStr sqlv;
                                 explanation := toStr msg;
                                 pending_model := model |})) ls1 in
            if truthy (renderConversationId cenv)
            then (onHook (loadConversationSync (token cenv)) ls2, Normal)
            else (ls2, Normal)
        | _, _, _ => (ls1, Throw TypeError)
        end
      else if isStr "final_answer_chunk" type then
        (onHook (appendSummaryChunk (toStr payload)) ls, Normal)
      else if isStr "final_answer_complete" type then (ls, Normal)
      else if isStr "sql_query" type then
        (onHook (appendUnless (includes (toStr payload))
                   (nl ++ nl ++ "**Executed SQL Query:**" ++ nl ++ fence
                    ++ "sql" ++ nl ++ toStr payload ++ nl ++ fence)) ls,
         Normal)
      else if isStr "chart_config" type then
        let chartContent :=
          nl ++ nl ++ fence ++ "chart" ++ nl ++ stringify2 payload ++ nl ++ fence in
        (onHook (appendUnless (includes chartContent) chartContent) ls, Normal)
      else if isStr "done" type then
        let ls1 := setIsStreaming false (setLocalStatus EmptyString ls) in
        if truthy (renderConversationId cenv) then (ls1, Normal)
        else (onHook (setConversationId (prop data "conversation_id")) ls1,
              Normal)
      else (ls, Normal).

(** The stream of a confirmation round while it is open.  The call gives
    [confirmAgentOperationStream] no signal, so that neither [fetch] nor the
    loop can be aborted; a stop request only reaches the ref of the hook. *)
Fixpoint confirmRun (cenv : ConfirmEnv) (operation model : string)
  (occ : list Occurrence) (ls : LayoutState) : LayoutState * completion :=
  match occ with
  | [] => (ls, Normal)
  | StopPressed :: rest =>
      confirmRun cenv operation model rest (onHook handleStopGeneration ls)
  | Delivered chunk :: rest =>
      match forLines (onEvent cenv operation model) (splitLines chunk) ls with
      | (ls', Normal) => confirmRun cenv operation model rest ls'
      | (ls', Throw e) => (ls', Throw e)
      end
  end.

(** [onConfirmAction(action, operation, sql, explanation, model)], given
    how its request ends; it returns the requests that were sent. *)
Definition onConfirmAction (cenv : ConfirmEnv) (action : Action)
  (operation sql explanation model : string) (resp : Response)
  (ls : LayoutState) : LayoutState * list Request :=
  let ls0 := onHook (setPendingOperation None) ls in
  match action with
  | cancel =>
      let req :=
        AgentQuery "Cancel" (renderConversationId cenv) model
                   (availableTables cenv) in
      match resp with
      | Ok _ => (onHook (stripConfirmation warningText) ls0, [req])
      | NotOk _ | Rejected _ => (ls0, [req])
      end
  | execute =>
      let ls1 :=
        onHook (stripConfirmation warningText)
          (setLocalStatus "Executing operation..." (setIsStreaming true ls0)) in
      let req :=
        ConfirmExecute
          (orElse (renderConversationId cenv) (Some (JNum 0 0)))
          operation sql explanation true
          (if nonEmpty model then model else "gemini-2.5-flash") in
      let failed (message : string) (l : LayoutState) : LayoutState :=
        onHook (appendUnless (fun _ => false)
                  (nl ++ nl ++ "**" ++ glyphCross ++ " Error:** " ++ message)) l in
      match resp with
      | Ok body =>
          match confirmAgentOperationStream (onEvent cenv operation model)
                  None body ls1 with
          | (ls2, Normal) => (ls2, [req])
          | (ls2, Throw e) => (failed (messageOf cenv e) ls2, [req])
          end
      | NotOk detail =>
          (failed (toStr (orElse detail (Some (JStr "Failed to confirm operation"))))
                  ls1, [req])
      | Rejected message => (failed message ls1, [req])
      end
  end.

End Layout.

(** ** Vocabulary of the properties *)

Module Spec.
Import JsString Json Api Hook Layout.

Fixpoint distinct (l : list nat) : bool :=
  match l with
  | [] => true
  | a :: r => negb (existsb (Nat.eqb a) r) && distinct r
  end.

(** The [messages] array refers to objects of the store, and to each of them
    once: every message in it was created by an object literal of its own. *)
Definition wellFormed (st : State) : bool :=
  distinct (messages st)
  && forallb (fun a => a <? length (store st))%nat (messages st).

Definition isAssistant (m : Message) : bool :=
  match role m with
  | assistant => true
  | user => false
  end.

(** The test under which a callback of the hook writes to the last message. *)
Definition isActive (env : Env) (m : Message) : bool :=
  String.eqb (id m) (streamingMessageId env) || isAssistant m.

(** What a callback may do to the messages, from [st] to [st']: messages
    before the last keep their objects as they are; the last one keeps its
    object or, if [guard] holds of it, gets a new content; the array keeps
    its references or gets a reference to one new object at its end. *)
Definition framed (guard : Message -> bool) (st st' : State) : Prop :=
  (forall (i a : nat),
      messages st !! i = Some a ->
      (S i < length (messages st))%nat ->
      store st' !! a = store st !! a)
  /\ (forall (a : nat) (m : Message),
        lastMsg st = Some (a, m) ->
        store st' !! a = Some m
        \/ (guard m = true /\ exists c, store st' !! a = Some (withContent c m)))
  /\ (messages st' = messages st
      \/ messages st' = (messages st ++ [length (store st)])%list).

(** The array was emptied for a reload; no object was written. *)
Definition reloading (st st' : State) : Prop :=
  store st' = store st /\ messages st' = [].

(** The kinds that the specification counts as eligible for deduplication *)
Definition dedupKind (data : json) : bool :=
  isStr "sql_query" (prop data "type")
  || isStr "chart_config" (prop data "type")
  || isStr "final_answer_complete" (prop data "type").

(** No character of [s] is [>]. *)
Fixpoint noGt (s : string) : bool :=
  match s with
  | EmptyString => true
  | String c s' => negb (isChar 62 c) && noGt s'
  end.

(** A confirmation directive with the attributes [attrs] *)
Definition directive (attrs : string) : string :=
  directiveOpen ++ attrs ++ "/>".

(** A character that is not white space and does not take part in one:
    an ASCII character other than TAB, LF, VT, FF, CR and SP. *)
Definition solid (c : ascii) : bool :=
  let n := nat_of_ascii c in
  (n <? 128)%nat && negb ((9 <=? n)%nat && (n <=? 13)%nat) && negb (n =? 32)%nat.

Definition hasSolid (s : string) : bool :=
  existsb solid (list_ascii_of_string s).

(** The buffer of accumulated content is empty or has a solid character:
    every fragment appended to it has one. *)
Definition shaped (c : Closure) : bool :=
  negb (nonEmpty (accumulatedContent c)) || hasSolid (accumulatedContent c).

(** What [buildContent] puts between the accumulated content and the final
    answer. *)
Definition separator (mode : Mode) (env : Env) (acc : string) : string :=
  let plain :=
    match mode with
    | ask =>
        isGeneralMode env || negb (includes "**Executed SQL Query:**" acc)
        || negb (includes "@" acc)
    | agent => isGeneralMode env || negb (includes "@" acc)
    end in
  if plain then (if nonEmpty (trim acc) then nl ++ nl else EmptyString)
  else
    nl ++ nl ++ "---" ++ nl ++ nl ++ "**" ++ Hook.glyphBulb
    ++ match mode with
       | ask => " Conclusion:**"
       | agent => " Summary:**"
       end ++ nl.

(** The region of the composed content that holds the final answer. *)
Definition finalAnswerRegion (mode : Mode) (env : Env) (acc fa : string)
  : string :=
  if nonEmpty fa then separator mode env acc ++ fa else EmptyString.

(** The content of the streamed message, when it is the last one. *)
Definition activeContent (env : Env) (st : State) : string :=
  match lastMsg st with
  | Some (_, m) =>
      if String.eqb (id m) (streamingMessageId env) then content m
      else EmptyString
  | None => EmptyString
  end.

(** The last message is not the streamed one: the stream has not shown a
    message yet. *)
Definition notStreaming (env : Env) (st : State) : bool :=
  match lastMsg st with
  | Some (_, m) => negb (String.eqb (id m) (streamingMessageId env))
  | None => true
  end.

(** The streamed message, when it is the last one, shows the composed
    content. *)
Definition synced (mode : Mode) (env : Env) (cs : Session) : Prop :=
  notStreaming env (snd cs) = true
  \/ activeContent env (snd cs) = buildContent mode env (fst cs).

(** The kinds whose handlers only add to the buffers or leave them alone:
    all but those that replace the final answer, show a note that the next
    update drops, or add and remove a confirmation. *)
Definition appending (data : json) : bool :=
  let t := prop data "type" in
  negb (isStr "final_answer_complete" t || isStr "final_answer" t
        || isStr "analyzing" t || isStr "checking_graph" t
        || isStr "confirmation_required" t || isStr "cancelled" t).

End Spec.

(** ** Sample inputs *)

Module Samples.
Import JsString Json Api Hook Layout Spec.

(** [{"type":"<kind>","content":"<text>"}] as a line of the stream *)
Definition frame (kind text : string) : string :=
  "data: {" ++ dq ++ "type" ++ dq ++ ":" ++ dq ++ kind ++ dq ++ "," ++ dq
  ++ "content" ++ dq ++ ":" ++ dq ++ text ++ dq ++ "}".

(** The event such a line parses to *)
Definition event (kind text : string) : json :=
  JObj [("type", JStr kind); ("content", JStr text)].

Definition malformedLine : string := "data: {not json".

Definition malformedThenLoading : string :=
  malformedLine ++ nl ++ frame "loading" "Processing...".

(** A loading line cut in the middle, and a line cut inside its prefix. *)
Definition loadingHead : string :=
  "data: {" ++ dq ++ "type" ++ dq ++ ":" ++ dq ++ "loa".
Definition loadingTail : string :=
  "ding" ++ dq ++ "," ++ dq ++ "content" ++ dq ++ ":" ++ dq ++ "Processing..."
  ++ dq ++ "}" ++ nl.

Definition q (s : string) : string := dq ++ s ++ dq.

(** A line whose payload is the JSON text [payload] *)
Definition frameOf (kind payload : string) : string :=
  "data: {" ++ q "type" ++ ":" ++ q kind ++ "," ++ q "content" ++ ":"
  ++ payload ++ "}".

Definition deleteSql : string := "DELETE FROM orders WHERE year < 2020".
Definition deleteNote : string := "I will delete the old orders.".

Definition confirmationFrame : string :=
  frameOf "confirmation_required"
    ("{" ++ q "operation" ++ ":" ++ q "DELETE" ++ "," ++ q "sql" ++ ":"
     ++ q deleteSql ++ "," ++ q "message" ++ ":" ++ q deleteNote ++ "}").

Definition doneFrame : string :=
  "data: {" ++ q "type" ++ ":" ++ q "done" ++ "," ++ q "conversation_id"
  ++ ":7}".

Definition emptyState : State :=
  {| store := []; messages := []; conversationId := None;
     isLoading := false; isLoadingChat := false;
     currentStatus := EmptyString; pendingOperation := None;
     abortControllerRef := false; signalAborted := false |}.

Definition userMessage : Message :=
  {| id := "1700000000000"; role := user;
     content := "@orders delete the orders before 2020";
     timestamp := "10:00"; model := None; attachments := None |}.

Definition env : Env :=
  {| streamingMessageId := "1700000000001";
     send_model := "gemini-2.5-flash";
     selectedTables := Some ["orders"];
     closureConversationId := None;
     now := "10:00" |}.

(** A stream has been opened by [handleSendMessage]. *)
Definition streaming : Session := (initialClosure, beginSend userMessage emptyState).

(** The agent stream asked for a confirmation and ended: the client waits
    for the user's decision and no stream is open. *)
Definition awaiting : State :=
  handleSendMessage agent env userMessage
    (fun _ => errorReport "1700000000002" "10:00" "error")
    [Delivered (frame "ai_response" "Working on it" ++ nl);
     Delivered (confirmationFrame ++ nl ++ doneFrame ++ nl)]
    emptyState.

Definition deleteOperation : PendingOperation :=
  {| operation := "DELETE"; sql := deleteSql; explanation := deleteNote;
     pending_model := "gemini-2.5-flash" |}.

Definition cenv : ConfirmEnv :=
  {| token := Some "token"; availableTables := ["orders"];
     renderConversationId := Some (JNum 7 0);
     messageOf := fun _ => "error" |}.

Definition awaitingLayout : LayoutState :=
  {| hook := awaiting; localStatus := EmptyString; isStreaming := false |}.

(** Execute was pressed and the stream of the confirmation round is open. *)
Definition executing : LayoutState :=
  fst (onConfirmAction cenv execute "DELETE" deleteSql deleteNote
         "gemini-2.5-flash" (Ok []) awaitingLayout).

(** The agent stream has shown the confirmation and is still open when
    Execute is pressed: the two streams are open together. *)
Definition executingEarly : LayoutState :=
  fst (onConfirmAction cenv execute "DELETE" deleteSql deleteNote
         "gemini-2.5-flash" (Ok [])
         {| hook :=
              snd (fst (streamRun agent env
                          [Delivered (frame "ai_response" "Working on it" ++ nl);
                           Delivered (confirmationFrame ++ nl)]
                          streaming));
            localStatus := EmptyString; isStreaming := false |}).

Definition sqlQueryChunk : string := frame "sql_query" deleteSql ++ nl.
Definition summaryChunk : string :=
  frame "final_answer_chunk" "Deleted 3 orders." ++ nl.
Definition greetingChunk : string := frame "ai_response" "Working on it" ++ nl.

Definition greeting : json := event "ai_response" "Let me check".
Definition selectOne : json := event "sql_query" "SELECT 1".
Definition chart : json :=
  JObj [("type", JStr "chart_config");
        ("content", JObj [("type", JStr "bar")])].

(** A successful result with a [data] array that is empty:
    [{"success": true, "row_count": 0, "data": []}] *)
Definition noRows : json :=
  JObj [("success", JBool true); ("row_count", JNum 0 0); ("data", JArr [])].

Definition noRowsEvent : json :=
  JObj [("type", JStr "sql_result"); ("content", noRows)].

(** The content of the message of [awaiting], cut before its directive *)
Definition confirmationBody : string :=
  nl ++ nl ++ deleteNote ++ nl ++ nl ++ "**SQL to Execute:**" ++ nl ++ fence
  ++ "sql" ++ nl ++ deleteSql ++ nl ++ fence ++ nl ++ nl ++ Hook.warningText.

Definition confirmationAttrs : string :=
  " operation=" ++ q "DELETE" ++ " sql="
  ++ q "REVMRVRFIEZST00gb3JkZXJzIFdIRVJFIHllYXIgPCAyMDIw" ++ " message="
  ++ q "SSB3aWxsIGRlbGV0ZSB0aGUgb2xkIG9yZGVycy4=" ++ " model="
  ++ q "gemini-2.5-flash" ++ " ".

Definition awaitingMessage : Message :=
  {| id := "1700000000001"; role := assistant;
     content := confirmationBody ++ directive confirmationAttrs;
     timestamp := "10:00"; model := Some "gemini-2.5-flash";
     attachments := None |}.

Definition analyzing : json := event "analyzing" "Reading the rows".
Definition graphDecision : json := event "graph_decision" "none".
Definition confirmationEvent : json :=
  JObj [("type", JStr "confirmation_required");
        ("content",
          JObj [("operation", JStr "DELETE"); ("sql", JStr deleteSql);
                ("message", JStr deleteNote)])].
Definition cancelledEvent : json := event "cancelled" "Cancelled".

Definition answered : list json :=
  [greeting; selectOne; event "final_answer_chunk" "The "].

Definition completeAnswer : json :=
  event "final_answer_complete" "The answer is 1.".

End Samples.

(** * The rest of the client

    The parts of the cited files that the streaming transcript does not go
    through, with the functions they call and the components that call
    them: the renderer of a message ([MarkdownRenderer], which reads back
    what the callbacks of the stream wrote), the input box that calls
    [handleSendMessage], the chart renderer, the two small hooks of the
    layout, and the other requests of [lib/api.ts]. *)

From stdpp Require Import gmap.
Local Open Scope string_scope.

(** ** [atob] *)

Module JsBase64.
Import JsString.

(** ASCII white space of the forgiving-base64 decoder: TAB, LF, FF, CR and
    SPACE. *)
Definition isAsciiWs (c : ascii) : bool :=
  let n := N_of_ascii c in
  ((n =? 9) || (n =? 10) || (n =? 12) || (n =? 13) || (n =? 32))%N.

Fixpoint removeWs (s : string) : string :=
  match s with
  | EmptyString => EmptyString
  | String c r => if isAsciiWs c then removeWs r else String c (removeWs r)
  end.

(** The value of a character of the base64 alphabet. *)
Definition b64val (c : ascii) : option N :=
  let n := N_of_ascii c in
  (if (65 <=? n) && (n <=? 90) then Some (n - 65)
   else if (97 <=? n) && (n <=? 122) then Some (n - 71)
   else if (48 <=? n) && (n <=? 57) then Some (n + 4)
   else if n =? 43 then Some 62
   else if n =? 47 then Some 63
   else None)%N.

(** When the length is a multiple of four, one or two [=] at the end are
    removed. *)
Definition stripPadding (s : string) : string :=
  if (String.length s mod 4 =? 0)%nat then
    match rev s with
    | String a (String b r) =>
        if isChar 61 a
        then if isChar 61 b then rev r else rev (String b r)
        else s
    | String a EmptyString => if isChar 61 a then EmptyString else s
    | EmptyString => s
    end
  else s.

Fixpoint sextets (s : string) : option (list N) :=
  match s with
  | EmptyString => Some []
  | String c r =>
      match b64val c, sextets r with
      | Some v, Some l => Some (v :: l)
      | _, _ => None
      end
  end.

(** Groups of four sextets give three bytes; of the bits of a last group
    of two or three sextets, those that do not fill a byte are dropped. *)
Fixpoint unsextets (l : list N) : list N :=
  match l with
  | a :: b :: c :: d :: r =>
      (a * 4 + b / 16) :: (b mod 16 * 16 + c / 4) :: (c mod 4 * 64 + d)
      :: unsextets r
  | [a; b; c] => [a * 4 + b / 16; b mod 16 * 16 + c / 4]
  | [a; b] => [a * 4 + b / 16]
  | _ => []
  end%N.

(** The string whose characters have the given code points, all below
    U+0100, as UTF-8 bytes. *)
Fixpoint fromLatin1 (l : list N) : string :=
  match l with
  | [] => EmptyString
  | n :: r =>
      if (n <? 128)%N then String (ascii_of_N n) (fromLatin1 r)
      else String (ascii_of_N (192 + n / 64))
             (String (ascii_of_N (128 + n mod 64)) (fromLatin1 r))
  end.

(** [atob(s)]: [None] stands for the [InvalidCharacterError] thrown on a
    text that is not base64. *)
Definition atob (s : string) : option string :=
  let d := stripPadding (removeWs s) in
  if (String.length d mod 4 =? 1)%nat then None
  else option_map (fun l => fromLatin1 (unsextets l)) (sextets d).

End JsBase64.

(** The sextets of a sequence of bytes, without the padding: what [base64]
    writes, as numbers. *)
Module Base64Spec.

Fixpoint sextetsOf (l : list N) : list N :=
  match l with
  | [] => []
  | [a] => [a / 4; a mod 4 * 16]
  | [a; b] => [a / 4; a mod 4 * 16 + b / 16; b mod 16 * 4]
  | a :: b :: c :: r =>
      a / 4 :: (a mod 4 * 16 + b / 16) :: (b mod 16 * 4 + c / 64) :: c mod 64
      :: sextetsOf r
  end%N.

Definition chars (l : list N) : string :=
  string_of_list_ascii (map JsString.b64char l).

Fixpoint padding (l : list N) : string :=
  match l with
  | [] => EmptyString
  | [_] => "=="
  | [_; _] => "="
  | _ :: _ :: _ :: r => padding r
  end.

End Base64Spec.

(** ** [MarkdownRenderer]: the regions of a message

    The renderer is the component that shows [Message.content]; its source
    stands in the file of the hook, after the hook. *)

Module Regex.
Import JsString.

(** A pattern is given by what it does at the head of a text: the captured
    data and the text left after the match, or [None].  The patterns below
    are such that at most one way of matching exists at a position: a
    greedy run is always followed by a character the run cannot contain. *)

(** [s] is not the empty string. *)
Definition nonEmptyString (s : string) : bool :=
  negb (String.eqb s EmptyString).

(** A literal. *)
Definition lit (p s : string) : option string :=
  if startsWith p s then Some (slice (String.length p) s) else None.

(** [\s*] and [\s+] *)
Definition ws0 (s : string) : string := trimStart s.

Definition ws1 (s : string) : option string :=
  option_map trimStart (stripWs s).

(** [(\w)]: a letter of the ASCII alphabet, a digit or the low line. *)
Definition isWord (c : ascii) : bool :=
  let n := nat_of_ascii c in
  ((48 <=? n) && (n <=? 57) || (65 <=? n) && (n <=? 90)
   || (97 <=? n) && (n <=? 122) || (n =? 95))%nat.

(** [regex.exec] in a loop, for a global pattern whose matches are not
    empty: the matches from left to right, each searched from the end of
    the one before, with the index where it starts and the index after its
    end.  [skip] counts the characters of the current match still to be
    passed, [idx] is the index of the head of [s] in the whole text. *)
Fixpoint execAll {D : Type} (m : string -> option (D * string))
  (skip idx : nat) (s : string) : list (nat * nat * D) :=
  match s with
  | EmptyString => []
  | String c s' =>
      match skip with
      | S k => execAll m k (S idx) s'
      | O =>
          match m s with
          | Some (d, rest) =>
              let n := (String.length s - String.length rest)%nat in
              (idx, (idx + n)%nat, d) :: execAll m (n - 1) (S idx) s'
          | None => execAll m 0 (S idx) s'
          end
      end
  end.

(** [regex.test(s)] for a pattern without flags. *)
Fixpoint test {D : Type} (m : string -> option (D * string)) (s : string)
  : bool :=
  match m s with
  | Some _ => true
  | None => match s with
            | EmptyString => false
            | String _ s' => test m s'
            end
  end.

End Regex.

Module Renderer.
Import JsString Json JsBase64 Regex.

(** A double quote, one or more characters other than a double quote, a
    double quote: the text between the quotes and what follows the closing
    quote. *)
Definition quoted (s : string) : option (string * string) :=
  match lit dq s with
  | Some r =>
      let k := spanLen (fun c => negb (isChar 34 c)) r in
      if (k =? 0)%nat then None
      else match lit dq (slice k r) with
           | Some r' => Some (substring 0 k r, r')
           | None => None
           end
  | None => None
  end.

(** White space, the name, [=] and a quoted value. *)
Definition attribute (name s : string) : option (string * string) :=
  match ws1 s with
  | Some r =>
      match lit (name ++ "=") r with
      | Some r' => quoted r'
      | None => None
      end
  | None => None
  end.

(** [region.data] of a confirmation region *)
Record ConfirmationData : Type := {
  cOperation : string;
  cSql : string;
  cMessage : string;
  cModel : string
}.

(** The pattern of a confirmation tag at the head of [s]: [<confirmation],
    the attributes [operation], [sql], [message] and [model] in this order,
    optional white space and [/>]. *)
Definition matchConfirmation (s : string) : option (ConfirmationData * string) :=
  match lit "<confirmation" s with
  | Some r0 =>
    match attribute "operation" r0 with
    | Some (op, r1) =>
      match attribute "sql" r1 with
      | Some (sq, r2) =>
        match attribute "message" r2 with
        | Some (msg, r3) =>
          match attribute "model" r3 with
          | Some (mdl, r4) =>
            match lit "/>" (ws0 r4) with
            | Some r5 =>
                Some ({| cOperation := op; cSql := sq; cMessage := msg;
                         cModel := mdl |}, r5)
            | None => None
            end
          | None => None
          end
        | None => None
        end
      | None => None
      end
    | None => None
    end
  | None => None
  end.

(** The confirmation regions of [renderContent]: start, end and data. *)
Definition confirmationRegions (text : string)
  : list (nat * nat * ConfirmationData) :=
  execAll matchConfirmation 0 0 text.

(** What the Execute and Cancel buttons of a confirmation region hand to
    [onConfirmAction] after the action: operation, decoded SQL, decoded
    message and model; [None] when an [atob] throws. *)
Definition confirmArguments (d : ConfirmationData)
  : option (string * string * string * string) :=
  match atob (cSql d), atob (cMessage d) with
  | Some s, Some m => Some (cOperation d, s, m, cModel d)
  | _, _ => None
  end.

End Renderer.

Module RendererSpec.
Import JsString.

(** The number of places where [p] occurs in [s]. *)
Fixpoint occurrences (p s : string) : nat :=
  ((if startsWith p s then 1 else 0)
   + match s with
     | EmptyString => 0
     | String _ s' => occurrences p s'
     end)%nat.

(** Every character of [s] satisfies [p]. *)
Fixpoint allChars (p : ascii -> bool) (s : string) : bool :=
  match s with
  | EmptyString => true
  | String c s' => p c && allChars p s'
  end.

Definition notQuote (c : ascii) : bool := negb (isChar 34 c).

(** The confirmation tag as the callback of the agent stream writes it. *)
Definition confirmationTag (op sql64 msg64 mdl : string) : string :=
  "<confirmation operation=" ++ dq ++ op ++ dq ++ " sql=" ++ dq ++ sql64
  ++ dq ++ " message=" ++ dq ++ msg64 ++ dq ++ " model=" ++ dq ++ mdl ++ dq
  ++ " />".

End RendererSpec.

(** ** [MarkdownRenderer] and [ChatInput]: mentions *)

Module Mentions.
Import JsString Json Regex.

(** The pattern of a mention at the head of [s]: [@] and one or more word
    characters; the name and what follows it. *)
Definition matchMention (s : string) : option (string * string) :=
  match lit "@" s with
  | Some r =>
      let k := spanLen isWord r in
      if (k =? 0)%nat then None else Some (substring 0 k r, slice k r)
  | None => None
  end.

(** The names of the mentions of a text, from left to right. *)
Definition mentions (s : string) : list string :=
  map snd (execAll matchMention 0 0 s).

(** [l.includes(x)] on strings *)
Definition inList (x : string) (l : list string) : bool :=
  existsb (String.eqb x) l.

(** [l.join(sep)] *)
Fixpoint join (sep : string) (l : list string) : string :=
  match l with
  | [] => EmptyString
  | [x] => x
  | x :: r => x ++ sep ++ join sep r
  end.

(** [extractDataTags]: the distinct [@name] tags of a message, in the order
    of their first occurrence. *)
Definition extractDataTags (message : string) : list string :=
  if nonEmptyString message then
    fold_left (fun tags name =>
                 let tag := "@" ++ name in
                 if inList tag tags then tags else (tags ++ [tag])%list)
              (mentions message) []
  else [].

(** [appendDataTags]; [lastUserMessage] is [None] when the prop is not
    given. *)
Definition appendDataTags (lastUserMessage : option string)
  (suggestion : string) : string :=
  match lastUserMessage with
  | None => suggestion
  | Some l =>
      if nonEmptyString l then
        let dataTags := extractDataTags l in
        if (List.length dataTags =? 0)%nat then suggestion
        else if test matchMention suggestion then suggestion
        else suggestion ++ " " ++ join " " dataTags
      else suggestion
  end.

(** *** [handleSend] of the input box *)

(** The tables a message is sent with: the mentioned names that are
    [general] or an available table, without repetition. *)
Definition mentionedTables (availableTables : list string) (message : string)
  : list string :=
  fold_left (fun acc tableName =>
               if (String.eqb tableName "general"
                   || inList tableName availableTables)
                  && negb (inList tableName acc)
               then (acc ++ [tableName])%list else acc)
            (mentions message) [].

(** The arguments of [onSendMessage], attachments apart. *)
Record SendRequest : Type := {
  sentContent : string;
  sentTables : option (list string)
}.

(** [handleSend] on the text of the input box: the call of [onSendMessage]
    it makes, if any, and the text left in the box. *)
Definition handleSend (availableTables : list string) (message : string)
  : option SendRequest * string :=
  if nonEmptyString (trim message) then
    let tables := mentionedTables availableTables message in
    (Some {| sentContent := message;
             sentTables := if (0 <? List.length tables)%nat
                           then Some tables else None |},
     EmptyString)
  else (None, message).

End Mentions.

(** ** [MarkdownRenderer]: the downloads *)

Module Downloads.
Import JsString Json Regex Mentions.

Definition isAlnum (c : ascii) : bool :=
  let n := nat_of_ascii c in
  ((48 <=? n) && (n <=? 57) || (65 <=? n) && (n <=? 90)
   || (97 <=? n) && (n <=? 122))%nat.

Fixpoint lowLines (n : nat) : string :=
  match n with
  | O => EmptyString
  | S k => String "_" (lowLines k)
  end.

(** The replacement of [/[^a-z0-9]/gi] by a low line: every UTF-16 code
    unit that is not an ASCII letter or digit becomes a low line.  On the UTF-8 bytes, the
    bytes of a character outside ASCII give as many low lines as the
    character has code units. *)
Fixpoint replaceNonAlnum (s : string) : string :=
  match s with
  | EmptyString => EmptyString
  | String c r =>
      (if isAlnum c then String c EmptyString else lowLines (unitsOfByte c))
      ++ replaceNonAlnum r
  end.

(** [sanitizedName] of the three downloads *)
Definition sanitizedName (name : string) : string :=
  toLowerCase (replaceNonAlnum name).

(** The replacement of every double quote by two double quotes. *)
Fixpoint doubleQuotes (s : string) : string :=
  match s with
  | EmptyString => EmptyString
  | String c r =>
      if isChar 34 c then String c (String c (doubleQuotes r))
      else String c (doubleQuotes r)
  end.

(** A cell of [downloadAsCSV], from the text [String(row[col])]. *)
Definition csvField (value : string) : string :=
  if includes "," value || includes dq value
  then dq ++ doubleQuotes value ++ dq
  else value.

(** A data row of [downloadAsCSV], from the texts of its cells. *)
Definition csvRow (values : list string) : string :=
  join "," (map csvField values).

End Downloads.

Module DownloadsSpec.
Import JsString.

(** A lower-case ASCII letter, a digit or the low line. *)
Definition isSafe (c : ascii) : bool :=
  let n := nat_of_ascii c in
  ((48 <=? n) && (n <=? 57) || (97 <=? n) && (n <=? 122) || (n =? 95))%nat.

(** The reading of a cell at the head of a line of CSV, as a reader of the
    file does it: the text of the cell and what follows it.  After an
    opening quote, the text runs to the first quote that is not doubled. *)
Fixpoint readQuoted (s : string) : option (string * string) :=
  match s with
  | EmptyString => None
  | String c r =>
      if isChar 34 c then
        match r with
        | String d r' =>
            if isChar 34 d
            then option_map (fun p => (String d (fst p), snd p)) (readQuoted r')
            else Some (EmptyString, r)
        | EmptyString => Some (EmptyString, EmptyString)
        end
      else option_map (fun p => (String c (fst p), snd p)) (readQuoted r)
  end.

Definition readField (s : string) : option (string * string) :=
  match s with
  | String c r =>
      if isChar 34 c then readQuoted r
      else
        let k := spanLen (fun x => negb (isChar 44 x)) s in
        Some (substring 0 k s, slice k s)
  | EmptyString => Some (EmptyString, EmptyString)
  end.

(** What may follow a cell in a line: nothing, or a comma. *)
Definition endOfCell (rest : string) : Prop :=
  rest = EmptyString \/ exists r, rest = String "," r.

End DownloadsSpec.

(** ** [MarkdownRenderer]: the state of the tables

    The state objects are keyed by the table ids that [renderContent]
    makes, [table-0], [table-1] and so on. *)

Module Tables.
Import JsString Json.

Inductive Direction : Type := asc | desc.

Record SortConfig : Type := {
  column : string;
  direction : Direction
}.

(** [handleSort]: the updater given to [setTableSortConfig]. *)
Definition handleSort (tableId col : string) (prev : gmap string SortConfig)
  : gmap string SortConfig :=
  match prev !! tableId with
  | Some currentSort =>
      if String.eqb (column currentSort) col then
        <[tableId := {| column := col;
                        direction := match direction currentSort with
                                     | asc => desc
                                     | desc => asc
                                     end |}]> prev
      else <[tableId := {| column := col; direction := asc |}]> prev
  | None => <[tableId := {| column := col; direction := asc |}]> prev
  end.

(** [handleFilter]: the two updaters, of the filters and of the current
    pages. *)
Definition handleFilter (tableId col value : string)
  (prev : gmap string (gmap string string) * gmap string nat)
  : gmap string (gmap string string) * gmap string nat :=
  (<[tableId := <[col := value]> (default ∅ (fst prev !! tableId))]> (fst prev),
   <[tableId := 1%nat]> (snd prev)).

(** [toggleColumnVisibility]: the updater given to
    [setTableVisibleColumns]. *)
Definition toggleColumnVisibility (tableId col : string)
  (allColumns : list string) (prev : gmap string (list string))
  : gmap string (list string) :=
  let currentVisible := default allColumns (prev !! tableId) in
  let newVisible :=
    if existsb (String.eqb col) currentVisible
    then List.filter (fun c => negb (String.eqb c col)) currentVisible
    else (currentVisible ++ [col])%list in
  <[tableId := newVisible]> prev.

(** *** The pages of [renderTableView] *)

(** [pages[tableId] || 1] *)
Definition currentPageOf (pages : gmap string nat) (tableId : string) : nat :=
  match pages !! tableId with
  | Some (S n) => S n
  | _ => 1
  end.

(** [Math.ceil(length / rowsPerPage)]; the rows per page are 5 in the
    inline view and one of 5, 10, 25, 50 and 100 in the floating view. *)
Definition totalPages (length rowsPerPage : nat) : nat :=
  (length / rowsPerPage
   + if (length mod rowsPerPage =? 0)%nat then 0 else 1)%nat.

(** [filteredData.slice(startIdx, endIdx)] *)
Definition displayData {A : Type} (filteredData : list A)
  (currentPage rowsPerPage : nat) : list A :=
  let startIdx := ((currentPage - 1) * rowsPerPage)%nat in
  firstn rowsPerPage (skipn startIdx filteredData).

(** The pages that the Previous and Next buttons set. *)
Definition previousPage (currentPage : nat) : nat :=
  Nat.max 1 (currentPage - 1).

Definition nextPage (totalPages currentPage : nat) : nat :=
  Nat.min totalPages (currentPage + 1).

End Tables.

(** ** [MarkdownRenderer]: the pieces of a text

    [renderContent] cuts a message into the special regions it has found
    (code blocks, details, confirmations, suggestions) and the text between
    them; [processInlineFormatting] does the same with the bold, italic and
    code spans of a line.  Both sort what was found by start, drop what
    overlaps something kept before, and emit the pieces from left to
    right. *)

Module Regions.

Section Pieces.
(** The units of the text (UTF-16 code units in the browser) and the data
    of a region. *)
Context {A D : Type}.

Record Region : Type := {
  start : nat;
  stop : nat;          (* [end] *)
  data : D
}.

(** [regions.sort((a, b) => a.start - b.start)]: the sort is stable. *)
Fixpoint insertByStart (r : Region) (l : list Region) : list Region :=
  match l with
  | [] => [r]
  | x :: t =>
      if (start r <=? start x)%nat then r :: x :: t
      else x :: insertByStart r t
  end.

Definition sortByStart (l : list Region) : list Region :=
  fold_right insertByStart [] l.

(** The test of [renderContent] *)
Definition overlapsRegion (region r : Region) : bool :=
  ((start r <=? start region) && (start region <? stop r)
   || (start r <? stop region) && (stop region <=? stop r)
   || (start region <=? start r) && (stop r <=? stop region))%nat.

(** The test of [processInlineFormatting] *)
Definition overlapsMatch (m n : Region) : bool :=
  ((start n <=? start m) && (start m <? stop n)
   || (start n <? stop m) && (stop m <=? stop n))%nat.

(** The loop that keeps a region when it overlaps none of those kept. *)
Fixpoint removeOverlaps (overlaps : Region -> Region -> bool)
  (kept : list Region) (l : list Region) : list Region :=
  match l with
  | [] => kept
  | r :: t =>
      if existsb (overlaps r) kept then removeOverlaps overlaps kept t
      else removeOverlaps overlaps (kept ++ [r]) t
  end.

(** [text.substring(a, b)] for [a <= b] *)
Definition substring (a b : nat) (text : list A) : list A :=
  firstn (b - a) (skipn a text).

Inductive Piece : Type :=
| Gap (s : list A)        (* text between regions, rendered as markdown *)
| Block (r : Region).     (* a region, rendered by its kind *)

(** The loop that emits the pieces, and the text after the last region. *)
Fixpoint pieces (text : list A) (lastIndex : nat) (regions : list Region)
  : list Piece :=
  match regions with
  | [] =>
      if (lastIndex <? List.length text)%nat
      then [Gap (substring lastIndex (List.length text) text)]
      else []
  | r :: t =>
      ((if (lastIndex <? start r)%nat
        then [Gap (substring lastIndex (start r) text)]
        else []) ++ Block r :: pieces text (stop r) t)%list
  end.

Definition renderContent (text : list A) (regions : list Region)
  : list Piece :=
  pieces text 0 (removeOverlaps overlapsRegion [] (sortByStart regions)).

Definition processInlineFormatting (text : list A) (matches : list Region)
  : list Piece :=
  pieces text 0 (removeOverlaps overlapsMatch [] (sortByStart matches)).

(** The part of the text that a piece shows. *)
Definition covered (text : list A) (p : Piece) : list A :=
  match p with
  | Gap s => s
  | Block r => substring (start r) (stop r) text
  end.

(** What a pattern finds: a match that is not empty and lies in the text. *)
Definition found (text : list A) (r : Region) : Prop :=
  (start r < stop r <= List.length text)%nat.

End Pieces.

Arguments Region : clear implicits.
Arguments Piece : clear implicits.

End Regions.

Module RegionsSpec.
Import Regions.

(** The regions of [l] follow one another from [lo] to [hi] without
    overlapping. *)
Fixpoint chainTo {D : Type} (lo : nat) (l : list (Region D)) (hi : nat)
  : Prop :=
  match l with
  | [] => lo = hi
  | r :: t => (lo <= start r)%nat /\ (start r < stop r)%nat
              /\ chainTo (stop r) t hi
  end.

(** The starts of [l] do not decrease. *)
Fixpoint sortedByStart {D : Type} (l : list (Region D)) : Prop :=
  match l with
  | [] => True
  | r :: t => Forall (fun x => start r <= start x)%nat t /\ sortedByStart t
  end.

(** What the loop needs of the test: a region that starts at or after the
    start of a kept one and does not overlap it starts at or after its
    end. *)
Definition separates {D : Type} (overlaps : Region D -> Region D -> bool)
  : Prop :=
  forall r k, overlaps r k = false -> (start k <= start r)%nat ->
              (stop k <= start r)%nat.

End RegionsSpec.

(** ** [hooks/use-sidebar-resize.ts] *)

Module Sidebar.

(** Widths and pointer positions are pixel counts. *)
Record Props : Type := {
  initialWidth : Z;
  minWidth : Z;
  maxWidth : Z;
  isRight : bool
}.

Record State : Type := {
  width : Z;
  isResizing : bool
}.

Inductive Event : Type :=
| StartResize                          (* [startResize] *)
| MouseMove (clientX innerWidth : Z)   (* with [window.innerWidth] *)
| MouseUp.

Definition initial (p : Props) : State :=
  {| width := initialWidth p; isResizing := false |}.

(** [handleMouseMove] *)
Definition handleMouseMove (p : Props) (clientX innerWidth : Z) (st : State)
  : State :=
  let newWidth :=
    if isRight p
    then Z.min (Z.max (minWidth p) (innerWidth - clientX)) (maxWidth p)
    else Z.min (Z.max (minWidth p) clientX) (maxWidth p) in
  {| width := newWidth; isResizing := isResizing st |}.

(** The two listeners are on the document only while [isResizing] holds. *)
Definition step (p : Props) (st : State) (ev : Event) : State :=
  match ev with
  | StartResize => {| width := width st; isResizing := true |}
  | MouseMove clientX innerWidth =>
      if isResizing st then handleMouseMove p clientX innerWidth st else st
  | MouseUp =>
      if isResizing st then {| width := width st; isResizing := false |}
      else st
  end.

Definition run (p : Props) (events : list Event) : State :=
  fold_left (step p) events (initial p).

End Sidebar.

(** ** [ChatInput]: the prompt and its attachments *)

Module ChatInput.
Import JsString Json.

(** The text of the box ([None] is [undefined]), the history of the
    prompts that were enhanced and the index of the last of them. *)
Record Prompt : Type := {
  message : option string;
  messageHistory : list string;
  currentHistoryIndex : Z
}.

(** [l.slice(0, e)] *)
Definition sliceTo {A : Type} (e : Z) (l : list A) : list A :=
  if (e <? 0)%Z
  then firstn (Z.to_nat (Z.max (Z.of_nat (List.length l) + e) 0)) l
  else firstn (Z.to_nat e) l.

(** [l[i]] *)
Definition at_ {A : Type} (l : list A) (i : Z) : option A :=
  if (i <? 0)%Z then None else nth_error l (Z.to_nat i).

Definition isQuote (c : ascii) : bool := isChar 34 c || isChar 39 c.

(** The removal of one quote at the beginning and of one quote at the end
    (a double quote or an apostrophe). *)
Definition stripQuotes (s : string) : string :=
  let s1 := match s with
            | String c r => if isQuote c then r else s
            | EmptyString => s
            end in
  match rev s1 with
  | String c r => if isQuote c then rev r else s1
  | EmptyString => s1
  end.

(** [handleEnhancePrompt]; [reply] is the enhanced prompt, or [None] when
    the request fails. *)
Definition handleEnhancePrompt (token : option string) (reply : option string)
  (st : Prompt) : Prompt :=
  match message st with
  | None => st
  | Some m =>
      if negb (Regex.nonEmptyString (trim m)) then st
      else
        match token with
        | None => st
        | Some t =>
            if negb (Regex.nonEmptyString t) then st
            else
              let newHistory :=
                (sliceTo (currentHistoryIndex st + 1) (messageHistory st)
                 ++ [m])%list in
              {| message := match reply with
                            | Some enhanced => Some (trim (stripQuotes enhanced))
                            | None => Some m
                            end;
                 messageHistory := newHistory;
                 currentHistoryIndex :=
                   Z.of_nat (List.length newHistory) - 1 |}
        end
  end.

(** [handleUndo] *)
Definition handleUndo (st : Prompt) : Prompt :=
  if (0 <=? currentHistoryIndex st)%Z
     && (0 <? List.length (messageHistory st))%nat
  then {| message := at_ (messageHistory st) (currentHistoryIndex st);
          messageHistory := messageHistory st;
          currentHistoryIndex := currentHistoryIndex st - 1 |}
  else st.

(** *** Attachments *)

Record File : Type := {
  name : string;
  type : string
}.

Inductive Picker : Type := general | image.

Definition allowedFormats (fileType : Picker) : list string :=
  match fileType with
  | image => ["image/jpeg"; "image/jpg"; "image/png"; "image/gif";
              "image/webp"]
  | general => ["audio/mpeg"; "audio/wav"; "audio/mp3"; "application/pdf"]
  end.

(** [handleFileAttachment]: the files attached after the choice of
    [files] in a picker. *)
Definition handleFileAttachment (fileType : Picker) (files : list File)
  (attachedFiles : list File) : list File :=
  let maxFiles := 3%nat in
  if (maxFiles <? List.length attachedFiles + List.length files)%nat
  then attachedFiles
  else
    let validFiles :=
      List.filter (fun file => Mentions.inList (type file)
                                 (allowedFormats fileType)) files in
    (attachedFiles ++ validFiles)%list.

(** [removeFile]: [prev.filter((_, i) => i !== index)] *)
Definition removeFile {A : Type} (index : nat) (prev : list A) : list A :=
  (firstn index prev ++ skipn (S index) prev)%list.

End ChatInput.

Module ChatInputSpec.
Import ChatInput.

(** The index of the history is [-1] or the index of an entry. *)
Definition historyOk (st : Prompt) : Prop :=
  (-1 <= currentHistoryIndex st
   < Z.of_nat (List.length (messageHistory st)))%Z.

End ChatInputSpec.

(** ** [handleSendMessage] and [loadConversation], with the requests of
    [lib/api.ts] that they make *)

Module Send.
Import JsString Json Api Hook.

(** What the try block of [handleSendMessage] may throw. *)
Inductive Thrown : Type :=
| Native (e : Error)            (* an exception of the engine *)
| ErrorWith (message : string)  (* [new Error(message)] *)
| AbortError.                   (* the rejection of an aborted request *)

(** The exception for a response that is not ok, from the text of its
    body: [error.detail || fallback], where [error] is the parsed body, or
    an object with the detail [whenNotJson] when the body does not
    parse. *)
Definition failure (whenNotJson fallback body : string) : Thrown :=
  match JsonParser.parse body with
  | None => ErrorWith (if nonEmpty whenNotJson then whenNotJson else fallback)
  | Some JNull => Native TypeError
  | Some v =>
      if truthy (prop v "detail") then ErrorWith (toStr (prop v "detail"))
      else ErrorWith fallback
  end.

(** What the stream functions throw for a response that is not ok. *)
Definition streamFailure (mode : Mode) (body : string) : Thrown :=
  failure "Unknown error"
    match mode with
    | ask => "Failed to send query"
    | agent => "Failed to send agent query"
    end body.

(** [AskResponse], as far as [handleSendMessage] reads it; the id is
    given by its text, [assistant_message.id.toString()]. *)
Record AskResponse : Type := {
  conversation_id : value;
  assistant_id : string;
  assistant_content : string;
  assistant_created_at : string
}.

(** The answer to the request of a streaming path
    ([sendAskQueryStream], [sendAgentQueryStream]). *)
Inductive StreamReply : Type :=
| StreamAborted                 (* stop was pressed before the response *)
| StreamRejects                 (* the request failed *)
| StreamNotOk (body : string)   (* a response that is not ok *)
| StreamNoBody                  (* an ok response without a body to read *)
| Streamed (occ : list Occurrence).
                                (* an ok response, and what occurs while
                                   its body is read *)

(** The answer to the request of the other path ([sendAskQuery]). *)
Inductive AskReply : Type :=
| AskAborted
| AskRejects
| AskNotOk (body : string)
| AskNotJson                    (* an ok response whose body does not parse *)
| Answered (r : AskResponse).

(** The arguments of a call, with what the call reads from the clock:
    [Date.now().toString()] and the formatted time at the start and in the
    catch block, and [formatMessageTimestamp]. *)
Record Call : Type := {
  callContent : string;
  callAttachments : option (list Attachment);
  userId : string;
  userTime : string;
  errorId : string;
  errorTime : string;
  messageOf : Error -> string;   (* [error.message] of an engine's exception *)
  formatMessageTimestamp : string -> string
}.

Definition newMessage (call : Call) : Message :=
  {| id := userId call; role := user; content := callContent call;
     timestamp := userTime call; model := None;
     attachments := callAttachments call |}.

(** The catch block: an exception that is not an abort is reported. *)
Definition errorMessage (call : Call) (t : Thrown) : option Message :=
  match t with
  | AbortError => None
  | Native e => Some (errorReport (errorId call) (errorTime call)
                        (messageOf call e))
  | ErrorWith m => Some (errorReport (errorId call) (errorTime call) m)
  end.

(** Whether the call takes a streaming path: agent mode, and ask mode with
    selected tables. *)
Definition streams (mode : Mode) (env : Env) : bool :=
  match mode with
  | agent => true
  | ask => match selectedTables env with
           | Some (_ :: _) => true
           | _ => false
           end
  end.

(** The try block after the request was made: the state it leaves and the
    exception it ends with, if any.  [streamReply] and [askReply] are the
    answers the server gives to the request of either path; the call makes
    one of the two requests. *)
Definition tryBlock (mode : Mode) (env : Env) (call : Call)
  (streamReply : StreamReply) (askReply : AskReply) (st1 : State)
  : State * option Thrown :=
  if streams mode env then
    match streamReply with
    | StreamAborted => (handleStopGeneration st1, Some AbortError)
    | StreamRejects => (st1, Some (Native TypeError))
    | StreamNotOk body => (st1, Some (streamFailure mode body))
    | StreamNoBody => (st1, Some (ErrorWith "No response body"))
    | Streamed occ =>
        match streamRun mode env occ (initialClosure, st1) with
        | (cs, Normal) => (snd cs, None)
        | (cs, Throw e) => (snd cs, Some (Native e))
        end
    end
  else
    match askReply with
    | AskAborted => (handleStopGeneration st1, Some AbortError)
    | AskRejects => (st1, Some (Native TypeError))
    | AskNotOk body =>
        (st1, Some (failure "Unknown error" "Failed to send query" body))
    | AskNotJson => (st1, Some (Native SyntaxError))
    | Answered r =>
        if negb (abortControllerRef st1) then (st1, None)
        else
          let st2 := if truthy (closureConversationId env) then st1
                     else setConversationId (conversation_id r) st1 in
          (pushMessage
             {| id := assistant_id r; role := assistant;
                content := assistant_content r;
                timestamp :=
                  formatMessageTimestamp call (assistant_created_at r);
                model := Some (send_model env); attachments := None |} st2,
           None)
    end.

(** [handleSendMessage] *)
Definition handleSendMessage (mode : Mode) (env : Env) (call : Call)
  (streamReply : StreamReply) (askReply : AskReply) (st : State) : State :=
  let st1 := beginSend (newMessage call) st in
  match tryBlock mode env call streamReply askReply st1 with
  | (st2, None) => endSend None st2
  | (st2, Some t) => endSend (errorMessage call t) st2
  end.

(** *** [loadConversation] *)

(** A message of a [Conversation], as [loadConversation] reads it; the id
    is given by its text, [msg.id.toString()]. *)
Record ApiMessage : Type := {
  msgId : string;
  msgRole : Role;
  msgContent : string;
  created_at : string;
  msgModel : option string;
  msgAttachments : option (list Attachment)
}.

(** What [getConversation] gives: it throws when the request fails, the
    response is not ok or its body is not JSON. *)
Inductive ConversationReply : Type :=
| LoadFails
| Loaded (conversationMessages : list ApiMessage).

(** The object that [loadConversation] makes of a message. *)
Definition formatMessage (formatMessageTimestamp : string -> string)
  (msg : ApiMessage) : Message :=
  {| id := msgId msg; role := msgRole msg; content := msgContent msg;
     timestamp := formatMessageTimestamp (created_at msg);
     model := msgModel msg; attachments := msgAttachments msg |}.

(** [setMessages(ms)] with an array [ms] of new objects *)
Definition setMessages (ms : list Message) (st : State) : State :=
  setMessageRefs (seq (length (store st)) (length ms))
    (setStore (store st ++ ms)%list st).

(** [loadConversation] *)
Definition loadConversation (token : option string) (chatId : json)
  (formatMessageTimestamp : string -> string) (reply : ConversationReply)
  (st : State) : State :=
  match token with
  | Some t =>
      if nonEmpty t then
        let st1 := loadConversationSync token st in
        setIsLoadingChat false
          match reply with
          | Loaded ms =>
              setConversationId (Some chatId)
                (setMessages (map (formatMessage formatMessageTimestamp) ms)
                   st1)
          | LoadFails => st1
          end
      else st
  | None => st
  end.

End Send.

Module SendSpec.
Import JsString Json Api Hook Spec.

(** From [st] to [st'] the array and the store are as long as they were, or
    one new object of the assistant was added to the store and a reference
    to it to the end of the array. *)
Definition extends (st st' : State) : Prop :=
  (messages st' = messages st /\ length (store st') = length (store st))
  \/ (exists m, role m = assistant
               /\ messages st' = (messages st ++ [length (store st)])%list
               /\ store st' = (store st ++ [m])%list).

(** [st'] shows the messages of [base] as they are in [base], and after
    them messages of the assistant only. *)
Definition continues (base st' : State) : Prop :=
  wellFormed st' = true
  /\ exists more,
      messages st' = (messages base ++ more)%list
      /\ (forall (i a : nat),
            messages base !! i = Some a -> store st' !! a = store base !! a)
      /\ Forall (fun a => exists m, store st' !! a = Some m
                                    /\ role m = assistant) more.

End SendSpec.

(** ** Vocabulary for [JSON.stringify] and [JSON.parse] *)

From Stdlib Require DecimalFacts DecimalPos DecimalN.

Module JsonSpec.
Import JsString Json JsonParser.

(** A number in the normal form of the parser: zero, or a mantissa that
    does not end in a zero digit. *)
Definition canonicalNumber (m e : Z) : bool :=
  ((m =? 0)%Z && (e =? 0)%Z) || negb (m mod 10 =? 0)%Z.

Fixpoint noRepeat (l : list string) : bool :=
  match l with
  | [] => true
  | k :: r => negb (existsb (String.eqb k) r) && noRepeat r
  end.

(** The values that [JSON.parse] yields: numbers in normal form, and no
    object with a repeated key. *)
Fixpoint canonical (v : json) : bool :=
  match v with
  | JNum m e => canonicalNumber m e
  | JArr l => forallb canonical l
  | JObj l =>
      noRepeat (map fst l) && forallb (fun kv => canonical (snd kv)) l
  | _ => true
  end.

(** The number of values in a value, counting each element and member
    once more for its place in the array or object. *)
Fixpoint size (v : json) : nat :=
  match v with
  | JArr l => S (list_sum (map (fun x => S (size x)) l))
  | JObj l => S (list_sum (map (fun kv => S (size (snd kv))) l))
  | _ => 1
  end.

(** A text that cannot continue a number literal: it is empty or starts
    with a character that is not a digit, a dot or an exponent mark. *)
Definition delimited (rest : string) : bool :=
  match rest with
  | EmptyString => true
  | String c _ =>
      negb (isDigit c || isChar 46 c || isChar 101 c || isChar 69 c)
  end.

(** What the parser reads for the escape that [quoteChar] writes for a
    character. *)
Definition itemOf (c : ascii) : strItem :=
  let n := nat_of_ascii c in
  if (n <? 32)%nat
     && negb ((n =? 8) || (n =? 9) || (n =? 10) || (n =? 12) || (n =? 13))%nat
  then Unit16 (N.of_nat n)
  else Byte c.

(** What [stringify] writes after the first element of an array and after
    the first member of an object, at the indentation [ind]. *)
Definition elementsAfter (ind : string) : list json -> string :=
  fix rest (r : list json) : string :=
    match r with
    | [] => EmptyString
    | y :: t => "," ++ nl ++ ind ++ stringify ind y ++ rest t
    end.

Definition membersAfter (ind : string) : list (string * json) -> string :=
  fix rest (r : list (string * json)) : string :=
    match r with
    | [] => EmptyString
    | (k, y) :: t =>
        "," ++ nl ++ ind ++ quote k ++ ": " ++ stringify ind y ++ rest t
    end.

(** What [stringify] writes for [v] at any indentation is read back as
    [v] by a parser with fuel for each value in it, whatever follows. *)
Definition readsBack (v : json) : Prop :=
  canonical v = true ->
  forall (ind rest : string) (fuel : nat),
    RendererSpec.allChars isWs ind = true -> delimited rest = true ->
    (size v <= fuel)%nat ->
    parseValue fuel (stringify ind v ++ rest) = Some (v, rest).

End JsonSpec.

(** ** [MarkdownRenderer]: code blocks *)

Module CodeBlocks.
Import JsString Json Hook Regex.

(** A lazy run of any characters followed by the literal [p]: the text
    before the first place where [p] occurs, and the text after this
    occurrence. *)
Fixpoint upTo (p s : string) : option (string * string) :=
  if startsWith p s then Some (EmptyString, slice (String.length p) s)
  else
    match s with
    | EmptyString => None
    | String c s' =>
        match upTo p s' with
        | Some (a, r) => Some (String c a, r)
        | None => None
        end
    end.

(** The data of a code region: the language, [text] when the pattern
    captured none, and the code. *)
Record CodeData : Type := {
  language : string;
  code : string
}.

(** The pattern of code blocks: a fence, an optional run of word
    characters, a line feed, a lazy run of any characters, a fence.  The
    run of word characters is greedy and cannot be followed by a word
    character or hold a line feed, so that there is one way to match. *)
Definition matchCodeBlock (s : string) : option (CodeData * string) :=
  match lit fence s with
  | Some s1 =>
      let k := spanLen isWord s1 in
      match lit nl (slice k s1) with
      | Some s2 =>
          match upTo fence s2 with
          | Some (c, rest) =>
              Some ({| language :=
                         if nonEmptyString (substring 0 k s1)
                         then substring 0 k s1 else "text";
                       code := c |}, rest)
          | None => None
          end
      | None => None
      end
  | None => None
  end.

(** The code regions of [renderContent]: start, end and data. *)
Definition codeRegions (text : string) : list (nat * nat * CodeData) :=
  execAll matchCodeBlock 0 0 text.

(** What the renderer draws a chart from: [JSON.parse(code)] for a region
    of the language [chart]; [None] for another language and when the
    parse throws. *)
Definition chartConfig (d : CodeData) : option json :=
  if String.eqb (language d) "chart" then JsonParser.parse (code d) else None.

(** What the renderer draws a table from: [JSON.parse(code)] for a region
    of the language [table]. *)
Definition tableData (d : CodeData) : option json :=
  if String.eqb (language d) "table" then JsonParser.parse (code d) else None.

End CodeBlocks.

Module CodeBlockSpec.
Import JsString.

(** No character of [s] is a backtick. *)
Definition plain (s : string) : bool :=
  RendererSpec.allChars (fun c => negb (isChar 96 c)) s.

End CodeBlockSpec.

(** ** [ChartRenderer]: the data of a chart *)

Module Charts.
Import JsString Json.

Inductive ChartType : Type := line | bar | pie | doughnut | scatter.

(** A dataset of a [ChartConfig]: its label and its data, numbers or, for
    a scatter chart, pairs. *)
Record Dataset : Type := {
  label : string;
  data : list json
}.

(** [ChartConfig], as far as [transformData] reads it; [labels] may be
    missing. *)
Record ChartConfig : Type := {
  type : ChartType;
  labels : option (list string);
  datasets : list Dataset
}.

(** [(dataset.data[index] as number) || 0] *)
Definition numberAt (dataset : option Dataset) (index : nat) : json :=
  match dataset with
  | Some d =>
      match data d !! index with
      | Some v => if truthy (Some v) then v else JNum 0 0
      | None => JNum 0 0
      end
  | None => JNum 0 0
  end.

(** [dataPoint[key] = v] for a number [v]: the assignment of a number to
    [__proto__] leaves the object as it is. *)
Definition setProperty (key : string) (v : json) (o : gmap string json)
  : gmap string json :=
  if String.eqb key "__proto__" then o else <[key := v]> o.

(** What [transformData] returns: objects, or for a scatter chart the
    data of the first dataset as they are. *)
Inductive ChartData : Type :=
| Points (l : list (gmap string json))
| Pairs (l : list json).

(** The object made for the label at [index] of a chart that is neither a
    pie nor a scatter chart. *)
Definition dataPoint (ds : list Dataset) (index : nat) (label0 : string)
  : gmap string json :=
  fold_left
    (fun o d => setProperty (label d) (numberAt (Some d) index) o)
    ds {[ "name" := JStr label0 ]}.

(** [transformData] *)
Definition transformData (config : ChartConfig) : ChartData :=
  match type config with
  | pie | doughnut =>
      Points
        (imap (fun index label0 =>
                 <[ "value" := numberAt (datasets config !! 0%nat) index ]>
                   {[ "name" := JStr label0 ]})
              (default [] (labels config)))
  | scatter =>
      Pairs match datasets config !! 0%nat with
            | Some d => data d
            | None => []
            end
  | line | bar =>
      Points (imap (dataPoint (datasets config)) (default [] (labels config)))
  end.

End Charts.

(** ** [MarkdownRenderer]: details regions *)

Module Details.
Import JsString Json Hook Regex CodeBlocks.

(** The head of [s] is a line terminator: LF, CR, U+2028 or U+2029. *)
Definition atLineTerminator (s : string) : bool :=
  startsWith (utf8 [10]) s || startsWith (utf8 [13]) s
  || startsWith (utf8 [226; 128; 168]) s
  || startsWith (utf8 [226; 128; 169]) s.

(** A lazy run of characters other than line terminators followed by the
    literal [p]. *)
Fixpoint upToInLine (p s : string) : option (string * string) :=
  if startsWith p s then Some (EmptyString, slice (String.length p) s)
  else if atLineTerminator s then None
  else
    match s with
    | EmptyString => None
    | String c s' =>
        match upToInLine p s' with
        | Some (a, r) => Some (String c a, r)
        | None => None
        end
    end.

(** The data of a details region. *)
Record DetailsData : Type := {
  summary : string;
  content : string;
  isOpen : bool
}.

(** The pattern of details tags: the opening tag with an optional [open]
    after white space, white space, the summary on one line between its
    tags, white space, a lazy run of any characters, the closing tag.
    Each greedy run of white space is followed by a character that is
    not white space, so that there is one way to match. *)
Definition matchDetails (s : string) : option (DetailsData * string) :=
  match lit "<details" s with
  | Some r0 =>
      let '(r1, opened) :=
        match ws1 r0 with
        | Some r =>
            match lit "open" r with
            | Some r' => (r', true)
            | None => (r0, false)
            end
        | None => (r0, false)
        end in
      match lit ">" r1 with
      | Some r2 =>
          match lit "<summary>" (ws0 r2) with
          | Some r4 =>
              match upToInLine "</summary>" r4 with
              | Some (sm, r5) =>
                  match upTo "</details>" (ws0 r5) with
                  | Some (c, rest) =>
                      Some ({| summary := sm; content := c;
                               isOpen := opened |}, rest)
                  | None => None
                  end
              | None => None
              end
          | None => None
          end
      | None => None
      end
  | None => None
  end.

(** [s.match(pattern)] for a pattern without flags: the data of the first
    place where the pattern matches. *)
Fixpoint search {D : Type} (m : string -> option (D * string)) (s : string)
  : option D :=
  match m s with
  | Some (d, _) => Some d
  | None => match s with
            | EmptyString => None
            | String _ s' => search m s'
            end
  end.

(** The pattern of the JSON of a details region: a fence and [json],
    white space, a lazy run of any characters, a fence; the data is the
    run. *)
Definition matchJsonFence (s : string) : option (string * string) :=
  match lit (fence ++ "json") s with
  | Some r => upTo fence (ws0 r)
  | None => None
  end.

(** [jsonData] of a details region: [JSON.parse(jsonMatch[1].trim())];
    [None] stands for [null], without a match or when the parse throws. *)
Definition jsonData (content : string) : option json :=
  match search matchJsonFence content with
  | Some body => JsonParser.parse (trim body)
  | None => None
  end.

(** [isJsonContent]: [Array.isArray(jsonData) && jsonData.length > 0] *)
Definition isJsonContent (content : string) : bool :=
  match jsonData content with
  | Some (JArr (_ :: _)) => true
  | _ => false
  end.

End Details.

Module DetailsSpec.
Import JsString.

(** The character [a] does not occur in [s]. *)
Definition lacks (a : ascii) (s : string) : bool :=
  RendererSpec.allChars (fun c => negb (Ascii.eqb a c)) s.

End DetailsSpec.

(** ** More sample inputs *)

Module ClientSamples.
Import JsString Json Api Hook.

(** The text of a confirmation for the deletion of the old orders. *)
Definition confirmationText : string :=
  match confirmationContent Samples.env (Some (JStr "DELETE"))
          (Some (JStr Samples.deleteSql)) (Some (JStr Samples.deleteNote)) with
  | Some c => c
  | None => EmptyString
  end.

(** The same with an empty SQL text. *)
Definition emptySqlText : string :=
  match confirmationContent Samples.env (Some (JStr "DELETE"))
          (Some (JStr EmptyString)) (Some (JStr Samples.deleteNote)) with
  | Some c => c
  | None => EmptyString
  end.

(** A call of [handleSendMessage] with the clock readings of
    [Samples.userMessage]. *)
Definition call : Send.Call :=
  {| Send.callContent := "@orders delete the orders before 2020";
     Send.callAttachments := None;
     Send.userId := "1700000000000";
     Send.userTime := "10:00";
     Send.errorId := "1700000000003";
     Send.errorTime := "10:01";
     Send.messageOf := fun _ => "error";
     Send.formatMessageTimestamp := fun t => t |}.

(** The body of a refusal: an object with the detail [Quota exceeded]. *)
Definition quotaBody : string :=
  "{" ++ Samples.q "detail" ++ ":" ++ Samples.q "Quota exceeded" ++ "}".

(** A chart configuration with a negative number, a fraction and an
    exponent. *)
Definition salesChart : json :=
  JObj [("type", JStr "bar");
        ("title", JStr ("Sales " ++ Samples.q "2024" ++ nl ++ "by month"));
        ("data",
          JObj [("labels", JArr [JStr "Jan"; JStr "Feb"]);
                ("datasets",
                  JArr [JObj [("label", JStr "sales");
                              ("data",
                                JArr [JNum 15 (-1); JNum (-2) 3; JNum 0 0;
                                      JNum 12 25; JNull; JBool true])]])])].

(** A text with its own spacing, an escape, a repeated key and numbers
    that are not written the way [JSON.stringify] writes them, and the
    value it denotes. *)
Definition looseText : string :=
  " {" ++ Samples.q "a" ++ " :[1.50,2E3 , 0.0] ," ++ Samples.q "b" ++ ":"
  ++ Samples.q "x\u0041" ++ "," ++ Samples.q "a" ++ ":[150e-2]} ".

Definition looseValue : json :=
  JObj [("a", JArr [JNum 15 (-1)]); ("b", JStr "xA")].

(** The text of a [chart_config] event. *)
Definition chartLine : string :=
  "{" ++ Samples.q "type" ++ ":" ++ Samples.q "chart_config" ++ ","
  ++ Samples.q "content" ++ ":{" ++ Samples.q "type" ++ ":" ++ Samples.q "bar"
  ++ "}}".

(** A bar chart of two months, with a number missing for the second. *)
Definition barConfig : Charts.ChartConfig :=
  {| Charts.type := Charts.bar;
     Charts.labels := Some ["Jan"; "Feb"];
     Charts.datasets :=
       [{| Charts.label := "sales"; Charts.data := [JNum 3 0] |}] |}.

(** A [sql_result] event with one row, as a text and as a value. *)
Definition rows : json := JArr [JObj [("id", JNum 7 0)]].

Definition rowsResult : json :=
  JObj [("success", JBool true); ("row_count", JNum 1 0); ("data", rows)].

Definition rowsEvent : json :=
  JObj [("type", JStr "sql_result"); ("content", rowsResult)].

Definition rowsLine : string :=
  "{" ++ Samples.q "type" ++ ":" ++ Samples.q "sql_result" ++ ","
  ++ Samples.q "content" ++ ":{" ++ Samples.q "success" ++ ":true,"
  ++ Samples.q "row_count" ++ ":1," ++ Samples.q "data" ++ ":[{"
  ++ Samples.q "id" ++ ":7}]}}".

End ClientSamples.

(** * Properties *)

Import JsString Json Api Hook Layout.

#[local] Arguments String.append : simpl nomatch.

(** ** Strings *)

Lemma startsWith_app (p s : string) : startsWith p (p ++ s) = true.
Proof.
  induction p as [|a p IH]; simpl; [reflexivity|].
  rewrite Ascii.eqb_refl. exact IH.
Qed.

Lemma startsWith_split (p s : string) :
  startsWith p s = true -> s = p ++ slice (String.length p) s.
Proof.
  revert s. induction p as [|a p IH]; intros s H; simpl in *; [reflexivity|].
  destruct s as [|b s]; [discriminate|].
  destruct (Ascii.eqb a b) eqn:E; [|discriminate].
  apply Ascii.eqb_eq in E. subst b. f_equal. apply IH, H.
Qed.

Lemma append_assoc (a b c : string) : (a ++ b) ++ c = a ++ (b ++ c).
Proof. induction a as [|x a IH]; simpl; [reflexivity|]. now rewrite IH. Qed.

Lemma append_empty_r (a : string) : a ++ EmptyString = a.
Proof. induction a as [|x a IH]; simpl; [reflexivity|]. now rewrite IH. Qed.

Lemma length_append (a b : string) :
  String.length (a ++ b) = (String.length a + String.length b)%nat.
Proof. induction a as [|x a IH]; simpl; [reflexivity|]. now rewrite IH. Qed.

Lemma splitLines_nonempty (s : string) : splitLines s <> [].
Proof.
  induction s as [|c s IH]; simpl; [discriminate|].
  destruct (Ascii.eqb c (chr 10)); [discriminate|].
  destruct (splitLines s); discriminate.
Qed.

(** Splitting at a newline splits the list of lines. *)
Lemma splitLines_app_lf (x y : string) :
  splitLines (x ++ String (chr 10) y) = (splitLines x ++ splitLines y)%list.
Proof.
  induction x as [|c x IH].
  - reflexivity.
  - change (String c x ++ String (chr 10) y)
      with (String c (x ++ String (chr 10) y)).
    cbn [splitLines]. rewrite IH.
    destruct (Ascii.eqb c (chr 10)); [reflexivity|].
    destruct (splitLines x) as [|l ls] eqn:E; [|reflexivity].
    now apply splitLines_nonempty in E.
Qed.

Lemma splitLines_app_nl (x y : string) :
  splitLines (x ++ nl ++ y) = (splitLines x ++ splitLines y)%list.
Proof. exact (splitLines_app_lf x y). Qed.

(** ** The read loops *)

Section ForLines.
Context {S : Type} (onChunk : json -> S -> S * completion).

Lemma forLines_app (l1 l2 : list string) (s : S) :
  forLines onChunk (l1 ++ l2)%list s =
  match forLines onChunk l1 s with
  | (s', Normal) => forLines onChunk l2 s'
  | (s', Throw e) => (s', Throw e)
  end.
Proof.
  revert s. induction l1 as [|l l1 IH]; intros s; cbn [forLines app];
    [now destruct (forLines onChunk l2 s) as [? [|?]]|].
  destruct (startsWith "data: " l); [|apply IH].
  destruct (JsonParser.parse (slice 6 l)); [|reflexivity].
  destruct (onChunk j s) as [s' [|e]]; [apply IH|reflexivity].
Qed.

(** A chunk that ends with a newline: its last piece is empty and is not a
    [data: ] line. *)
Lemma forLines_terminated (x : string) (s : S) :
  forLines onChunk (splitLines (x ++ nl)) s = forLines onChunk (splitLines x) s.
Proof.
  replace (x ++ nl) with (x ++ nl ++ EmptyString)
    by (now rewrite append_empty_r).
  rewrite splitLines_app_nl, forLines_app.
  destruct (forLines onChunk (splitLines x) s) as [s' [|e]]; reflexivity.
Qed.
End ForLines.

Lemma forLines_record (lines : list string) (log : list json) :
  let texts :=
    map (slice 6) (List.filter (fun line => startsWith "data: " line) lines) in
  forLines record lines log =
  ((log ++ somePrefix (map JsonParser.parse texts))%list,
   if allSome (map JsonParser.parse texts) then Normal else Throw SyntaxError).
Proof.
  revert log. induction lines as [|l lines IH]; intros log;
    cbn [forLines List.filter map somePrefix allSome forallb].
  - now rewrite app_nil_r.
  - destruct (startsWith "data: " l);
      cbn [forLines List.filter map somePrefix allSome forallb]; [|apply IH].
    destruct (JsonParser.parse (slice 6 l)) as [d|]; cbn [andb].
    + unfold record at 1. rewrite IH. now rewrite <- app_assoc.
    + now rewrite app_nil_r.
Qed.

Lemma stream_single {S : Type} (onChunk : json -> S -> S * completion)
  (chunk : string) (s : S) :
  sendAskQueryStream onChunk None [chunk] s = forLines onChunk (splitLines chunk) s.
Proof.
  cbn [sendAskQueryStream signalAbortedIn].
  now destruct (forLines onChunk (splitLines chunk) s) as [s' [|e]].
Qed.

(** C2, the claim as stated fails: on the chunk made of the malformed line
    and the valid loading line, the line loop of the stream functions throws
    the [SyntaxError] of [JSON.parse] at the first line and hands no event to
    the callback; the read loop rethrows it. *)
Lemma C2_malformed_line_raises :
  decodeChunk Samples.malformedThenLoading = ([], Throw SyntaxError)
  /\ decodeStream [Samples.malformedThenLoading] = ([], Throw SyntaxError)
  /\ decodeChunk Samples.malformedThenLoading
     <> ([Samples.event "loading" "Processing..."], Normal).
Proof. vm_compute. repeat split. discriminate. Qed.

(** C2, amended: for every chunk, the [data: ] lines are parsed in order and
    handed to the callback up to the first one that [JSON.parse] rejects;
    that line makes the loop throw [SyntaxError], so that no later line
    yields an event.  Lines without the prefix are ignored, and a chunk all
    of whose [data: ] lines parse yields all their events and completes
    normally. *)
Theorem C2_decode_up_to_first_malformed_line (chunk : string) :
  decodeChunk chunk =
  (somePrefix (map JsonParser.parse (dataTexts chunk)),
   if allSome (map JsonParser.parse (dataTexts chunk))
   then Normal else Throw SyntaxError)
  /\ decodeStream [chunk] = decodeChunk chunk.
Proof.
  split.
  - unfold decodeChunk. now rewrite forLines_record.
  - apply stream_single.
Qed.

Lemma stream_line_aligned {S : Type} (onChunk : json -> S -> S * completion)
  (pieces : list string) (rest : string) (s : S) :
  sendAskQueryStream onChunk None (map terminated pieces ++ [rest])%list s =
  forLines onChunk
    (splitLines (joinChunks (map terminated pieces ++ [rest])%list)) s.
Proof.
  revert s. induction pieces as [|p pieces IH]; intros s.
  - cbn [map app joinChunks fold_right]. rewrite append_empty_r.
    apply stream_single.
  - cbn [map app joinChunks fold_right sendAskQueryStream signalAbortedIn].
    fold (joinChunks (map terminated pieces ++ [rest])%list).
    unfold terminated at 1 3.
    rewrite append_assoc, splitLines_app_nl, forLines_app, forLines_terminated.
    destruct (forLines onChunk (splitLines p) s) as [s' [|e]];
      [apply IH|reflexivity].
Qed.



(** ** Cancellation *)

Ltac split_match :=
  match goal with
  | |- context [match ?x with _ => _ end] => destruct x eqn:?
  end.

Lemma writeContent_abort (a : nat) (c : string) (st : State) :
  abortControllerRef (writeContent a c st) = abortControllerRef st
  /\ signalAborted (writeContent a c st) = signalAborted st.
Proof. unfold writeContent. destruct (store st !! a); split; reflexivity. Qed.

Lemma updateStreaming_abort (env : Env) (c : string) (st : State) :
  abortControllerRef (updateStreaming env c st) = abortControllerRef st
  /\ signalAborted (updateStreaming env c st) = signalAborted st.
Proof.
  unfold updateStreaming. destruct (lastMsg st) as [[a m]|]; [|now split].
  destruct (String.eqb (id m) (streamingMessageId env)); [|now split].
  apply writeContent_abort.
Qed.

Lemma updateOrPush_abort (env : Env) (c c' : string) (st : State) :
  abortControllerRef (updateOrPush env c c' st) = abortControllerRef st
  /\ signalAborted (updateOrPush env c c' st) = signalAborted st.
Proof.
  unfold updateOrPush. destruct (lastMsg st) as [[a m]|]; [|now split].
  destruct (String.eqb (id m) (streamingMessageId env)); [|now split].
  apply writeContent_abort.
Qed.

Lemma stripConfirmation_abort (W : string) (st : State) :
  abortControllerRef (stripConfirmation W st) = abortControllerRef st
  /\ signalAborted (stripConfirmation W st) = signalAborted st.
Proof.
  unfold stripConfirmation. destruct (lastMsg st) as [[a m]|]; [|now split].
  destruct (role m); [now split|]. apply writeContent_abort.
Qed.

Lemma adoptConversationId_abort (env : Env) (data : json) (st : State) :
  abortControllerRef (adoptConversationId env data st) = abortControllerRef st
  /\ signalAborted (adoptConversationId env data st) = signalAborted st.
Proof.
  unfold adoptConversationId.
  destruct (truthy (closureConversationId env)); now split.
Qed.

Ltac abort_step :=
  first
    [ reflexivity
    | rewrite (proj1 (updateStreaming_abort _ _ _))
    | rewrite (proj2 (updateStreaming_abort _ _ _))
    | rewrite (proj1 (updateOrPush_abort _ _ _ _))
    | rewrite (proj2 (updateOrPush_abort _ _ _ _))
    | rewrite (proj1 (stripConfirmation_abort _ _))
    | rewrite (proj2 (stripConfirmation_abort _ _))
    | rewrite (proj1 (adoptConversationId_abort _ _ _))
    | rewrite (proj2 (adoptConversationId_abort _ _ _)) ].

(** No callback touches the controller or its signal. *)
Lemma onChunk_abort (mode : Mode) (env : Env) (data : json) (cs : Session) :
  abortControllerRef (snd (fst (onChunk mode env data cs)))
    = abortControllerRef (snd cs)
  /\ signalAborted (snd (fst (onChunk mode env data cs))) = signalAborted (snd cs).
Proof.
  destruct cs as [c st].
  destruct mode; unfold onChunk, askOnChunk, agentOnChunk;
    repeat split_match; cbn [fst snd]; split; repeat abort_step.
Qed.

Lemma forLines_abort (mode : Mode) (env : Env) (lines : list string)
  (cs : Session) :
  abortControllerRef (snd (fst (forLines (onChunk mode env) lines cs)))
    = abortControllerRef (snd cs)
  /\ signalAborted (snd (fst (forLines (onChunk mode env) lines cs)))
     = signalAborted (snd cs).
Proof.
  revert cs. induction lines as [|l lines IH]; intros cs; cbn [forLines];
    [now split|].
  destruct (startsWith "data: " l); [|apply IH].
  destruct (JsonParser.parse (slice 6 l)) as [d|]; [|now split].
  pose proof (onChunk_abort mode env d cs) as [H1 H2].
  destruct (onChunk mode env d cs) as [cs' [|e]]; cbn [fst snd] in *.
  - destruct (IH cs') as [H3 H4]. split; congruence.
  - now split.
Qed.

(** Without a stop, a stream in flight is the loop of the stream function
    over the chunks delivered. *)
Lemma streamRun_delivered (mode : Mode) (env : Env) (chunks : list string)
  (cs : Session) :
  streamRun mode env (map Delivered chunks) cs
  = sendAskQueryStream (onChunk mode env) (Some aborted) chunks cs.
Proof.
  revert cs. induction chunks as [|chunk chunks IH]; intros cs;
    cbn [map streamRun sendAskQueryStream signalAbortedIn]; [reflexivity|].
  destruct (aborted cs); [reflexivity|].
  destruct (forLines (onChunk mode env) (splitLines chunk) cs) as [cs' [|e]];
    [apply IH|reflexivity].
Qed.

Lemma confirmRun_delivered (cenv : ConfirmEnv) (op mdl : string)
  (chunks : list string) (ls : LayoutState) :
  Layout.confirmRun cenv op mdl (map Delivered chunks) ls
  = confirmAgentOperationStream (Layout.onEvent cenv op mdl) None chunks ls.
Proof.
  revert ls. induction chunks as [|chunk chunks IH]; intros ls;
    cbn [map Layout.confirmRun confirmAgentOperationStream signalAbortedIn];
    [reflexivity|].
  destruct (forLines (Layout.onEvent cenv op mdl) (splitLines chunk) ls)
    as [ls' [|e]]; [apply IH|reflexivity].
Qed.

(** Once the signal is aborted and the ref is cleared, nothing that occurs
    changes the session. *)
Lemma streamRun_stopped (mode : Mode) (env : Env) (occ : list Occurrence)
  (cs : Session) :
  signalAborted (snd cs) = true -> abortControllerRef (snd cs) = false ->
  streamRun mode env occ cs = (cs, Normal).
Proof.
  revert cs. induction occ as [|o occ IH]; intros [c st] Ha Hr; [reflexivity|].
  destruct o as [chunk|]; cbn [streamRun fst snd] in *.
  - unfold aborted. cbn [snd]. now rewrite Ha.
  - unfold handleStopGeneration. rewrite Hr. now apply IH.
Qed.

Lemma streamRun_delivered_app (mode : Mode) (env : Env) (pre : list string)
  (rest : list Occurrence) (cs cs1 : Session) :
  signalAborted (snd cs) = false ->
  streamRun mode env (map Delivered pre) cs = (cs1, Normal) ->
  streamRun mode env (map Delivered pre ++ rest)%list cs
    = streamRun mode env rest cs1
  /\ signalAborted (snd cs1) = false
  /\ abortControllerRef (snd cs1) = abortControllerRef (snd cs).
Proof.
  revert cs. induction pre as [|chunk pre IH]; intros cs Ha Hrun.
  - cbn in Hrun. injection Hrun as <-. now repeat split.
  - cbn [map app streamRun] in *. unfold aborted in *. rewrite Ha in *.
    pose proof (forLines_abort mode env (splitLines chunk) cs) as [H1 H2].
    destruct (forLines (onChunk mode env) (splitLines chunk) cs)
      as [cs' [|e]]; cbn [fst snd] in *.
    + destruct (IH cs') as (E1 & E2 & E3); [congruence|exact Hrun|].
      repeat split; congruence.
    + rewrite H2, Ha in Hrun. discriminate.
Qed.

(** C9, the claim as stated fails: in the state reached when the agent
    stream has asked for a confirmation and ended, no stream is open;
    [handleStopGeneration] returns the state as it is, with the pending
    operation still in it, and nothing is rejected or queued. *)
Lemma C9_stop_while_awaiting_is_a_silent_no_op :
  abortControllerRef Samples.awaiting = false
  /\ handleStopGeneration Samples.awaiting = Samples.awaiting
  /\ pendingOperation (handleStopGeneration Samples.awaiting)
     = Some Samples.deleteOperation.
Proof. vm_compute. repeat split. Qed.

(** C9, amended: once [handleSendMessage] has returned, so that no stream
    is open and the ref holds no controller, a stop is a silent no-op: the
    state it returns is the state it was given, pending operation included.
    In no state at all does a stop change the pending operation. *)
Theorem C9_stop_without_stream_changes_nothing (mode : Mode) (env : Env)
  (userMessage : Message) (report : Error -> Message)
  (occ : list Occurrence) (st0 st : State) :
  let idle := handleSendMessage mode env userMessage report occ st0 in
  abortControllerRef idle = false
  /\ handleStopGeneration idle = idle
  /\ pendingOperation (handleStopGeneration st) = pendingOperation st.
Proof.
  cbv zeta.
  assert (H : abortControllerRef
                (handleSendMessage mode env userMessage report occ st0)
              = false).
  { unfold handleSendMessage.
    now destruct (streamRun mode env occ
                    (initialClosure, beginSend userMessage st0))
      as [cs [|e]]. }
  split; [exact H|]. split.
  - unfold handleStopGeneration. now rewrite H.
  - unfold handleStopGeneration. now destruct (abortControllerRef st).
Qed.

(** C1, the claim as stated fails: the stream of a confirmation round is
    opened without a signal.  With the agent stream still open when Execute
    is pressed, a stop issued after the first event of the confirmation
    round aborts the signal of the agent stream, and the event that the
    confirmation round delivers afterwards is applied to the active message
    all the same. *)
Lemma C1_event_after_stop_is_applied :
  let stopped :=
    fst (Layout.confirmRun Samples.cenv "DELETE" "gemini-2.5-flash"
           [Delivered Samples.sqlQueryChunk; StopPressed]
           Samples.executingEarly) in
  let delivered :=
    fst (Layout.confirmRun Samples.cenv "DELETE" "gemini-2.5-flash"
           [Delivered Samples.sqlQueryChunk; StopPressed;
            Delivered Samples.summaryChunk] Samples.executingEarly) in
  abortControllerRef (hook Samples.executingEarly) = true
  /\ signalAborted (hook stopped) = true
  /\ lastContent (hook delivered)
     = lastContent (hook stopped) ++ summaryHeader ++ "Deleted 3 orders."
  /\ lastContent (hook delivered) <> lastContent (hook stopped).
Proof. vm_compute. repeat split. discriminate. Qed.

Lemma streamRun_after_stop (mode : Mode) (env : Env) (pre : list string)
  (post : list Occurrence) (cs : Session) :
  abortControllerRef (snd cs) = true ->
  signalAborted (snd cs) = false ->
  streamRun mode env (map Delivered pre ++ StopPressed :: post)%list cs
  = streamRun mode env (map Delivered pre ++ [StopPressed])%list cs.
Proof.
  revert cs. induction pre as [|chunk pre IH]; intros cs Hr Ha.
  - cbn [map app streamRun].
    assert (Hs : handleStopGeneration (snd cs)
                 = setIsLoading false (setAbort false true (snd cs))).
    { unfold handleStopGeneration. now rewrite Hr. }
    apply streamRun_stopped; cbn [snd]; rewrite Hs; reflexivity.
  - cbn [map app streamRun]. unfold aborted. rewrite Ha.
    pose proof (forLines_abort mode env (splitLines chunk) cs) as [H1 H2].
    destruct (forLines (onChunk mode env) (splitLines chunk) cs)
      as [cs' [|e]]; cbn [fst snd] in *; [|reflexivity].
    apply IH; congruence.
Qed.

(** The freeze at work: a stop after the first chunk of an agent stream
    keeps the chunk with the SQL block out of the message, which the same
    stream shows when it is not stopped. *)
Example stop_keeps_the_next_chunk_out :
  let report := fun _ : Error => errorReport "1700000000002" "10:00" "error" in
  lastContent
    (handleSendMessage agent Samples.env Samples.userMessage report
       [Delivered Samples.greetingChunk; StopPressed;
        Delivered Samples.sqlQueryChunk] Samples.emptyState) = EmptyString
  /\ lastContent
       (handleSendMessage agent Samples.env Samples.userMessage report
          [Delivered Samples.greetingChunk; Delivered Samples.sqlQueryChunk]
          Samples.emptyState) <> EmptyString.
Proof. vm_compute. split; [reflexivity|discriminate]. Qed.

(** C1, amended: in the ask and agent streams, a stop issued between two
    chunks freezes the transcript: whatever occurs after it (chunks
    delivered all the same, further stops), [handleSendMessage] ends in the
    state it ends in when nothing occurs after the stop.  (The signal of
    these streams is given to [fetch] and tested before every read; the
    callbacks themselves do not test for cancellation, and the stream of a
    confirmation round has no signal.) *)
Theorem C1_stop_freezes_ask_and_agent_streams (mode : Mode) (env : Env)
  (userMessage : Message) (report : Error -> Message) (pre : list string)
  (post : list Occurrence) (st : State) :
  handleSendMessage mode env userMessage report
    (map Delivered pre ++ StopPressed :: post)%list st
  = handleSendMessage mode env userMessage report
      (map Delivered pre ++ [StopPressed])%list st.
Proof.
  unfold handleSendMessage.
  now rewrite (streamRun_after_stop mode env pre post
                 (initialClosure, beginSend userMessage st) eq_refl eq_refl).
Qed.

(** ** The frame of the handlers *)

Import Spec.

Lemma distinct_NoDup (l : list nat) : distinct l = true -> NoDup l.
Proof.
  induction l as [|a l IH]; cbn [distinct]; intros H; [constructor|].
  apply andb_prop in H as [H1 H2]. constructor; [|auto].
  intros Hin. apply negb_true_iff in H1.
  assert (existsb (Nat.eqb a) l = true); [|congruence].
  apply existsb_exists. exists a. split; [now apply list_elem_of_In|].
  apply Nat.eqb_refl.
Qed.

Lemma wellFormed_bound (st : State) (i a : nat) :
  wellFormed st = true -> messages st !! i = Some a ->
  (a < length (store st))%nat.
Proof.
  unfold wellFormed. intros H Hi. apply andb_prop in H as [_ H].
  rewrite forallb_forall in H.
  apply Nat.ltb_lt, H, list_elem_of_In, list_elem_of_lookup. eauto.
Qed.

(** With distinct references, a reference before the last is not the last. *)
Lemma earlier_is_not_last (st : State) (i a b : nat) :
  wellFormed st = true ->
  messages st !! i = Some a -> (S i < length (messages st))%nat ->
  last (messages st) = Some b -> a <> b.
Proof.
  intros H Hi Hlt Hl ->. unfold wellFormed in H.
  apply andb_prop in H as [H _]. apply distinct_NoDup in H.
  rewrite last_lookup in Hl.
  pose proof (NoDup_lookup _ _ _ _ H Hi Hl). lia.
Qed.

Lemma lastMsg_inv (st : State) (a : nat) (m : Message) :
  lastMsg st = Some (a, m) ->
  last (messages st) = Some a /\ store st !! a = Some m.
Proof.
  unfold lastMsg. destruct (last (messages st)) as [b|]; [|discriminate].
  destruct (store st !! b) as [m'|] eqn:E; [|discriminate].
  intros [= <- <-]. now split.
Qed.

Section Framed.
Variable guard : Message -> bool.
Variables st st1 : State.
Hypothesis Hwf : wellFormed st = true.
Hypothesis Hstore : store st1 = store st.
Hypothesis Hrefs : messages st1 = messages st.

Lemma framed_same : framed guard st st1.
Proof using Hstore Hrefs.
  repeat split.
  - intros. now rewrite Hstore.
  - intros a m H. apply lastMsg_inv in H as [_ H]. left. now rewrite Hstore.
  - now left.
Qed.

Lemma lastMsg_same : lastMsg st1 = lastMsg st.
Proof using Hstore Hrefs. unfold lastMsg. now rewrite Hstore, Hrefs. Qed.

Lemma framed_write (a : nat) (m : Message) (c : string) :
  lastMsg st = Some (a, m) -> guard m = true ->
  framed guard st (writeContent a c st1).
Proof using Hwf Hstore Hrefs.
  intros Hl Hg. apply lastMsg_inv in Hl as [Hl Hm].
  unfold writeContent. rewrite Hstore, Hm.
  repeat split; cbn [store messages setStore].
  - intros i b Hi Hlt. apply list_lookup_insert_ne.
    intros ->. now apply (earlier_is_not_last st i b b Hwf Hi Hlt Hl).
  - intros b m' H. apply lastMsg_inv in H as [H1 H2].
    assert (b = a) as -> by congruence.
    assert (m' = m) as -> by congruence.
    right. split; [exact Hg|]. exists c.
    apply list_lookup_insert_eq. now apply lookup_lt_Some in Hm.
  - left. exact Hrefs.
Qed.

Lemma framed_push (m : Message) : framed guard st (pushMessage m st1).
Proof using Hwf Hstore Hrefs.
  unfold pushMessage.
  repeat split; cbn [store messages setStore setMessageRefs]; rewrite Hstore.
  - intros i b Hi Hlt. apply lookup_app_l.
    now apply (wellFormed_bound st i b).
  - intros b m' H. apply lastMsg_inv in H as [_ H]. left.
    rewrite lookup_app_l; [exact H|]. now apply lookup_lt_Some in H.
  - right. now rewrite Hrefs.
Qed.

End Framed.


Lemma writeContent_twice (a : nat) (c1 c2 : string) (st : State) :
  writeContent a c2 (writeContent a c1 st) = writeContent a c2 st.
Proof.
  unfold writeContent. destruct (store st !! a) as [m|] eqn:E.
  - cbn [store setStore].
    rewrite list_lookup_insert_eq by (now apply lookup_lt_Some in E).
    unfold setStore. cbn. now rewrite list_insert_insert_eq.
  - now rewrite E.
Qed.

Section FramedUpdaters.
Variable guard : Message -> bool.
Variables st st1 : State.
Hypothesis Hwf : wellFormed st = true.
Hypothesis Hstore : store st1 = store st.
Hypothesis Hrefs : messages st1 = messages st.

Lemma framed_updateStreaming (env : Env) (c : string) :
  framed (isActive env) st (updateStreaming env c st1).
Proof using Hwf Hstore Hrefs.
  unfold updateStreaming. rewrite (lastMsg_same st st1 Hstore Hrefs).
  destruct (lastMsg st) as [[a m]|] eqn:El; [|now apply framed_same].
  destruct (String.eqb (id m) (streamingMessageId env)) eqn:Ei;
    [|now apply framed_same].
  apply (framed_write _ st st1 Hwf Hstore Hrefs a m c El).
  unfold isActive. now rewrite Ei.
Qed.

Lemma framed_updateOrPush (env : Env) (c c' : string) :
  framed (isActive env) st (updateOrPush env c c' st1).
Proof using Hwf Hstore Hrefs.
  unfold updateOrPush. rewrite (lastMsg_same st st1 Hstore Hrefs).
  destruct (lastMsg st) as [[a m]|] eqn:El; [|now apply framed_push].
  destruct (String.eqb (id m) (streamingMessageId env)) eqn:Ei;
    [|now apply framed_push].
  apply (framed_write _ st st1 Hwf Hstore Hrefs a m c El).
  unfold isActive. now rewrite Ei.
Qed.

Hypothesis Hguard : forall m, isAssistant m = true -> guard m = true.

Lemma framed_stripConfirmation (W : string) :
  framed guard st (stripConfirmation W st1).
Proof using Hwf Hstore Hrefs Hguard.
  unfold stripConfirmation. rewrite (lastMsg_same st st1 Hstore Hrefs).
  destruct (lastMsg st) as [[a m]|] eqn:El; [|now apply framed_same].
  destruct (role m) eqn:Er; [now apply framed_same|].
  apply (framed_write _ st st1 Hwf Hstore Hrefs a m _ El).
  apply Hguard. unfold isAssistant. now rewrite Er.
Qed.

Lemma framed_appendUnless (skip : string -> bool) (text : string) :
  framed guard st (appendUnless skip text st1).
Proof using Hwf Hstore Hrefs Hguard.
  unfold appendUnless. rewrite (lastMsg_same st st1 Hstore Hrefs).
  destruct (lastMsg st) as [[a m]|] eqn:El; [|now apply framed_same].
  destruct (role m) eqn:Er; [now apply framed_same|].
  destruct (skip (content m)); [now apply framed_same|].
  apply (framed_write _ st st1 Hwf Hstore Hrefs a m _ El).
  apply Hguard. unfold isAssistant. now rewrite Er.
Qed.

Lemma framed_appendSummaryChunk (chunk : string) :
  framed guard st (appendSummaryChunk chunk st1).
Proof using Hwf Hstore Hrefs Hguard.
  unfold appendSummaryChunk. rewrite (lastMsg_same st st1 Hstore Hrefs).
  destruct (lastMsg st) as [[a m]|] eqn:El; [|now apply framed_same].
  destruct (role m) eqn:Er; [now apply framed_same|].
  assert (Hg : guard m = true).
  { apply Hguard. unfold isAssistant. now rewrite Er. }
  cbv zeta. rewrite !writeContent_twice.
  repeat split_match;
    apply (framed_write _ st st1 Hwf Hstore Hrefs a m _ El Hg).
Qed.
End FramedUpdaters.

Lemma isAssistant_isActive (env : Env) (m : Message) :
  isAssistant m = true -> isActive env m = true.
Proof. unfold isActive. intros ->. apply orb_true_r. Qed.

Ltac framed_step :=
  first
    [ apply framed_updateStreaming; [assumption|reflexivity|reflexivity]
    | apply framed_updateOrPush; [assumption|reflexivity|reflexivity]
    | apply framed_push; [assumption|reflexivity|reflexivity]
    | apply framed_stripConfirmation;
      [assumption|reflexivity|reflexivity|auto using isAssistant_isActive]
    | apply framed_appendUnless;
      [assumption|reflexivity|reflexivity|auto using isAssistant_isActive]
    | apply framed_appendSummaryChunk;
      [assumption|reflexivity|reflexivity|auto using isAssistant_isActive]
    | apply framed_same; reflexivity ].

Lemma framed_adoptConversationId (guard : Message -> bool) (env : Env)
  (data : json) (st st1 : State) :
  store st1 = store st -> messages st1 = messages st ->
  framed guard st (adoptConversationId env data st1).
Proof.
  intros H1 H2. unfold adoptConversationId.
  destruct (truthy (closureConversationId env)); now apply framed_same.
Qed.

Lemma loadConversationSync_frame (guard : Message -> bool)
  (tok : option string) (st st1 : State) :
  store st1 = store st -> messages st1 = messages st ->
  framed guard st (loadConversationSync tok st1)
  \/ reloading st (loadConversationSync tok st1).
Proof.
  intros H1 H2. unfold loadConversationSync.
  destruct tok as [t|]; [|left; now apply framed_same].
  destruct (nonEmpty t); [|left; now apply framed_same].
  right. split; [exact H1|reflexivity].
Qed.

Lemma onChunk_framed (mode : Mode) (env : Env) (data : json) (c : Closure)
  (st : State) :
  wellFormed st = true ->
  framed (isActive env) st (snd (fst (onChunk mode env data (c, st)))).
Proof.
  intros Hwf.
  destruct mode; unfold onChunk, askOnChunk, agentOnChunk;
    repeat split_match; cbn [fst snd];
    first [ framed_step
          | apply framed_adoptConversationId; reflexivity ].
Qed.

Lemma onEvent_framed (cenv : ConfirmEnv) (op mdl : string)
  (data : json) (ls : LayoutState) :
  wellFormed (hook ls) = true ->
  framed isAssistant (hook ls) (hook (fst (onEvent cenv op mdl data ls)))
  \/ (isStr "confirmation_required" (prop data "type") = true
      /\ truthy (renderConversationId cenv) = true
      /\ reloading (hook ls) (hook (fst (onEvent cenv op mdl data ls)))).
Proof.
  intros Hwf. unfold onEvent.
  repeat split_match; cbn [fst hook onHook setLocalStatus setIsStreaming];
    first
      [ left; framed_step
      | match goal with
        | |- _ \/ (_ /\ _ /\ reloading _ (loadConversationSync ?t ?s1)) =>
            destruct (loadConversationSync_frame isAssistant t (hook ls) s1
                        eq_refl eq_refl) as [H|H];
            [left; exact H|right; split; [reflexivity|split; [reflexivity|exact H]]]
        end ].
Qed.




(** ** Events applied twice *)

Lemma includes_unfold (p s : string) :
  includes p s =
  if startsWith p s then true
  else match s with
       | EmptyString => false
       | String _ s' => includes p s'
       end.
Proof. destruct s; reflexivity. Qed.

Lemma includes_app (p a b : string) : includes p (a ++ p ++ b) = true.
Proof.
  induction a as [|x a IH].
  - change (EmptyString ++ p ++ b) with (p ++ b).
    rewrite includes_unfold. now rewrite startsWith_app.
  - change (String x a ++ p ++ b) with (String x (a ++ p ++ b)).
    rewrite includes_unfold. rewrite IH.
    now destruct (startsWith p (String x (a ++ p ++ b))).
Qed.

Lemma includes_head (p b : string) : includes p (p ++ b) = true.
Proof. rewrite includes_unfold. now rewrite startsWith_app. Qed.

Lemma includes_self (p : string) : includes p p = true.
Proof. rewrite <- (append_empty_r p) at 2. apply includes_head. Qed.

Lemma includes_app_r (p a s : string) :
  includes p s = true -> includes p (a ++ s) = true.
Proof.
  intros H. induction a as [|x a IH]; [exact H|].
  change (String x a ++ s) with (String x (a ++ s)).
  rewrite includes_unfold, IH. now destruct (startsWith p _).
Qed.

Lemma lastMsg_writeContent (a : nat) (m : Message) (c : string) (st : State) :
  lastMsg st = Some (a, m) ->
  lastMsg (writeContent a c st) = Some (a, withContent c m).
Proof.
  intros H. apply lastMsg_inv in H as [Hl Hm].
  unfold lastMsg, writeContent. rewrite Hm. cbn [messages store setStore].
  rewrite Hl. rewrite list_lookup_insert_eq; [reflexivity|].
  now apply lookup_lt_Some in Hm.
Qed.

Lemma updateStreaming_twice (env : Env) (c1 c2 : string) (st : State) :
  updateStreaming env c2 (updateStreaming env c1 st) = updateStreaming env c2 st.
Proof.
  unfold updateStreaming at 2 3.
  destruct (lastMsg st) as [[a m]|] eqn:El.
  - destruct (String.eqb (id m) (streamingMessageId env)) eqn:Ei.
    + unfold updateStreaming. rewrite (lastMsg_writeContent a m c1 st El).
      cbn [id withContent]. rewrite Ei. apply writeContent_twice.
    + unfold updateStreaming. now rewrite El, Ei.
  - unfold updateStreaming. now rewrite El.
Qed.

Lemma appendUnless_twice (skip : string -> bool) (text : string) (st : State) :
  (forall c, skip (c ++ text) = true) ->
  appendUnless skip text (appendUnless skip text st) = appendUnless skip text st.
Proof.
  intros Hskip. unfold appendUnless at 2 3.
  destruct (lastMsg st) as [[a m]|] eqn:El.
  - destruct (role m) eqn:Er.
    + unfold appendUnless. now rewrite El, Er.
    + destruct (skip (content m)) eqn:Es.
      * unfold appendUnless. now rewrite El, Er, Es.
      * unfold appendUnless.
        rewrite (lastMsg_writeContent a m _ st El).
        cbn [role content withContent]. now rewrite Er, Hskip.
  - unfold appendUnless. now rewrite El.
Qed.

Lemma isStr_true (lit : string) (v : value) :
  isStr lit v = true -> v = Some (JStr lit).
Proof.
  destruct v as [[| | | s | |]|]; cbn; try discriminate.
  intros H. apply String.eqb_eq in H. now subst.
Qed.

Lemma isStr_false (lit lit' : string) (v : value) :
  v = Some (JStr lit) -> lit <> lit' -> isStr lit' v = false.
Proof.
  intros -> H. cbn. apply String.eqb_neq. congruence.
Qed.

(** The tests on the kind of an event, once its type is known. *)
Ltac eval_kinds :=
  repeat match goal with
    | |- context [isStr ?a (Some (JStr ?b))] =>
        let r := eval vm_compute in (isStr a (Some (JStr b))) in
        change (isStr a (Some (JStr b))) with r
    end;
  cbv iota.

Lemma isNull_of_type (data : json) (k : string) :
  prop data "type" = Some (JStr k) -> isNull data = false.
Proof. destruct data; try reflexivity. discriminate. Qed.

Ltac by_kind H :=
  rewrite (isNull_of_type _ _ H), H; eval_kinds.

Lemma onEvent_sql_query (cenv : ConfirmEnv) (op mdl : string) (data : json)
  (ls : LayoutState) :
  prop data "type" = Some (JStr "sql_query") ->
  Layout.onEvent cenv op mdl data ls =
  (onHook (appendUnless (includes (toStr (prop data "content")))
             (nl ++ nl ++ "**Executed SQL Query:**" ++ nl ++ fence ++ "sql"
              ++ nl ++ toStr (prop data "content") ++ nl ++ fence)) ls,
   Normal).
Proof. intros H. unfold Layout.onEvent. by_kind H. reflexivity. Qed.

Lemma onEvent_chart_config (cenv : ConfirmEnv) (op mdl : string) (data : json)
  (ls : LayoutState) :
  prop data "type" = Some (JStr "chart_config") ->
  Layout.onEvent cenv op mdl data ls =
  (let chartContent :=
     nl ++ nl ++ fence ++ "chart" ++ nl ++ stringify2 (prop data "content")
     ++ nl ++ fence in
   (onHook (appendUnless (includes chartContent) chartContent) ls, Normal)).
Proof. intros H. unfold Layout.onEvent. by_kind H. reflexivity. Qed.

Lemma onEvent_final_answer_complete (cenv : ConfirmEnv) (op mdl : string)
  (data : json) (ls : LayoutState) :
  prop data "type" = Some (JStr "final_answer_complete") ->
  Layout.onEvent cenv op mdl data ls = (ls, Normal).
Proof. intros H. unfold Layout.onEvent. by_kind H. reflexivity. Qed.

Lemma onChunk_final_answer_complete (mode : Mode) (env : Env) (data : json)
  (c : Closure) (st : State) :
  prop data "type" = Some (JStr "final_answer_complete") ->
  onChunk mode env data (c, st) =
  (let c1 := setFinalAnswer (toStr (prop data "content")) c in
   ((c1, updateStreaming env (buildContent mode env c1) st), Normal)).
Proof.
  intros H.
  destruct mode; unfold onChunk, askOnChunk, agentOnChunk; by_kind H;
    reflexivity.
Qed.

Lemma onHook_twice (f : State -> State) (ls : LayoutState) :
  f (f (hook ls)) = f (hook ls) -> onHook f (onHook f ls) = onHook f ls.
Proof. unfold onHook. cbn [hook localStatus isStreaming]. now intros ->. Qed.




(** ** The shape of a [sql_result] *)

Lemma askOnChunk_sql_result (env : Env) (data : json) (c : Closure)
  (st : State) :
  prop data "type" = Some (JStr "sql_result") ->
  askOnChunk env data (c, st) =
  (let c1 :=
     match prop data "content" with
     | Some result =>
         if truthy (prop data "content") && truthy (prop result "success")
         then appendAccumulated (rowsBlock result) c
         else c
     | None => c
     end in
   ((c1, updateStreaming env (buildContentAsk env c1) st), Normal)).
Proof. intros H. unfold askOnChunk. by_kind H. reflexivity. Qed.

Lemma agentOnChunk_sql_result (env : Env) (data : json) (c : Closure)
  (st : State) :
  prop data "type" = Some (JStr "sql_result") ->
  agentOnChunk env data (c, st) =
  (let c1 :=
     match prop data "content" with
     | Some result =>
         if truthy (prop data "content") && truthy (prop result "success") then
           match prop result "data" with
           | Some rows =>
               if truthy (Some rows) && lengthPositive rows
               then appendAccumulated (rowsBlock result) c
               else appendAccumulated (mutationLine result) c
           | None => appendAccumulated (mutationLine result) c
           end
         else c
     | None => c
     end in
   ((c1, updateStreaming env (buildContentAgent env c1) st), Normal)).
Proof. intros H. unfold agentOnChunk. by_kind H. reflexivity. Qed.

Lemma truthy_of_success (result : json) :
  prop result "success" = Some (JBool true) -> truthy (Some result) = true.
Proof. destruct result; try discriminate; reflexivity. Qed.

(** C8, the claim as stated fails: a successful payload whose [data] is an
    empty array is rendered by the agent callback as a mutation line, where
    the ask callback and the callback of a confirmation round render the
    same payload as a row-returning block. *)
Lemma C8_empty_data_array_is_a_mutation_line_in_agent_mode :
  let c := fst (fst (agentOnChunk Samples.env Samples.noRowsEvent
                       Samples.streaming)) in
  let c' := fst (fst (askOnChunk Samples.env Samples.noRowsEvent
                        Samples.streaming)) in
  accumulatedContent c = mutationLine Samples.noRows
  /\ accumulatedContent c = nl ++ "**" ++ Hook.glyphCheck ++ " Result:** 0 row(s) affected"
  /\ accumulatedContent c <> rowsBlock Samples.noRows
  /\ accumulatedContent c' = rowsBlock Samples.noRows.
Proof. vm_compute. repeat split. discriminate. Qed.

(** C8, amended: a successful [sql_result] is classified by each callback
    in its own way.  The ask callback renders every one as a row-returning
    block.  The agent callback renders a row-returning block when [data] is
    an array that is not empty, and a mutation line when [data] is an empty
    array or is absent.  The callback of a confirmation round renders a
    row-returning block when [data] is an array, empty or not, and a
    mutation line when there is no [data], the operation is not empty and
    [row_count] is a number. *)
Theorem C8_sql_result_classification (data result : json) :
  prop data "type" = Some (JStr "sql_result") ->
  prop data "content" = Some result ->
  prop result "success" = Some (JBool true) ->
  (forall env c st,
      accumulatedContent (fst (fst (askOnChunk env data (c, st))))
      = accumulatedContent c ++ rowsBlock result)
  /\ (forall env c st x l,
        prop result "data" = Some (JArr (x :: l)) ->
        accumulatedContent (fst (fst (agentOnChunk env data (c, st))))
        = accumulatedContent c ++ rowsBlock result)
  /\ (forall env c st,
        prop result "data" = Some (JArr []) \/ prop result "data" = None ->
        accumulatedContent (fst (fst (agentOnChunk env data (c, st))))
        = accumulatedContent c ++ mutationLine result)
  /\ (forall cenv op mdl ls l,
        prop result "data" = Some (JArr l) ->
        Layout.onEvent cenv op mdl data ls
        = (onHook (appendUnless (includes (resultContent result))
                     (resultContent result)) ls, Normal))
  /\ (forall cenv op mdl ls,
        prop result "data" = None ->
        nonEmpty op = true ->
        isNumber (prop result "row_count") = true ->
        Layout.onEvent cenv op mdl data ls
        = (onHook (appendUnless (includes (resultText op result))
                     (nl ++ nl ++ resultText op result))
             (setLocalStatus "Operation completed, analyzing next steps..." ls),
           Normal)).
Proof.
  intros Ht Hc Hs. pose proof (truthy_of_success result Hs) as Hr.
  repeat split.
  - intros env c st. rewrite (askOnChunk_sql_result env data c st Ht).
    cbv zeta. rewrite Hc, Hr, Hs. reflexivity.
  - intros env c st x l Hd. rewrite (agentOnChunk_sql_result env data c st Ht).
    cbv zeta. rewrite Hc, Hr, Hs, Hd. reflexivity.
  - intros env c st Hd. rewrite (agentOnChunk_sql_result env data c st Ht).
    cbv zeta. rewrite Hc, Hr, Hs. destruct Hd as [-> | ->]; reflexivity.
  - intros cenv op mdl ls l Hd. unfold Layout.onEvent. by_kind Ht.
    unfold isConfirmationResult. rewrite Hc, Hr, Hs, Hd.
    cbn [truthy negb andb isBoolean]. rewrite !andb_false_r. reflexivity.
  - intros cenv op mdl ls Hd Hop Hn. unfold Layout.onEvent. by_kind Ht.
    unfold isConfirmationResult. rewrite Hc, Hr, Hs, Hd, Hop, Hn.
    reflexivity.
Qed.

Lemma C8_sql_result_classification_witness :
  prop Samples.noRowsEvent "type" = Some (JStr "sql_result")
  /\ prop Samples.noRowsEvent "content" = Some Samples.noRows
  /\ prop Samples.noRows "success" = Some (JBool true)
  /\ (forall env c st,
         accumulatedContent
           (fst (fst (agentOnChunk env Samples.noRowsEvent (c, st))))
         = accumulatedContent c ++ mutationLine Samples.noRows)
  /\ (forall cenv op mdl ls,
         Layout.onEvent cenv op mdl Samples.noRowsEvent ls
         = (onHook (appendUnless (includes (resultContent Samples.noRows))
                      (resultContent Samples.noRows)) ls, Normal)).
Proof.
  split; [reflexivity|]. split; [reflexivity|]. split; [reflexivity|].
  destruct (C8_sql_result_classification Samples.noRowsEvent Samples.noRows)
    as (_ & _ & H3 & H4 & _); [reflexivity|reflexivity|reflexivity|].
  split.
  - intros env c st. apply H3. left. reflexivity.
  - intros cenv op mdl ls. apply (H4 cenv op mdl ls []). reflexivity.
Defined.

(** ** The rejection of a confirmation *)

Lemma slice_app (a b : string) : slice (String.length a) (a ++ b) = b.
Proof. induction a as [|x a IH]; [reflexivity|exact IH]. Qed.

Lemma slice_app_more (a b : string) (n : nat) :
  slice (String.length a + n) (a ++ b) = slice n b.
Proof. induction a as [|x a IH]; [reflexivity|exact IH]. Qed.

Lemma removeAll_skip (f : string -> option nat) (s : string) (n : nat) :
  (String.length s <= n)%nat -> removeAll f n s = EmptyString.
Proof.
  revert n. induction s as [|c s IH]; intros n H; [reflexivity|].
  cbn [String.length] in H. destruct n as [|n]; [lia|].
  cbn [removeAll]. apply IH. lia.
Qed.

Lemma spanLen_app (p : ascii -> bool) (a : string) (c : ascii) (z : string) :
  (forall b s1 s2, a = s1 ++ String b s2 -> p b = true) ->
  p c = false ->
  spanLen p (a ++ String c z) = String.length a.
Proof.
  intros Ha Hc. induction a as [|x a IH].
  - cbn. now rewrite Hc.
  - change (String x a ++ String c z) with (String x (a ++ String c z)).
    cbn [spanLen String.length]. rewrite (Ha x EmptyString a eq_refl).
    f_equal. apply IH. intros b s1 s2 ->.
    apply (Ha b (String x s1) s2 eq_refl).
Qed.

Lemma noGt_spec (a : string) :
  noGt a = true ->
  forall b s1 s2, a = s1 ++ String b s2 -> negb (isChar 62 b) = true.
Proof.
  induction a as [|x a IH]; intros H b s1 s2 E.
  - destruct s1; discriminate.
  - cbn [noGt] in H. apply andb_prop in H as [H1 H2].
    destruct s1 as [|y s1]; cbn in E; injection E as -> ->; [exact H1|].
    now apply (IH H2 b s1 s2).
Qed.

Lemma noGt_app (a b : string) : noGt (a ++ b) = noGt a && noGt b.
Proof.
  induction a as [|x a IH]; [reflexivity|].
  change (String x a ++ b) with (String x (a ++ b)).
  cbn [noGt]. now rewrite IH, andb_assoc.
Qed.

(** A directive with attributes is one match of the pattern, whole. *)
Lemma matchDirective_directive (attrs rest : string) :
  attrs <> EmptyString -> noGt attrs = true ->
  matchDirective (directive attrs ++ rest)
  = Some (String.length (directive attrs)).
Proof.
  intros Hne Hgt. unfold matchDirective, directive.
  rewrite !append_assoc, startsWith_app, slice_app.
  assert (Hspan : spanLen (fun c => negb (isChar 62 c))
                    (attrs ++ "/>" ++ rest) = S (String.length attrs)).
  { replace (attrs ++ "/>" ++ rest) with ((attrs ++ "/") ++ String ">" rest)
      by (now rewrite append_assoc).
    rewrite spanLen_app.
    - rewrite length_append. cbn. lia.
    - apply noGt_spec. rewrite noGt_app, Hgt. reflexivity.
    - reflexivity. }
  rewrite Hspan.
  assert (Hlen : (2 <=? S (String.length attrs))%nat = true).
  { apply Nat.leb_le. destruct attrs; [congruence|cbn; lia]. }
  rewrite Hlen.
  replace (S (String.length attrs)) with (String.length (attrs ++ "/") + 0)%nat
    at 1 by (rewrite length_append; cbn; lia).
  replace (attrs ++ "/>" ++ rest) with ((attrs ++ "/") ++ String ">" rest)
    by (now rewrite append_assoc).
  rewrite slice_app_more.
  replace (S (String.length attrs) - 1)%nat with (String.length attrs + 0)%nat
    by lia.
  rewrite append_assoc, slice_app_more.
  cbn [slice startsWith andb]. rewrite !Ascii.eqb_refl. cbn [andb].
  f_equal. rewrite !length_append. cbn. lia.
Qed.

Lemma startsWith_app_inv (p t : string) (c : ascii) (z : string) :
  startsWith p (t ++ String c z) = true ->
  startsWith p t = true
  \/ existsb (Ascii.eqb c) (list_ascii_of_string p) = true.
Proof.
  revert t. induction p as [|a p IH]; intros t H; [now left|].
  destruct t as [|b t].
  - cbn [String.append startsWith] in H.
    destruct (Ascii.eqb a c) eqn:E; [|discriminate].
    right. cbn [list_ascii_of_string existsb].
    rewrite Ascii.eqb_sym, E. reflexivity.
  - change (String b t ++ String c z) with (String b (t ++ String c z)) in H.
    cbn [startsWith] in *.
    destruct (Ascii.eqb a b); [|discriminate].
    destruct (IH t H) as [H1|H1]; [now left|].
    right. cbn [list_ascii_of_string existsb]. rewrite H1. apply orb_true_r.
Qed.

Lemma startsWith_includes (p s : string) :
  startsWith p s = true -> includes p s = true.
Proof. intros H. rewrite includes_unfold. now rewrite H. Qed.

Lemma includes_cons (p : string) (c : ascii) (s : string) :
  includes p s = true -> includes p (String c s) = true.
Proof.
  intros H. rewrite includes_unfold, H. now destruct (startsWith p _).
Qed.

Lemma includes_cons_false (p : string) (c : ascii) (s : string) :
  includes p (String c s) = false -> includes p s = false.
Proof.
  intros H. destruct (includes p s) eqn:E; [|reflexivity].
  now rewrite (includes_cons p c s E) in H.
Qed.

Lemma directive_unfold (attrs : string) :
  directive attrs
  = String (chr 10) (String (chr 10) ("<confirmation" ++ attrs ++ "/>")).
Proof. reflexivity. Qed.

Lemma append_cons (c : ascii) (a b : string) :
  String c a ++ b = String c (a ++ b).
Proof. reflexivity. Qed.

Lemma startsWith_cons (a b : ascii) (p s : string) :
  startsWith (String a p) (String b s)
  = if Ascii.eqb a b then startsWith p s else false.
Proof. reflexivity. Qed.

(** No match of the pattern starts inside a text without the tag name. *)
Lemma matchDirective_inside (c : ascii) (x attrs : string) :
  includes "<confirmation" (String c x) = false ->
  matchDirective (String c x ++ directive attrs) = None.
Proof.
  intros H. unfold matchDirective.
  destruct (startsWith directiveOpen (String c x ++ directive attrs)) eqn:E;
    [exfalso|reflexivity].
  rewrite append_cons in E.
  replace directiveOpen
    with (String (chr 10) (String (chr 10) "<confirmation")) in E
    by reflexivity.
  rewrite startsWith_cons in E.
  destruct (Ascii.eqb (chr 10) c); [|discriminate].
  destruct x as [|c2 x].
  - vm_compute in E. discriminate.
  - change (String c2 x ++ directive attrs)
      with (String c2 (x ++ directive attrs)) in E.
    rewrite startsWith_cons in E.
    destruct (Ascii.eqb (chr 10) c2); [|discriminate].
    rewrite directive_unfold in E.
    apply startsWith_app_inv in E as [E|E]; [|vm_compute in E; discriminate].
    apply startsWith_includes in E.
    apply (includes_cons _ c2), (includes_cons _ c) in E. congruence.
Qed.

Lemma removeAll_cons (f : string -> option nat) (c : ascii) (s : string) :
  removeAll f 0 (String c s)
  = match f (String c s) with
    | Some (S n) => removeAll f n s
    | _ => String c (removeAll f 0 s)
    end.
Proof. reflexivity. Qed.

(** The pattern removes the directive that ends a content. *)
Lemma removeDirective_at_end (x attrs : string) :
  includes "<confirmation" x = false ->
  attrs <> EmptyString -> noGt attrs = true ->
  removeDirective (x ++ directive attrs) = x.
Proof.
  intros Hx Hne Hgt. unfold removeDirective.
  induction x as [|c x IH].
  - pose proof (matchDirective_directive attrs EmptyString Hne Hgt) as Hm.
    rewrite append_empty_r in Hm.
    replace (EmptyString ++ directive attrs) with (directive attrs)
      by reflexivity.
    rewrite directive_unfold in Hm |- *.
    rewrite removeAll_cons, Hm. cbn [String.length].
    apply removeAll_skip. cbn [String.length]. lia.
  - pose proof (matchDirective_inside c x attrs Hx) as Hm.
    rewrite append_cons in Hm |- *.
    rewrite removeAll_cons, Hm. f_equal. apply IH.
    now apply includes_cons_false in Hx.
Qed.

Lemma writeContent_pending (a : nat) (c : string) (st : State) :
  pendingOperation (writeContent a c st) = pendingOperation st.
Proof. unfold writeContent. now destruct (store st !! a). Qed.

Lemma lastContent_writeContent (a : nat) (m : Message) (c : string)
  (st : State) :
  lastMsg st = Some (a, m) -> lastContent (writeContent a c st) = c.
Proof.
  intros H. unfold lastContent. now rewrite (lastMsg_writeContent a m c st H).
Qed.

(** C7, the claim as stated fails: when the request that reports the
    rejection gets a response that is not ok, the last assistant message
    keeps its confirmation directive and its warning text. *)
Lemma C7_rejection_without_ok_response_keeps_the_directive :
  let out :=
    onConfirmAction Samples.cenv cancel "DELETE" Samples.deleteSql
      Samples.deleteNote "gemini-2.5-flash" (NotOk None)
      Samples.awaitingLayout in
  lastContent (hook (fst out)) = lastContent Samples.awaiting
  /\ lastContent (hook (fst out))
     = Samples.confirmationBody ++ directive Samples.confirmationAttrs
  /\ includes "<confirmation" (lastContent (hook (fst out))) = true
  /\ includes Hook.warningText (lastContent (hook (fst out))) = true.
Proof. vm_compute. repeat split. Qed.

(** C7, amended: resolving a pending confirmation with Cancel clears the
    pending operation and sends one request, a plain agent query with the
    text Cancel, and no confirm-and-execute request, however that request
    ends.  When its response is ok, the confirmation directive that ends the
    last assistant message is removed, together with every occurrence of
    the warning text as the layout writes it, and the rest is trimmed;
    when the response is not ok or the request fails, the messages are left
    as they are. *)
Theorem C7_cancel_clears_and_strips_on_ok (cenv : ConfirmEnv)
  (op sqlt expl mdl : string) (resp : Response) (ls : LayoutState)
  (a : nat) (m : Message) (x attrs : string) :
  lastMsg (hook ls) = Some (a, m) ->
  role m = assistant ->
  content m = x ++ directive attrs ->
  includes "<confirmation" x = false ->
  nonEmpty attrs = true ->
  noGt attrs = true ->
  let out := onConfirmAction cenv cancel op sqlt expl mdl resp ls in
  pendingOperation (hook (fst out)) = None
  /\ snd out
     = [AgentQuery "Cancel" (renderConversationId cenv) mdl
          (availableTables cenv)]
  /\ match resp with
     | Ok _ =>
         lastContent (hook (fst out))
         = trim (removeWarning Layout.warningText x)
     | NotOk _ | Rejected _ =>
         store (hook (fst out)) = store (hook ls)
         /\ messages (hook (fst out)) = messages (hook ls)
     end.
Proof.
  intros Hl Hr Hc Hx Hne Hgt. cbv zeta.
  assert (Hne' : attrs <> EmptyString).
  { intros ->. discriminate. }
  unfold onConfirmAction. destruct resp; cbn [fst snd].
  - unfold onHook. cbn [hook localStatus isStreaming].
    assert (Hl' : lastMsg (setPendingOperation None (hook ls)) = Some (a, m))
      by exact Hl.
    unfold stripConfirmation. rewrite Hl', Hr, Hc.
    rewrite (removeDirective_at_end x attrs Hx Hne' Hgt).
    rewrite writeContent_pending.
    rewrite (lastContent_writeContent a m _ _ Hl'). now repeat split.
  - now repeat split.
  - now repeat split.
Qed.

Lemma C7_cancel_witness :
  let out :=
    onConfirmAction Samples.cenv cancel "DELETE" Samples.deleteSql
      Samples.deleteNote "gemini-2.5-flash" (Ok []) Samples.awaitingLayout in
  lastMsg (hook Samples.awaitingLayout) = Some (1%nat, Samples.awaitingMessage)
  /\ pendingOperation (hook (fst out)) = None
  /\ snd out
     = [AgentQuery "Cancel" (Some (JNum 7 0)) "gemini-2.5-flash" ["orders"]]
  /\ lastContent (hook (fst out))
     = trim (removeWarning Layout.warningText Samples.confirmationBody).
Proof.
  cbv zeta. split; [vm_compute; reflexivity|].
  apply (C7_cancel_clears_and_strips_on_ok Samples.cenv "DELETE"
           Samples.deleteSql Samples.deleteNote "gemini-2.5-flash" (Ok [])
           Samples.awaitingLayout 1%nat Samples.awaitingMessage
           Samples.confirmationBody Samples.confirmationAttrs).
  - vm_compute. reflexivity.
  - reflexivity.
  - reflexivity.
  - vm_compute. reflexivity.
  - reflexivity.
  - vm_compute. reflexivity.
Defined.

(** ** The composed content *)

Lemma list_ascii_app (a b : string) :
  list_ascii_of_string (a ++ b)
  = (list_ascii_of_string a ++ list_ascii_of_string b)%list.
Proof.
  induction a as [|x a IH]; [reflexivity|].
  rewrite append_cons. cbn [list_ascii_of_string app]. now rewrite IH.
Qed.

Lemma hasSolid_app (a b : string) :
  hasSolid (a ++ b) = hasSolid a || hasSolid b.
Proof. unfold hasSolid. now rewrite list_ascii_app, existsb_app. Qed.

Lemma hasSolid_app_l (a b : string) :
  hasSolid a = true -> hasSolid (a ++ b) = true.
Proof. intros H. now rewrite hasSolid_app, H. Qed.

Lemma hasSolid_app_r (a b : string) :
  hasSolid b = true -> hasSolid (a ++ b) = true.
Proof. intros H. rewrite hasSolid_app, H. apply orb_true_r. Qed.

Lemma existsb_rev {A : Type} (f : A -> bool) (l : list A) :
  existsb f (List.rev l) = existsb f l.
Proof.
  induction l as [|x l IH]; [reflexivity|].
  cbn [List.rev existsb]. rewrite existsb_app, IH. cbn [existsb].
  rewrite orb_false_r. apply orb_comm.
Qed.

Lemma hasSolid_rev (s : string) : hasSolid (rev s) = hasSolid s.
Proof.
  unfold hasSolid, rev.
  now rewrite list_ascii_of_string_of_list_ascii, existsb_rev.
Qed.

Lemma hasSolid_nonEmpty (s : string) : hasSolid s = true -> nonEmpty s = true.
Proof. destruct s; [discriminate|reflexivity]. Qed.

Lemma whiteSpace_not_solid (w : string) :
  In w whiteSpace -> hasSolid w = false /\ hasSolid (rev w) = false.
Proof.
  assert (H : forallb (fun w => negb (hasSolid w) && negb (hasSolid (rev w)))
                whiteSpace = true) by (vm_compute; reflexivity).
  rewrite forallb_forall in H. intros Hin. specialize (H w Hin).
  apply andb_prop in H as [H1 H2].
  now rewrite negb_true_iff in H1, H2.
Qed.

Lemma filter_head {A : Type} (f : A -> bool) (l : list A) (x : A) (r : list A) :
  List.filter f l = x :: r -> In x l /\ f x = true.
Proof.
  intros H. apply filter_In. rewrite H. now left.
Qed.

Lemma stripWs_solid (s r : string) :
  stripWs s = Some r -> hasSolid r = hasSolid s.
Proof.
  unfold stripWs.
  destruct (List.filter (fun w => startsWith w s) whiteSpace) as [|w l] eqn:E;
    [discriminate|].
  intros [= <-]. apply filter_head in E as [Hin Hw].
  rewrite (startsWith_split w s Hw) at 2.
  rewrite hasSolid_app. now rewrite (proj1 (whiteSpace_not_solid w Hin)).
Qed.

Lemma length_list_ascii (s : string) :
  length (list_ascii_of_string s) = String.length s.
Proof. induction s as [|c s IH]; [reflexivity|]. cbn. now rewrite IH. Qed.

Lemma string_length_rev (s : string) : String.length (rev s) = String.length s.
Proof.
  unfold rev. rewrite <- (length_list_ascii (string_of_list_ascii _)).
  now rewrite list_ascii_of_string_of_list_ascii, length_rev,
    length_list_ascii.
Qed.

Lemma stripWsRev_solid (s r : string) :
  stripWsRev s = Some r -> hasSolid r = hasSolid s.
Proof.
  unfold stripWsRev.
  destruct (List.filter (fun w => startsWith (rev w) s) whiteSpace)
    as [|w l] eqn:E; [discriminate|].
  intros [= <-]. apply filter_head in E as [Hin Hw].
  rewrite <- (string_length_rev w).
  rewrite (startsWith_split (rev w) s Hw) at 2.
  rewrite hasSolid_app. now rewrite (proj2 (whiteSpace_not_solid w Hin)).
Qed.

Lemma stripWsN_solid (n : nat) (s : string) :
  hasSolid (stripWsN n s) = hasSolid s.
Proof.
  revert s. induction n as [|n IH]; intros s; [reflexivity|].
  cbn [stripWsN]. destruct (stripWs s) as [r|] eqn:E; [|reflexivity].
  rewrite IH. now apply stripWs_solid.
Qed.

Lemma stripWsRevN_solid (n : nat) (s : string) :
  hasSolid (stripWsRevN n s) = hasSolid s.
Proof.
  revert s. induction n as [|n IH]; intros s; [reflexivity|].
  cbn [stripWsRevN]. destruct (stripWsRev s) as [r|] eqn:E; [|reflexivity].
  rewrite IH. now apply stripWsRev_solid.
Qed.

(** Trimming keeps the solid characters. *)
Lemma hasSolid_trim (s : string) : hasSolid (trim s) = hasSolid s.
Proof.
  unfold trim, trimEnd, trimStart.
  now rewrite hasSolid_rev, stripWsRevN_solid, hasSolid_rev, stripWsN_solid.
Qed.

Lemma trim_nonEmpty (s : string) :
  hasSolid s = true -> nonEmpty (trim s) = true.
Proof. intros H. apply hasSolid_nonEmpty. now rewrite hasSolid_trim. Qed.

(** The composed content is the accumulated content followed by the region
    of the final answer. *)
Lemma buildContent_shaped (mode : Mode) (env : Env) (c : Closure) :
  shaped c = true ->
  buildContent mode env c
  = accumulatedContent c
    ++ finalAnswerRegion mode env (accumulatedContent c) (finalAnswer c).
Proof.
  intros Hs. unfold shaped in Hs.
  unfold finalAnswerRegion, separator.
  destruct mode; unfold buildContent, buildContentAsk, buildContentAgent;
    (destruct (nonEmpty (finalAnswer c)); [|now rewrite append_empty_r]);
    match goal with
    | |- (if ?b then _ else _) = _ => destruct b
    end;
    try (now rewrite !append_assoc);
    (destruct (nonEmpty (accumulatedContent c)) eqn:En;
     [ cbn [negb orb] in Hs; rewrite (trim_nonEmpty _ Hs);
       now rewrite !append_assoc
     | destruct (accumulatedContent c); [reflexivity|discriminate] ]).
Qed.

Lemma shaped_append (frag : string) (c : Closure) :
  hasSolid frag = true -> shaped (appendAccumulated frag c) = true.
Proof.
  intros H. unfold shaped, appendAccumulated. cbn [accumulatedContent].
  rewrite hasSolid_app, H. now rewrite !orb_true_r.
Qed.

(** Every callback keeps the buffer shaped: the fragments it appends start
    with literals that have solid characters. *)
Lemma onChunk_shaped (mode : Mode) (env : Env) (data : json) (c : Closure)
  (st : State) :
  shaped c = true -> shaped (fst (fst (onChunk mode env data (c, st)))) = true.
Proof.
  intros Hs.
  destruct mode; unfold onChunk, askOnChunk, agentOnChunk;
    repeat split_match; cbn [fst snd];
    first [ exact Hs | apply shaped_append; reflexivity ].
Qed.

Lemma applyEvents_shaped (mode : Mode) (env : Env) (es : list json)
  (cs : Session) :
  shaped (fst cs) = true ->
  shaped (fst (fst (applyEvents mode env es cs))) = true.
Proof.
  revert cs. induction es as [|e es IH]; intros [c st] Hs; [exact Hs|].
  cbn [applyEvents].
  pose proof (onChunk_shaped mode env e c st Hs) as H.
  destruct (onChunk mode env e (c, st)) as [cs' [|x]]; cbn [fst] in *.
  - now apply IH.
  - exact H.
Qed.



(** ** Growth of the content *)

Lemma startsWith_app_l (p a b : string) :
  startsWith p a = true -> startsWith p (a ++ b) = true.
Proof.
  revert a. induction p as [|x p IH]; intros a H; [reflexivity|].
  destruct a as [|y a]; [discriminate|].
  rewrite append_cons, startsWith_cons in *.
  destruct (Ascii.eqb x y); [now apply IH|discriminate].
Qed.

Lemma includes_String (p : string) (c : ascii) (s : string) :
  includes p (String c s)
  = if startsWith p (String c s) then true else includes p s.
Proof. reflexivity. Qed.

Lemma includes_app_l (p a b : string) :
  includes p a = true -> includes p (a ++ b) = true.
Proof.
  induction a as [|y a IH]; intros H.
  - rewrite includes_unfold in H.
    destruct (startsWith p EmptyString) eqn:E; [|discriminate].
    apply startsWith_includes. now apply (startsWith_app_l p EmptyString b).
  - rewrite includes_String in H. rewrite append_cons, includes_String.
    destruct (startsWith p (String y a)) eqn:E.
    + rewrite <- append_cons. now rewrite (startsWith_app_l _ _ b E).
    + rewrite (IH H).
      destruct (startsWith p (String y (a ++ b))); reflexivity.
Qed.

Lemma codeUnits_app (a b : string) :
  codeUnits (a ++ b) = (codeUnits a + codeUnits b)%nat.
Proof.
  induction a as [|x a IH]; [reflexivity|].
  rewrite append_cons. cbn [codeUnits]. rewrite IH. lia.
Qed.

(** The separator does not get shorter when a fragment with a solid
    character is appended to the accumulated content. *)
Lemma separator_grows (mode : Mode) (env : Env) (acc frag : string) :
  hasSolid frag = true ->
  (codeUnits (separator mode env acc)
   <= codeUnits (separator mode env (acc ++ frag)))%nat.
Proof.
  intros Hf.
  assert (Ht : nonEmpty (trim (acc ++ frag)) = true)
    by (apply trim_nonEmpty, hasSolid_app_r, Hf).
  unfold separator. rewrite Ht.
  destruct mode.
  - destruct (isGeneralMode env); cbn [orb].
    + destruct (nonEmpty (trim acc)); vm_compute; lia.
    + destruct (includes "**Executed SQL Query:**" acc) eqn:E1.
      * rewrite (includes_app_l _ acc frag E1). cbn [negb orb].
        destruct (includes "@" acc) eqn:E2.
        -- rewrite (includes_app_l _ acc frag E2). cbn [negb]. vm_compute; lia.
        -- cbn [negb]. destruct (negb (includes "@" (acc ++ frag)));
             destruct (nonEmpty (trim acc)); vm_compute; lia.
      * cbn [negb orb].
        destruct (negb (includes "**Executed SQL Query:**" (acc ++ frag))
                  || negb (includes "@" (acc ++ frag)));
          destruct (nonEmpty (trim acc)); vm_compute; lia.
  - destruct (isGeneralMode env); cbn [orb].
    + destruct (nonEmpty (trim acc)); vm_compute; lia.
    + destruct (includes "@" acc) eqn:E2.
      * rewrite (includes_app_l _ acc frag E2). cbn [negb]. vm_compute; lia.
      * cbn [negb]. destruct (negb (includes "@" (acc ++ frag)));
          destruct (nonEmpty (trim acc)); vm_compute; lia.
Qed.

Lemma nonEmpty_app (a b : string) :
  nonEmpty a = true -> nonEmpty (a ++ b) = true.
Proof. destruct a; [discriminate|reflexivity]. Qed.

Lemma grows_append (mode : Mode) (env : Env) (frag : string) (c : Closure) :
  shaped c = true -> hasSolid frag = true ->
  (codeUnits (buildContent mode env c)
   <= codeUnits (buildContent mode env (appendAccumulated frag c)))%nat.
Proof.
  intros Hs Hf.
  rewrite (buildContent_shaped mode env c Hs).
  rewrite (buildContent_shaped mode env _ (shaped_append frag c Hf)).
  unfold appendAccumulated, finalAnswerRegion.
  cbn [accumulatedContent finalAnswer].
  pose proof (separator_grows mode env (accumulatedContent c) frag Hf).
  destruct (nonEmpty (finalAnswer c)); rewrite !codeUnits_app;
    cbn [codeUnits]; lia.
Qed.

Lemma grows_final (mode : Mode) (env : Env) (x : string) (c : Closure) :
  shaped c = true ->
  (codeUnits (buildContent mode env c)
   <= codeUnits
        (buildContent mode env (setFinalAnswer (finalAnswer c ++ x) c)))%nat.
Proof.
  intros Hs.
  rewrite (buildContent_shaped mode env c Hs).
  rewrite (buildContent_shaped mode env (setFinalAnswer _ c) Hs).
  unfold setFinalAnswer, finalAnswerRegion.
  cbn [accumulatedContent finalAnswer].
  destruct (nonEmpty (finalAnswer c)) eqn:E.
  - rewrite (nonEmpty_app _ x E). rewrite !codeUnits_app. lia.
  - rewrite !codeUnits_app. cbn [codeUnits]. lia.
Qed.

Lemma lastMsg_push (m : Message) (st : State) :
  lastMsg (pushMessage m st) = Some (length (store st), m).
Proof.
  unfold lastMsg, pushMessage. cbn [messages store setMessageRefs setStore].
  rewrite last_snoc. now rewrite list_lookup_middle.
Qed.

Lemma notStreaming_active (env : Env) (st : State) :
  notStreaming env st = true -> activeContent env st = EmptyString.
Proof.
  unfold notStreaming, activeContent.
  destruct (lastMsg st) as [[a m]|]; [|reflexivity].
  now destruct (String.eqb (id m) (streamingMessageId env)).
Qed.

Section Steps.
Variables (mode : Mode) (env : Env) (c c1 : Closure) (st st1 : State).
Hypothesis Hstore : store st1 = store st.
Hypothesis Hrefs : messages st1 = messages st.
Hypothesis Hsync : synced mode env (c, st).

(** The state keeps its messages and the composed content is the same. *)
Lemma step_same :
  buildContent mode env c1 = buildContent mode env c ->
  synced mode env (c1, st1)
  /\ (codeUnits (activeContent env st)
      <= codeUnits (activeContent env st1))%nat.
Proof using Hstore Hrefs Hsync.
  intros Hb. unfold synced, notStreaming, activeContent in *.
  cbn [fst snd] in *. rewrite (lastMsg_same st st1 Hstore Hrefs), Hb.
  split; [exact Hsync|lia].
Qed.

(** The updater writes a composed content that is not shorter. *)
Lemma step_update :
  (codeUnits (buildContent mode env c)
   <= codeUnits (buildContent mode env c1))%nat ->
  synced mode env (c1, updateStreaming env (buildContent mode env c1) st1)
  /\ (codeUnits (activeContent env st)
      <= codeUnits
           (activeContent env
              (updateStreaming env (buildContent mode env c1) st1)))%nat.
Proof using Hstore Hrefs Hsync.
  intros Hle. unfold synced in *. cbn [fst snd] in *.
  unfold updateStreaming. rewrite (lastMsg_same st st1 Hstore Hrefs).
  destruct (lastMsg st) as [[a m]|] eqn:El.
  - destruct (String.eqb (id m) (streamingMessageId env)) eqn:Ei.
    + assert (El1 : lastMsg st1 = Some (a, m))
        by (now rewrite (lastMsg_same st st1 Hstore Hrefs)).
      unfold notStreaming, activeContent in *.
      rewrite (lastMsg_writeContent a m _ st1 El1). rewrite El in Hsync |- *.
      cbn [id content withContent]. rewrite Ei in *. cbn [negb] in *.
      destruct Hsync as [Hs|Hs]; [discriminate|]. rewrite Hs.
      split; [now right|exact Hle].
    + unfold notStreaming, activeContent.
      rewrite (lastMsg_same st st1 Hstore Hrefs), El, Ei.
      split; [now left|cbn; lia].
  - unfold notStreaming, activeContent.
    rewrite (lastMsg_same st st1 Hstore Hrefs), El.
    split; [now left|cbn; lia].
Qed.

(** A new streamed message is pushed with the composed content. *)
Lemma step_push :
  buildContent mode env c1 = buildContent mode env c ->
  let st' := pushMessage (streamingMessage env (buildContent mode env c1)) st1 in
  synced mode env (c1, st')
  /\ (codeUnits (activeContent env st)
      <= codeUnits (activeContent env st'))%nat.
Proof using Hstore Hrefs Hsync.
  intros Hb. cbv zeta. unfold synced in *. cbn [fst snd] in *.
  assert (Ha : activeContent env
                 (pushMessage (streamingMessage env (buildContent mode env c1))
                    st1)
               = buildContent mode env c1).
  { unfold activeContent. rewrite lastMsg_push.
    cbn [id content streamingMessage]. now rewrite String.eqb_refl. }
  rewrite Ha. split; [now right|].
  destruct Hsync as [Hs|Hs].
  - rewrite (notStreaming_active env st Hs). cbn. lia.
  - rewrite Hs, Hb. lia.
Qed.
End Steps.

Lemma adoptConversationId_store (env : Env) (data : json) (st : State) :
  store (adoptConversationId env data st) = store st.
Proof.
  unfold adoptConversationId.
  now destruct (truthy (closureConversationId env)).
Qed.

Lemma adoptConversationId_refs (env : Env) (data : json) (st : State) :
  messages (adoptConversationId env data st) = messages st.
Proof.
  unfold adoptConversationId.
  now destruct (truthy (closureConversationId env)).
Qed.

(** A branch of a kind that the hypothesis rules out. *)
Ltac excluded Ha :=
  exfalso; unfold appending in Ha;
  repeat match goal with
    | H : isStr _ (prop _ "type") = _ |- _ => rewrite H in Ha; clear H
    end;
  cbn [orb negb] in Ha; rewrite ?orb_true_r in Ha; discriminate Ha.

Ltac growth Hs :=
  first
    [ apply Nat.le_refl
    | apply grows_append; [exact Hs|reflexivity]
    | apply grows_final; exact Hs ].

Lemma onChunk_grows (mode : Mode) (env : Env) (data : json) (c : Closure)
  (st : State) :
  appending data = true -> shaped c = true -> synced mode env (c, st) ->
  synced mode env (fst (onChunk mode env data (c, st)))
  /\ (codeUnits (activeContent env st)
      <= codeUnits
           (activeContent env (snd (fst (onChunk mode env data (c, st))))))%nat.
Proof.
  intros Ha Hs Hsync.
  destruct mode; unfold onChunk, askOnChunk, agentOnChunk;
    repeat split_match; cbn [fst snd];
    first
      [ excluded Ha
      | match goal with
        | |- synced ?m _ (?c1, updateStreaming _ _ ?s1) /\ _ =>
            apply (step_update m env c c1 st s1);
            [reflexivity|reflexivity|exact Hsync|growth Hs]
        | |- synced ?m _ (?c1, pushMessage _ ?s1) /\ _ =>
            apply (step_push m env c c1 st s1);
            [reflexivity|reflexivity|exact Hsync|reflexivity]
        | |- synced ?m _ (?c1, adoptConversationId _ _ ?s1) /\ _ =>
            apply (step_same m env c c1 st (adoptConversationId env data s1));
            [ now rewrite adoptConversationId_store
            | now rewrite adoptConversationId_refs
            | exact Hsync | reflexivity ]
        | |- synced ?m _ (?c1, ?s1) /\ _ =>
            apply (step_same m env c c1 st s1);
            [reflexivity|reflexivity|exact Hsync|reflexivity]
        end ].
Qed.

Lemma applyEvents_grows (mode : Mode) (env : Env) (es : list json)
  (cs : Session) :
  forallb appending es = true -> shaped (fst cs) = true ->
  synced mode env cs ->
  synced mode env (fst (applyEvents mode env es cs)).
Proof.
  revert cs. induction es as [|e es IH]; intros [c st] Ha Hs Hsync;
    [exact Hsync|].
  cbn [forallb] in Ha. apply andb_prop in Ha as [Ha1 Ha2].
  cbn [applyEvents].
  pose proof (onChunk_grows mode env e c st Ha1 Hs Hsync) as [H1 _].
  pose proof (onChunk_shaped mode env e c st Hs) as H2.
  destruct (onChunk mode env e (c, st)) as [[c' st'] [|x]]; cbn [fst] in *.
  - now apply IH.
  - exact H1.
Qed.

(** C4, the claim as stated fails: [analyzing] shows a note after the
    composed content, which the next update drops, and [cancelled] removes
    the directive and the warning that [confirmation_required] had shown;
    neither sequence has a [final_answer_complete]. *)
Lemma C4_content_shrinks_after_analyzing_and_on_cancelled :
  let len mode events :=
    codeUnits
      (lastContent (snd (fst (applyEvents mode Samples.env events
                                Samples.streaming)))) in
  (len ask [Samples.greeting; Samples.analyzing; Samples.graphDecision]
   < len ask [Samples.greeting; Samples.analyzing])%nat
  /\ (len agent [Samples.greeting; Samples.confirmationEvent;
                 Samples.cancelledEvent]
      < len agent [Samples.greeting; Samples.confirmationEvent])%nat.
Proof. vm_compute. split; lia. Qed.

(** C4, amended: in a stream that starts with no streamed message shown,
    as long as the events are of kinds other than [final_answer_complete],
    [final_answer], [analyzing], [checking_graph], [confirmation_required]
    and [cancelled], the content of the streamed message is not shorter
    after an event than it was before it. *)
Theorem C4_content_grows_on_appending_events (mode : Mode) (env : Env)
  (es : list json) (e : json) (st0 : State) :
  notStreaming env st0 = true ->
  forallb appending (es ++ [e]) = true ->
  let cs := fst (applyEvents mode env es (initialClosure, st0)) in
  (codeUnits (activeContent env (snd cs))
   <= codeUnits (activeContent env (snd (fst (onChunk mode env e cs)))))%nat.
Proof.
  intros Hn Ha. cbv zeta.
  rewrite forallb_app in Ha. apply andb_prop in Ha as [Ha1 Ha2].
  cbn [forallb] in Ha2. rewrite andb_true_r in Ha2.
  pose proof (applyEvents_shaped mode env es (initialClosure, st0) eq_refl)
    as Hs.
  assert (H0 : synced mode env (initialClosure, st0)) by (now left).
  pose proof (applyEvents_grows mode env es (initialClosure, st0) Ha1 eq_refl
                H0) as Hsync.
  destruct (fst (applyEvents mode env es (initialClosure, st0))) as [c st].
  cbn [fst snd] in *.
  exact (proj2 (onChunk_grows mode env e c st Ha2 Hs Hsync)).
Qed.

Lemma C4_content_grows_witness :
  let cs :=
    fst (applyEvents ask Samples.env [Samples.greeting; Samples.selectOne]
           Samples.streaming) in
  notStreaming Samples.env (snd Samples.streaming) = true
  /\ forallb appending
       ([Samples.greeting; Samples.selectOne]
        ++ [Samples.event "final_answer_chunk" "The "]) = true
  /\ (codeUnits (activeContent Samples.env (snd cs))
      <= codeUnits
           (activeContent Samples.env
              (snd (fst (onChunk ask Samples.env
                           (Samples.event "final_answer_chunk" "The ")
                           cs)))))%nat.
Proof.
  cbv zeta. split; [reflexivity|]. split; [reflexivity|].
  apply (C4_content_grows_on_appending_events ask Samples.env
           [Samples.greeting; Samples.selectOne]
           (Samples.event "final_answer_chunk" "The ")
           (snd Samples.streaming)).
  - reflexivity.
  - reflexivity.
Defined.

(** * Properties of the rest of the client *)

(** ** [btoa] and [atob] *)

Section Base64Facts.
Import JsBase64 Base64Spec.

Lemma triples_ind {A : Type} (P : list A -> Prop) :
  P [] -> (forall a, P [a]) -> (forall a b, P [a; b]) ->
  (forall a b c r, P r -> P (a :: b :: c :: r)) ->
  forall l, P l.
Proof.
  intros H0 H1 H2 H3.
  assert (H : forall l, P l /\ (forall a, P (a :: l))
                        /\ (forall a b, P (a :: b :: l))).
  { induction l as [|x l (Ha & Hb & Hc)].
    - repeat split; auto.
    - repeat split; auto. }
  intros l. apply H.
Qed.

Lemma below_64 (P : N -> Prop) :
  Forall P (map N.of_nat (seq 0 64)) -> forall n, (n < 64)%N -> P n.
Proof.
  intros H n Hn. rewrite Forall_forall in H. apply H.
  apply list_elem_of_In, in_map_iff. exists (N.to_nat n). split; [lia|].
  apply in_seq. lia.
Qed.

Lemma b64val_b64char (n : N) : (n < 64)%N -> b64val (b64char n) = Some n.
Proof.
  revert n. apply below_64.
  repeat (apply Forall_cons; split; [vm_compute; reflexivity|]).
  apply Forall_nil. exact I.
Qed.

Lemma b64char_not_ws (n : N) : (n < 64)%N -> isAsciiWs (b64char n) = false.
Proof.
  revert n. apply below_64.
  repeat (apply Forall_cons; split; [vm_compute; reflexivity|]).
  apply Forall_nil. exact I.
Qed.

Lemma b64char_not_pad (n : N) : (n < 64)%N -> isChar 61 (b64char n) = false.
Proof.
  revert n. apply below_64.
  repeat (apply Forall_cons; split; [vm_compute; reflexivity|]).
  apply Forall_nil. exact I.
Qed.
Ltac divlia := zify; Z.to_euclidean_division_equations; lia.

Lemma chars_cons (a : N) (l : list N) :
  chars (a :: l) = String (b64char a) (chars l).
Proof. reflexivity. Qed.

Lemma base64_split (l : list N) :
  base64 l = chars (sextetsOf l) ++ padding l.
Proof.
  induction l as [|a|a b|a b c r IH] using triples_ind; try reflexivity.
  cbn [base64 sextetsOf padding]. rewrite !chars_cons, IH. reflexivity.
Qed.

Ltac bounds :=
  repeat match goal with
         | H : Forall _ (_ :: _) |- _ => inversion_clear H
         end.

Lemma sextetsOf_bound (l : list N) :
  Forall (fun n => n < 256)%N l -> Forall (fun n => n < 64)%N (sextetsOf l).
Proof.
  induction l as [|a|a b|a b c r IH] using triples_ind; intros H; bounds;
    cbn [sextetsOf]; repeat (constructor; [divlia|]); auto.
Qed.

Lemma unsextets_sextetsOf (l : list N) :
  Forall (fun n => n < 256)%N l -> unsextets (sextetsOf l) = l.
Proof.
  induction l as [|a|a b|a b c r IH] using triples_ind; intros H; bounds;
    cbn [sextetsOf unsextets]; try rewrite IH by assumption;
    repeat (f_equal; [divlia|]); try reflexivity; f_equal; divlia.
Qed.

Lemma rev_chars (x : list N) : rev (chars x) = chars (List.rev x).
Proof.
  unfold rev, chars.
  now rewrite list_ascii_of_string_of_list_ascii, map_rev.
Qed.

Lemma rev_rev (s : string) : rev (rev s) = s.
Proof.
  unfold rev.
  now rewrite list_ascii_of_string_of_list_ascii, rev_involutive,
    string_of_list_ascii_of_string.
Qed.

Lemma rev_append (a b : string) : rev (a ++ b) = rev b ++ rev a.
Proof.
  unfold rev. rewrite list_ascii_app, rev_app_distr.
  generalize (List.rev (list_ascii_of_string b)) as x.
  generalize (List.rev (list_ascii_of_string a)) as y.
  intros y x. induction x as [|c x IH]; [reflexivity|].
  cbn. now rewrite IH.
Qed.

Lemma chars_length (x : list N) : String.length (chars x) = List.length x.
Proof. induction x as [|a x IH]; [reflexivity|]. rewrite chars_cons. cbn. now rewrite IH. Qed.

Lemma sextets_chars (x : list N) :
  Forall (fun n => n < 64)%N x -> sextets (chars x) = Some x.
Proof.
  induction 1 as [|a x Ha _ IH]; [reflexivity|].
  rewrite chars_cons. cbn [sextets]. now rewrite b64val_b64char, IH.
Qed.

Lemma removeWs_chars (x : list N) (p : string) :
  Forall (fun n => n < 64)%N x -> removeWs (chars x ++ p) = chars x ++ removeWs p.
Proof.
  induction 1 as [|a x Ha _ IH]; [reflexivity|].
  rewrite chars_cons. cbn [String.append removeWs].
  now rewrite b64char_not_ws, IH.
Qed.

Lemma padding_cases (l : list N) :
  (padding l = EmptyString /\ (List.length (sextetsOf l) mod 4 = 0)%nat)
  \/ (padding l = "=" /\ (List.length (sextetsOf l) mod 4 = 3)%nat)
  \/ (padding l = "==" /\ (List.length (sextetsOf l) mod 4 = 2)%nat).
Proof.
  induction l as [|a|a b|a b c r IH] using triples_ind.
  - left. split; reflexivity.
  - right. right. split; reflexivity.
  - right. left. split; reflexivity.
  - cbn [padding sextetsOf List.length].
    replace (S (S (S (S (List.length (sextetsOf r))))))
      with (List.length (sextetsOf r) + 1 * 4)%nat by lia.
    rewrite Nat.Div0.mod_add. exact IH.
Qed.

Lemma chars_rev_head (x : list N) (a : ascii) (r : string) :
  Forall (fun n => n < 64)%N x -> rev (chars x) = String a r ->
  isChar 61 a = false.
Proof.
  intros H E. rewrite rev_chars in E.
  destruct (List.rev x) as [|y t] eqn:Er; [discriminate|].
  rewrite chars_cons in E. injection E as <- _.
  apply b64char_not_pad.
  rewrite Forall_forall in H. apply H.
  apply list_elem_of_In, in_rev. rewrite Er. now left.
Qed.

Lemma stripPadding_base64 (l : list N) :
  Forall (fun n => n < 256)%N l ->
  stripPadding (base64 l) = chars (sextetsOf l).
Proof.
  intros H. apply sextetsOf_bound in H.
  rewrite base64_split. unfold stripPadding.
  rewrite length_append, chars_length, rev_append.
  pose proof (chars_rev_head (sextetsOf l)) as Hh.
  destruct (padding_cases l) as [[-> E]|[[-> E]|[-> E]]].
  - rewrite !append_empty_r, Nat.add_0_r, E. cbn [Nat.eqb String.append].
    change (rev EmptyString) with EmptyString. cbn [String.append].
    destruct (rev (chars (sextetsOf l))) as [|a [|b r]] eqn:Er;
      [reflexivity| |]; now rewrite (Hh _ _ H eq_refl).
  - replace ((List.length (sextetsOf l) + String.length "=") mod 4)%nat
      with 0%nat
      by (cbn [String.length]; rewrite Nat.Div0.add_mod, E; reflexivity).
    cbn [Nat.eqb rev String.append].
    change (rev "=") with "=". cbn [String.append].
    destruct (rev (chars (sextetsOf l))) as [|b r] eqn:Er.
    + apply (f_equal String.length) in Er.
      rewrite string_length_rev, chars_length in Er. rewrite Er in E.
      discriminate.
    + change (isChar 61 "=") with true. cbn iota.
      rewrite (Hh _ _ H eq_refl), <- Er. apply rev_rev.
  - replace ((List.length (sextetsOf l) + String.length "==") mod 4)%nat
      with 0%nat
      by (cbn [String.length]; rewrite Nat.Div0.add_mod, E; reflexivity).
    cbn [Nat.eqb]. change (rev "==") with "==". cbn [String.append].
    change (isChar 61 "=") with true. cbn iota. apply rev_rev.
Qed.

Lemma removeWs_base64 (l : list N) :
  Forall (fun n => n < 256)%N l -> removeWs (base64 l) = base64 l.
Proof.
  intros H. apply sextetsOf_bound in H.
  rewrite base64_split, removeWs_chars by assumption.
  now destruct (padding_cases l) as [[-> _]|[[-> _]|[-> _]]].
Qed.

Lemma atob_base64 (l : list N) :
  Forall (fun n => n < 256)%N l -> atob (base64 l) = Some (fromLatin1 l).
Proof.
  intros H. unfold atob.
  rewrite removeWs_base64, stripPadding_base64, chars_length by assumption.
  replace (List.length (sextetsOf l) mod 4 =? 1)%nat with false.
  - rewrite sextets_chars by now apply sextetsOf_bound.
    cbn [option_map]. now rewrite unsextets_sextetsOf.
  - symmetry. apply Nat.eqb_neq.
    destruct (padding_cases l) as [[_ E]|[[_ E]|[_ E]]]; rewrite E; lia.
Qed.

Lemma latin1_inv (n : nat) (s : string) (l : list N) :
  (String.length s <= n)%nat -> latin1 s = Some l ->
  Forall (fun k => k < 256)%N l /\ fromLatin1 l = s.
Proof.
  revert s l. induction n as [|n IH]; intros s l Hn E.
  - destruct s; [|cbn in Hn; lia]. injection E as <-. split; [constructor|reflexivity].
  - destruct s as [|c r]; [injection E as <-; split; [constructor|reflexivity]|].
    cbn [latin1] in E. cbn [String.length] in Hn.
    pose proof (N_ascii_bounded c) as Hc.
    destruct (N_of_ascii c <? 128)%N eqn:E1.
    + destruct (latin1 r) as [t|] eqn:Er; [|discriminate]. injection E as <-.
      destruct (IH r t ltac:(lia) Er) as [Hb Hs].
      split; [constructor; [lia|exact Hb]|].
      cbn [fromLatin1]. rewrite E1, Hs, ascii_N_embedding. reflexivity.
    + destruct ((N_of_ascii c =? 194) || (N_of_ascii c =? 195))%N eqn:E2;
        [|discriminate].
      destruct r as [|d r']; [discriminate|].
      pose proof (N_ascii_bounded d) as Hd.
      destruct ((128 <=? N_of_ascii d) && (N_of_ascii d <=? 191))%N eqn:E3;
        [|discriminate].
      destruct (latin1 r') as [t|] eqn:Er; [|discriminate]. injection E as <-.
      cbn [String.length] in Hn.
      destruct (IH r' t ltac:(lia) Er) as [Hb Hs].
      apply andb_prop in E3 as [E3 E4].
      apply N.leb_le in E3, E4. apply N.ltb_ge in E1.
      apply orb_prop in E2.
      assert (Hk : ((if (N_of_ascii c =? 194)%N then N_of_ascii d
                     else N_of_ascii d + 64) < 256)%N)
        by (destruct (N_of_ascii c =? 194)%N; lia).
      split; [constructor; [exact Hk|exact Hb]|].
      cbn [fromLatin1]. rewrite Hs.
      destruct (N_of_ascii c =? 194)%N eqn:E5.
      * apply N.eqb_eq in E5.
        replace (N_of_ascii d <? 128)%N with false by (symmetry; apply N.ltb_ge; lia).
        replace (192 + N_of_ascii d / 64)%N with (N_of_ascii c) by divlia.
        replace (128 + N_of_ascii d mod 64)%N with (N_of_ascii d) by divlia.
        now rewrite !ascii_N_embedding.
      * destruct E2 as [E2|E2]; [discriminate|]. apply N.eqb_eq in E2.
        replace (N_of_ascii d + 64 <? 128)%N with false by (symmetry; apply N.ltb_ge; lia).
        replace (192 + (N_of_ascii d + 64) / 64)%N with (N_of_ascii c) by divlia.
        replace (128 + (N_of_ascii d + 64) mod 64)%N with (N_of_ascii d) by divlia.
        now rewrite !ascii_N_embedding.
Qed.

Lemma atob_of_btoa (s e : string) : btoa s = Some e -> atob e = Some s.
Proof.
  unfold btoa. intros H.
  destruct (latin1 s) as [l|] eqn:E; [|discriminate]. injection H as <-.
  destruct (latin1_inv (String.length s) s l (le_n _) E) as [Hb Hs].
  now rewrite atob_base64, Hs.
Qed.

(** X1: what [btoa] encodes, [atob] decodes: for every string that [btoa]
    accepts, [atob] of the result is the string. *)
Theorem atob_btoa_round_trip (s e : string) :
  btoa s = Some e -> atob e = Some s.
Proof. apply atob_of_btoa. Qed.

Lemma atob_btoa_round_trip_witness :
  btoa "DELETE FROM orders" = Some "REVMRVRFIEZST00gb3JkZXJz"
  /\ atob "REVMRVRFIEZST00gb3JkZXJz" = Some "DELETE FROM orders".
Proof.
  split; [reflexivity|].
  apply (atob_btoa_round_trip "DELETE FROM orders"). reflexivity.
Defined.

End Base64Facts.

(** ** The confirmation tag, written by the hook and read by the renderer *)

Section ConfirmationFacts.
Import JsBase64 Base64Spec Regex Renderer RendererSpec.

Lemma lit_app (p r : string) : lit p (p ++ r) = Some r.
Proof. unfold lit. now rewrite startsWith_app, slice_app. Qed.

Lemma trimStart_fixed (s : string) : stripWs s = None -> trimStart s = s.
Proof.
  intros H. unfold trimStart. destruct (String.length s); [reflexivity|].
  cbn [stripWsN]. now rewrite H.
Qed.

Lemma ws1_space (r : string) :
  stripWs r = None -> ws1 (String " " r) = Some r.
Proof.
  intros H. unfold ws1.
  replace (stripWs (String " " r)) with (Some r) by (vm_compute; reflexivity).
  cbn [option_map]. now rewrite trimStart_fixed.
Qed.

Lemma isChar_chr (c : ascii) : isChar 34 c = Ascii.eqb (chr 34) c.
Proof.
  unfold isChar. destruct (Ascii.eqb (chr 34) c) eqn:E.
  - apply Ascii.eqb_eq in E. now subst c.
  - apply Nat.eqb_neq. intros H. apply Ascii.eqb_neq in E. apply E.
    rewrite <- (ascii_nat_embedding c), H. reflexivity.
Qed.

Lemma allChars_app (p : ascii -> bool) (a b : string) :
  allChars p (a ++ b) = allChars p a && allChars p b.
Proof.
  induction a as [|c a IH]; [reflexivity|].
  cbn [String.append allChars]. now rewrite IH, andb_assoc.
Qed.

Lemma notQuote_includes (v : string) :
  includes dq v = false -> allChars notQuote v = true.
Proof.
  induction v as [|c v IH]; intros H; [reflexivity|].
  rewrite includes_unfold in H. apply orb_false_iff in H as [H1 H2].
  cbn [allChars]. rewrite (IH H2), andb_true_r.
  unfold notQuote. rewrite isChar_chr.
  change dq with (String (chr 34) EmptyString) in H1. cbn [startsWith] in H1.
  now destruct (Ascii.eqb (chr 34) c).
Qed.

Lemma spanLen_all (p : ascii -> bool) (v : string) (c : ascii) (z : string) :
  allChars p v = true -> p c = false ->
  spanLen p (v ++ String c z) = String.length v.
Proof.
  intros Hv Hc. induction v as [|x v IH].
  - cbn. now rewrite Hc.
  - cbn [allChars] in Hv. apply andb_prop in Hv as [Hx Hv].
    cbn [String.append spanLen String.length]. now rewrite Hx, IH.
Qed.

Lemma substring_app (a b : string) : substring 0 (String.length a) (a ++ b) = a.
Proof. induction a as [|x a IH]; [now destruct b|]. cbn. now rewrite IH. Qed.

Lemma quoted_app (v rest : string) :
  allChars notQuote v = true -> nonEmpty v = true ->
  quoted (dq ++ v ++ dq ++ rest) = Some (v, rest).
Proof.
  intros Hq Hn. unfold quoted. rewrite lit_app.
  change (dq ++ rest) with (String (chr 34) rest).
  change (fun c => negb (isChar 34 c)) with notQuote.
  rewrite (spanLen_all notQuote v (chr 34) rest Hq eq_refl).
  destruct v as [|x v]; [discriminate|].
  cbn [String.length Nat.eqb].
  change (S (String.length v)) with (String.length (String x v)).
  rewrite slice_app, substring_app.
  change (String (chr 34) rest) with (dq ++ rest). now rewrite lit_app.
Qed.

Lemma trimStart_space (r : string) :
  stripWs r = None -> trimStart (String " " r) = r.
Proof.
  intros H. unfold trimStart. cbn [String.length stripWsN].
  replace (stripWs (String " " r)) with (Some r) by (vm_compute; reflexivity).
  destruct (String.length r); [reflexivity|]. cbn [stripWsN]. now rewrite H.
Qed.

Lemma attribute_app (name v rest : string) :
  (forall x, stripWs ((name ++ "=") ++ x) = None) ->
  allChars notQuote v = true -> nonEmpty v = true ->
  attribute name (String " " ((name ++ "=") ++ dq ++ v ++ dq ++ rest))
  = Some (v, rest).
Proof.
  intros Hn Hq Hv. unfold attribute.
  rewrite ws1_space by apply Hn. rewrite lit_app. now apply quoted_app.
Qed.

Lemma matchConfirmation_tag (op s64 m64 mdl rest : string) :
  allChars notQuote op = true -> nonEmpty op = true ->
  allChars notQuote s64 = true -> nonEmpty s64 = true ->
  allChars notQuote m64 = true -> nonEmpty m64 = true ->
  allChars notQuote mdl = true -> nonEmpty mdl = true ->
  matchConfirmation (confirmationTag op s64 m64 mdl ++ rest)
  = Some ({| cOperation := op; cSql := s64; cMessage := m64; cModel := mdl |},
          rest).
Proof.
  intros H1 H2 H3 H4 H5 H6 H7 H8.
  replace (confirmationTag op s64 m64 mdl ++ rest) with
    ("<confirmation" ++
     String " " (("operation" ++ "=") ++ dq ++ op ++ dq ++
     String " " (("sql" ++ "=") ++ dq ++ s64 ++ dq ++
     String " " (("message" ++ "=") ++ dq ++ m64 ++ dq ++
     String " " (("model" ++ "=") ++ dq ++ mdl ++ dq ++
     String " " ("/>" ++ rest)))))).
  - unfold matchConfirmation. rewrite lit_app.
    rewrite attribute_app by (try assumption; intros x; vm_compute; reflexivity).
    rewrite attribute_app by (try assumption; intros x; vm_compute; reflexivity).
    rewrite attribute_app by (try assumption; intros x; vm_compute; reflexivity).
    rewrite attribute_app by (try assumption; intros x; vm_compute; reflexivity).
    unfold ws0. rewrite trimStart_space by (vm_compute; reflexivity).
    now rewrite lit_app.
  - unfold confirmationTag. rewrite !append_assoc. reflexivity.
Qed.

Lemma execAll_skip_all {D : Type} (m : string -> option (D * string))
  (k i : nat) (s : string) :
  (String.length s <= k)%nat -> execAll m k i s = [].
Proof.
  revert k i. induction s as [|c s IH]; intros k i H; [reflexivity|].
  cbn [String.length] in H. destruct k as [|k]; [lia|].
  cbn [execAll]. apply IH. lia.
Qed.

Lemma occurrences_app_le (p h d : string) :
  (occurrences p d <= occurrences p (h ++ d))%nat.
Proof.
  induction h as [|c h IH]; [apply le_n|].
  cbn [String.append occurrences]. lia.
Qed.

Lemma occurrences_head (p d : string) :
  (1 <= occurrences p (p ++ d))%nat.
Proof.
  destruct (p ++ d) as [|c s] eqn:E; cbn [occurrences];
    rewrite <- E, startsWith_app; lia.
Qed.

(** A pattern that begins with the literal [p] finds nothing before the
    first place where [p] occurs. *)
Lemma execAll_before {D : Type} (m : string -> option (D * string))
  (p h d : string) (i : nat) :
  (forall s, startsWith p s = false -> m s = None) ->
  occurrences p (h ++ d) = occurrences p d ->
  execAll m 0 i (h ++ d) = execAll m 0 (i + String.length h) d.
Proof.
  intros Hm. revert i. induction h as [|c h IH]; intros i H.
  - cbn [String.append String.length]. now rewrite Nat.add_0_r.
  - cbn [String.append occurrences] in H.
    pose proof (occurrences_app_le p h d) as Hle.
    change (String c h ++ d) with (String c (h ++ d)).
    destruct (startsWith p (String c (h ++ d))) eqn:E; [lia|].
    cbn [execAll]. rewrite (Hm _ E), IH by lia.
    cbn [String.length]. f_equal. lia.
Qed.

Lemma execAll_nothing {D : Type} (m : string -> option (D * string))
  (p s : string) (i : nat) :
  (forall s, startsWith p s = false -> m s = None) ->
  occurrences p s = 0%nat -> execAll m 0 i s = [].
Proof.
  intros Hm. revert i. induction s as [|c s IH]; intros i H; [reflexivity|].
  cbn [occurrences] in H.
  destruct (startsWith p (String c s)) eqn:E; [lia|].
  cbn [execAll]. rewrite (Hm _ E). apply IH. lia.
Qed.

Lemma matchConfirmation_head (s : string) :
  startsWith "<confirmation" s = false -> matchConfirmation s = None.
Proof. intros H. unfold matchConfirmation, lit. now rewrite H. Qed.

Lemma allChars_chars (x : list N) :
  Forall (fun n => n < 64)%N x -> allChars notQuote (chars x) = true.
Proof.
  induction 1 as [|a x Ha _ IH]; [reflexivity|].
  rewrite chars_cons. cbn [allChars]. rewrite IH, andb_true_r.
  revert a Ha. apply below_64.
  repeat (apply Forall_cons; split; [vm_compute; reflexivity|]).
  apply Forall_nil. exact I.
Qed.

Lemma allChars_base64 (l : list N) :
  Forall (fun n => n < 256)%N l -> allChars notQuote (base64 l) = true.
Proof.
  intros H. rewrite base64_split, allChars_app, allChars_chars
    by now apply sextetsOf_bound.
  now destruct (padding_cases l) as [[-> _]|[[-> _]|[-> _]]].
Qed.

Lemma btoa_shape (s e : string) :
  btoa s = Some e -> nonEmpty s = true ->
  allChars notQuote e = true /\ nonEmpty e = true.
Proof.
  unfold btoa. intros H Hs.
  destruct (latin1 s) as [l|] eqn:E; [|discriminate]. injection H as <-.
  destruct (latin1_inv (String.length s) s l (le_n _) E) as [Hb Hl].
  split; [now apply allChars_base64|].
  destruct l as [|a [|b [|c r]]]; [now subst s|reflexivity..].
Qed.

Lemma confirmationContent_tag (env : Env) (op sqlv msg : value) (c : string) :
  confirmationContent env op sqlv msg = Some c ->
  exists head sql64 msg64,
    btoa (toStr sqlv) = Some sql64 /\ btoa (toStr msg) = Some msg64
    /\ c = head
           ++ confirmationTag (toStr op) sql64 msg64 (send_model env).
Proof.
  unfold confirmationContent. intros H.
  destruct (btoa (toStr sqlv)) as [sql64|]; [|discriminate].
  destruct (btoa (toStr msg)) as [msg64|]; [|discriminate].
  injection H as <-.
  exists (toStr msg ++ nl ++ nl ++ "**SQL to Execute:**" ++ nl ++ fence
          ++ "sql" ++ nl ++ toStr sqlv ++ nl ++ fence ++ nl ++ nl
          ++ Hook.warningText ++ nl ++ nl), sql64, msg64.
  split; [reflexivity|]. split; [reflexivity|].
  unfold confirmationTag. rewrite !append_assoc. reflexivity.
Qed.

Lemma confirmationRegions_tag (h op s64 m64 mdl : string) :
  occurrences "<confirmation" (h ++ confirmationTag op s64 m64 mdl) = 1%nat ->
  allChars notQuote op = true -> nonEmpty op = true ->
  allChars notQuote s64 = true -> nonEmpty s64 = true ->
  allChars notQuote m64 = true -> nonEmpty m64 = true ->
  allChars notQuote mdl = true -> nonEmpty mdl = true ->
  confirmationRegions (h ++ confirmationTag op s64 m64 mdl)
  = [(String.length h,
      (String.length h + String.length (confirmationTag op s64 m64 mdl))%nat,
      {| cOperation := op; cSql := s64; cMessage := m64; cModel := mdl |})].
Proof.
  intros Ho H1 H2 H3 H4 H5 H6 H7 H8. unfold confirmationRegions.
  set (tag := confirmationTag op s64 m64 mdl) in *.
  assert (Ht : tag = "<confirmation"
                     ++ slice (String.length "<confirmation") tag)
    by (apply startsWith_split; reflexivity).
  pose proof (occurrences_head "<confirmation"
                (slice (String.length "<confirmation") tag)) as Hge.
  rewrite <- Ht in Hge.
  pose proof (occurrences_app_le "<confirmation" h tag) as Hle.
  rewrite (execAll_before matchConfirmation "<confirmation")
    by (try apply matchConfirmation_head; lia).
  cbn [Nat.add].
  pose proof (matchConfirmation_tag op s64 m64 mdl EmptyString
                H1 H2 H3 H4 H5 H6 H7 H8) as Hm.
  rewrite append_empty_r in Hm. fold tag in Hm.
  destruct tag as [|c t] eqn:Et; [discriminate|].
  cbn [execAll]. rewrite Hm. cbn [String.length Nat.sub].
  rewrite Nat.sub_0_r, execAll_skip_all by apply le_n. reflexivity.
Qed.

(** X2: the confirmation tag that the callback of the agent stream writes
    is read back by the renderer: when the text shown has no other
    occurrence of [<confirmation], the renderer finds one confirmation
    region, and its buttons hand to [onConfirmAction] the operation, the
    SQL, the message and the model of the event. *)
Theorem confirmation_tag_is_read_back (env : Env) (op sqlv msg : value)
  (pre c : string) :
  confirmationContent env op sqlv msg = Some c ->
  occurrences "<confirmation" (pre ++ c) = 1%nat ->
  nonEmpty (toStr op) = true -> includes dq (toStr op) = false ->
  nonEmpty (send_model env) = true -> includes dq (send_model env) = false ->
  nonEmpty (toStr sqlv) = true -> nonEmpty (toStr msg) = true ->
  map (fun r => confirmArguments (snd r)) (confirmationRegions (pre ++ c))
  = [Some (toStr op, toStr sqlv, toStr msg, send_model env)].
Proof.
  intros Hc Ho Hop Hopq Hm Hmq Hs Hg.
  destruct (confirmationContent_tag env op sqlv msg c Hc)
    as (head & sql64 & msg64 & Es & Em & ->).
  destruct (btoa_shape _ _ Es Hs) as [Hs1 Hs2].
  destruct (btoa_shape _ _ Em Hg) as [Hm1 Hm2].
  rewrite <- append_assoc in Ho |- *.
  rewrite confirmationRegions_tag; try assumption;
    try now apply notQuote_includes.
  cbn [map snd]. unfold confirmArguments. cbn [cSql cMessage cOperation cModel].
  now rewrite (atob_of_btoa _ _ Es), (atob_of_btoa _ _ Em).
Qed.

Lemma confirmation_tag_is_read_back_witness :
  confirmationContent Samples.env (Some (JStr "DELETE"))
    (Some (JStr Samples.deleteSql)) (Some (JStr Samples.deleteNote))
  = Some ClientSamples.confirmationText
  /\ map (fun r => confirmArguments (snd r))
       (confirmationRegions ("Working on it" ++ ClientSamples.confirmationText))
     = [Some ("DELETE", Samples.deleteSql, Samples.deleteNote,
              "gemini-2.5-flash")].
Proof.
  split; [reflexivity|].
  apply (confirmation_tag_is_read_back Samples.env (Some (JStr "DELETE"))
           (Some (JStr Samples.deleteSql)) (Some (JStr Samples.deleteNote)));
    reflexivity.
Defined.

Lemma quoted_empty (rest : string) : quoted (dq ++ dq ++ rest) = None.
Proof. reflexivity. Qed.

Lemma attribute_empty (name rest : string) :
  (forall x, stripWs ((name ++ "=") ++ x) = None) ->
  attribute name (String " " ((name ++ "=") ++ dq ++ dq ++ rest)) = None.
Proof.
  intros Hn. unfold attribute.
  rewrite ws1_space by apply Hn. rewrite lit_app. apply quoted_empty.
Qed.

Ltac drop_empty :=
  match goal with
  | |- context [EmptyString ++ ?r] => change (EmptyString ++ r) with r
  end.

Lemma matchConfirmation_empty_value (op s64 m64 mdl : string) :
  allChars notQuote op = true ->
  allChars notQuote s64 = true ->
  nonEmpty op = false \/ nonEmpty s64 = false \/ nonEmpty m64 = false ->
  matchConfirmation (confirmationTag op s64 m64 mdl) = None.
Proof.
  intros H1 H3 He.
  replace (confirmationTag op s64 m64 mdl) with
    ("<confirmation" ++
     String " " (("operation" ++ "=") ++ dq ++ op ++ dq ++
     String " " (("sql" ++ "=") ++ dq ++ s64 ++ dq ++
     String " " (("message" ++ "=") ++ dq ++ m64 ++ dq ++
     String " " (("model" ++ "=") ++ dq ++ mdl ++ dq ++ " />")))))
    by (unfold confirmationTag; rewrite !append_assoc; reflexivity).
  unfold matchConfirmation. rewrite lit_app.
  destruct (nonEmpty op) eqn:Eo.
  - rewrite attribute_app by (try assumption; intros x; vm_compute; reflexivity).
    destruct (nonEmpty s64) eqn:Es.
    + rewrite attribute_app
        by (try assumption; intros x; vm_compute; reflexivity).
      destruct He as [He|[He|He]]; try discriminate.
      destruct m64; [|discriminate]. drop_empty.
      now rewrite attribute_empty by (intros x; vm_compute; reflexivity).
    + destruct s64; [|discriminate]. drop_empty.
      now rewrite attribute_empty by (intros x; vm_compute; reflexivity).
  - destruct op; [|discriminate]. drop_empty.
    now rewrite attribute_empty by (intros x; vm_compute; reflexivity).
Qed.

Lemma btoa_empty (s e : string) :
  btoa s = Some e -> nonEmpty e = nonEmpty s /\ allChars notQuote e = true.
Proof.
  intros H. destruct (nonEmpty s) eqn:Es.
  - destruct (btoa_shape s e H Es) as [H1 H2]. now split.
  - destruct s; [|discriminate]. injection H as <-. now split.
Qed.

Lemma execAll_failed_head {D : Type} (m : string -> option (D * string))
  (p h d : string) (i : nat) :
  (forall s, startsWith p s = false -> m s = None) ->
  startsWith p d = true -> m d = None ->
  occurrences p (h ++ d) = 1%nat ->
  execAll m 0 i (h ++ d) = [].
Proof.
  intros Hm Hp Hd Ho.
  pose proof (occurrences_app_le p h d) as Hle.
  destruct d as [|x t]; cbn [occurrences] in Hle; rewrite Hp in Hle.
  - rewrite (execAll_before m p) by (try assumption; cbn [occurrences]; rewrite Hp; lia).
    reflexivity.
  - rewrite (execAll_before m p)
      by (try assumption; cbn [occurrences]; rewrite Hp; lia).
    cbn [execAll]. rewrite Hd.
    apply (execAll_nothing m p); [assumption|lia].
Qed.

(** X3: a confirmation whose operation, SQL or message is the empty string
    is written as a tag with an empty attribute, which the pattern of the
    renderer does not accept: no confirmation region is found, so that no
    Execute and Cancel buttons are shown. *)
Theorem confirmation_with_an_empty_field_has_no_buttons (env : Env)
  (op sqlv msg : value) (pre c : string) :
  confirmationContent env op sqlv msg = Some c ->
  occurrences "<confirmation" (pre ++ c) = 1%nat ->
  includes dq (toStr op) = false ->
  nonEmpty (toStr op) = false \/ nonEmpty (toStr sqlv) = false
  \/ nonEmpty (toStr msg) = false ->
  confirmationRegions (pre ++ c) = [].
Proof.
  intros Hc Ho Hopq He.
  destruct (confirmationContent_tag env op sqlv msg c Hc)
    as (head & sql64 & msg64 & Es & Em & ->).
  destruct (btoa_empty _ _ Es) as [Hs1 Hs2].
  destruct (btoa_empty _ _ Em) as [Hm1 Hm2].
  rewrite <- Hs1, <- Hm1 in He.
  rewrite <- append_assoc in Ho |- *.
  apply (execAll_failed_head matchConfirmation "<confirmation");
    [apply matchConfirmation_head|reflexivity| |exact Ho].
  apply matchConfirmation_empty_value; try assumption.
  now apply notQuote_includes.
Qed.

Lemma confirmation_with_an_empty_field_witness :
  confirmationContent Samples.env (Some (JStr "DELETE"))
    (Some (JStr EmptyString)) (Some (JStr Samples.deleteNote))
  = Some ClientSamples.emptySqlText
  /\ confirmationRegions ("Working on it" ++ ClientSamples.emptySqlText) = [].
Proof.
  split; [reflexivity|].
  apply (confirmation_with_an_empty_field_has_no_buttons Samples.env
           (Some (JStr "DELETE")) (Some (JStr EmptyString))
           (Some (JStr Samples.deleteNote))).
  - reflexivity.
  - vm_compute. reflexivity.
  - reflexivity.
  - right. left. reflexivity.
Defined.

End ConfirmationFacts.

(** ** Mentions *)

Section MentionFacts.
Import Regex RendererSpec Mentions.

Lemma execAll_sound {D : Type} (m : string -> option (D * string))
  (k i : nat) (s : string) (a b : nat) (d : D) :
  In (a, b, d) (execAll m k i s) ->
  exists pre t rest, s = pre ++ t /\ m t = Some (d, rest).
Proof.
  revert k i. induction s as [|c s IH]; intros k i H; [destruct H|].
  cbn [execAll] in H.
  assert (Hrec : forall k' i', In (a, b, d) (execAll m k' i' s) ->
            exists pre t rest, String c s = pre ++ t /\ m t = Some (d, rest)).
  { intros k' i' H'. destruct (IH _ _ H') as (pre & t & rest & -> & Hm).
    exists (String c pre), t, rest. now split. }
  destruct k as [|k]; [|now apply (Hrec k (S i))].
  destruct (m (String c s)) as [[d' rest]|] eqn:E; [|now apply (Hrec 0%nat (S i))].
  destruct H as [H|H]; [|now apply (Hrec _ _ H)].
  injection H as _ _ <-. exists EmptyString, (String c s), rest. now split.
Qed.

Lemma allChars_span (p : ascii -> bool) (r : string) :
  allChars p (substring 0 (spanLen p r) r) = true.
Proof.
  induction r as [|c r IH]; [reflexivity|].
  cbn [spanLen]. destruct (p c) eqn:E; [|reflexivity].
  cbn [substring allChars]. now rewrite E, IH.
Qed.

Lemma span_split (p : ascii -> bool) (r : string) :
  r = substring 0 (spanLen p r) r ++ slice (spanLen p r) r.
Proof.
  induction r as [|c r IH]; [reflexivity|].
  cbn [spanLen]. destruct (p c); [|reflexivity].
  cbn [substring slice String.append]. now rewrite <- IH.
Qed.

Lemma matchMention_inv (t name rest : string) :
  matchMention t = Some (name, rest) ->
  t = "@" ++ name ++ rest /\ nonEmptyString name = true
  /\ allChars isWord name = true.
Proof.
  unfold matchMention, lit. intros H.
  destruct (startsWith "@" t) eqn:E; [|discriminate].
  apply startsWith_split in E. cbn [String.length] in *.
  set (r := slice 1 t) in *.
  destruct (spanLen isWord r =? 0)%nat eqn:Ek; [discriminate|].
  injection H as <- <-. split; [|split].
  - rewrite E at 1. f_equal. apply span_split.
  - apply Nat.eqb_neq in Ek. destruct r as [|c r']; [now cbn in Ek|].
    cbn [spanLen] in *. destruct (isWord c); [reflexivity|now cbn in Ek].
  - apply allChars_span.
Qed.

Lemma mentions_sound (s name : string) :
  In name (mentions s) ->
  nonEmptyString name = true /\ allChars isWord name = true
  /\ includes ("@" ++ name) s = true.
Proof.
  unfold mentions. intros H. apply in_map_iff in H as ([[a b] d] & <- & H).
  destruct (execAll_sound _ _ _ _ _ _ _ H) as (pre & t & rest & -> & Hm).
  destruct (matchMention_inv _ _ _ Hm) as (-> & Hn & Hw). cbn [snd].
  split; [exact Hn|]. split; [exact Hw|].
  rewrite <- (append_assoc "@" d rest). apply includes_app.
Qed.

Lemma fold_left_inv {A B : Type} (P : B -> Prop) (f : B -> A -> B)
  (l : list A) (init : B) :
  P init -> (forall acc x, In x l -> P acc -> P (f acc x)) ->
  P (fold_left f l init).
Proof.
  revert init. induction l as [|x l IH]; intros init H0 Hs; [exact H0|].
  cbn [fold_left]. apply IH.
  - apply Hs; [now left|exact H0].
  - intros acc y Hy. apply Hs. now right.
Qed.

Lemma inList_In (x : string) (l : list string) : inList x l = true <-> In x l.
Proof.
  unfold inList. rewrite existsb_exists. split.
  - intros (y & Hy & E). apply String.eqb_eq in E. now subst.
  - intros H. exists x. split; [exact H|apply String.eqb_refl].
Qed.

Lemma inList_false (x : string) (l : list string) :
  inList x l = false <-> ~ In x l.
Proof.
  split.
  - intros H Hin. apply inList_In in Hin. congruence.
  - intros H. destruct (inList x l) eqn:E; [|reflexivity].
    apply inList_In in E. contradiction.
Qed.

Lemma NoDup_snoc (x : string) (l : list string) :
  NoDup l -> ~ In x l -> NoDup (l ++ [x])%list.
Proof.
  intros Hl Hx. apply NoDup_app. split; [exact Hl|]. split.
  - intros y Hy Hy'. apply list_elem_of_In in Hy, Hy'.
    destruct Hy' as [<-|[]]. now apply Hx.
  - apply NoDup_singleton.
Qed.

Lemma pushTag_grows (l : list string) (b : list string) (t : string) :
  In t b ->
  In t (fold_left (fun tags n =>
                     if inList ("@" ++ n) tags then tags
                     else (tags ++ [("@" ++ n)%string])%list) l b).
Proof.
  revert b. induction l as [|y l IH]; intros b Ht; [exact Ht|].
  cbn [fold_left]. apply IH.
  destruct (inList ("@" ++ y) b); [exact Ht|]. apply in_or_app. now left.
Qed.

Lemma pushTag_complete (l : list string) (b : list string) (name : string) :
  In name l ->
  In ("@" ++ name)
     (fold_left (fun tags n =>
                   if inList ("@" ++ n) tags then tags
                   else (tags ++ [("@" ++ n)%string])%list) l b).
Proof.
  revert b. induction l as [|y l IH]; intros b H; [destruct H|].
  cbn [fold_left]. destruct H as [<-|H]; [|now apply IH].
  apply pushTag_grows.
  destruct (inList ("@" ++ y) b) eqn:E; [now apply inList_In|].
  apply in_or_app. right. now left.
Qed.

Lemma extractDataTags_shape (message : string) :
  Forall (fun tag => exists name,
             tag = "@" ++ name /\ nonEmptyString name = true
             /\ allChars isWord name = true)
         (extractDataTags message).
Proof.
  unfold extractDataTags. destruct (nonEmptyString message); [|constructor].
  apply fold_left_inv; [constructor|].
  intros acc x Hx Hacc. destruct (inList ("@" ++ x) acc); [exact Hacc|].
  apply Forall_app. split; [exact Hacc|]. constructor; [|constructor].
  destruct (mentions_sound _ _ Hx) as (H1 & H2 & H3).
  exists x. repeat split; assumption.
Qed.

(** X4: the data tags taken from a message are distinct; each is
    [@] followed by a name of one or more word characters and occurs in the
    message; and every mention of the message is among them. *)
Theorem extractDataTags_are_the_distinct_mentions (message : string) :
  NoDup (extractDataTags message)
  /\ Forall (fun tag => exists name,
                tag = "@" ++ name /\ nonEmptyString name = true
                /\ allChars isWord name = true
                /\ includes tag message = true)
            (extractDataTags message)
  /\ (forall name, In name (mentions message) ->
        In ("@" ++ name) (extractDataTags message)).
Proof.
  unfold extractDataTags.
  destruct (nonEmptyString message) eqn:En.
  - split; [|split].
    + apply fold_left_inv; [apply NoDup_nil_2|].
      intros acc x _ Hacc. destruct (inList ("@" ++ x) acc) eqn:E;
        [exact Hacc|]. apply NoDup_snoc; [exact Hacc|now apply inList_false].
    + apply fold_left_inv; [constructor|].
      intros acc x Hx Hacc. destruct (inList ("@" ++ x) acc); [exact Hacc|].
      apply Forall_app. split; [exact Hacc|]. constructor; [|constructor].
      destruct (mentions_sound _ _ Hx) as (H1 & H2 & H3).
      exists x. repeat split; assumption.
    + intros name H. now apply pushTag_complete.
  - destruct message; [|discriminate].
    split; [apply NoDup_nil_2|]. split; [constructor|]. intros name [].
Qed.

Lemma test_head {D : Type} (m : string -> option (D * string)) (s : string) :
  m s <> None -> test m s = true.
Proof. intros H. destruct s; cbn [test]; now destruct (m _). Qed.

Lemma test_app_r {D : Type} (m : string -> option (D * string))
  (a b : string) : test m b = true -> test m (a ++ b) = true.
Proof.
  intros H. induction a as [|c a IH]; [exact H|].
  cbn [String.append test]. now destruct (m _).
Qed.

Lemma matchMention_tag (name rest : string) :
  nonEmptyString name = true -> allChars isWord name = true ->
  matchMention ("@" ++ name ++ rest) <> None.
Proof.
  intros Hn Hw. unfold matchMention. rewrite lit_app.
  destruct name as [|c n]; [discriminate|].
  cbn [allChars] in Hw. apply andb_prop in Hw as [Hc _].
  cbn [String.append spanLen]. rewrite Hc. discriminate.
Qed.

Lemma join_head (sep x : string) (r : list string) :
  exists rest, join sep (x :: r) = x ++ rest.
Proof.
  destruct r as [|y r].
  - exists EmptyString. cbn. now rewrite append_empty_r.
  - now exists (sep ++ join sep (y :: r)).
Qed.

(** X5: appending the data tags to a suggestion is idempotent,
    and the suggestion is kept as the beginning of the result. *)
Theorem appendDataTags_is_idempotent (lastUserMessage : option string)
  (suggestion : string) :
  appendDataTags lastUserMessage (appendDataTags lastUserMessage suggestion)
  = appendDataTags lastUserMessage suggestion
  /\ startsWith suggestion (appendDataTags lastUserMessage suggestion) = true.
Proof.
  unfold appendDataTags.
  destruct lastUserMessage as [l|];
    [|split; [reflexivity|rewrite <- (append_empty_r suggestion) at 2;
                          apply startsWith_app]].
  destruct (nonEmptyString l);
    [|split; [reflexivity|rewrite <- (append_empty_r suggestion) at 2;
                          apply startsWith_app]].
  pose proof (extractDataTags_shape l) as Hs.
  destruct (extractDataTags l) as [|tag tags];
    [split; [reflexivity|rewrite <- (append_empty_r suggestion) at 2;
                         apply startsWith_app]|].
  cbn [List.length Nat.eqb].
  destruct (test matchMention suggestion) eqn:Et.
  - rewrite Et. split; [reflexivity|].
    rewrite <- (append_empty_r suggestion) at 2. apply startsWith_app.
  - split; [|apply startsWith_app].
    replace (test matchMention (suggestion ++ " " ++ join " " (tag :: tags)))
      with true; [reflexivity|].
    symmetry. inversion_clear Hs as [|? ? (name & -> & Hn & Hw) _].
    destruct (join_head " " (String "@" name) tags) as [rest ->].
    rewrite <- (append_assoc suggestion " "). apply test_app_r.
    apply test_head. now apply (matchMention_tag name rest).
Qed.

Lemma pushTable_grows (avail l b : list string) (t : string) :
  In t b ->
  In t (fold_left (fun acc tableName =>
                     if (String.eqb tableName "general"
                         || inList tableName avail)
                        && negb (inList tableName acc)
                     then (acc ++ [tableName])%list else acc) l b).
Proof.
  revert b. induction l as [|y l IH]; intros b Ht; [exact Ht|].
  cbn [fold_left]. apply IH.
  destruct (_ && _); [|exact Ht]. apply in_or_app. now left.
Qed.

Lemma pushTable_complete (avail l b : list string) (name : string) :
  In name l -> (String.eqb name "general" || inList name avail) = true ->
  In name (fold_left (fun acc tableName =>
                        if (String.eqb tableName "general"
                            || inList tableName avail)
                           && negb (inList tableName acc)
                        then (acc ++ [tableName])%list else acc) l b).
Proof.
  revert b. induction l as [|y l IH]; intros b H Hv; [destruct H|].
  cbn [fold_left]. destruct H as [<-|H]; [|now apply IH].
  apply pushTable_grows. rewrite Hv. cbn [andb].
  destruct (inList y b) eqn:E; [now apply inList_In|].
  apply in_or_app. right. now left.
Qed.

Lemma mentionedTables_sound (avail : list string) (message : string) :
  NoDup (mentionedTables avail message)
  /\ Forall (fun t => (t = "general" \/ In t avail)
                      /\ includes ("@" ++ t) message = true)
            (mentionedTables avail message).
Proof.
  unfold mentionedTables. split.
  - apply fold_left_inv; [apply NoDup_nil_2|].
    intros acc x _ Hacc.
    destruct (String.eqb x "general" || inList x avail); [|exact Hacc].
    cbn [andb]. destruct (inList x acc) eqn:E; [exact Hacc|].
    apply NoDup_snoc; [exact Hacc|now apply inList_false].
  - apply fold_left_inv; [constructor|].
    intros acc x Hx Hacc.
    destruct (String.eqb x "general" || inList x avail) eqn:Ev; [|exact Hacc].
    cbn [andb]. destruct (inList x acc); [exact Hacc|].
    apply Forall_app. split; [exact Hacc|]. constructor; [|constructor].
    destruct (mentions_sound _ _ Hx) as (_ & _ & H3). split; [|exact H3].
    apply orb_prop in Ev as [Ev|Ev].
    + left. now apply String.eqb_eq.
    + right. now apply inList_In.
Qed.

(** X6: what the input box sends.  A message that is blank is
    not sent and stays in the box.  Any other message is sent as it is and
    the box is emptied; the tables sent with it are distinct, each is
    [general] or an available table and is mentioned in the message with
    [@]; no list is sent (rather than an empty one) exactly when no mention
    of the message names [general] or an available table. *)
Theorem handleSend_sends_the_mentioned_tables (avail : list string)
  (message : string) :
  match handleSend avail message with
  | (Some req, box) =>
      nonEmptyString (trim message) = true
      /\ sentContent req = message /\ box = EmptyString
      /\ match sentTables req with
         | Some ts =>
             ts <> [] /\ NoDup ts
             /\ Forall (fun t => (t = "general" \/ In t avail)
                                 /\ includes ("@" ++ t) message = true) ts
         | None =>
             Forall (fun name => name <> "general" /\ ~ In name avail)
                    (mentions message)
         end
  | (None, box) => box = message /\ trim message = EmptyString
  end.
Proof.
  unfold handleSend. destruct (nonEmptyString (trim message)) eqn:Et.
  - split; [reflexivity|]. split; [reflexivity|]. split; [reflexivity|].
    cbn [sentTables].
    destruct (mentionedTables_sound avail message) as [Hn Hf].
    destruct (mentionedTables avail message) as [|t ts] eqn:Em.
    + cbn [List.length Nat.ltb Nat.leb]. apply Forall_forall.
      intros name Hin%list_elem_of_In.
      pose proof (pushTable_complete avail (mentions message) [] name Hin)
        as Hc.
      fold (mentionedTables avail message) in Hc. rewrite Em in Hc.
      destruct (String.eqb name "general") eqn:E1;
        [destruct (Hc eq_refl)|].
      destruct (inList name avail) eqn:E2; [destruct (Hc eq_refl)|].
      split; [now apply String.eqb_neq|now apply inList_false].
    + cbn [List.length Nat.ltb Nat.leb]. split; [discriminate|]. now split.
  - split; [reflexivity|].
    unfold nonEmptyString in Et. apply negb_false_iff in Et.
    now apply String.eqb_eq.
Qed.

End MentionFacts.

(** ** The downloads *)

Section DownloadFacts.
Import Regex RendererSpec Mentions Downloads DownloadsSpec.

Ltac by_bytes c :=
  destruct c as [[] [] [] [] [] [] [] []]; vm_compute; try reflexivity;
  try discriminate.

Lemma toLowerCase_app (a b : string) :
  toLowerCase (a ++ b) = toLowerCase a ++ toLowerCase b.
Proof.
  induction a as [|c a IH]; [reflexivity|].
  cbn [String.append toLowerCase]. now rewrite IH.
Qed.

Lemma codeUnits_lower (s : string) : codeUnits (toLowerCase s) = codeUnits s.
Proof.
  induction s as [|c s IH]; [reflexivity|]. cbn [toLowerCase codeUnits].
  rewrite IH. f_equal. by_bytes c.
Qed.

Lemma piece_units (c : ascii) :
  codeUnits (if isAlnum c then String c EmptyString
             else lowLines (unitsOfByte c)) = unitsOfByte c.
Proof. by_bytes c. Qed.

Lemma piece_safe (c : ascii) :
  allChars isSafe (toLowerCase (if isAlnum c then String c EmptyString
                                else lowLines (unitsOfByte c))) = true.
Proof. by_bytes c. Qed.

Lemma piece_fixed (c : ascii) :
  isSafe c = true ->
  (if isAlnum c then String c EmptyString else lowLines (unitsOfByte c))
  = String c EmptyString
  /\ lowerChar c = c.
Proof. by_bytes c; intros H; try discriminate; split; reflexivity. Qed.

Lemma sanitized_fixed (s : string) :
  allChars isSafe s = true -> sanitizedName s = s.
Proof.
  unfold sanitizedName. induction s as [|c s IH]; intros H; [reflexivity|].
  cbn [allChars] in H. apply andb_prop in H as [Hc Hs].
  destruct (piece_fixed c Hc) as [E1 E2].
  cbn [replaceNonAlnum]. rewrite E1. cbn [String.append toLowerCase].
  now rewrite E2, IH.
Qed.

Lemma sanitized_safe (s : string) : allChars isSafe (sanitizedName s) = true.
Proof.
  unfold sanitizedName. induction s as [|c s IH]; [reflexivity|].
  cbn [replaceNonAlnum]. rewrite toLowerCase_app, allChars_app, IH.
  now rewrite piece_safe.
Qed.

(** X7: the file name of a download is made of lower-case ASCII
    letters, digits and low lines only; it has as many UTF-16 code units as
    the name it is made from; and making it from a name that is already
    such a file name changes nothing. *)
Theorem sanitizedName_is_safe_and_stable (name : string) :
  allChars isSafe (sanitizedName name) = true
  /\ codeUnits (sanitizedName name) = codeUnits name
  /\ sanitizedName (sanitizedName name) = sanitizedName name.
Proof.
  split; [apply sanitized_safe|]. split.
  - unfold sanitizedName. rewrite codeUnits_lower.
    induction name as [|c s IH]; [reflexivity|].
    cbn [replaceNonAlnum codeUnits]. now rewrite codeUnits_app, piece_units, IH.
  - apply sanitized_fixed, sanitized_safe.
Qed.

Lemma readQuoted_doubled (v rest : string) :
  endOfCell rest ->
  readQuoted (doubleQuotes v ++ dq ++ rest) = Some (v, rest).
Proof.
  intros Hr. induction v as [|c v IH].
  - destruct Hr as [->|[r ->]]; reflexivity.
  - cbn [doubleQuotes]. destruct (isChar 34 c) eqn:E.
    + cbn [String.append readQuoted]. rewrite E, IH. reflexivity.
    + cbn [String.append readQuoted]. rewrite E, IH. reflexivity.
Qed.

Lemma includes_char_false (x c : ascii) (v : string) :
  includes (String x EmptyString) (String c v) = false ->
  Ascii.eqb x c = false /\ includes (String x EmptyString) v = false.
Proof.
  intros H. rewrite includes_unfold in H. apply orb_false_iff in H as [H1 H2].
  split; [|exact H2]. cbn [startsWith] in H1. now destruct (Ascii.eqb x c).
Qed.

Lemma isChar_eqb (n : nat) (c : ascii) :
  (n < 256)%nat -> isChar n c = Ascii.eqb (chr n) c.
Proof.
  intros Hn. unfold isChar. destruct (Ascii.eqb (chr n) c) eqn:E.
  - apply Ascii.eqb_eq in E. subst c. unfold chr.
    rewrite nat_ascii_embedding by exact Hn. apply Nat.eqb_refl.
  - apply Nat.eqb_neq. intros H. apply Ascii.eqb_neq in E. apply E.
    unfold chr. now rewrite <- H, ascii_nat_embedding.
Qed.

Lemma readPlain (v rest : string) :
  includes "," v = false -> endOfCell rest ->
  spanLen (fun x => negb (isChar 44 x)) (v ++ rest) = String.length v.
Proof.
  intros Hv Hr. induction v as [|c v IH].
  - destruct Hr as [->|[r ->]]; reflexivity.
  - apply includes_char_false in Hv as [Hc Hv].
    cbn [String.append spanLen String.length].
    rewrite (isChar_eqb 44) by lia. change (chr 44) with ","%char.
    rewrite Hc. cbn [negb]. now rewrite IH.
Qed.

Lemma readField_csvField (v rest : string) :
  endOfCell rest -> readField (csvField v ++ rest) = Some (v, rest).
Proof.
  intros Hr. unfold csvField.
  destruct (includes "," v || includes dq v) eqn:E.
  - change (dq ++ doubleQuotes v ++ dq) with
      (String (chr 34) (doubleQuotes v ++ dq)).
    cbn [String.append readField]. change (isChar 34 (chr 34)) with true.
    cbn iota. rewrite append_assoc. now apply readQuoted_doubled.
  - apply orb_false_iff in E as [E1 E2].
    destruct v as [|c v].
    + destruct Hr as [->|[r ->]]; reflexivity.
    + pose proof (readPlain (String c v) rest E1 Hr) as Hs.
      change dq with (String (chr 34) EmptyString) in E2.
      apply includes_char_false in E2 as [E2 _].
      cbn [String.append readField] in *.
      rewrite (isChar_eqb 34) by lia. rewrite E2.
      cbn zeta. rewrite Hs.
      change (String c (v ++ rest)) with (String c v ++ rest).
      change (S (String.length v)) with (String.length (String c v)).
      now rewrite substring_app, slice_app.
Qed.

Lemma csvRow_cons (v : string) (vs : list string) :
  exists rest, csvRow (v :: vs) = csvField v ++ rest /\ endOfCell rest
               /\ (vs = [] -> rest = EmptyString)
               /\ (vs <> [] -> rest = "," ++ csvRow vs).
Proof.
  destruct vs as [|w vs].
  - exists EmptyString. unfold csvRow. cbn. rewrite append_empty_r.
    repeat split; [now left|congruence].
  - exists ("," ++ csvRow (w :: vs)). repeat split.
    + right. now exists (csvRow (w :: vs)).
    + discriminate.
Qed.

Lemma csvRow_inj (vs ws : list string) :
  List.length vs = List.length ws -> csvRow vs = csvRow ws -> vs = ws.
Proof.
  revert ws. induction vs as [|v vs IH]; intros [|w ws] Hl H;
    try discriminate; [reflexivity|].
  injection Hl as Hl.
  destruct (csvRow_cons v vs) as (r1 & E1 & H1 & N1 & C1).
  destruct (csvRow_cons w ws) as (r2 & E2 & H2 & N2 & C2).
  rewrite E1, E2 in H.
  pose proof (readField_csvField v r1 H1) as R1.
  rewrite H, readField_csvField in R1 by exact H2.
  injection R1 as <- <-. f_equal.
  destruct vs as [|x vs]; destruct ws as [|y ws]; try discriminate;
    [reflexivity|].
  apply IH; [exact Hl|].
  specialize (C1 ltac:(discriminate)). specialize (C2 ltac:(discriminate)).
  rewrite C1 in C2. now injection C2.
Qed.

(** X8: the line written for a row of a CSV download determines
    the cells: two rows with the same number of cells that differ in the
    text of a cell are written as different lines. *)
Theorem csvRow_keeps_rows_apart (vs ws : list string) :
  List.length vs = List.length ws -> vs <> ws -> csvRow vs <> csvRow ws.
Proof. intros Hl Hn H. apply Hn. now apply csvRow_inj. Qed.

Lemma csvRow_keeps_rows_apart_witness :
  List.length ["a,b"; "c"] = List.length ["a"; "b,c"]
  /\ csvRow ["a,b"; "c"] <> csvRow ["a"; "b,c"].
Proof.
  split; [reflexivity|].
  apply (csvRow_keeps_rows_apart ["a,b"; "c"] ["a"; "b,c"]);
    [reflexivity|discriminate].
Defined.

End DownloadFacts.

(** ** The state of the tables *)

Section TableFacts.
Import Tables.

(** X9: a click on the sort button of a column makes the table
    sorted by this column; it is ascending when the table was not sorted by
    this column before, and further clicks on the same column alternate
    between descending and ascending; the sort settings of the other tables
    are not touched. *)
Theorem handleSort_toggles_the_direction (tableId col : string)
  (prev : gmap string SortConfig) :
  handleSort tableId col prev !! tableId
  = Some {| column := col;
            direction :=
              match prev !! tableId with
              | Some {| column := c; direction := asc |} =>
                  if String.eqb c col then desc else asc
              | _ => asc
              end |}
  /\ handleSort tableId col (handleSort tableId col (handleSort tableId col prev))
     = handleSort tableId col prev
  /\ (forall other, other <> tableId ->
        handleSort tableId col prev !! other = prev !! other).
Proof.
  set (after := fun o : option SortConfig =>
         {| column := col;
            direction := match o with
                         | Some {| column := c; direction := asc |} =>
                             if String.eqb c col then desc else asc
                         | _ => asc
                         end |}).
  assert (H0 : forall m, handleSort tableId col m
                         = <[tableId := after (m !! tableId)]> m).
  { intros m. unfold handleSort, after.
    destruct (m !! tableId) as [[c d]|]; [|reflexivity].
    cbn [column direction]. destruct (String.eqb c col); now destruct d. }
  split; [now rewrite H0, lookup_insert_eq|]. split.
  - rewrite !H0, !lookup_insert_eq, !insert_insert_eq. f_equal.
    unfold after. cbn [column direction]. rewrite String.eqb_refl.
    destruct (prev !! tableId) as [[c [|]]|]; try reflexivity.
    now destruct (String.eqb c col).
  - intros other Ho. now rewrite H0, lookup_insert_ne.
Qed.

Lemma existsb_eqb_In (x : string) (l : list string) :
  existsb (String.eqb x) l = true <-> In x l.
Proof.
  rewrite existsb_exists. split.
  - intros (y & Hy & E). apply String.eqb_eq in E. now subst.
  - intros H. exists x. split; [exact H|apply String.eqb_refl].
Qed.

(** X10: a click in the column menu flips the visibility of that
    column and of no other; the visible columns stay without repetition;
    the columns of the other tables are not touched.  (A table that was
    never touched shows all its columns.) *)
Theorem toggleColumnVisibility_flips_one_column (tableId col : string)
  (allColumns : list string) (prev : gmap string (list string)) :
  let visible m := default allColumns (m !! tableId) in
  let next := toggleColumnVisibility tableId col allColumns prev in
  (In col (visible next) <-> ~ In col (visible prev))
  /\ (forall c, c <> col -> In c (visible next) <-> In c (visible prev))
  /\ (NoDup (visible prev) -> NoDup (visible next))
  /\ (forall other, other <> tableId -> next !! other = prev !! other).
Proof.
  cbv zeta. unfold toggleColumnVisibility. rewrite lookup_insert_eq.
  set (cur := default allColumns (prev !! tableId)).
  cbn [default from_option]. unfold Datatypes.id.
  destruct (existsb (String.eqb col) cur) eqn:E.
  - apply existsb_eqb_In in E. split; [|split; [|split]].
    + split; [|intros H; contradiction].
      intros H. apply filter_In in H as [_ H].
      now rewrite String.eqb_refl in H.
    + intros c Hc. rewrite filter_In. split; [now intros [H _]|].
      intros H. split; [exact H|].
      apply negb_true_iff. now apply String.eqb_neq.
    + intros H. now apply NoDup_ListNoDup, List.NoDup_filter, NoDup_ListNoDup.
    + intros other Ho. now rewrite lookup_insert_ne.
  - assert (Hn : ~ In col cur).
    { intros H. apply existsb_eqb_In in H. congruence. }
    split; [|split; [|split]].
    + split; [intros _; exact Hn|].
      intros _. apply in_or_app. right. now left.
    + intros c Hc. split.
      * intros H. apply in_app_or in H as [H|[H|[]]]; [exact H|congruence].
      * intros H. apply in_or_app. now left.
    + intros H. apply NoDup_app. split; [exact H|]. split.
      * intros y Hy Hy'. apply list_elem_of_In in Hy, Hy'.
        destruct Hy' as [<-|[]]. now apply Hn.
      * apply NoDup_singleton.
    + intros other Ho. now rewrite lookup_insert_ne.
Qed.

Lemma chunks_concat {A : Type} (per n : nat) (rows : list A) :
  (List.length rows <= n * per)%nat ->
  concat (map (fun k => firstn per (skipn (k * per) rows)) (seq 0 n)) = rows.
Proof.
  revert rows. induction n as [|n IH]; intros rows H.
  - destruct rows; [reflexivity|cbn in H; lia].
  - cbn [seq map concat]. rewrite <- seq_shift, map_map.
    cbn [Nat.mul skipn].
    rewrite (map_ext _ (fun k => firstn per (skipn (k * per) (skipn per rows)))).
    + rewrite IH by (rewrite length_skipn; lia). apply firstn_skipn.
    + intros k. f_equal. rewrite skipn_skipn. f_equal. lia.
Qed.

Lemma totalPages_covers (len per : nat) :
  (0 < per)%nat ->
  (len <= totalPages len per * per)%nat
  /\ (forall p, (1 <= p <= totalPages len per)%nat -> ((p - 1) * per < len)%nat).
Proof.
  intros Hp. unfold totalPages.
  pose proof (Nat.div_mod_eq len per) as E.
  pose proof (Nat.mod_upper_bound len per ltac:(lia)) as Hm.
  destruct (len mod per =? 0)%nat eqn:Ez.
  - apply Nat.eqb_eq in Ez. split; [nia|]. intros p Hp1. nia.
  - apply Nat.eqb_neq in Ez. split; [nia|]. intros p Hp1. nia.
Qed.

(** X11: with a positive number of rows per page, the pages 1 to
    [totalPages] of a table show every row once and in order; none of these
    pages is empty or has more rows than the number per page; and the
    Previous and Next buttons lead from one of these pages to one of these
    pages. *)
Theorem pages_show_every_row_once {A : Type} (rows : list A)
  (rowsPerPage : nat) :
  (0 < rowsPerPage)%nat ->
  let total := totalPages (List.length rows) rowsPerPage in
  concat (map (fun p => displayData rows p rowsPerPage) (seq 1 total)) = rows
  /\ (forall p, (1 <= p <= total)%nat ->
        displayData rows p rowsPerPage <> []
        /\ (List.length (displayData rows p rowsPerPage) <= rowsPerPage)%nat
        /\ (1 <= previousPage p <= total)%nat
        /\ (1 <= nextPage total p <= total)%nat).
Proof.
  intros Hp. cbv zeta.
  destruct (totalPages_covers (List.length rows) rowsPerPage Hp) as [Hc Hn].
  split.
  - rewrite <- seq_shift, map_map. unfold displayData.
    rewrite (map_ext _ (fun k => firstn rowsPerPage
                                   (skipn (k * rowsPerPage) rows))).
    + now apply chunks_concat.
    + intros k. cbn [Nat.sub]. now rewrite Nat.sub_0_r.
  - intros p Hp1. specialize (Hn p Hp1). unfold displayData.
    split; [|split; [|split]].
    + intros E. apply (f_equal (@List.length A)) in E.
      rewrite length_firstn, length_skipn in E. cbn [List.length] in E. lia.
    + rewrite length_firstn. lia.
    + unfold previousPage. lia.
    + unfold nextPage. lia.
Qed.

Lemma pages_show_every_row_once_witness :
  (0 < 5)%nat
  /\ concat (map (fun p => displayData (seq 0 12) p 5)
               (seq 1 (totalPages 12 5))) = seq 0 12.
Proof.
  split; [lia|].
  apply (pages_show_every_row_once (seq 0 12) 5). lia.
Defined.

End TableFacts.

(** ** The pieces of a text *)

Section RegionFacts.
Import Regions RegionsSpec.

Section Tiling.
Context {A D : Type}.
Implicit Types (r x k : Region D) (l kept : list (Region D)) (text : list A).

Lemma insertByStart_sorted r l :
  sortedByStart l -> sortedByStart (insertByStart r l).
Proof.
  induction l as [|x t IH]; intros H.
  - cbn. split; [constructor|exact I].
  - cbn [insertByStart]. destruct H as [Hx Ht].
    destruct (start r <=? start x)%nat eqn:E.
    + apply Nat.leb_le in E. cbn [sortedByStart]. split; [|split; assumption].
      constructor; [exact E|].
      eapply Forall_impl; [exact Hx|]. cbn. intros; lia.
    + apply Nat.leb_gt in E. cbn [sortedByStart]. split; [|now apply IH].
      assert (Hin : forall y, In y (insertByStart r t) -> y = r \/ In y t).
      { clear. induction t as [|z t IH]; intros y Hy.
        - destruct Hy as [<-|[]]. now left.
        - cbn [insertByStart] in Hy. destruct (start r <=? start z)%nat.
          + destruct Hy as [<-|Hy]; [now left|now right].
          + destruct Hy as [<-|Hy]; [right; now left|].
            destruct (IH _ Hy) as [->|H]; [now left|right; now right]. }
      apply Forall_forall. intros y Hy%list_elem_of_In.
      destruct (Hin y Hy) as [->|Hy']; [lia|].
      rewrite Forall_forall in Hx. apply Hx. now apply list_elem_of_In.
Qed.

Lemma insertByStart_Forall (P : Region D -> Prop) r l :
  P r -> Forall P l -> Forall P (insertByStart r l).
Proof.
  intros Hr. induction 1 as [|x t Hx Ht IH]; cbn [insertByStart].
  - now repeat constructor.
  - destruct (start r <=? start x)%nat; repeat constructor; assumption.
Qed.

Lemma sortByStart_spec (P : Region D -> Prop) l :
  Forall P l -> sortedByStart (sortByStart l) /\ Forall P (sortByStart l).
Proof.
  induction 1 as [|x t Hx Ht [IH1 IH2]]; cbn [sortByStart fold_right].
  - split; [exact I|constructor].
  - split; [now apply insertByStart_sorted|now apply insertByStart_Forall].
Qed.

Lemma chainTo_snoc (lo hi : nat) l r :
  chainTo lo l hi -> (hi <= start r)%nat -> (start r < stop r)%nat ->
  chainTo lo (l ++ [r]) (stop r).
Proof.
  revert lo. induction l as [|x t IH]; intros lo H Hh Hr.
  - cbn in *. subst. repeat split; lia.
  - destruct H as (H1 & H2 & H3). cbn [app chainTo].
    repeat split; [exact H1|exact H2|]. now apply IH.
Qed.

Lemma removeOverlaps_chain (overlaps : Region D -> Region D -> bool)
  (bound : nat) l kept (hi : nat) :
  separates overlaps ->
  sortedByStart l ->
  Forall (fun x => start x < stop x <= bound)%nat l ->
  chainTo 0 kept hi -> (hi <= bound)%nat ->
  (kept = [] \/ exists k, In k kept /\ stop k = hi) ->
  Forall (fun k => Forall (fun x => start k <= start x)%nat l) kept ->
  exists hi', chainTo 0 (removeOverlaps overlaps kept l) hi'
              /\ (hi' <= bound)%nat.
Proof.
  intros Hsep. revert kept hi.
  induction l as [|r t IH]; intros kept hi Hs Hf Hc Hb Hl Hk.
  - now exists hi.
  - cbn [removeOverlaps]. destruct Hs as [Hr Hs].
    inversion_clear Hf as [|? ? Hfr Hft].
    assert (Hk' : Forall (fun k => Forall (fun x => start k <= start x)%nat t)
                         kept).
    { eapply Forall_impl; [exact Hk|]. cbn. intros k H.
      now inversion_clear H. }
    destruct (existsb (overlaps r) kept) eqn:E.
    + now apply (IH kept hi).
    + apply (IH (kept ++ [r])%list (stop r)); try assumption; try lia.
      * apply (chainTo_snoc 0 hi); [exact Hc| |lia].
        destruct Hl as [->|(k & Hin & <-)].
        -- cbn in Hc. lia.
        -- apply Hsep.
           ++ destruct (overlaps r k) eqn:Eo; [|reflexivity].
              assert (existsb (overlaps r) kept = true)
                by (apply existsb_exists; now exists k).
              congruence.
           ++ rewrite Forall_forall in Hk.
              specialize (Hk k (proj2 (list_elem_of_In _ _) Hin)).
              now inversion_clear Hk.
      * right. exists r. split; [apply in_or_app; right; now left|reflexivity].
      * apply Forall_app. split; [exact Hk'|]. constructor; [|constructor].
        exact Hr.
Qed.

Lemma substring_step (lo s : nat) text :
  (lo <= s <= List.length text)%nat ->
  skipn lo text = (substring lo s text ++ skipn s text)%list.
Proof.
  intros H. unfold substring.
  rewrite <- (firstn_skipn (s - lo) (skipn lo text)) at 1.
  rewrite skipn_skipn. do 2 f_equal. lia.
Qed.

Lemma pieces_cover text (lo hi : nat) l :
  chainTo lo l hi -> (hi <= List.length text)%nat ->
  concat (map (covered text) (pieces text lo l)) = skipn lo text.
Proof.
  revert lo. induction l as [|r t IH]; intros lo Hc Hb.
  - cbn in Hc. subst hi. cbn [pieces].
    destruct (lo <? List.length text)%nat eqn:E.
    + cbn [map concat covered]. rewrite app_nil_r. unfold substring.
      apply firstn_all2. rewrite length_skipn. lia.
    + apply Nat.ltb_ge in E. cbn. symmetry. apply skipn_all2. lia.
  - destruct Hc as (H1 & H2 & H3).
    assert (Hs : (stop r <= List.length text)%nat).
    { clear -H3 Hb. revert H3. generalize (stop r) as lo.
      induction t as [|x t IHt]; intros lo H; cbn in H; [lia|].
      destruct H as (Ha & Hb' & Hc). specialize (IHt _ Hc). lia. }
    cbn [pieces]. rewrite map_app, concat_app. cbn [map concat covered].
    rewrite (IH (stop r) H3 Hb).
    rewrite (substring_step lo (start r)) by lia.
    rewrite (substring_step (start r) (stop r) text) by lia.
    destruct (lo <? start r)%nat eqn:E.
    + cbn [map concat covered]. now rewrite app_nil_r.
    + apply Nat.ltb_ge in E. cbn [map concat app].
      replace (substring lo (start r) text) with (@nil A); [reflexivity|].
      unfold substring. replace (start r - lo)%nat with 0%nat by lia.
      reflexivity.
Qed.

Lemma tiles (overlaps : Region D -> Region D -> bool) text l :
  separates overlaps -> Forall (found text) l ->
  concat (map (covered text)
            (pieces text 0 (removeOverlaps overlaps [] (sortByStart l))))
  = text.
Proof.
  intros Hsep Hf.
  destruct (sortByStart_spec _ l Hf) as [Hs Hf'].
  destruct (removeOverlaps_chain overlaps (List.length text)
              (sortByStart l) [] 0 Hsep Hs Hf' eq_refl (Nat.le_0_l _)
              (or_introl eq_refl) (Forall_nil_2 _)) as (hi & Hc & Hb).
  now rewrite (pieces_cover text 0 hi).
Qed.

End Tiling.

Lemma overlapsRegion_separates {D : Type} : separates (@overlapsRegion D).
Proof.
  intros r k H Hle. unfold overlapsRegion in H.
  apply orb_false_iff in H as [H _]. apply orb_false_iff in H as [H _].
  apply andb_false_iff in H as [H|H];
    [apply Nat.leb_gt in H; lia|now apply Nat.ltb_ge in H].
Qed.

Lemma overlapsMatch_separates {D : Type} : separates (@overlapsMatch D).
Proof.
  intros r k H Hle. unfold overlapsMatch in H.
  apply orb_false_iff in H as [H _].
  apply andb_false_iff in H as [H|H];
    [apply Nat.leb_gt in H; lia|now apply Nat.ltb_ge in H].
Qed.



End RegionFacts.

(** ** The sidebars *)

Section SidebarFacts.
Import Sidebar.

Lemma step_bounds (p : Props) (st : State) (ev : Event) :
  (minWidth p <= maxWidth p)%Z ->
  (minWidth p <= width st <= maxWidth p)%Z ->
  (minWidth p <= width (step p st ev) <= maxWidth p)%Z.
Proof.
  intros Hp Hw. destruct ev as [|x w|]; cbn [step].
  - exact Hw.
  - destruct (isResizing st); [|exact Hw].
    unfold handleMouseMove. cbn [width]. destruct (isRight p); lia.
  - now destruct (isResizing st).
Qed.

(** X13: the width of a sidebar stays between its minimum and its
    maximum whatever the pointer does, as long as the initial width lies
    between them; and a pointer that moves while no resize is going on
    leaves the width as it is. *)
Theorem sidebar_width_stays_within_bounds (p : Props) (events : list Event) :
  (minWidth p <= initialWidth p <= maxWidth p)%Z ->
  (minWidth p <= width (run p events) <= maxWidth p)%Z
  /\ (forall x w,
        isResizing (run p events) = false ->
        run p (events ++ [MouseMove x w]) = run p events).
Proof.
  intros Hi. split.
  - unfold run. apply fold_left_inv; [exact Hi|].
    intros st ev _. apply step_bounds. lia.
  - intros x w H. unfold run in *. rewrite fold_left_app. cbn [fold_left step].
    now rewrite H.
Qed.

Lemma sidebar_width_stays_within_bounds_witness :
  let left := {| initialWidth := 256; minWidth := 200; maxWidth := 400;
                 isRight := false |} in
  (minWidth left <= initialWidth left <= maxWidth left)%Z
  /\ (minWidth left
      <= width (run left [StartResize; MouseMove 1000 1400; MouseUp])
      <= maxWidth left)%Z.
Proof.
  cbv zeta. split; [cbn; lia|].
  apply (sidebar_width_stays_within_bounds
           {| initialWidth := 256; minWidth := 200; maxWidth := 400;
              isRight := false |}).
  cbn. lia.
Defined.

End SidebarFacts.

(** ** The input box *)

Section ChatInputFacts.
Import ChatInput ChatInputSpec.

(** X14: an enhancement of the prompt can be undone: after
    [handleEnhancePrompt] (whether the request succeeds or fails) and
    [handleUndo], the box holds the prompt that was enhanced and the index
    of the history is what it was; the entries of the history up to that
    index are kept.  The index stays within the history. *)
Theorem undo_restores_the_enhanced_prompt (token reply : option string)
  (st : Prompt) (m t : string) :
  historyOk st ->
  message st = Some m -> Regex.nonEmptyString (trim m) = true ->
  token = Some t -> Regex.nonEmptyString t = true ->
  let enhanced := handleEnhancePrompt token reply st in
  let undone := handleUndo enhanced in
  message undone = Some m
  /\ currentHistoryIndex undone = currentHistoryIndex st
  /\ sliceTo (currentHistoryIndex st + 1) (messageHistory undone)
     = sliceTo (currentHistoryIndex st + 1) (messageHistory st)
  /\ historyOk enhanced /\ historyOk undone.
Proof.
  intros Hok Hm Hn -> Ht. cbv zeta. unfold historyOk in *.
  unfold handleEnhancePrompt. rewrite Hm, Hn, Ht. cbn [negb].
  remember (currentHistoryIndex st) as i eqn:Ei.
  remember (messageHistory st) as h eqn:Eh.
  assert (Hs : sliceTo (i + 1) h = firstn (Z.to_nat (i + 1)) h).
  { unfold sliceTo. destruct (i + 1 <? 0)%Z eqn:E; [lia|reflexivity]. }
  assert (Hl : List.length (sliceTo (i + 1) h) = Z.to_nat (i + 1)).
  { rewrite Hs, length_firstn. lia. }
  unfold handleUndo. cbn [message messageHistory currentHistoryIndex].
  rewrite length_app, Hl. cbn [List.length].
  replace (Z.of_nat (Z.to_nat (i + 1) + 1) - 1)%Z with (i + 1)%Z by lia.
  replace (0 <=? i + 1)%Z with true by lia.
  replace (0 <? Z.to_nat (i + 1) + 1)%nat with true
    by (symmetry; apply Nat.ltb_lt; lia).
  cbn [andb message messageHistory currentHistoryIndex].
  split; [|split; [lia|split; [|split]]].
  - unfold at_. replace (i + 1 <? 0)%Z with false by lia.
    rewrite nth_error_app2 by lia. rewrite Hl, Nat.sub_diag. reflexivity.
  - unfold sliceTo at 1. replace (i + 1 <? 0)%Z with false by lia.
    rewrite firstn_app, Hl, Nat.sub_diag. cbn [firstn].
    now rewrite app_nil_r, Hs, firstn_firstn, Nat.min_id.
  - rewrite ?length_app, ?Hl; cbn [List.length]; lia.
  - rewrite ?length_app, ?Hl; cbn [List.length]; lia.
Qed.

Lemma undo_restores_the_enhanced_prompt_witness :
  let st := {| message := Some "show sales"; messageHistory := ["draft"];
               currentHistoryIndex := 0 |} in
  historyOk st
  /\ message (handleUndo (handleEnhancePrompt (Some "token")
                            (Some "'Show the total sales per month'") st))
     = Some "show sales"
  /\ message (handleEnhancePrompt (Some "token")
                (Some "'Show the total sales per month'") st)
     = Some "Show the total sales per month".
Proof.
  cbv zeta. split; [unfold historyOk; cbn; lia|]. split; [|reflexivity].
  apply (undo_restores_the_enhanced_prompt (Some "token")
           (Some "'Show the total sales per month'")
           {| message := Some "show sales"; messageHistory := ["draft"];
              currentHistoryIndex := 0 |} "show sales" "token");
    try reflexivity.
  unfold historyOk. cbn. lia.
Defined.



End ChatInputFacts.
(** ** Sending a message *)

Section SendFacts.
Import Send SendSpec.

Section Extends.
Variables st st1 : State.
Hypothesis Hstore : store st1 = store st.
Hypothesis Hrefs : messages st1 = messages st.

Lemma extends_same : extends st st1.
Proof using Hstore Hrefs. left. now rewrite Hstore, Hrefs. Qed.

Lemma extends_write (a : nat) (c : string) : extends st (writeContent a c st1).
Proof using Hstore Hrefs.
  left. unfold writeContent. destruct (store st1 !! a);
    cbn [store messages setStore]; rewrite ?length_insert, Hstore, Hrefs;
    now split.
Qed.

Lemma extends_push (m : Message) :
  role m = assistant -> extends st (pushMessage m st1).
Proof using Hstore Hrefs.
  intros H. right. exists m. unfold pushMessage.
  cbn [store messages setStore setMessageRefs]. now rewrite Hstore, Hrefs.
Qed.

Lemma extends_updateStreaming (env : Env) (c : string) :
  extends st (updateStreaming env c st1).
Proof using Hstore Hrefs.
  unfold updateStreaming. destruct (lastMsg st1) as [[a m]|];
    [|apply extends_same].
  destruct (String.eqb (id m) (streamingMessageId env));
    [apply extends_write|apply extends_same].
Qed.

Lemma extends_updateOrPush (env : Env) (c c' : string) :
  extends st (updateOrPush env c c' st1).
Proof using Hstore Hrefs.
  unfold updateOrPush. destruct (lastMsg st1) as [[a m]|];
    [|now apply extends_push].
  destruct (String.eqb (id m) (streamingMessageId env));
    [apply extends_write|now apply extends_push].
Qed.

Lemma extends_stripConfirmation (W : string) :
  extends st (stripConfirmation W st1).
Proof using Hstore Hrefs.
  unfold stripConfirmation. destruct (lastMsg st1) as [[a m]|];
    [|apply extends_same].
  destruct (role m); [apply extends_same|apply extends_write].
Qed.

Lemma extends_adoptConversationId (env : Env) (data : json) :
  extends st (adoptConversationId env data st1).
Proof using Hstore Hrefs.
  left. now rewrite adoptConversationId_store, adoptConversationId_refs,
    Hstore, Hrefs.
Qed.
End Extends.

Ltac extends_step :=
  first
    [ apply extends_updateStreaming; reflexivity
    | apply extends_updateOrPush; reflexivity
    | apply extends_push; reflexivity
    | apply extends_stripConfirmation; reflexivity
    | apply extends_adoptConversationId; reflexivity
    | apply extends_same; reflexivity ].

Lemma onChunk_extends (mode : Mode) (env : Env) (data : json) (c : Closure)
  (st : State) :
  extends st (snd (fst (onChunk mode env data (c, st)))).
Proof.
  destruct mode; unfold onChunk, askOnChunk, agentOnChunk;
    repeat split_match; cbn [fst snd]; extends_step.
Qed.

Lemma wellFormed_push (m : Message) (st : State) :
  wellFormed st = true -> wellFormed (pushMessage m st) = true.
Proof.
  unfold wellFormed, pushMessage. intros H.
  cbn [store messages setStore setMessageRefs].
  apply andb_prop in H as [Hd Hb]. rewrite length_app.
  cbn [List.length]. rewrite forallb_forall in Hb.
  apply andb_true_intro. split.
  - induction (messages st) as [|a l IH]; [reflexivity|].
    cbn [distinct app] in *. apply andb_prop in Hd as [Hd1 Hd2].
    rewrite existsb_app, IH; [|exact Hd2|intros x Hx; apply Hb; now right].
    cbn [existsb]. rewrite orb_false_r, andb_true_r.
    apply negb_true_iff in Hd1. rewrite Hd1. cbn [orb].
    apply negb_true_iff, Nat.eqb_neq.
    specialize (Hb a (or_introl eq_refl)). apply Nat.ltb_lt in Hb. lia.
  - rewrite forallb_app. cbn [forallb]. rewrite andb_true_r.
    apply andb_true_intro. split; [|apply Nat.ltb_lt; lia].
    apply forallb_forall. intros x Hx. specialize (Hb x Hx).
    apply Nat.ltb_lt in Hb. apply Nat.ltb_lt. lia.
Qed.

Lemma wellFormed_extends (st st' : State) :
  wellFormed st = true -> extends st st' -> wellFormed st' = true.
Proof.
  intros H [[Hm Hl]|(m & _ & Hm & Hs)].
  - unfold wellFormed in *. now rewrite Hm, Hl.
  - apply (wellFormed_push m) in H. unfold wellFormed, pushMessage in *.
    cbn [store messages setStore setMessageRefs] in H. now rewrite Hm, Hs.
Qed.

Lemma continues_refl (st : State) : wellFormed st = true -> continues st st.
Proof.
  intros H. split; [exact H|]. exists []. rewrite app_nil_r.
  repeat split; auto.
Qed.

(** A step that respects the frame and extends the array continues the
    messages of [base], when the last message of [base] is not one the
    step may write to. *)
Lemma continues_step (guard : Message -> bool) (base st st' : State)
  (a0 : nat) (u : Message) :
  lastMsg base = Some (a0, u) -> guard u = false ->
  continues base st -> framed guard st st' -> extends st st' ->
  continues base st'.
Proof.
  intros Hlast Hg (Hwf & more & Hm & Hkeep & Hrole) (F1 & F2 & _) Hext.
  split; [now apply (wellFormed_extends st)|].
  apply lastMsg_inv in Hlast as [Hl0 Hu].
  assert (Hold : forall i a, messages st !! i = Some a ->
            exists m m', store st !! a = Some m /\ store st' !! a = Some m'
              /\ role m' = role m
              /\ (i < List.length (messages base) -> m' = m)%nat).
  { intros i a Hi.
    pose proof (wellFormed_bound st i a Hwf Hi) as Hb.
    apply lookup_lt_is_Some in Hb as [m Hsm].
    destruct (decide (S i < List.length (messages st))%nat) as [Hlt|Hge].
    - exists m, m. rewrite (F1 i a Hi Hlt). auto.
    - assert (Hla : last (messages st) = Some a).
      { rewrite last_lookup. rewrite <- Hi. f_equal.
        apply lookup_lt_Some in Hi. lia. }
      assert (Hlm : lastMsg st = Some (a, m))
        by (unfold lastMsg; now rewrite Hla, Hsm).
      destruct (F2 a m Hlm) as [E|[Hgm [c E]]].
      + exists m, m. auto.
      + exists m, (withContent c m). repeat split; auto.
        intros Hi'. exfalso.
        assert (more = []).
        { apply lookup_lt_Some in Hi. rewrite Hm, length_app in Hi, Hge.
          destruct more; [reflexivity|cbn [List.length] in *; lia]. }
        subst more. rewrite app_nil_r in Hm. rewrite Hm in Hla.
        assert (a = a0) as -> by congruence.
        rewrite <- Hm in Hla.
        pose proof Hi as Hi2. rewrite Hm in Hi2.
        rewrite (Hkeep i a0 Hi2) in Hsm. congruence. }
  assert (Hbase : forall i a, messages base !! i = Some a ->
            store st' !! a = store base !! a).
  { intros i a Hi.
    assert (Hi' : messages st !! i = Some a)
      by (rewrite Hm; now apply lookup_app_l_Some).
    destruct (Hold i a Hi') as (m & m' & E1 & E2 & _ & E4).
    rewrite E2, E4 by (now apply lookup_lt_Some in Hi).
    rewrite <- E1. now apply (Hkeep i a). }
  assert (Hmore : Forall (fun a => exists m, store st' !! a = Some m
                                             /\ role m = assistant) more).
  { apply Forall_lookup. intros j a Hj.
    assert (Hi' : messages st !! (List.length (messages base) + j)%nat = Some a).
    { rewrite Hm. rewrite lookup_app_r by lia.
      now replace (List.length (messages base) + j - List.length (messages base))%nat
        with j by lia. }
    destruct (Hold _ a Hi') as (m & m' & E1 & E2 & E3 & _).
    rewrite Forall_lookup in Hrole. destruct (Hrole j a Hj) as (m0 & E5 & E6).
    exists m'. split; [exact E2|]. congruence. }
  destruct Hext as [[Em _]|(m & Hr & Em & Es)].
  - exists more. rewrite Em. auto.
  - exists (more ++ [List.length (store st)])%list.
    rewrite Em, Hm, <- app_assoc. repeat split; auto.
    apply Forall_app. split; [exact Hmore|]. constructor; [|constructor].
    exists m. rewrite Es. split; [|exact Hr]. apply list_lookup_middle.
    reflexivity.
Qed.

Lemma continues_flags (base st st' : State) :
  store st' = store st -> messages st' = messages st ->
  continues base st -> continues base st'.
Proof.
  intros Hs Hm (Hwf & more & H1 & H2 & H3).
  split; [unfold wellFormed in *; now rewrite Hs, Hm|].
  exists more. rewrite Hs, Hm. auto.
Qed.

Lemma continues_push (base st : State) (m : Message) :
  role m = assistant -> continues base st ->
  continues base (pushMessage m st).
Proof.
  intros Hr (Hwf & more & H1 & H2 & H3).
  assert (Hext : extends st (pushMessage m st))
    by (now apply extends_push).
  split; [now apply (wellFormed_extends st)|].
  exists (more ++ [List.length (store st)])%list.
  unfold pushMessage. cbn [store messages setStore setMessageRefs].
  rewrite H1, <- app_assoc. split; [reflexivity|]. split.
  - intros i a Hi. rewrite <- (H2 i a Hi). apply lookup_app_l.
    apply (wellFormed_bound st i a Hwf). rewrite H1.
    now apply lookup_app_l_Some.
  - apply Forall_app. split.
    + eapply Forall_impl; [exact H3|]. cbn beta.
      intros a (m0 & E & R). exists m0. split; [|exact R].
      rewrite lookup_app_l; [exact E|]. now apply lookup_lt_Some in E.
    + constructor; [|constructor]. exists m. split; [|exact Hr].
      now apply list_lookup_middle.
Qed.

Section Continues.
Variables (mode : Mode) (env : Env) (base : State) (a0 : nat) (u : Message).
Hypothesis Hlast : lastMsg base = Some (a0, u).
Hypothesis Hguard : isActive env u = false.

Lemma onChunk_continues (data : json) (cs : Session) :
  continues base (snd cs) ->
  continues base (snd (fst (onChunk mode env data cs))).
Proof using Hlast Hguard.
  destruct cs as [c st]. cbn [snd]. intros H.
  apply (continues_step (isActive env) base st _ a0 u Hlast Hguard H).
  - apply onChunk_framed. exact (proj1 H).
  - apply onChunk_extends.
Qed.

Lemma forLines_continues (lines : list string) (cs : Session) :
  continues base (snd cs) ->
  continues base (snd (fst (forLines (onChunk mode env) lines cs))).
Proof using Hlast Hguard.
  revert cs. induction lines as [|l lines IH]; intros cs H; cbn [forLines];
    [exact H|].
  destruct (startsWith "data: " l); [|now apply IH].
  destruct (JsonParser.parse (slice 6 l)) as [d|]; [|exact H].
  pose proof (onChunk_continues d cs H) as H1.
  destruct (onChunk mode env d cs) as [cs' [|e]]; cbn [fst snd] in *;
    [now apply IH|exact H1].
Qed.

Lemma streamRun_continues (occ : list Occurrence) (cs : Session) :
  continues base (snd cs) ->
  continues base (snd (fst (streamRun mode env occ cs))).
Proof using Hlast Hguard.
  revert cs. induction occ as [|o occ IH]; intros cs H; [exact H|].
  destruct o as [chunk|]; cbn [streamRun].
  - destruct (aborted cs); [exact H|].
    pose proof (forLines_continues (splitLines chunk) cs H) as H1.
    destruct (forLines (onChunk mode env) (splitLines chunk) cs)
      as [cs' [|e]]; cbn [fst snd] in *; [now apply IH|].
    now destruct (aborted cs').
  - apply IH. cbn [snd]. unfold handleStopGeneration.
    destruct (abortControllerRef (snd cs)); [|exact H].
    now apply (continues_flags base (snd cs)).
Qed.
End Continues.

Lemma transcript_push (m : Message) (st : State) :
  wellFormed st = true ->
  transcript (pushMessage m st) = (transcript st ++ [m])%list.
Proof.
  intros Hwf. unfold transcript, pushMessage.
  cbn [store messages setStore setMessageRefs].
  rewrite omap_app. f_equal.
  2:{ cbn. now rewrite list_lookup_middle. }
  assert (H : forall i a, messages st !! i = Some a ->
                (a < List.length (store st))%nat)
    by (intros i a; now apply wellFormed_bound).
  induction (messages st) as [|a l IH]; [reflexivity|].
  cbn. rewrite lookup_app_l by (apply (H 0%nat a); reflexivity).
  cbn in IH. rewrite IH; [reflexivity|]. intros i b Hi. now apply (H (S i) b).
Qed.

Lemma continues_transcript (base st : State) :
  continues base st ->
  exists extra, transcript st = (transcript base ++ extra)%list
                /\ Forall (fun m => role m = assistant) extra.
Proof.
  intros (_ & more & Hm & Hkeep & Hrole). unfold transcript.
  rewrite Hm, omap_app. exists (omap (fun a => store st !! a) more). split.
  - f_equal. clear Hm.
    induction (messages base) as [|a l IH]; [reflexivity|].
    cbn. rewrite (Hkeep 0%nat a eq_refl). cbn in IH.
    rewrite IH; [reflexivity|].
    intros i b Hi. now apply (Hkeep (S i) b).
  - clear Hm. induction Hrole as [|a l (m & E & R) _ IH]; [constructor|].
    cbn. rewrite E. cbn. now constructor.
Qed.


Lemma beginSend_last (m : Message) (st : State) :
  lastMsg (beginSend m st) = Some (List.length (store st), m).
Proof.
  unfold beginSend, lastMsg. cbn [store messages setAbort setCurrentStatus
    setIsLoading pushMessage setStore setMessageRefs].
  rewrite last_snoc. now rewrite list_lookup_middle.
Qed.

Lemma beginSend_wellFormed (m : Message) (st : State) :
  wellFormed st = true -> wellFormed (beginSend m st) = true.
Proof. intros H. now apply (wellFormed_push m) in H. Qed.

Lemma beginSend_transcript (m : Message) (st : State) :
  wellFormed st = true ->
  transcript (beginSend m st) = (transcript st ++ [m])%list.
Proof. intros H. now apply (transcript_push m) in H. Qed.

Lemma tryBlock_continues (mode : Mode) (env : Env) (call : Call)
  (streamReply : StreamReply) (askReply : AskReply) (st : State) :
  wellFormed st = true -> userId call <> streamingMessageId env ->
  continues (beginSend (newMessage call) st)
    (fst (tryBlock mode env call streamReply askReply
            (beginSend (newMessage call) st))).
Proof.
  intros Hwf Hid. set (st1 := beginSend (newMessage call) st).
  assert (H1 : continues st1 st1)
    by (apply continues_refl; now apply beginSend_wellFormed).
  assert (Hstop : continues st1 (handleStopGeneration st1)).
  { unfold handleStopGeneration. destruct (abortControllerRef st1); [|exact H1].
    now apply (continues_flags st1 st1). }
  unfold tryBlock. destruct (streams mode env).
  - destruct streamReply as [| |body| |occ]; cbn [fst]; try assumption.
    pose proof (streamRun_continues mode env st1 (List.length (store st))
                  (newMessage call) (beginSend_last _ st)) as H.
    specialize (H ltac:(unfold isActive; cbn [id role newMessage isAssistant];
                        apply orb_false_iff; split; [|reflexivity];
                        now apply String.eqb_neq)
                  occ (initialClosure, st1) H1).
    now destruct (streamRun mode env occ (initialClosure, st1)) as [cs [|e]].
  - destruct askReply as [| |body| |r]; cbn [fst]; try assumption.
    destruct (negb (abortControllerRef st1)); cbn [fst]; [assumption|].
    apply continues_push; [reflexivity|].
    destruct (truthy (closureConversationId env)); [assumption|].
    now apply (continues_flags st1 st1).
Qed.

Lemma endSend_continues (base st : State) (e : option Message) :
  (forall m, e = Some m -> role m = assistant) ->
  continues base st -> continues base (endSend e st).
Proof.
  intros He H. unfold endSend.
  apply (continues_flags base
           match e with Some m => pushMessage m st | None => st end);
    [reflexivity|reflexivity|].
  destruct e as [m|]; [|exact H]. apply continues_push; auto.
Qed.

Lemma errorMessage_role (call : Call) (t : Thrown) (m : Message) :
  errorMessage call t = Some m -> role m = assistant.
Proof. destruct t; cbn; intros [= <-]; reflexivity. Qed.

(** X16: a send only adds to the conversation: whatever the server
    answers and whenever stop is pressed, the messages shown before are
    shown unchanged, the user's message follows them, and what follows it
    are messages of the assistant; in the end nothing is loading and no
    controller is held. *)
Theorem send_only_adds_to_the_conversation (mode : Mode) (env : Env)
  (call : Call) (streamReply : StreamReply) (askReply : AskReply)
  (st : State) :
  wellFormed st = true -> userId call <> streamingMessageId env ->
  let final := Send.handleSendMessage mode env call streamReply askReply st in
  (exists added,
      transcript final = (transcript st ++ newMessage call :: added)%list
      /\ Forall (fun m => role m = assistant) added)
  /\ isLoading final = false /\ abortControllerRef final = false.
Proof.
  intros Hwf Hid. cbv zeta. unfold Send.handleSendMessage.
  pose proof (tryBlock_continues mode env call streamReply askReply st
                Hwf Hid) as H.
  destruct (tryBlock mode env call streamReply askReply
              (beginSend (newMessage call) st)) as [st2 [t|]];
    cbn [fst] in H.
  - split; [|split; reflexivity].
    apply (endSend_continues _ _ (errorMessage call t)) in H;
      [|intros m; apply errorMessage_role].
    apply continues_transcript in H as (added & E & R).
    exists added. rewrite E, beginSend_transcript, <- app_assoc by exact Hwf.
    now split.
  - split; [|split; reflexivity].
    apply (endSend_continues _ _ None) in H; [|discriminate].
    apply continues_transcript in H as (added & E & R).
    exists added. rewrite E, beginSend_transcript, <- app_assoc by exact Hwf.
    now split.
Qed.

Lemma send_only_adds_to_the_conversation_witness :
  wellFormed Samples.emptyState = true
  /\ userId ClientSamples.call <> streamingMessageId Samples.env
  /\ isLoading
       (Send.handleSendMessage agent Samples.env ClientSamples.call
          (Streamed [Delivered Samples.greetingChunk; StopPressed])
          AskRejects Samples.emptyState) = false.
Proof.
  split; [reflexivity|]. split; [discriminate|].
  apply (send_only_adds_to_the_conversation agent Samples.env
           ClientSamples.call
           (Streamed [Delivered Samples.greetingChunk; StopPressed])
           AskRejects Samples.emptyState);
    [reflexivity|discriminate].
Defined.

Lemma tryBlock_refused (mode : Mode) (env : Env) (call : Call) (body : string)
  (st1 : State) :
  tryBlock mode env call (StreamNotOk body) (AskNotOk body) st1
  = (st1,
     Some (failure "Unknown error"
             match mode with
             | ask => "Failed to send query"
             | agent => "Failed to send agent query"
             end body)).
Proof.
  unfold tryBlock, streamFailure, streams.
  destruct mode; [|reflexivity].
  now destruct (selectedTables env) as [[|t l]|].
Qed.

(** X17: a request that the server refuses is reported once: the
    messages shown are those shown before, the user's message and one
    report, whose text is the detail of the body of the response,
    [Unknown error] when the body is not JSON, and the text of the stream
    function when the body is an object without a detail; the conversation
    id is kept.  A request that is stopped before the response is not
    reported. *)
Theorem refused_request_is_reported_once (mode : Mode) (env : Env)
  (call : Call) (body : string) (st : State) :
  wellFormed st = true ->
  let final :=
    Send.handleSendMessage mode env call (StreamNotOk body) (AskNotOk body)
      st in
  let stopped :=
    Send.handleSendMessage mode env call StreamAborted AskAborted st in
  (exists text,
      transcript final
      = (transcript st
         ++ [newMessage call;
             errorReport (errorId call) (errorTime call) text])%list
      /\ (JsonParser.parse body = None -> text = "Unknown error")
      /\ (forall fields d,
             JsonParser.parse body = Some (JObj fields) ->
             assoc "detail" fields = Some (JStr d) -> nonEmpty d = true ->
             text = d)
      /\ (forall fields,
             JsonParser.parse body = Some (JObj fields) ->
             truthy (assoc "detail" fields) = false ->
             text = match mode with
                    | ask => "Failed to send query"
                    | agent => "Failed to send agent query"
                    end))
  /\ conversationId final = conversationId st
  /\ isLoading final = false
  /\ transcript stopped = (transcript st ++ [newMessage call])%list
  /\ isLoading stopped = false.
Proof.
  intros Hwf. cbv zeta. unfold Send.handleSendMessage.
  rewrite tryBlock_refused.
  assert (Hwf1 : wellFormed (beginSend (newMessage call) st) = true)
    by (now apply (wellFormed_push (newMessage call)) in Hwf).
  assert (Ht1 : transcript (beginSend (newMessage call) st)
                = (transcript st ++ [newMessage call])%list)
    by (now apply (transcript_push (newMessage call)) in Hwf).
  assert (Hrep : forall text,
            transcript (endSend (Some (errorReport (errorId call)
                                         (errorTime call) text))
                          (beginSend (newMessage call) st))
            = (transcript st
               ++ [newMessage call;
                   errorReport (errorId call) (errorTime call) text])%list).
  { intros text.
    pose proof (transcript_push
                  (errorReport (errorId call) (errorTime call) text)
                  _ Hwf1) as E.
    rewrite Ht1, <- app_assoc in E. exact E. }
  split; [|split; [|split; [|split]]].
  - unfold failure.
    destruct (JsonParser.parse body) as [v|] eqn:Ep.
    + destruct v as [|b|m e|s|l|fields];
        try (eexists; split; [apply Hrep|];
             split; [discriminate|];
             split; [intros ? ? [=]|intros ? [=]]).
      cbn [prop].
      destruct (truthy (assoc "detail" fields)) eqn:Et;
        (eexists; split; [apply Hrep|]; split; [discriminate|]; split).
      * intros f d [= <-] Hd _. now rewrite Hd.
      * intros f [= <-] Hf. congruence.
      * intros f d [= <-] Hd Hn. rewrite Hd in Et. cbn in Et.
        unfold nonEmpty in Hn. congruence.
      * reflexivity.
    + eexists. split; [apply Hrep|]. split; [reflexivity|].
      split; [intros ? ? [=]|intros ? [=]].
  - destruct (failure _ _ body); reflexivity.
  - destruct (failure _ _ body); reflexivity.
  - unfold tryBlock, handleStopGeneration.
    destruct (streams mode env); cbn; exact Ht1.
  - unfold tryBlock. destruct (streams mode env); reflexivity.
Qed.
Lemma refused_request_is_reported_once_witness :
  wellFormed Samples.emptyState = true
  /\ conversationId
       (Send.handleSendMessage ask Samples.env ClientSamples.call
          (StreamNotOk ClientSamples.quotaBody)
          (AskNotOk ClientSamples.quotaBody) Samples.emptyState)
     = conversationId Samples.emptyState
  /\ map content
       (transcript
          (Send.handleSendMessage ask Samples.env ClientSamples.call
             (StreamNotOk ClientSamples.quotaBody)
             (AskNotOk ClientSamples.quotaBody) Samples.emptyState))
     = [callContent ClientSamples.call;
        "Error: Quota exceeded. Please make sure the backend server is running."].
Proof.
  split; [reflexivity|]. split; [|reflexivity].
  apply (refused_request_is_reported_once ask Samples.env ClientSamples.call
           ClientSamples.quotaBody Samples.emptyState).
  reflexivity.
Defined.

End SendFacts.
(** ** Loading a conversation *)

Section LoadFacts.
Import Send SendSpec.

Lemma omap_new_objects (pre ms : list Message) :
  omap (fun a => (pre ++ ms)%list !! a) (seq (List.length pre) (List.length ms))
  = ms.
Proof.
  revert pre. induction ms as [|m ms IH]; intros pre; [reflexivity|].
  cbn [List.length seq]. cbn.
  rewrite list_lookup_middle by reflexivity. cbn. f_equal.
  specialize (IH (pre ++ [m])%list).
  rewrite length_app, <- app_assoc in IH. cbn [List.length app] in IH.
  rewrite Nat.add_1_r in IH. exact IH.
Qed.

Lemma distinct_seq (a n : nat) : distinct (seq a n) = true.
Proof.
  revert a. induction n as [|n IH]; intros a; [reflexivity|].
  cbn [seq distinct]. rewrite IH, andb_true_r.
  apply negb_true_iff. apply not_true_is_false. intros H.
  apply existsb_exists in H as (x & Hx & E). apply in_seq in Hx.
  apply Nat.eqb_eq in E. lia.
Qed.

(** X18: with a token, a conversation that loads replaces what was
    shown: the messages shown are those of the conversation, in their
    order, and its id becomes the current one.  When it does not load, no
    message is shown and the id of the conversation shown before is kept.
    Either way the chat is no longer marked as loading. *)
Theorem loadConversation_shows_the_conversation (t : string) (chatId : json)
  (formatMessageTimestamp : string -> string) (ms : list ApiMessage)
  (st : State) :
  nonEmpty t = true ->
  let loaded :=
    loadConversation (Some t) chatId formatMessageTimestamp (Loaded ms) st in
  let failed :=
    loadConversation (Some t) chatId formatMessageTimestamp LoadFails st in
  (transcript loaded = map (formatMessage formatMessageTimestamp) ms
   /\ conversationId loaded = Some chatId
   /\ isLoadingChat loaded = false
   /\ wellFormed loaded = true)
  /\ (transcript failed = []
      /\ conversationId failed = conversationId st
      /\ isLoadingChat failed = false).
Proof.
  intros Ht. cbv zeta. unfold loadConversation, loadConversationSync.
  rewrite Ht. split; [|now repeat split].
  split; [|split; [reflexivity|split; [reflexivity|]]].
  - unfold transcript, setMessages.
    cbn [store messages setIsLoadingChat setConversationId setMessageRefs
           setStore].
    apply omap_new_objects.
  - unfold wellFormed, setMessages.
    cbn [store messages setIsLoadingChat setConversationId setMessageRefs
           setStore].
    rewrite distinct_seq. cbn [andb]. apply forallb_forall.
    intros a Ha. apply in_seq in Ha. apply Nat.ltb_lt.
    rewrite length_app. lia.
Qed.
Lemma loadConversation_shows_the_conversation_witness :
  nonEmpty "token" = true
  /\ transcript
       (loadConversation (Some "token") (JNum 8 0) (fun t => t) LoadFails
          Samples.awaiting) = []
  /\ conversationId
       (loadConversation (Some "token") (JNum 8 0) (fun t => t) LoadFails
          Samples.awaiting) = Some (JNum 7 0).
Proof.
  split; [reflexivity|].
  pose proof (loadConversation_shows_the_conversation "token" (JNum 8 0)
                (fun t => t) [] Samples.awaiting eq_refl) as [_ (H1 & H2 & _)].
  split; [exact H1|]. rewrite H2. reflexivity.
Defined.

End LoadFacts.
(** ** [JSON.stringify] and [JSON.parse] *)

Section JsonFacts.
Import JsonParser JsonSpec RendererSpec.

(** *** Numbers *)

Lemma uint_digits (d : Decimal.uint) :
  allChars isDigit (NilEmpty.string_of_uint d) = true.
Proof. induction d; cbn; auto. Qed.

Lemma digitsVal_uint (d : Decimal.uint) (acc : positive) :
  digitsVal (Z.pos acc) (NilEmpty.string_of_uint d)
  = Z.pos (Pos.of_uint_acc d acc).
Proof.
  revert acc. induction d; intros acc; cbn [NilEmpty.string_of_uint digitsVal Pos.of_uint_acc];
    [reflexivity| | | | | | | | | |];
    rewrite <- IHd; f_equal;
    match goal with |- context [Z.of_nat ?n] => let v := eval vm_compute in (Z.of_nat n) in change (Z.of_nat n) with v end; lia.
Qed.

(** The decimal digits of a positive number: digits only, the first of
    which is not a zero, and they denote the number. *)
Lemma digits_pos (p : positive) :
  exists c ds,
    NilZero.string_of_uint (Pos.to_uint p) = String c ds
    /\ isDigit c = true /\ isChar 48 c = false
    /\ allChars isDigit ds = true
    /\ digitsVal 0 (String c ds) = Z.pos p.
Proof.
  pose proof (DecimalPos.Unsigned.of_to p) as Hof.
  pose proof (DecimalN.Unsigned.to_of (Pos.to_uint p)) as Hto.
  change (N.of_uint (Pos.to_uint p)) with (Pos.of_uint (Pos.to_uint p)) in Hto.
  rewrite Hof in Hto. cbn [N.to_uint] in Hto.
  pose proof (DecimalPos.Unsigned.to_uint_nonzero p) as Hnz.
  destruct (Pos.to_uint p) as [|d|d|d|d|d|d|d|d|d|d] eqn:E.
  - discriminate.
  - exfalso. unfold Decimal.unorm in Hto. cbn [Decimal.nzhead] in Hto.
    destruct (Decimal.nzhead d) eqn:En; try discriminate.
    + injection Hto as ->. now apply Hnz.
    + now apply DecimalFacts.nzhead_nonzero in En.
  - exists "1"%char, (NilEmpty.string_of_uint d). repeat split; try reflexivity.
    + apply uint_digits.
    + cbn [digitsVal]. change (10 * 0 + Z.of_nat (nat_of_ascii "1" - 48))%Z with (Z.pos 1).
      rewrite digitsVal_uint. cbn [Pos.of_uint] in Hof. now injection Hof as ->.
  - exists "2"%char, (NilEmpty.string_of_uint d). repeat split; try reflexivity.
    + apply uint_digits.
    + cbn [digitsVal]. change (10 * 0 + Z.of_nat (nat_of_ascii "2" - 48))%Z with (Z.pos 2).
      rewrite digitsVal_uint. cbn [Pos.of_uint] in Hof. now injection Hof as ->.
  - exists "3"%char, (NilEmpty.string_of_uint d). repeat split; try reflexivity.
    + apply uint_digits.
    + cbn [digitsVal]. change (10 * 0 + Z.of_nat (nat_of_ascii "3" - 48))%Z with (Z.pos 3).
      rewrite digitsVal_uint. cbn [Pos.of_uint] in Hof. now injection Hof as ->.
  - exists "4"%char, (NilEmpty.string_of_uint d). repeat split; try reflexivity.
    + apply uint_digits.
    + cbn [digitsVal]. change (10 * 0 + Z.of_nat (nat_of_ascii "4" - 48))%Z with (Z.pos 4).
      rewrite digitsVal_uint. cbn [Pos.of_uint] in Hof. now injection Hof as ->.
  - exists "5"%char, (NilEmpty.string_of_uint d). repeat split; try reflexivity.
    + apply uint_digits.
    + cbn [digitsVal]. change (10 * 0 + Z.of_nat (nat_of_ascii "5" - 48))%Z with (Z.pos 5).
      rewrite digitsVal_uint. cbn [Pos.of_uint] in Hof. now injection Hof as ->.
  - exists "6"%char, (NilEmpty.string_of_uint d). repeat split; try reflexivity.
    + apply uint_digits.
    + cbn [digitsVal]. change (10 * 0 + Z.of_nat (nat_of_ascii "6" - 48))%Z with (Z.pos 6).
      rewrite digitsVal_uint. cbn [Pos.of_uint] in Hof. now injection Hof as ->.
  - exists "7"%char, (NilEmpty.string_of_uint d). repeat split; try reflexivity.
    + apply uint_digits.
    + cbn [digitsVal]. change (10 * 0 + Z.of_nat (nat_of_ascii "7" - 48))%Z with (Z.pos 7).
      rewrite digitsVal_uint. cbn [Pos.of_uint] in Hof. now injection Hof as ->.
  - exists "8"%char, (NilEmpty.string_of_uint d). repeat split; try reflexivity.
    + apply uint_digits.
    + cbn [digitsVal]. change (10 * 0 + Z.of_nat (nat_of_ascii "8" - 48))%Z with (Z.pos 8).
      rewrite digitsVal_uint. cbn [Pos.of_uint] in Hof. now injection Hof as ->.
  - exists "9"%char, (NilEmpty.string_of_uint d). repeat split; try reflexivity.
    + apply uint_digits.
    + cbn [digitsVal]. change (10 * 0 + Z.of_nat (nat_of_ascii "9" - 48))%Z with (Z.pos 9).
      rewrite digitsVal_uint. cbn [Pos.of_uint] in Hof. now injection Hof as ->.
Qed.

Lemma spanLen_prefix (p : ascii -> bool) (a t : string) :
  allChars p a = true -> spanLen p t = 0%nat ->
  spanLen p (a ++ t) = String.length a.
Proof.
  intros Ha Ht. induction a as [|x a IH]; [exact Ht|].
  cbn [allChars] in Ha. apply andb_prop in Ha as [Hx Ha].
  cbn [String.append spanLen String.length]. now rewrite Hx, IH.
Qed.

Lemma delimited_span (rest : string) :
  delimited rest = true -> spanLen isDigit rest = 0%nat.
Proof.
  destruct rest as [|c r]; [reflexivity|]. cbn [delimited spanLen].
  destruct (isDigit c); [discriminate|reflexivity].
Qed.

Lemma digit_not_minus (c : ascii) : isDigit c = true -> isChar 45 c = false.
Proof.
  unfold isDigit, isChar. intros H. apply andb_prop in H as [H _].
  apply Nat.leb_le in H. apply Nat.eqb_neq. lia.
Qed.

Lemma startsWith_zero (c : ascii) (s : string) :
  startsWith "0" (String c s) = isChar 48 c.
Proof.
  cbn [startsWith]. unfold isChar.
  destruct (Ascii.eqb "0" c) eqn:E.
  - apply Ascii.eqb_eq in E. now subst c.
  - symmetry. apply Nat.eqb_neq. intros H. apply Ascii.eqb_neq in E. apply E.
    rewrite <- (ascii_nat_embedding c), H. reflexivity.
Qed.

(** The literal made of an integer part, a fraction and an exponent. *)
Lemma parseNumber_literal (neg : bool) (c : ascii) (ip fp : string)
  (ex : option (bool * string)) (rest : string) :
  isDigit c = true -> allChars isDigit ip = true ->
  (isChar 48 c = true -> ip = EmptyString) ->
  allChars isDigit fp = true ->
  match ex with
  | Some (_, xd) => allChars isDigit xd = true /\ nonEmpty xd = true
  | None => True
  end ->
  delimited rest = true ->
  parseNumber
    ((if neg then "-" else EmptyString) ++ String c ip
     ++ (if nonEmpty fp then "." ++ fp else EmptyString)
     ++ match ex with
        | Some (eneg, xd) => "e" ++ (if eneg then "-" else "+") ++ xd
        | None => EmptyString
        end ++ rest)
  = let mag := digitsVal 0 (String c ip ++ fp) in
    let x := match ex with
             | Some (eneg, xd) =>
                 if eneg then (- digitsVal 0 xd)%Z else digitsVal 0 xd
             | None => 0%Z
             end in
    let '(m', e') :=
      normalise (S (String.length (String c ip ++ fp)))
        (if neg then (- mag)%Z else mag)
        (x - Z.of_nat (String.length fp))%Z in
    Some (JNum m' e', rest).
Proof.
  intros Hc Hip Hz Hfp Hex Hrest.
  set (tail3 := match ex with
                | Some (eneg, xd) => "e" ++ (if eneg then "-" else "+") ++ xd
                | None => EmptyString
                end ++ rest).
  set (tail2 := (if nonEmpty fp then "." ++ fp else EmptyString) ++ tail3).
  assert (H3 : spanLen isDigit tail3 = 0%nat).
  { unfold tail3. destruct ex as [[eneg xd]|]; [reflexivity|].
    now apply delimited_span. }
  assert (H2 : spanLen isDigit tail2 = 0%nat).
  { unfold tail2. destruct (nonEmpty fp); [reflexivity|exact H3]. }
  unfold parseNumber. cbv zeta.
  assert (Hneg : match (if neg then "-" else EmptyString) ++ String c ip ++ tail2 with
                 | String c0 r => if isChar 45 c0 then (true, r) else (false, (if neg then "-" else EmptyString) ++ String c ip ++ tail2)
                 | EmptyString => (false, (if neg then "-" else EmptyString) ++ String c ip ++ tail2)
                 end = (neg, String c ip ++ tail2)).
  { destruct neg; [reflexivity|]. cbn [String.append].
    now rewrite (digit_not_minus c Hc). }
  rewrite Hneg. clear Hneg. cbv iota.
  assert (Hni : (if startsWith "0" (String c ip ++ tail2) then 1%nat
                 else spanLen isDigit (String c ip ++ tail2))
                = String.length (String c ip)).
  { change (String c ip ++ tail2) with (String c (ip ++ tail2)).
    rewrite startsWith_zero. destruct (isChar 48 c) eqn:E.
    - now rewrite (Hz eq_refl).
    - change (String c (ip ++ tail2)) with (String c ip ++ tail2).
      apply spanLen_prefix; [|exact H2]. cbn [allChars]. now rewrite Hc. }
  rewrite Hni.
  change (String.length (String c ip) =? 0)%nat with false. cbv iota.
  rewrite (substring_app (String c ip) tail2).
  rewrite (slice_app (String c ip) tail2).
  assert (Hfrac :
    match tail2 with
    | String c0 r =>
        if isChar 46 c0 then
          if (spanLen isDigit r =? 0)%nat then None
          else Some (substring 0 (spanLen isDigit r) r,
                     slice (spanLen isDigit r) r)
        else Some (EmptyString, tail2)
    | EmptyString => Some (EmptyString, tail2)
    end = Some (fp, tail3)).
  { unfold tail2. destruct fp as [|f fp'].
    - cbn [nonEmpty String.eqb negb String.append].
      destruct tail3 as [|c0 r] eqn:E3; [reflexivity|].
      replace (isChar 46 c0) with false; [reflexivity|].
      unfold tail3 in E3. destruct ex as [[eneg xd]|].
      + injection E3 as <- _. reflexivity.
      + cbn [String.append] in E3. rewrite E3 in Hrest.
        cbn [delimited] in Hrest. apply negb_true_iff in Hrest.
        repeat (apply orb_false_iff in Hrest as [Hrest ?]). congruence.
    - cbn [nonEmpty String.eqb negb]. cbn [String.append].
      change (isChar 46 ".") with true. cbv iota zeta.
      change (String f (fp' ++ tail3)) with (String f fp' ++ tail3).
      rewrite (spanLen_prefix isDigit (String f fp') tail3 Hfp H3).
      cbn [String.length Nat.eqb].
      change (S (String.length fp')) with (String.length (String f fp')).
      now rewrite substring_app, slice_app. }
  rewrite Hfrac. clear Hfrac.
  assert (Hexp :
    match tail3 with
    | String c0 r =>
        if isChar 101 c0 || isChar 69 c0 then
          let '(eneg, r1) :=
            match r with
            | String d r' =>
                if isChar 45 d then (true, r')
                else if isChar 43 d then (false, r')
                else (false, r)
            | EmptyString => (false, r)
            end in
          if (spanLen isDigit r1 =? 0)%nat then None
          else
            Some ((if eneg
                   then - digitsVal 0 (substring 0 (spanLen isDigit r1) r1)
                   else digitsVal 0 (substring 0 (spanLen isDigit r1) r1))%Z,
                  slice (spanLen isDigit r1) r1)
        else Some (0%Z, tail3)
    | EmptyString => Some (0%Z, tail3)
    end
    = Some (match ex with
            | Some (eneg, xd) =>
                if eneg then (- digitsVal 0 xd)%Z else digitsVal 0 xd
            | None => 0%Z
            end, rest)).
  { unfold tail3. destruct ex as [[eneg xd]|].
    - destruct Hex as [Hxd Hxn].
      cbn [String.append]. change (isChar 101 "e") with true. cbv iota.
      cbn [orb].
      assert (Hs : spanLen isDigit (xd ++ rest) = String.length xd)
        by (apply spanLen_prefix; [exact Hxd|now apply delimited_span]).
      destruct eneg; cbn [String.append];
        [change (isChar 45 "-") with true
        |change (isChar 45 "+") with false; change (isChar 43 "+") with true];
        cbv iota zeta; rewrite Hs;
        (destruct xd as [|x0 xd']; [discriminate|]);
        cbn [String.length Nat.eqb];
        change (S (String.length xd')) with (String.length (String x0 xd'));
        now rewrite substring_app, slice_app.
    - cbn [String.append]. destruct rest as [|c0 r]; [reflexivity|].
      cbn [delimited] in Hrest. apply negb_true_iff in Hrest.
      apply orb_false_iff in Hrest as [Hrest H69].
      apply orb_false_iff in Hrest as [_ H101].
      now rewrite H101, H69. }
  rewrite Hexp. reflexivity.
Qed.

Lemma normalise_keep (f : nat) (m e : Z) :
  (m mod 10 =? 0)%Z = false -> normalise (S f) m e = (m, e).
Proof.
  intros H. cbn [normalise]. rewrite H.
  replace (m =? 0)%Z with false; [reflexivity|].
  symmetry. apply Z.eqb_neq. intros ->. discriminate.
Qed.

Lemma normalise_zeros (j f : nat) (m e : Z) :
  (m mod 10 =? 0)%Z = false -> (j < f)%nat ->
  normalise f (m * 10 ^ Z.of_nat j) e = (m, (e + Z.of_nat j)%Z).
Proof.
  intros Hm. revert f e. induction j as [|j IH]; intros f e Hf.
  - destruct f as [|f]; [lia|]. rewrite Z.mul_1_r, Z.add_0_r.
    now apply normalise_keep.
  - destruct f as [|f]; [lia|]. cbn [normalise].
    assert (Hm0 : m <> 0%Z) by (intros ->; discriminate).
    replace (Z.of_nat (S j)) with (Z.of_nat j + 1)%Z by lia.
    rewrite Z.pow_add_r, Z.pow_1_r by lia.
    replace (m * (10 ^ Z.of_nat j * 10))%Z with (m * 10 ^ Z.of_nat j * 10)%Z
      by ring.
    replace (m * 10 ^ Z.of_nat j * 10 =? 0)%Z with false
      by (symmetry; apply Z.eqb_neq; nia).
    rewrite Z.mod_mul by lia. rewrite Z.eqb_refl.
    rewrite Z.div_mul by lia. rewrite IH by lia. f_equal. lia.
Qed.

Lemma digitsVal_app (a b : string) (acc : Z) :
  digitsVal acc (a ++ b) = digitsVal (digitsVal acc a) b.
Proof. revert acc. induction a as [|c a IH]; intros acc; [reflexivity|apply IH]. Qed.

Lemma digitsVal_zeros (n : nat) (acc : Z) :
  digitsVal acc (zeros n) = (acc * 10 ^ Z.of_nat n)%Z.
Proof.
  revert acc. induction n as [|n IH]; intros acc; [cbn; lia|].
  cbn [zeros digitsVal]. rewrite IH.
  change (Z.of_nat (nat_of_ascii "0" - 48)) with 0%Z.
  replace (Z.of_nat (S n)) with (Z.of_nat n + 1)%Z by lia.
  rewrite Z.pow_add_r by lia. ring.
Qed.

Lemma zeros_digits (n : nat) : allChars isDigit (zeros n) = true.
Proof. induction n as [|n IH]; [reflexivity|exact IH]. Qed.

Lemma length_zeros (n : nat) : String.length (zeros n) = n.
Proof. induction n as [|n IH]; [reflexivity|]. cbn. now rewrite IH. Qed.

Lemma take_drop (n : nat) (s : string) :
  (n <= String.length s)%nat ->
  substring 0 n s ++ slice n s = s
  /\ String.length (slice n s) = (String.length s - n)%nat
  /\ (allChars isDigit s = true ->
      allChars isDigit (substring 0 n s) = true
      /\ allChars isDigit (slice n s) = true).
Proof.
  revert s. induction n as [|n IH]; intros s Hn.
  - destruct s; cbn; repeat split; auto; lia.
  - destruct s as [|c s]; [cbn in Hn; lia|]. cbn [String.length] in Hn.
    destruct (IH s ltac:(lia)) as (E1 & E2 & E3).
    cbn [substring slice String.append String.length]. rewrite E1.
    split; [reflexivity|]. split; [exact E2|].
    intros H. cbn [allChars] in H. apply andb_prop in H as [Hc Hs].
    destruct (E3 Hs) as [E4 E5]. cbn [allChars]. now rewrite Hc, E4.
Qed.

Lemma parseNumber_of (text : string) (neg : bool) (c : ascii) (ip fp : string)
  (ex : option (bool * string)) (rest : string) (m e : Z) :
  text = (if neg then "-" else EmptyString) ++ String c ip
         ++ (if nonEmpty fp then "." ++ fp else EmptyString)
         ++ match ex with
            | Some (eneg, xd) => "e" ++ (if eneg then "-" else "+") ++ xd
            | None => EmptyString
            end ++ rest ->
  isDigit c = true -> allChars isDigit ip = true ->
  (isChar 48 c = true -> ip = EmptyString) ->
  allChars isDigit fp = true ->
  match ex with
  | Some (_, xd) => allChars isDigit xd = true /\ nonEmpty xd = true
  | None => True
  end ->
  delimited rest = true ->
  normalise (S (String.length (String c ip ++ fp)))
    (if neg then (- digitsVal 0 (String c ip ++ fp))%Z
     else digitsVal 0 (String c ip ++ fp))
    (match ex with
     | Some (eneg, xd) =>
         if eneg then (- digitsVal 0 xd)%Z else digitsVal 0 xd
     | None => 0%Z
     end - Z.of_nat (String.length fp))%Z = (m, e) ->
  parseNumber text = Some (JNum m e, rest).
Proof.
  intros -> Hc Hip Hz Hfp Hex Hrest Hn.
  rewrite (parseNumber_literal neg c ip fp ex rest Hc Hip Hz Hfp Hex Hrest).
  cbv zeta. now rewrite Hn.
Qed.

Lemma digits_of (x : Z) :
  x <> 0%Z ->
  exists c ds,
    Json.digits x = String c ds
    /\ isDigit c = true /\ isChar 48 c = false
    /\ allChars isDigit ds = true
    /\ digitsVal 0 (String c ds) = Z.abs x.
Proof.
  intros Hx. destruct x as [|p|p]; [congruence| |];
    destruct (digits_pos p) as (c & ds & H); exists c, ds; exact H.
Qed.

Lemma signed_abs (x : Z) :
  (if (x <? 0)%Z then (- Z.abs x)%Z else Z.abs x) = x.
Proof. destruct (x <? 0)%Z eqn:E; lia. Qed.

Lemma substring_none (s : string) : substring 0 0 s = EmptyString.
Proof. now destruct s. Qed.

(** What [JSON.stringify] writes for a number in normal form, the parser
    reads as this number. *)
Lemma parseNumber_numToString (m e : Z) (rest : string) :
  canonicalNumber m e = true -> delimited rest = true ->
  parseNumber (numToString m e ++ rest) = Some (JNum m e, rest).
Proof.
  unfold canonicalNumber, numToString. intros Hcan Hrest.
  destruct (m =? 0)%Z eqn:E0.
  - apply Z.eqb_eq in E0. subst m. cbn in Hcan. rewrite orb_false_r in Hcan.
    apply Z.eqb_eq in Hcan. subst e.
    now apply (parseNumber_of _ false "0" EmptyString EmptyString None rest).
  - cbn [andb orb] in Hcan. apply negb_true_iff in Hcan.
    apply Z.eqb_neq in E0.
    destruct (digits_of m E0) as (c & ds & -> & Hc & H48 & Hds & Hval).
    assert (Hsign : (if (m <? 0)%Z
                     then (- digitsVal 0 (String c ds))%Z
                     else digitsVal 0 (String c ds)) = m)
      by (rewrite Hval; apply signed_abs).
    cbv zeta. set (k := Z.of_nat (String.length (String c ds))).
    set (n := (k + e)%Z).
    assert (Hk : k = (Z.of_nat (String.length ds) + 1)%Z)
      by (unfold k; cbn [String.length]; lia).
    destruct ((k <=? n)%Z && (n <=? 21)%Z) eqn:C1.
    { (* an integer *)
      apply andb_prop in C1 as [C1 _]. apply Z.leb_le in C1.
      set (j := Z.to_nat (n - k)).
      apply (parseNumber_of _ (m <? 0)%Z c (ds ++ zeros j) EmptyString None rest);
        auto.
      - destruct (m <? 0)%Z; cbn [String.append nonEmpty String.eqb negb];
          now rewrite ?append_assoc.
      - now rewrite allChars_app, Hds, zeros_digits.
      - intros H. congruence.
      - rewrite append_empty_r.
        change (String c (ds ++ zeros j)) with (String c ds ++ zeros j).
        rewrite digitsVal_app, digitsVal_zeros.
        replace (if (m <? 0)%Z
                 then (- (digitsVal 0 (String c ds) * 10 ^ Z.of_nat j))%Z
                 else (digitsVal 0 (String c ds) * 10 ^ Z.of_nat j)%Z)
          with (m * 10 ^ Z.of_nat j)%Z
          by (rewrite <- Hsign at 1; destruct (m <? 0)%Z; ring).
        rewrite normalise_zeros;
          [f_equal; unfold j, n in *; cbn [String.length]; lia|exact Hcan|].
        rewrite length_append, length_zeros. lia. }
    destruct ((0 <? n)%Z && (n <=? 21)%Z) eqn:C2.
    { (* digits on both sides of the point *)
      apply andb_prop in C2 as [C2 C2']. apply Z.ltb_lt in C2.
      apply Z.leb_le in C2'.
      apply andb_false_iff in C1 as [C1|C1]; apply Z.leb_gt in C1; [|lia].
      destruct (Z.to_nat n) as [|j] eqn:Ej; [lia|].
      cbn [substring slice].
      destruct (take_drop j ds ltac:(lia)) as (T1 & T2 & T3).
      destruct (T3 Hds) as [T4 T5].
      assert (Hfp : nonEmpty (slice j ds) = true).
      { destruct (slice j ds); [cbn in T2; lia|reflexivity]. }
      apply (parseNumber_of _ (m <? 0)%Z c (substring 0 j ds) (slice j ds)
               None rest); auto.
      - rewrite Hfp.
        destruct (m <? 0)%Z; cbn [String.append]; now rewrite ?append_assoc.
      - intros H. congruence.
      - change (String c (substring 0 j ds) ++ slice j ds)
          with (String c (substring 0 j ds ++ slice j ds)).
        rewrite T1, Hsign, T2. rewrite normalise_keep by exact Hcan.
        f_equal. lia. }
    destruct ((-6 <? n)%Z && (n <=? 0)%Z) eqn:C3.
    { (* zeros after the point *)
      apply andb_prop in C3 as [_ C3]. apply Z.leb_le in C3.
      set (j := Z.to_nat (- n)).
      apply (parseNumber_of _ (m <? 0)%Z "0" EmptyString
               (zeros j ++ String c ds) None rest); auto.
      - assert (Hfp : nonEmpty (zeros j ++ String c ds) = true)
          by (now destruct (zeros j)).
        rewrite Hfp.
        destruct (m <? 0)%Z; cbn [String.append]; now rewrite ?append_assoc.
      - rewrite allChars_app, zeros_digits. cbn [allChars]. now rewrite Hc, Hds.
      - change (String "0" EmptyString ++ zeros j ++ String c ds)
          with (zeros (S j) ++ String c ds).
        rewrite digitsVal_app, digitsVal_zeros, Z.mul_0_l, Hsign.
        rewrite normalise_keep by exact Hcan. f_equal.
        rewrite length_append, length_zeros. unfold j. lia. }
    (* an exponent *)
    assert (Hx : (n - 1 <> 0)%Z).
    { apply andb_false_iff in C2. apply andb_false_iff in C3.
      rewrite !Z.ltb_ge, !Z.leb_gt in *. lia. }
    destruct (digits_of (n - 1)%Z Hx) as (xc & xds & -> & Hxc & _ & Hxds & Hxval).
    assert (Hxsign : (if (n - 1 <? 0)%Z
                      then (- digitsVal 0 (String xc xds))%Z
                      else digitsVal 0 (String xc xds)) = (n - 1)%Z)
      by (rewrite Hxval; apply signed_abs).
    assert (Hxd : allChars isDigit (String xc xds) = true
                  /\ nonEmpty (String xc xds) = true).
    { split; [|reflexivity]. cbn [allChars]. now rewrite Hxc, Hxds. }
    destruct (k =? 1)%Z eqn:K1.
    + apply Z.eqb_eq in K1.
      assert (ds = EmptyString) as -> by (destruct ds; [reflexivity|cbn in Hk; lia]).
      apply (parseNumber_of _ (m <? 0)%Z c EmptyString EmptyString
               (Some ((n - 1 <? 0)%Z, String xc xds)) rest); auto.
      * destruct (m <? 0)%Z; destruct (n - 1 <? 0)%Z;
          cbn [nonEmpty String.eqb negb];
          repeat (progress (cbn [String.append]; rewrite ?append_assoc));
          reflexivity.
      * rewrite Hxsign. change (String c EmptyString ++ EmptyString)
          with (String c EmptyString).
        rewrite Hsign. rewrite normalise_keep by exact Hcan.
        f_equal. cbn [String.length]. unfold n. lia.
    + apply Z.eqb_neq in K1.
      cbn [substring slice]. rewrite substring_none.
      assert (Hfp : nonEmpty ds = true)
        by (destruct ds; [cbn in Hk; lia|reflexivity]).
      apply (parseNumber_of _ (m <? 0)%Z c EmptyString ds
               (Some ((n - 1 <? 0)%Z, String xc xds)) rest); auto.
      * rewrite Hfp.
        destruct (m <? 0)%Z; destruct (n - 1 <? 0)%Z;
          repeat (progress (cbn [String.append]; rewrite ?append_assoc));
          reflexivity.
      * rewrite Hxsign.
        change (String c EmptyString ++ ds) with (String c ds).
        rewrite Hsign. rewrite normalise_keep by exact Hcan.
        f_equal. unfold n. lia.
Qed.

(** *** Strings *)

Lemma quoteChar_cases (c : ascii) :
  quoteChar c = String c EmptyString /\ itemOf c = Byte c
    /\ (32 <=? nat_of_ascii c)%nat = true
    /\ isChar 34 c = false /\ isChar 92 c = false
  \/ (exists x, quoteChar c = String (chr 92) (String x EmptyString)
        /\ itemOf c = Byte c
        /\ In (x, c) [(chr 34, chr 34); (chr 92, chr 92); (chr 98, chr 8);
                      (chr 102, chr 12); (chr 110, chr 10); (chr 114, chr 13);
                      (chr 116, chr 9)])
  \/ (exists h1 h2 n,
        quoteChar c
        = String (chr 92) (String (chr 117) (String (chr 48) (String (chr 48)
            (String h1 (String h2 EmptyString)))))
        /\ itemOf c = Unit16 n /\ hex4 (chr 48) (chr 48) h1 h2 = Some n
        /\ (n < 32)%N /\ chr (N.to_nat n) = c).
Proof.
  destruct c as [[] [] [] [] [] [] [] []];
    first
      [ left; vm_compute; repeat split; reflexivity
      | right; left; eexists; split; [reflexivity|]; split; [reflexivity|];
        vm_compute; tauto
      | right; right; do 3 eexists; split; [reflexivity|];
        split; [reflexivity|]; split; [reflexivity|]; split; reflexivity ].
Qed.

Lemma parseStrItems_quoteChar (c : ascii) (t : string) (acc : list strItem) :
  parseStrItems (quoteChar c ++ t) acc = parseStrItems t (itemOf c :: acc).
Proof.
  destruct (quoteChar_cases c)
    as [(-> & -> & H1 & H2 & H3)
       |[(x & -> & -> & Hx)|(h1 & h2 & n & -> & -> & Hh & _)]].
  - cbn [String.append parseStrItems]. unfold isChar in H2, H3.
    rewrite H2, H3. apply Nat.leb_le in H1.
    now replace (nat_of_ascii c <? 32)%nat with false
      by (symmetry; apply Nat.ltb_ge; exact H1).
  - cbn [In] in Hx.
    repeat (destruct Hx as [[= <- <-]|Hx]; [reflexivity|]). destruct Hx.
  - cbn [String.append]. change (parseStrItems _ acc)
      with (match hex4 (chr 48) (chr 48) h1 h2 with
            | Some v => parseStrItems t (Unit16 v :: acc)
            | None => None
            end).
    now rewrite Hh.
Qed.

Lemma parseStrItems_quoteBody (s rest : string) (acc : list strItem) :
  parseStrItems (quoteBody s ++ dq ++ rest) acc
  = Some (List.rev (List.rev (map itemOf (list_ascii_of_string s)) ++ acc),
          rest).
Proof.
  revert acc. induction s as [|c s IH]; intros acc; [reflexivity|].
  cbn [quoteBody list_ascii_of_string map List.rev].
  rewrite append_assoc, parseStrItems_quoteChar, IH.
  now rewrite <- app_assoc.
Qed.

Lemma encodeItems_itemOf (s : string) :
  encodeItems (map itemOf (list_ascii_of_string s)) = s.
Proof.
  induction s as [|c s IH]; [reflexivity|].
  cbn [list_ascii_of_string map].
  destruct (quoteChar_cases c)
    as [(_ & -> & _)|[(x & _ & -> & _)|(h1 & h2 & n & _ & -> & _ & Hn & <-)]].
  - cbn [encodeItems]. now rewrite IH.
  - cbn [encodeItems]. now rewrite IH.
  - cbn [encodeItems].
    assert (Hh : isHigh n = false).
    { unfold isHigh. apply andb_false_iff. left. apply N.leb_gt. lia. }
    assert (Hu : utf8Encode n = String (chr (N.to_nat n)) EmptyString).
    { unfold utf8Encode. replace (n <? 128)%N with true
        by (symmetry; apply N.ltb_lt; lia). reflexivity. }
    rewrite Hh, Hu. cbn [andb].
    destruct (map itemOf (list_ascii_of_string s)) as [|[b|lo] r];
      cbn [String.append]; now rewrite IH.
Qed.

Lemma parseString_quote (s rest : string) :
  parseString (quoteBody s ++ dq ++ rest) = Some (s, rest).
Proof.
  unfold parseString. rewrite parseStrItems_quoteBody, app_nil_r, List.rev_involutive.
  now rewrite encodeItems_itemOf.
Qed.

(** *** Arrays and objects *)

Lemma json_nested_ind (P : json -> Prop) :
  P JNull -> (forall b, P (JBool b)) -> (forall m e, P (JNum m e)) ->
  (forall s, P (JStr s)) ->
  (forall l, Forall P l -> P (JArr l)) ->
  (forall l, Forall (fun kv => P (snd kv)) l -> P (JObj l)) ->
  forall v, P v.
Proof.
  intros HN HB HM HS HA HO. fix IH 1. intros [|b|m e|s|l|l].
  - exact HN.
  - apply HB.
  - apply HM.
  - apply HS.
  - apply HA.
    exact ((fix go (l : list json) : Forall P l :=
              match l with
              | [] => @List.Forall_nil _ P
              | x :: r => @List.Forall_cons _ P x r (IH x) (go r)
              end) l).
  - apply HO.
    exact ((fix go (l : list (string * json))
              : Forall (fun kv => P (snd kv)) l :=
              match l with
              | [] => @List.Forall_nil _ (fun kv => P (snd kv))
              | kv :: r => @List.Forall_cons _ (fun kv => P (snd kv)) kv r (IH (snd kv)) (go r)
              end) l).
Qed.

Lemma stringify_array (ind : string) (x : json) (r : list json) :
  stringify ind (JArr (x :: r))
  = "[" ++ nl ++ (ind ++ "  ") ++ stringify (ind ++ "  ") x
    ++ elementsAfter (ind ++ "  ") r ++ nl ++ ind ++ "]".
Proof. reflexivity. Qed.

Lemma stringify_object (ind k : string) (x : json)
  (r : list (string * json)) :
  stringify ind (JObj ((k, x) :: r))
  = "{" ++ nl ++ (ind ++ "  ") ++ quote k ++ ": "
    ++ stringify (ind ++ "  ") x
    ++ membersAfter (ind ++ "  ") r ++ nl ++ ind ++ "}".
Proof. reflexivity. Qed.

Lemma skipWs_blank (ws s : string) :
  allChars isWs ws = true -> skipWs (ws ++ s) = skipWs s.
Proof.
  induction ws as [|c ws IH]; intros H; [reflexivity|].
  cbn [allChars] in H. apply andb_prop in H as [Hc H].
  cbn [String.append skipWs]. rewrite Hc. now apply IH.
Qed.

Lemma skipWs_solid (c : ascii) (t : string) :
  isWs c = false -> skipWs (String c t) = String c t.
Proof. intros H. cbn [skipWs]. now rewrite H. Qed.

Lemma blank_indent (ind : string) :
  allChars isWs ind = true -> allChars isWs (ind ++ "  ") = true.
Proof. intros H. now rewrite allChars_app, H. Qed.

Lemma blank_line (ind : string) :
  allChars isWs ind = true -> allChars isWs (nl ++ ind) = true.
Proof. intros H. exact H. Qed.

Lemma parseValue_S (f : nat) (s : string) :
  parseValue (S f) s
  = match skipWs s with
    | EmptyString => None
    | String c r as s0 =>
        if isChar 123 c then
          match skipWs r with
          | String c1 r1 as s1 =>
              if isChar 125 c1 then Some (JObj [], r1)
              else parseMembers f s1 []
          | EmptyString => None
          end
        else if isChar 91 c then
          match skipWs r with
          | String c1 r1 as s1 =>
              if isChar 93 c1 then Some (JArr [], r1)
              else parseElems f s1 []
          | EmptyString => None
          end
        else if isChar 34 c then
          match parseString r with
          | Some (str, r1) => Some (JStr str, r1)
          | None => None
          end
        else if startsWith "null" s0 then Some (JNull, slice 4 s0)
        else if startsWith "true" s0 then Some (JBool true, slice 4 s0)
        else if startsWith "false" s0 then Some (JBool false, slice 5 s0)
        else parseNumber s0
    end.
Proof. reflexivity. Qed.

Lemma parseElems_S (f : nat) (s : string) (acc : list json) :
  parseElems (S f) s acc
  = match parseValue f s with
    | None => None
    | Some (v, r) =>
        match skipWs r with
        | String c r1 =>
            if isChar 44 c then parseElems f r1 (v :: acc)
            else if isChar 93 c then Some (JArr (List.rev (v :: acc)), r1)
            else None
        | EmptyString => None
        end
    end.
Proof. reflexivity. Qed.

Lemma parseMembers_S (f : nat) (s : string) (acc : list (string * json)) :
  parseMembers (S f) s acc
  = match skipWs s with
    | String q r =>
        if isChar 34 q then
          match parseString r with
          | None => None
          | Some (k, r1) =>
              match skipWs r1 with
              | String c r2 =>
                  if isChar 58 c then
                    match parseValue f r2 with
                    | None => None
                    | Some (v, r3) =>
                        match skipWs r3 with
                        | String d r4 =>
                            if isChar 44 d
                            then parseMembers f r4 (setKey k v acc)
                            else if isChar 125 d
                            then Some (JObj (setKey k v acc), r4)
                            else None
                        | EmptyString => None
                        end
                    end
                  else None
              | EmptyString => None
              end
          end
        else None
    | EmptyString => None
    end.
Proof. reflexivity. Qed.

Lemma parseValue_skip (f : nat) (ws s : string) :
  allChars isWs ws = true -> parseValue f (ws ++ s) = parseValue f s.
Proof.
  intros H. destruct f as [|f]; [reflexivity|].
  now rewrite !parseValue_S, skipWs_blank.
Qed.

Lemma parseNumber_head (s : string) (r : json * string) :
  parseNumber s = Some r ->
  exists c t, s = String c t /\ (isChar 45 c || isDigit c) = true.
Proof.
  destruct s as [|c t]; [discriminate|]. intros H. exists c, t.
  split; [reflexivity|].
  destruct (isChar 45 c) eqn:E45; [reflexivity|].
  destruct (isDigit c) eqn:Ed; [reflexivity|]. exfalso.
  unfold parseNumber in H. rewrite E45 in H.
  rewrite startsWith_zero in H. cbn [spanLen] in H. rewrite Ed in H.
  replace (isChar 48 c) with false in H; [discriminate|].
  unfold isDigit, isChar in *. symmetry. apply Nat.eqb_neq. intros E.
  rewrite E in Ed. discriminate.
Qed.

Lemma number_head (c : ascii) (t : string) :
  (isChar 45 c || isDigit c) = true ->
  isWs c = false /\ isChar 123 c = false /\ isChar 91 c = false
  /\ isChar 34 c = false /\ isChar 93 c = false
  /\ startsWith "null" (String c t) = false
  /\ startsWith "true" (String c t) = false
  /\ startsWith "false" (String c t) = false.
Proof.
  destruct c as [[] [] [] [] [] [] [] []]; intros H;
    try discriminate H; repeat split; reflexivity.
Qed.

Lemma numToString_head (m e : Z) :
  canonicalNumber m e = true ->
  exists c t, numToString m e = String c t
              /\ (isChar 45 c || isDigit c) = true.
Proof.
  intros H.
  pose proof (parseNumber_numToString m e EmptyString H eq_refl) as Hp.
  rewrite append_empty_r in Hp. now apply parseNumber_head in Hp.
Qed.

Lemma parseValue_number (f : nat) (m e : Z) (rest : string) :
  canonicalNumber m e = true -> delimited rest = true ->
  parseValue (S f) (numToString m e ++ rest) = Some (JNum m e, rest).
Proof.
  intros Hcan Hrest.
  pose proof (parseNumber_numToString m e rest Hcan Hrest) as Hp.
  destruct (numToString_head m e Hcan) as (c & t & E & Hc).
  rewrite E in *. cbn [String.append] in *.
  destruct (number_head c (t ++ rest) Hc)
    as (H1 & H2 & H3 & H4 & _ & H5 & H6 & H7).
  rewrite parseValue_S, (skipWs_solid _ _ H1). cbv iota beta zeta.
  now rewrite H2, H3, H4, H5, H6, H7.
Qed.

(** The first character of what [stringify] writes is not white space and
    does not close an array. *)
Lemma stringify_head (ind : string) (v : json) :
  canonical v = true ->
  exists c t, stringify ind v = String c t
              /\ isWs c = false /\ isChar 93 c = false.
Proof.
  destruct v as [|[|]|m e|s|[|x r]|[|[k x] r]]; intros H;
    try (eexists; eexists; split; [reflexivity|split; reflexivity]).
  cbn [canonical] in H.
  destruct (numToString_head m e H) as (c & t & E & Hc).
  destruct (number_head c t Hc) as (H1 & _ & _ & _ & H2 & _).
  exists c, t. cbn [stringify]. now rewrite E.
Qed.


Lemma setKey_fresh (k : string) (v : json) (acc : list (string * json)) :
  ~ In k (map fst acc) -> setKey k v acc = (acc ++ [(k, v)])%list.
Proof.
  induction acc as [|[k' v'] acc IH]; intros H; [reflexivity|].
  cbn [setKey map fst In] in *.
  destruct (String.eqb k k') eqn:E.
  - apply String.eqb_eq in E. subst. tauto.
  - rewrite IH by tauto. reflexivity.
Qed.

Lemma noRepeat_NoDup (l : list string) : noRepeat l = true -> List.NoDup l.
Proof.
  induction l as [|k l IH]; intros H; [constructor|].
  cbn [noRepeat] in H. apply andb_prop in H as [H1 H2].
  constructor; [|auto]. intros Hin. apply negb_true_iff in H1.
  assert (existsb (String.eqb k) l = true); [|congruence].
  apply existsb_exists. exists k. split; [exact Hin|apply String.eqb_refl].
Qed.

Lemma delimited_after (ind ind' : string) (r : list json) (close rest : string) :
  delimited (elementsAfter ind' r ++ nl ++ ind ++ close ++ rest) = true.
Proof. now destruct r. Qed.

Lemma delimited_after_member (ind ind' : string) (r : list (string * json))
  (close rest : string) :
  delimited (membersAfter ind' r ++ nl ++ ind ++ close ++ rest) = true.
Proof. destruct r as [|[k y] t]; reflexivity. Qed.

Lemma skipWs_line (ind s : string) :
  allChars isWs ind = true -> skipWs (nl ++ ind ++ s) = skipWs s.
Proof.
  intros H. change (nl ++ ind ++ s) with ((nl ++ ind) ++ s).
  now apply skipWs_blank.
Qed.

Lemma elementsAfter_cons (ind : string) (y : json) (t : list json)
  (z : string) :
  elementsAfter ind (y :: t) ++ z
  = String "," ((nl ++ ind) ++ stringify ind y ++ elementsAfter ind t ++ z).
Proof.
  change (elementsAfter ind (y :: t))
    with ("," ++ nl ++ ind ++ stringify ind y ++ elementsAfter ind t).
  now rewrite !append_assoc.
Qed.

Lemma membersAfter_cons (ind k : string) (y : json)
  (t : list (string * json)) (z : string) :
  membersAfter ind ((k, y) :: t) ++ z
  = String ","
      ((nl ++ ind) ++ quote k ++ ": " ++ stringify ind y
       ++ membersAfter ind t ++ z).
Proof.
  change (membersAfter ind ((k, y) :: t))
    with ("," ++ nl ++ ind ++ quote k ++ ": " ++ stringify ind y
          ++ membersAfter ind t).
  now rewrite !append_assoc.
Qed.

Lemma parseElems_elements (ind ind' rest : string) (r : list json) :
  allChars isWs ind = true -> allChars isWs ind' = true ->
  forall (x : json) (acc : list json) (ws : string) (f : nat),
    Forall readsBack (x :: r) -> forallb canonical (x :: r) = true ->
    allChars isWs ws = true ->
    (list_sum (map (fun y => S (size y)) (x :: r)) <= f)%nat ->
    parseElems f
      (ws ++ stringify ind' x ++ elementsAfter ind' r ++ nl ++ ind ++ "]"
       ++ rest) acc
    = Some (JArr (List.rev acc ++ x :: r), rest).
Proof.
  intros Hind Hind'. induction r as [|y t IH]; intros x acc ws f HP Hc Hws Hf.
  - apply Forall_inv in HP. cbn [forallb] in Hc. rewrite andb_true_r in Hc.
    cbn [map list_sum fold_right] in Hf. destruct f as [|f]; [lia|].
    rewrite parseElems_S, parseValue_skip by exact Hws.
    rewrite (HP Hc ind' _ f Hind' (delimited_after ind ind' [] "]" rest))
      by lia.
    change (elementsAfter ind' [] ++ nl ++ ind ++ "]" ++ rest)
      with (nl ++ ind ++ String "]" rest).
    rewrite skipWs_line by exact Hind. rewrite skipWs_solid by reflexivity.
    reflexivity.
  - pose proof (Forall_inv HP) as HPx. apply Forall_inv_tail in HP.
    cbn [forallb] in Hc. apply andb_prop in Hc as [Hcx Hc].
    cbn [map list_sum fold_right] in Hf. destruct f as [|f]; [lia|].
    rewrite parseElems_S, parseValue_skip by exact Hws.
    rewrite (HPx Hcx ind' _ f Hind'
               (delimited_after ind ind' (y :: t) "]" rest)) by lia.
    rewrite elementsAfter_cons. rewrite skipWs_solid by reflexivity.
    change (isChar 44 ",") with true. cbv iota.
    rewrite (IH y (x :: acc) (nl ++ ind') f HP)
      by first [ exact Hind' | cbn [forallb]; now rewrite ?Hc
               | cbn [map list_sum fold_right] in *; lia ].
    cbn [List.rev]. now rewrite <- app_assoc.
Qed.

Lemma quote_app (k z : string) :
  quote k ++ z = String (chr 34) (quoteBody k ++ dq ++ z).
Proof. unfold quote. now rewrite !append_assoc. Qed.

Lemma parseMembers_members (ind ind' rest : string)
  (r : list (string * json)) :
  allChars isWs ind = true -> allChars isWs ind' = true ->
  forall (k : string) (x : json) (acc : list (string * json)) (ws : string)
         (f : nat),
    Forall (fun kv => readsBack (snd kv)) ((k, x) :: r) ->
    forallb (fun kv => canonical (snd kv)) ((k, x) :: r) = true ->
    List.NoDup (map fst (acc ++ (k, x) :: r)) ->
    allChars isWs ws = true ->
    (list_sum (map (fun kv => S (size (snd kv))) ((k, x) :: r)) <= f)%nat ->
    parseMembers f
      (ws ++ quote k ++ ": " ++ stringify ind' x ++ membersAfter ind' r
       ++ nl ++ ind ++ "}" ++ rest) acc
    = Some (JObj (acc ++ (k, x) :: r), rest).
Proof.
  intros Hind Hind'.
  induction r as [|[k' y] t IH]; intros k x acc ws f HP Hc Hk Hws Hf.
  - apply Forall_inv in HP. cbn [forallb snd] in Hc, HP.
    rewrite andb_true_r in Hc.
    cbn [map list_sum fold_right snd] in Hf. destruct f as [|f]; [lia|].
    rewrite parseMembers_S, skipWs_blank by exact Hws.
    rewrite quote_app.
    rewrite skipWs_solid by reflexivity. cbv iota beta.
    change (isChar 34 (chr 34)) with true. cbv iota.
    rewrite parseString_quote. cbv iota beta.
    change (": " ++ stringify ind' x ++ membersAfter ind' []
            ++ nl ++ ind ++ "}" ++ rest)
      with (String ":" (" " ++ stringify ind' x ++ membersAfter ind' []
                        ++ nl ++ ind ++ "}" ++ rest)).
    rewrite skipWs_solid by reflexivity. cbv iota beta.
    change (isChar 58 ":") with true. cbv iota.
    rewrite parseValue_skip by reflexivity.
    rewrite (HP Hc ind' _ f Hind'
               (delimited_after_member ind ind' [] "}" rest)) by lia.
    change (membersAfter ind' [] ++ nl ++ ind ++ "}" ++ rest)
      with (nl ++ ind ++ String "}" rest).
    rewrite skipWs_line by exact Hind. rewrite skipWs_solid by reflexivity.
    cbv iota beta. change (isChar 44 "}") with false.
    change (isChar 125 "}") with true. cbv iota.
    rewrite setKey_fresh; [reflexivity|].
    rewrite map_app in Hk. apply NoDup_remove_2 in Hk.
    intros Hin. apply Hk. apply in_or_app. now left.
  - pose proof (Forall_inv HP) as HPx. apply Forall_inv_tail in HP.
    cbn [forallb snd] in Hc, HPx. apply andb_prop in Hc as [Hcx Hc].
    cbn [map list_sum fold_right snd] in Hf. destruct f as [|f]; [lia|].
    rewrite parseMembers_S, skipWs_blank by exact Hws.
    rewrite quote_app.
    rewrite skipWs_solid by reflexivity. cbv iota beta.
    change (isChar 34 (chr 34)) with true. cbv iota.
    rewrite parseString_quote. cbv iota beta.
    change (": " ++ stringify ind' x ++ membersAfter ind' ((k', y) :: t)
            ++ nl ++ ind ++ "}" ++ rest)
      with (String ":" (" " ++ stringify ind' x
                        ++ membersAfter ind' ((k', y) :: t)
                        ++ nl ++ ind ++ "}" ++ rest)).
    rewrite skipWs_solid by reflexivity. cbv iota beta.
    change (isChar 58 ":") with true. cbv iota.
    rewrite parseValue_skip by reflexivity.
    rewrite (HPx Hcx ind' _ f Hind'
               (delimited_after_member ind ind' ((k', y) :: t) "}" rest))
      by lia.
    rewrite membersAfter_cons. rewrite skipWs_solid by reflexivity.
    cbv iota beta. change (isChar 44 ",") with true. cbv iota.
    assert (Hfresh : ~ In k (map fst acc)).
    { rewrite map_app in Hk. apply NoDup_remove_2 in Hk.
      intros Hin. apply Hk. apply in_or_app. now left. }
    rewrite setKey_fresh by exact Hfresh.
    rewrite (IH k' y (acc ++ [(k, x)])%list (nl ++ ind') f HP Hc).
    + now rewrite <- app_assoc.
    + now rewrite <- app_assoc.
    + exact Hind'.
    + cbn [map list_sum fold_right snd] in *. lia.
Qed.

Lemma array_text (ind : string) (x : json) (r : list json) (rest : string) :
  stringify ind (JArr (x :: r)) ++ rest
  = String "["
      (nl ++ (ind ++ "  ") ++ stringify (ind ++ "  ") x
       ++ elementsAfter (ind ++ "  ") r ++ nl ++ ind ++ "]" ++ rest).
Proof.
  rewrite stringify_array. set (ind' := ind ++ "  ").
  now rewrite !append_assoc.
Qed.

Lemma object_text (ind k : string) (x : json) (r : list (string * json))
  (rest : string) :
  stringify ind (JObj ((k, x) :: r)) ++ rest
  = String "{"
      (nl ++ (ind ++ "  ") ++ quote k ++ ": " ++ stringify (ind ++ "  ") x
       ++ membersAfter (ind ++ "  ") r ++ nl ++ ind ++ "}" ++ rest).
Proof.
  rewrite stringify_object. set (ind' := ind ++ "  ").
  now rewrite !append_assoc.
Qed.

Lemma size_positive (v : json) : (1 <= size v)%nat.
Proof. destruct v; cbn [size]; lia. Qed.

Lemma readsBack_all (v : json) : readsBack v.
Proof.
  induction v as [|b|m e|s|l IH|l IH] using json_nested_ind;
    intros Hcan ind rest fuel Hind Hrest Hfuel;
    (destruct fuel as [|f];
     [match type of Hfuel with (size ?v <= _)%nat =>
        pose proof (size_positive v) end; lia|]).
  - reflexivity.
  - now destruct b.
  - now apply parseValue_number.
  - rewrite parseValue_S.
    change (stringify ind (JStr s)) with (quote s).
    rewrite quote_app, skipWs_solid by reflexivity. cbv iota beta.
    change (isChar 123 (chr 34)) with false.
    change (isChar 91 (chr 34)) with false.
    change (isChar 34 (chr 34)) with true. cbv iota.
    now rewrite parseString_quote.
  - destruct l as [|x r]; [reflexivity|].
    cbn [canonical] in Hcan. cbn [size] in Hfuel.
    rewrite array_text, parseValue_S.
    rewrite skipWs_solid by reflexivity. cbv iota beta.
    change (isChar 123 "[") with false. change (isChar 91 "[") with true.
    cbv iota.
    assert (Hx : canonical x = true)
      by (cbn [forallb] in Hcan; now apply andb_prop in Hcan).
    destruct (stringify_head (ind ++ "  ") x Hx) as (c & t & E & Hc1 & Hc2).
    set (tail := elementsAfter (ind ++ "  ") r ++ nl ++ ind ++ "]" ++ rest).
    assert (Hs : skipWs (nl ++ (ind ++ "  ") ++ stringify (ind ++ "  ") x
                         ++ tail)
                 = String c (t ++ tail)).
    { rewrite skipWs_line by (now apply blank_indent). rewrite E.
      now apply skipWs_solid. }
    rewrite Hs. cbv iota beta zeta. rewrite Hc2.
    change (String c (t ++ tail)) with (EmptyString ++ String c t ++ tail).
    rewrite <- E. unfold tail.
    apply (parseElems_elements ind (ind ++ "  ") rest r Hind
             (blank_indent ind Hind) x [] EmptyString f IH Hcan eq_refl).
    lia.
  - destruct l as [|[k x] r]; [reflexivity|].
    cbn [canonical] in Hcan. apply andb_prop in Hcan as [Hkeys Hcan].
    cbn [size] in Hfuel.
    rewrite object_text, parseValue_S.
    rewrite skipWs_solid by reflexivity. cbv iota beta.
    change (isChar 123 "{") with true. cbv iota.
    set (tail := ": " ++ stringify (ind ++ "  ") x
                 ++ membersAfter (ind ++ "  ") r ++ nl ++ ind ++ "}" ++ rest).
    assert (Hs : skipWs (nl ++ (ind ++ "  ") ++ quote k ++ tail)
                 = String (chr 34) (quoteBody k ++ dq ++ tail)).
    { rewrite skipWs_line by (now apply blank_indent).
      rewrite quote_app. now apply skipWs_solid. }
    rewrite Hs. cbv iota beta zeta. change (isChar 125 (chr 34)) with false.
    cbv iota. rewrite <- quote_app.
    change (quote k ++ tail) with (EmptyString ++ quote k ++ tail).
    unfold tail.
    apply (parseMembers_members ind (ind ++ "  ") rest r Hind
             (blank_indent ind Hind) k x [] EmptyString f IH Hcan).
    + now apply noRepeat_NoDup.
    + reflexivity.
    + lia.
Qed.

Lemma elementsAfter_length (ind : string) (r : list json) :
  Forall (fun v => forall ind,
            (size v <= String.length (stringify ind v))%nat) r ->
  (list_sum (map (fun y => S (size y)) r)
   <= String.length (elementsAfter ind r))%nat.
Proof.
  induction 1 as [|y t Hy _ IH]; [cbn; lia|].
  change (elementsAfter ind (y :: t))
    with ("," ++ nl ++ ind ++ stringify ind y ++ elementsAfter ind t).
  cbn [map list_sum fold_right]. rewrite !length_append.
  change (list_sum (map (fun y => S (size y)) t))
    with (fold_right Init.Nat.add 0%nat (map (fun y => S (size y)) t)) in IH.
  specialize (Hy ind). cbn [String.length]. lia.
Qed.

Lemma membersAfter_length (ind : string) (r : list (string * json)) :
  Forall (fun kv => forall ind,
            (size (snd kv) <= String.length (stringify ind (snd kv)))%nat) r ->
  (list_sum (map (fun kv => S (size (snd kv))) r)
   <= String.length (membersAfter ind r))%nat.
Proof.
  induction 1 as [|[k y] t Hy _ IH]; [cbn; lia|].
  change (membersAfter ind ((k, y) :: t))
    with ("," ++ nl ++ ind ++ quote k ++ ": " ++ stringify ind y
          ++ membersAfter ind t).
  cbn [map list_sum fold_right snd] in *. rewrite !length_append.
  change (list_sum (map (fun kv => S (size (snd kv))) t))
    with (fold_right Init.Nat.add 0%nat
            (map (fun kv => S (size (snd kv))) t)) in IH.
  specialize (Hy ind). cbn [String.length]. lia.
Qed.

(** The text of a value has at least one character for each value in it
    and for each place in an array or object. *)
Lemma size_le_length (v : json) (ind : string) :
  (size v <= String.length (stringify ind v))%nat.
Proof.
  revert ind.
  induction v as [|b|m e|s|l IH|l IH] using json_nested_ind; intros ind.
  - cbn. lia.
  - destruct b; cbn; lia.
  - cbn [size stringify]. unfold numToString.
    destruct (m =? 0)%Z eqn:E0; [cbn; lia|]. apply Z.eqb_neq in E0.
    destruct (digits_of m E0) as (c & ds & -> & _). cbv zeta.
    rewrite length_append.
    repeat match goal with
           | |- context [if ?b then _ else _] => destruct b
           end;
      rewrite ?length_append; cbn [String.append String.length]; lia.
  - cbn [size stringify]. unfold quote. rewrite !length_append. cbn. lia.
  - destruct l as [|x r]; [cbn; lia|].
    rewrite stringify_array. cbn [size map list_sum fold_right].
    rewrite !length_append.
    pose proof (elementsAfter_length (ind ++ "  ") r (Forall_inv_tail IH)) as Hr.
    pose proof (Forall_inv IH (ind ++ "  ")) as Hx.
    change (list_sum (map (fun y => S (size y)) r))
      with (fold_right Init.Nat.add 0%nat (map (fun y => S (size y)) r)) in Hr.
    cbn [String.length]. lia.
  - destruct l as [|[k x] r]; [cbn; lia|].
    rewrite stringify_object. cbn [size map list_sum fold_right snd].
    rewrite !length_append.
    pose proof (membersAfter_length (ind ++ "  ") r (Forall_inv_tail IH))
      as Hr.
    pose proof (Forall_inv IH (ind ++ "  ")) as Hx. cbn [snd] in Hx.
    change (list_sum (map (fun kv => S (size (snd kv))) r))
      with (fold_right Init.Nat.add 0%nat
              (map (fun kv => S (size (snd kv))) r)) in Hr.
    cbn [String.length]. lia.
Qed.

Lemma blank_delimited (ws : string) :
  allChars isWs ws = true -> delimited ws = true.
Proof.
  destruct ws as [|c ws]; [reflexivity|]. cbn [allChars delimited].
  intros H. apply andb_prop in H as [H _]. revert H.
  destruct c as [[] [] [] [] [] [] [] []]; intros H;
    try discriminate H; reflexivity.
Qed.

Lemma parse_stringify (v : json) (ws : string) :
  canonical v = true -> allChars isWs ws = true ->
  JsonParser.parse (stringify2 (Some v) ++ ws) = Some v.
Proof.
  intros Hcan Hws. unfold JsonParser.parse, stringify2.
  rewrite (readsBack_all v Hcan EmptyString ws _ eq_refl
             (blank_delimited ws Hws)).
  - pose proof (skipWs_blank ws EmptyString Hws) as H.
    rewrite append_empty_r in H. now rewrite H.
  - pose proof (size_le_length v EmptyString). rewrite length_append. lia.
Qed.

(** X19: what the client writes with [JSON.stringify(v, null, 2)]
    it reads back with [JSON.parse] as the same value, also when white
    space follows the text: for every value with numbers in normal form
    and without a repeated key in an object. *)
Theorem stringified_json_is_parsed_back (v : json) (ws : string) :
  canonical v = true -> allChars isWs ws = true ->
  JsonParser.parse (stringify2 (Some v) ++ ws) = Some v.
Proof. intros Hcan Hws. now apply parse_stringify. Qed.

Lemma stringified_json_is_parsed_back_witness :
  canonical ClientSamples.salesChart = true
  /\ JsonParser.parse (stringify2 (Some ClientSamples.salesChart) ++ nl)
     = Some ClientSamples.salesChart.
Proof.
  split; [reflexivity|].
  apply (stringified_json_is_parsed_back ClientSamples.salesChart nl);
    reflexivity.
Defined.

(** *** The values the parser yields *)

Lemma digit_value (c : ascii) :
  isDigit c = true -> (0 <= Z.of_nat (nat_of_ascii c - 48) <= 9)%Z.
Proof.
  unfold isDigit. intros H. apply andb_prop in H as [H1 H2].
  apply Nat.leb_le in H1, H2. lia.
Qed.

Lemma digitsVal_bound (s : string) (acc : Z) :
  allChars isDigit s = true -> (0 <= acc)%Z ->
  (0 <= digitsVal acc s < (acc + 1) * 10 ^ Z.of_nat (String.length s))%Z.
Proof.
  revert acc. induction s as [|c s IH]; intros acc Hs Ha.
  - cbn. lia.
  - cbn [allChars] in Hs. apply andb_prop in Hs as [Hc Hs].
    pose proof (digit_value c Hc) as Hd. cbn [digitsVal String.length].
    specialize (IH (10 * acc + Z.of_nat (nat_of_ascii c - 48))%Z Hs
                  ltac:(lia)).
    replace (Z.of_nat (S (String.length s)))
      with (Z.of_nat (String.length s) + 1)%Z by lia.
    rewrite Z.pow_add_r, Z.pow_1_r by lia.
    assert (0 < 10 ^ Z.of_nat (String.length s))%Z
      by (apply Z.pow_pos_nonneg; lia).
    nia.
Qed.

Lemma normalise_canonical (f : nat) (m e m' e' : Z) :
  (Z.abs m < 10 ^ Z.of_nat f)%Z ->
  normalise (S f) m e = (m', e') -> canonicalNumber m' e' = true.
Proof.
  revert m e. induction f as [|f IH]; intros m e Hm H.
  - assert (m = 0%Z) as -> by (cbn in Hm; lia). cbn in H.
    now injection H as <- <-.
  - cbn [normalise] in H. destruct (m =? 0)%Z eqn:E0.
    + now injection H as <- <-.
    + destruct (m mod 10 =? 0)%Z eqn:E10.
      * apply (IH (m / 10)%Z (e + 1)%Z); [|exact H].
        apply Z.eqb_eq in E10. apply Z.eqb_neq in E0.
        replace (Z.of_nat (S f)) with (Z.of_nat f + 1)%Z in Hm by lia.
        rewrite Z.pow_add_r, Z.pow_1_r in Hm by lia.
        assert (m = 10 * (m / 10))%Z by (apply Z_div_exact_full_2; lia).
        lia.
      * injection H as <- <-. unfold canonicalNumber. rewrite E0, E10.
        reflexivity.
Qed.

Lemma digits_normal (neg : bool) (d : string) (x m e : Z) :
  allChars isDigit d = true ->
  normalise (S (String.length d))
    (if neg then (- digitsVal 0 d)%Z else digitsVal 0 d) x = (m, e) ->
  canonicalNumber m e = true.
Proof.
  intros Hd. apply normalise_canonical.
  pose proof (digitsVal_bound d 0 Hd ltac:(lia)). destruct neg; lia.
Qed.

Lemma integer_part_digits (s1 : string) :
  allChars isDigit
    (substring 0 (if startsWith "0" s1 then 1%nat else spanLen isDigit s1) s1)
  = true.
Proof.
  destruct (startsWith "0" s1) eqn:E; [|apply allChars_span].
  destruct s1 as [|c t]; [discriminate|]. rewrite startsWith_zero in E.
  cbn [substring]. rewrite substring_none. cbn [allChars].
  rewrite andb_true_r. unfold isChar in E. apply Nat.eqb_eq in E.
  unfold isDigit. now rewrite E.
Qed.

Lemma parseNumber_canonical (s : string) (v : json) (r : string) :
  parseNumber s = Some (v, r) -> canonical v = true.
Proof.
  unfold parseNumber. intros H.
  destruct (match s with
            | String c r0 => if isChar 45 c then (true, r0) else (false, s)
            | EmptyString => (false, s)
            end) as [neg s1].
  cbv zeta in H.
  pose proof (integer_part_digits s1) as Hip.
  set (ni := if startsWith "0" s1 then 1%nat else spanLen isDigit s1) in *.
  destruct (ni =? 0)%nat; [discriminate|].
  set (ip := substring 0 ni s1) in *.
  destruct (match slice ni s1 with
            | String c r0 =>
                if isChar 46 c then
                  if (spanLen isDigit r0 =? 0)%nat then None
                  else Some (substring 0 (spanLen isDigit r0) r0,
                             slice (spanLen isDigit r0) r0)
                else Some (EmptyString, slice ni s1)
            | EmptyString => Some (EmptyString, slice ni s1)
            end) as [[fp s3]|] eqn:Ef; [|discriminate].
  assert (Hfp : allChars isDigit fp = true).
  { destruct (slice ni s1) as [|c r0]; [now injection Ef as <- _|].
    destruct (isChar 46 c); [|now injection Ef as <- _].
    destruct (spanLen isDigit r0 =? 0)%nat; [discriminate|].
    injection Ef as <- _. apply allChars_span. }
  match type of H with
  | match ?scrut with _ => _ end = _ =>
      destruct scrut as [[x s4]|]; [|discriminate]
  end.
  destruct (normalise _ _ _) as [m' e'] eqn:En.
  injection H as <- _. cbn [canonical].
  apply (digits_normal neg (ip ++ fp) (x - Z.of_nat (String.length fp)) m' e');
    [|exact En].
  now rewrite allChars_app, Hip, Hfp.
Qed.

Lemma setKey_has (q k : string) (v : json) (acc : list (string * json)) :
  existsb (String.eqb q) (map fst (setKey k v acc))
  = existsb (String.eqb q) (map fst acc) || String.eqb q k.
Proof.
  induction acc as [|[k' v'] acc IH]; [cbn; now rewrite orb_false_r|].
  cbn [setKey]. destruct (String.eqb k k') eqn:E.
  - apply String.eqb_eq in E. subst k'. cbn [map fst existsb].
    destruct (String.eqb q k); [reflexivity|]. now rewrite orb_false_r.
  - cbn [map fst existsb]. rewrite IH. now rewrite orb_assoc.
Qed.

Lemma setKey_canonical (k : string) (v : json) (acc : list (string * json)) :
  canonical v = true -> canonical (JObj acc) = true ->
  canonical (JObj (setKey k v acc)) = true.
Proof.
  intros Hv. cbn [canonical]. induction acc as [|[k' v'] acc IH]; intros H.
  - cbn. now rewrite Hv.
  - cbn [map fst noRepeat forallb snd] in H.
    apply andb_prop in H as [H1 H2]. apply andb_prop in H1 as [H1 H3].
    apply andb_prop in H2 as [H2 H4].
    cbn [setKey]. destruct (String.eqb k k') eqn:E.
    + cbn [map fst noRepeat forallb snd]. now rewrite H1, H3, Hv, H4.
    + specialize (IH ltac:(now rewrite H3, H4)).
      apply andb_prop in IH as [IH1 IH2].
      cbn [map fst noRepeat forallb snd]. rewrite IH1, IH2, H2.
      rewrite setKey_has. apply negb_true_iff in H1. rewrite H1.
      rewrite String.eqb_sym, E. reflexivity.
Qed.

Lemma forallb_rev {A : Type} (p : A -> bool) (l : list A) :
  forallb p (List.rev l) = forallb p l.
Proof.
  induction l as [|a l IH]; [reflexivity|].
  cbn [List.rev forallb]. rewrite forallb_app, IH. cbn [forallb].
  now rewrite andb_true_r, andb_comm.
Qed.

(** The parser yields numbers in normal form and objects without a
    repeated key. *)
Lemma parse_canonical (f : nat) :
  (forall s v r, parseValue f s = Some (v, r) -> canonical v = true)
  /\ (forall s acc v r,
        parseElems f s acc = Some (v, r) ->
        forallb canonical acc = true -> canonical v = true)
  /\ (forall s acc v r,
        parseMembers f s acc = Some (v, r) ->
        canonical (JObj acc) = true -> canonical v = true).
Proof.
  induction f as [|f (IH1 & IH2 & IH3)]; [repeat split; discriminate|].
  split; [|split].
  - intros s v r. rewrite parseValue_S.
    destruct (skipWs s) as [|c t]; [discriminate|]. cbv zeta.
    destruct (isChar 123 c).
    { destruct (skipWs t) as [|c1 r1]; [discriminate|].
      destruct (isChar 125 c1); [now intros [= <- _]|].
      intros H. now apply (IH3 _ _ _ _ H). }
    destruct (isChar 91 c).
    { destruct (skipWs t) as [|c1 r1]; [discriminate|].
      destruct (isChar 93 c1); [now intros [= <- _]|].
      intros H. now apply (IH2 _ _ _ _ H). }
    destruct (isChar 34 c).
    { destruct (parseString t) as [[str r1]|]; [|discriminate].
      now intros [= <- _]. }
    destruct (startsWith "null" (String c t)); [now intros [= <- _]|].
    destruct (startsWith "true" (String c t)); [now intros [= <- _]|].
    destruct (startsWith "false" (String c t)); [now intros [= <- _]|].
    apply parseNumber_canonical.
  - intros s acc v r. rewrite parseElems_S.
    destruct (parseValue f s) as [[v0 r0]|] eqn:E; [|discriminate].
    apply IH1 in E.
    destruct (skipWs r0) as [|c r1]; [discriminate|].
    destruct (isChar 44 c).
    { intros H Hacc. apply (IH2 _ _ _ _ H). cbn [forallb].
      now rewrite E, Hacc. }
    destruct (isChar 93 c); [|discriminate].
    intros [= <- _] Hacc. cbn [canonical].
    rewrite forallb_app, forallb_rev. cbn [forallb]. now rewrite E, Hacc.
  - intros s acc v r. rewrite parseMembers_S.
    destruct (skipWs s) as [|q t]; [discriminate|].
    destruct (isChar 34 q); [|discriminate].
    destruct (parseString t) as [[k r1]|]; [|discriminate].
    destruct (skipWs r1) as [|c r2]; [discriminate|].
    destruct (isChar 58 c); [|discriminate].
    destruct (parseValue f r2) as [[v0 r3]|] eqn:E; [|discriminate].
    apply IH1 in E.
    destruct (skipWs r3) as [|d r4]; [discriminate|].
    destruct (isChar 44 d).
    { intros H Hacc. apply (IH3 _ _ _ _ H). now apply setKey_canonical. }
    destruct (isChar 125 d); [|discriminate].
    intros [= <- _] Hacc. now apply setKey_canonical.
Qed.

Lemma parsed_canonical (text : string) (v : json) :
  JsonParser.parse text = Some v -> canonical v = true.
Proof.
  unfold JsonParser.parse.
  destruct (parseValue _ text) as [[v0 r]|] eqn:E; [|discriminate].
  destruct (skipWs r); [|discriminate]. intros [= <-].
  now apply (proj1 (parse_canonical _)) in E.
Qed.



End JsonFacts.

(** ** The chart of an event *)

Section CodeBlockFacts.
Import JsonParser JsonSpec Regex RendererSpec CodeBlocks.

Lemma startsWith_fence_line (a z : string) :
  startsWith fence (a ++ nl ++ z) = startsWith fence a.
Proof.
  destruct a as [|c1 [|c2 [|c3 a]]]; cbn [String.append startsWith fence];
    unfold fence; cbn [startsWith String.append];
    repeat match goal with
           | |- context [Ascii.eqb ?x ?y] => destruct (Ascii.eqb x y)
           end; reflexivity.
Qed.

Lemma upTo_fence (j rest : string) :
  includes fence j = false ->
  upTo fence (j ++ nl ++ fence ++ rest) = Some (j ++ nl, rest).
Proof.
  induction j as [|c j IH]; intros H.
  - reflexivity.
  - rewrite includes_unfold in H.
    destruct (startsWith fence (String c j)) eqn:E; [discriminate|].
    change (String c j ++ nl ++ fence ++ rest)
      with (String c (j ++ nl ++ fence ++ rest)).
    cbn [upTo].
    change (String c (j ++ nl ++ fence ++ rest))
      with (String c j ++ nl ++ fence ++ rest).
    rewrite startsWith_fence_line, E. now rewrite IH.
Qed.

Lemma matchCodeBlock_head (s : string) :
  startsWith fence s = false -> matchCodeBlock s = None.
Proof. intros H. unfold matchCodeBlock, lit. now rewrite H. Qed.

Lemma occurrences_clean (h d : string) :
  allChars (fun c => negb (isChar 96 c)) h = true ->
  occurrences fence (h ++ d) = occurrences fence d.
Proof.
  induction h as [|c h IH]; intros H; [reflexivity|].
  cbn [allChars] in H. apply andb_prop in H as [Hc H].
  cbn [String.append occurrences]. rewrite (IH H).
  replace (startsWith fence (String c (h ++ d))) with false; [reflexivity|].
  unfold fence. cbn [startsWith].
  destruct (Ascii.eqb "`" c) eqn:E; [|reflexivity].
  apply Ascii.eqb_eq in E. subst c. discriminate Hc.
Qed.

Lemma execAll_skip {D : Type} (m : string -> option (D * string))
  (h d : string) (i : nat) :
  execAll m (String.length h) i (h ++ d)
  = execAll m 0 (i + String.length h) d.
Proof.
  revert i. induction h as [|c h IH]; intros i.
  - cbn [String.length String.append]. rewrite Nat.add_0_r.
    now destruct d.
  - cbn [String.length String.append execAll]. rewrite IH. f_equal. lia.
Qed.

Lemma execAll_match {D : Type} (m : string -> option (D * string))
  (i : nat) (b rest : string) (data : D) :
  (0 < String.length b)%nat -> m (b ++ rest) = Some (data, rest) ->
  execAll m 0 i (b ++ rest)
  = (i, (i + String.length b)%nat, data)
    :: execAll m 0 (i + String.length b) rest.
Proof.
  destruct b as [|c b]; [cbn; lia|]. intros _ H.
  change (String c b ++ rest) with (String c (b ++ rest)) in *.
  cbn [execAll]. rewrite H. cbn [String.length]. rewrite length_append.
  replace (S (String.length b + String.length rest) - String.length rest)%nat
    with (S (String.length b)) by lia.
  cbn [Nat.sub]. rewrite Nat.sub_0_r, execAll_skip.
  do 2 f_equal. lia.
Qed.

Lemma chartBlock_text (v : value) (after : string) :
  chartBlock v ++ after
  = (nl ++ nl ++ "**" ++ Hook.glyphChart ++ " Visualization:**" ++ nl)
    ++ (fence ++ "chart" ++ nl ++ stringify2 v ++ nl ++ fence)
    ++ nl ++ after.
Proof. unfold chartBlock. now rewrite !append_assoc. Qed.

Lemma matchCodeBlock_chart (j rest : string) :
  includes fence j = false ->
  matchCodeBlock (fence ++ "chart" ++ nl ++ j ++ nl ++ fence ++ rest)
  = Some ({| language := "chart"; code := j ++ nl |}, rest).
Proof.
  intros H. unfold matchCodeBlock. rewrite lit_app.
  change (spanLen isWord ("chart" ++ nl ++ j ++ nl ++ fence ++ rest))
    with 5%nat.
  cbv zeta.
  change (slice 5 ("chart" ++ nl ++ j ++ nl ++ fence ++ rest))
    with (nl ++ j ++ nl ++ fence ++ rest).
  rewrite lit_app, (upTo_fence j rest H). reflexivity.
Qed.

Lemma assoc_canonical (k : string) (l : list (string * json)) (v : json) :
  forallb (fun kv => canonical (snd kv)) l = true ->
  assoc k l = Some v -> canonical v = true.
Proof.
  induction l as [|[k' v'] l IH]; [discriminate|].
  cbn [forallb snd assoc]. intros H. apply andb_prop in H as [H1 H2].
  destruct (String.eqb k k'); [now intros [= <-]|now apply IH].
Qed.

Lemma content_canonical (data v : json) :
  canonical data = true -> prop data "content" = Some v ->
  canonical v = true.
Proof.
  destruct data as [|b|m e|s|l|l]; cbn [prop];
    change (String.eqb "content" "length") with false; try discriminate.
  cbn [canonical]. intros H. apply andb_prop in H as [_ H].
  now apply assoc_canonical.
Qed.



End CodeBlockFacts.
(** ** The data of a chart *)

Section ChartFacts.
Import Charts.

Lemma setProperty_other (key k : string) (v : json) (o : gmap string json) :
  k <> key -> setProperty key v o !! k = o !! k.
Proof.
  intros H. unfold setProperty. destruct (String.eqb key "__proto__");
    [reflexivity|]. now apply lookup_insert_ne.
Qed.

Lemma dataPoint_keep (ds : list Dataset) (index : nat) (k : string)
  (o : gmap string json) :
  Forall (fun d => label d <> k) ds ->
  fold_left (fun o d => setProperty (label d) (numberAt (Some d) index) o)
    ds o !! k = o !! k.
Proof.
  intros H. revert o. induction H as [|d ds Hd _ IH]; intros o; [reflexivity|].
  cbn [fold_left]. rewrite IH. apply setProperty_other. congruence.
Qed.

Lemma dataPoint_keys (ds : list Dataset) (index : nat) (k : string)
  (o : gmap string json) :
  is_Some (fold_left
             (fun o d => setProperty (label d) (numberAt (Some d) index) o)
             ds o !! k) ->
  is_Some (o !! k) \/ Exists (fun d => label d = k) ds.
Proof.
  revert o. induction ds as [|d ds IH]; intros o H; [now left|].
  cbn [fold_left] in H. apply IH in H as [H|H]; [|right; now constructor 2].
  destruct (decide (k = label d)) as [->|Hk]; [right; now constructor|].
  left. now rewrite setProperty_other in H.
Qed.

(** X22: the data of a line or bar chart follow the labels:
    [transformData] makes one point for each label, in their order.  The
    point of a label has the label under [name], unless a dataset is
    labelled [name]; it has under the label of a dataset the number of
    this dataset at the index of the label, or 0 when that number is
    missing or zero, unless a later dataset has the same label; and it has
    no other keys. *)
Theorem chart_points_follow_the_labels (config : ChartConfig) :
  type config = line \/ type config = bar ->
  exists points,
    transformData config = Points points
    /\ List.length points = List.length (default [] (labels config))
    /\ forall i name point,
         default [] (labels config) !! i = Some name ->
         points !! i = Some point ->
         (Forall (fun d => label d <> "name") (datasets config) ->
          point !! "name" = Some (JStr name))
         /\ (forall before d after,
               datasets config = (before ++ d :: after)%list ->
               label d <> "__proto__" ->
               Forall (fun d' => label d' <> label d) after ->
               point !! label d = Some (numberAt (Some d) i))
         /\ (forall k, is_Some (point !! k) ->
               k = "name" \/ Exists (fun d => label d = k) (datasets config)).
Proof.
  intros Ht.
  exists (imap (dataPoint (datasets config)) (default [] (labels config))).
  split; [unfold transformData; now destruct Ht as [-> | ->]|].
  split; [apply length_imap|].
  intros i name point Hi Hp. rewrite list_lookup_imap, Hi in Hp.
  cbn in Hp. injection Hp as <-. unfold dataPoint. split; [|split].
  - intros H. rewrite dataPoint_keep by exact H. apply lookup_singleton_eq.
  - intros before d after -> Hd Hafter.
    rewrite fold_left_app. cbn [fold_left]. rewrite dataPoint_keep by exact Hafter.
    unfold setProperty. apply String.eqb_neq in Hd. rewrite Hd.
    apply lookup_insert_eq.
  - intros k H. apply dataPoint_keys in H as [H|H]; [left|now right].
    destruct (decide (k = "name")) as [->|Hk]; [reflexivity|].
    rewrite lookup_singleton_ne in H by congruence. now destruct H.
Qed.
Lemma chart_points_follow_the_labels_witness :
  (type ClientSamples.barConfig = line \/ type ClientSamples.barConfig = bar)
  /\ exists points,
       transformData ClientSamples.barConfig = Points points
       /\ List.length points = 2%nat.
Proof.
  split; [now right|].
  destruct (chart_points_follow_the_labels ClientSamples.barConfig
              (or_intror eq_refl)) as (points & H1 & H2 & _).
  exists points. split; [exact H1|exact H2].
Defined.

End ChartFacts.
(** ** The rows of a confirmed query *)

Section TableBlockFacts.
Import JsonParser JsonSpec Regex RendererSpec CodeBlocks CodeBlockSpec.

Lemma matchCodeBlock_block (w j rest : string) :
  allChars isWord w = true -> nonEmptyString w = true ->
  includes fence j = false ->
  matchCodeBlock (fence ++ w ++ nl ++ j ++ nl ++ fence ++ rest)
  = Some ({| language := w; code := j ++ nl |}, rest).
Proof.
  intros Hw Hn H. unfold matchCodeBlock. rewrite lit_app.
  change (nl ++ j ++ nl ++ fence ++ rest)
    with (String (chr 10) (j ++ nl ++ fence ++ rest)).
  rewrite (spanLen_all isWord w (chr 10) _ Hw eq_refl).
  cbv zeta. rewrite substring_app, slice_app, Hn.
  change (String (chr 10) (j ++ nl ++ fence ++ rest))
    with (nl ++ j ++ nl ++ fence ++ rest).
  rewrite lit_app, (upTo_fence j rest H). reflexivity.
Qed.

Lemma prop_canonical (v x : json) (k : string) :
  String.eqb k "length" = false ->
  canonical v = true -> prop v k = Some x -> canonical x = true.
Proof.
  intros Hk. destruct v as [|b|m e|s|l|l]; cbn [prop]; rewrite ?Hk;
    try discriminate.
  cbn [canonical]. intros H. apply andb_prop in H as [_ H].
  now apply assoc_canonical.
Qed.

Lemma plain_clean (h d : string) :
  plain h = true -> occurrences fence (h ++ d) = occurrences fence d.
Proof. apply occurrences_clean. Qed.

Lemma plain_app (a b : string) : plain (a ++ b) = plain a && plain b.
Proof. apply allChars_app. Qed.

Lemma resultContent_text (result : json) (after : string) :
  Layout.resultContent result ++ after
  = (nl ++ nl ++ "**" ++ Layout.glyphClipboard ++ " Query Result:** ("
     ++ toStr (orElse (prop result "row_count") (Some (JNum 0 0)))
     ++ " row"
     ++ (if isNotOne (orElse (prop result "row_count") (Some (JNum 0 0)))
         then "s" else EmptyString)
     ++ " returned)" ++ nl ++ nl)
    ++ (fence ++ "table" ++ nl
        ++ stringify2 (orElse (prop result "data") (Some (JArr [])))
        ++ nl ++ fence)
    ++ after.
Proof. unfold Layout.resultContent. cbv zeta. now rewrite !append_assoc. Qed.


End TableBlockFacts.
(** ** The rows of a query *)

Section DetailsFacts.
Import JsonParser JsonSpec Regex RendererSpec CodeBlocks CodeBlockSpec.
Import Details DetailsSpec.

Ltac solid_cases c :=
  destruct c as [[] [] [] [] [] [] [] []]; intros H; try discriminate H;
  vm_compute; reflexivity.

Lemma stripWs_solid_head (c : ascii) (t : string) :
  solid c = true -> stripWs (String c t) = None.
Proof. solid_cases c. Qed.

Lemma stripWsRev_solid_head (c : ascii) (t : string) :
  solid c = true -> stripWsRev (String c t) = None.
Proof. solid_cases c. Qed.

Lemma trimStart_lf (r : string) : trimStart (String (chr 10) r) = trimStart r.
Proof.
  unfold trimStart. cbn [String.length stripWsN].
  now replace (stripWs (String (chr 10) r)) with (Some r)
    by (vm_compute; reflexivity).
Qed.

Lemma trimStart_solid (c : ascii) (t : string) :
  solid c = true -> trimStart (String c t) = String c t.
Proof. intros H. apply trimStart_fixed. now apply stripWs_solid_head. Qed.

Lemma trimStart_solid_app (c : ascii) (h t : string) :
  solid c = true -> trimStart (String c h ++ t) = String c h ++ t.
Proof. apply trimStart_solid. Qed.

Lemma trimEnd_lf (t : string) (c : ascii) :
  solid c = true -> trimEnd ((t ++ String c EmptyString) ++ nl)
                    = t ++ String c EmptyString.
Proof.
  intros H. unfold trimEnd. rewrite !rev_append.
  change (rev nl) with nl. change (rev (String c EmptyString))
    with (String c EmptyString).
  rewrite !length_append.
  change (String.length nl) with 1%nat.
  change (String.length (String c EmptyString)) with 1%nat.
  change (nl ++ String c EmptyString ++ rev t)
    with (String (chr 10) (String c (rev t))).
  replace (String.length t + 1 + 1)%nat with (S (S (String.length t))) by lia.
  cbn [stripWsRevN].
  replace (stripWsRev (String (chr 10) (String c (rev t))))
    with (Some (String c (rev t))) by (vm_compute; reflexivity).
  cbn [stripWsRevN]. rewrite (stripWsRev_solid_head c (rev t) H).
  change (String c (rev t)) with (String c EmptyString ++ rev t).
  change (String c EmptyString) with (rev (String c EmptyString)) at 1.
  now rewrite <- rev_append, rev_rev.
Qed.

Lemma digit_solid (c : ascii) : isDigit c = true -> solid c = true.
Proof.
  destruct c as [[] [] [] [] [] [] [] []]; intros H; try discriminate H;
    reflexivity.
Qed.

Lemma last_digit (x : string) :
  allChars isDigit x = true -> nonEmpty x = true ->
  exists t c, x = t ++ String c EmptyString /\ isDigit c = true.
Proof.
  induction x as [|a x IH]; [discriminate|]. intros H _.
  cbn [allChars] in H. apply andb_prop in H as [Ha Hx].
  destruct x as [|b x].
  - exists EmptyString, a. now split.
  - destruct (IH Hx eq_refl) as (t & c & E & Hc).
    exists (String a t), c. split; [|exact Hc]. cbn [String.append].
    now rewrite <- E.
Qed.

Lemma ends_with_digits (pre x : string) :
  allChars isDigit x = true -> nonEmpty x = true ->
  exists t c, pre ++ x = t ++ String c EmptyString /\ solid c = true.
Proof.
  intros H Hn. destruct (last_digit x H Hn) as (t & c & -> & Hc).
  exists (pre ++ t), c. split; [now rewrite append_assoc|].
  now apply digit_solid.
Qed.

(** What [JSON.stringify] writes for a number ends with a digit. *)
Lemma numToString_last (m e : Z) :
  exists t c, numToString m e = t ++ String c EmptyString /\ solid c = true.
Proof.
  unfold numToString. destruct (m =? 0)%Z eqn:E0.
  - exists EmptyString, "0"%char. now split.
  - apply Z.eqb_neq in E0.
    destruct (digits_of m E0) as (c & ds & -> & Hc & _ & Hds & _).
    assert (Hall : allChars isDigit (String c ds) = true)
      by (cbn [allChars]; now rewrite Hc, Hds).
    cbv zeta. set (k := Z.of_nat (String.length (String c ds))).
    set (n := (k + e)%Z). set (sign := if (m <? 0)%Z then "-" else EmptyString).
    assert (Hk : k = (Z.of_nat (String.length ds) + 1)%Z)
      by (unfold k; cbn [String.length]; lia).
    destruct ((k <=? n)%Z && (n <=? 21)%Z) eqn:C1.
    { apply (ends_with_digits sign (String c ds ++ zeros (Z.to_nat (n - k))));
        [|reflexivity].
      now rewrite allChars_app, Hall, zeros_digits. }
    destruct ((0 <? n)%Z && (n <=? 21)%Z) eqn:C2.
    { apply andb_prop in C2 as [C2 C2']. apply Z.ltb_lt in C2.
      apply Z.leb_le in C2'.
      apply andb_false_iff in C1 as [C1|C1]; apply Z.leb_gt in C1; [|lia].
      destruct (Z.to_nat n) as [|j] eqn:Ej; [lia|].
      destruct (take_drop (S j) (String c ds)
                  ltac:(cbn [String.length]; lia)) as (_ & T2 & T3).
      destruct (T3 Hall) as [_ T5].
      assert (Hne : nonEmpty (slice (S j) (String c ds)) = true).
      { destruct (slice (S j) (String c ds));
          [cbn [String.length] in T2; lia|reflexivity]. }
      destruct (ends_with_digits
                  (sign ++ substring 0 (S j) (String c ds) ++ ".")
                  (slice (S j) (String c ds)) T5 Hne) as (t & x & E & Hx).
      exists t, x. split; [|exact Hx]. rewrite <- E.
      now rewrite !append_assoc. }
    destruct ((-6 <? n)%Z && (n <=? 0)%Z).
    { destruct (ends_with_digits (sign ++ "0." ++ zeros (Z.to_nat (- n)))
                  (String c ds) Hall eq_refl) as (t & x & E & Hx).
      exists t, x. split; [|exact Hx]. rewrite <- E.
      now rewrite !append_assoc. }
    assert (Hx : (n - 1 <> 0)%Z).
    { apply andb_false_iff in C2.
      rewrite !Z.ltb_ge, !Z.leb_gt in *.
      apply andb_false_iff in C1. rewrite !Z.leb_gt in C1. lia. }
    destruct (digits_of (n - 1)%Z Hx) as (xc & xds & -> & Hxc & _ & Hxds & _).
    assert (Hxall : allChars isDigit (String xc xds) = true)
      by (cbn [allChars]; now rewrite Hxc, Hxds).
    set (xsign := if (n - 1 <? 0)%Z then "-" else "+").
    destruct (k =? 1)%Z.
    + destruct (ends_with_digits (sign ++ String c ds ++ "e" ++ xsign)
                  (String xc xds) Hxall eq_refl) as (t & x & E & Hx').
      exists t, x. split; [|exact Hx']. rewrite <- E.
      now rewrite !append_assoc.
    + destruct (ends_with_digits
                  (sign ++ substring 0 1 (String c ds) ++ "."
                   ++ slice 1 (String c ds) ++ "e" ++ xsign)
                  (String xc xds) Hxall eq_refl) as (t & x & E & Hx').
      exists t, x. split; [|exact Hx']. rewrite <- E.
      now rewrite !append_assoc.
Qed.

(** What [stringify] writes begins and ends with a character that is not
    white space. *)
Lemma stringify_ends (ind : string) (v : json) :
  canonical v = true ->
  (exists c t, stringify ind v = String c t /\ solid c = true)
  /\ (exists t c, stringify ind v = t ++ String c EmptyString
                  /\ solid c = true).
Proof.
  intros Hcan. split.
  - destruct v as [|[|]|m e|s|[|x r]|[|[k x] r]];
      try (eexists; eexists; split; [reflexivity|reflexivity]).
    cbn [canonical] in Hcan.
    destruct (numToString_head m e Hcan) as (c & t & E & Hc).
    exists c, t. split; [exact E|].
    revert Hc. clear.
    destruct c as [[] [] [] [] [] [] [] []]; intros H; try discriminate H;
      reflexivity.
  - destruct v as [|[|]|m e|s|[|x r]|[|[k x] r]].
    + now exists "nul", "l"%char.
    + now exists "tru", "e"%char.
    + now exists "fals", "e"%char.
    + apply numToString_last.
    + exists (dq ++ quoteBody s), (chr 34). split; [|reflexivity].
      cbn [stringify]. unfold quote. now rewrite append_assoc.
    + now exists "[", "]"%char.
    + rewrite stringify_array. eexists _, "]"%char. split; [|reflexivity].
      now rewrite <- !append_assoc.
    + now exists "{", "}"%char.
    + rewrite stringify_object. eexists _, "}"%char. split; [|reflexivity].
      now rewrite <- !append_assoc.
Qed.

Lemma trim_stringified (j : string) :
  (exists c t, j = String c t /\ solid c = true) ->
  (exists t c, j = t ++ String c EmptyString /\ solid c = true) ->
  trim (j ++ nl) = j.
Proof.
  intros (c & t & E & Hc) (t' & c' & E' & Hc'). unfold trim.
  rewrite E at 1. cbn [String.append]. rewrite (trimStart_solid c _ Hc).
  change (String c (t ++ nl)) with (String c t ++ nl). rewrite <- E.
  rewrite E'. now apply trimEnd_lf.
Qed.

Lemma startsWith_stop (p x : string) (c : ascii) (z : string) :
  lacks c p = true ->
  startsWith p (x ++ String c z) = startsWith p x.
Proof.
  revert x. induction p as [|a p IH]; intros x H; [reflexivity|].
  unfold lacks in *. cbn [allChars] in H. apply andb_prop in H as [Ha H].
  destruct x as [|b x]; cbn [String.append startsWith].
  - apply negb_true_iff in Ha. rewrite Ascii.eqb_sym in Ha. now rewrite Ha.
  - destruct (Ascii.eqb a b); [now apply IH|reflexivity].
Qed.

(** A lazy run passes a text in which the literal does not occur, when
    the text is followed by a character that is not in the literal. *)
Lemma upTo_through (p j : string) (c : ascii) (z : string) :
  includes p j = false -> lacks c p = true ->
  upTo p (j ++ String c z)
  = match upTo p (String c z) with
    | Some (x, r) => Some (j ++ x, r)
    | None => None
    end.
Proof.
  intros Hj Hc. set (u := upTo p (String c z)). induction j as [|b j IH].
  - cbn [String.append]. fold u. now destruct u as [[x r]|].
  - rewrite includes_unfold in Hj.
    destruct (startsWith p (String b j)) eqn:E; [discriminate|].
    change (String b j ++ String c z) with (String b (j ++ String c z)).
    cbn [upTo].
    change (String b (j ++ String c z)) with (String b j ++ String c z).
    rewrite (startsWith_stop p (String b j) c z Hc), E, (IH Hj).
    now destruct u as [[x r]|].
Qed.

(** A lazy run passes a text without the first character of the
    literal. *)
Lemma upTo_skip (a : ascii) (p h s : string) :
  lacks a h = true ->
  upTo (String a p) (h ++ s)
  = match upTo (String a p) s with
    | Some (x, r) => Some (h ++ x, r)
    | None => None
    end.
Proof.
  set (u := upTo (String a p) s). induction h as [|b h IH]; intros H.
  - cbn [String.append]. fold u. now destruct u as [[x r]|].
  - unfold lacks in *. cbn [allChars] in H. apply andb_prop in H as [Hb H].
    cbn [String.append upTo startsWith]. apply negb_true_iff in Hb.
    rewrite Hb, (IH H). now destruct u as [[x r]|].
Qed.

Lemma upTo_here (p rest : string) :
  upTo p (p ++ rest) = Some (EmptyString, rest).
Proof.
  destruct (p ++ rest) as [|c s] eqn:E; cbn [upTo]; rewrite <- E;
    now rewrite startsWith_app, slice_app.
Qed.

Lemma occurrences_without (a : ascii) (p h d : string) :
  lacks a h = true ->
  occurrences (String a p) (h ++ d) = occurrences (String a p) d.
Proof.
  induction h as [|c h IH]; intros H; [reflexivity|].
  unfold lacks in *. cbn [allChars] in H. apply andb_prop in H as [Hc H].
  cbn [String.append occurrences startsWith]. rewrite (IH H).
  apply negb_true_iff in Hc. now rewrite Hc.
Qed.

Lemma matchDetails_head (s : string) :
  startsWith "<details" s = false -> matchDetails s = None.
Proof. intros H. unfold matchDetails, lit. now rewrite H. Qed.

Lemma upTo_details (j rest : string) :
  includes "</details>" j = false ->
  upTo "</details>"
    (fence ++ "json" ++ nl ++ j ++ nl ++ fence ++ nl ++ "</details>" ++ rest)
  = Some (fence ++ "json" ++ nl ++ j ++ nl ++ fence ++ nl, rest).
Proof.
  intros H.
  change (fence ++ "json" ++ nl ++ j ++ nl ++ fence ++ nl ++ "</details>"
          ++ rest)
    with ((fence ++ "json" ++ nl)
          ++ j ++ String (chr 10) ((fence ++ nl) ++ "</details>" ++ rest)).
  rewrite (upTo_skip "<" "/details>" (fence ++ "json" ++ nl)) by reflexivity.
  rewrite (upTo_through "</details>" j (chr 10)) by (trivial; reflexivity).
  change (String (chr 10) ((fence ++ nl) ++ "</details>" ++ rest))
    with ((nl ++ fence ++ nl) ++ "</details>" ++ rest).
  rewrite (upTo_skip "<" "/details>" (nl ++ fence ++ nl)) by reflexivity.
  rewrite upTo_here. cbv iota beta.
  repeat f_equal; rewrite ?append_empty_r, ?append_assoc; reflexivity.
Qed.

Lemma matchDetails_rows (j rest : string) :
  includes "</details>" j = false ->
  matchDetails
    ("<details open>" ++ nl ++ "<summary>Results</summary>" ++ nl ++ nl
     ++ fence ++ "json" ++ nl ++ j ++ nl ++ fence ++ nl ++ "</details>"
     ++ rest)
  = Some ({| summary := "Results";
             content := fence ++ "json" ++ nl ++ j ++ nl ++ fence ++ nl;
             isOpen := true |}, rest).
Proof.
  intros H. unfold matchDetails.
  set (body := fence ++ "json" ++ nl ++ j ++ nl ++ fence ++ nl ++ "</details>"
               ++ rest).
  change ("<details open>" ++ nl ++ "<summary>Results</summary>" ++ nl ++ nl
          ++ body)
    with ("<details"
          ++ String " "
               ("open"
                ++ ">" ++ String (chr 10)
                            ("<summary>"
                             ++ "Results</summary>"
                             ++ String (chr 10) (String (chr 10) body)))).
  rewrite lit_app.
  rewrite ws1_space by (now apply (stripWs_solid_head "o")).
  rewrite lit_app. cbv iota beta. rewrite lit_app.
  unfold ws0. rewrite trimStart_lf.
  rewrite trimStart_solid_app by reflexivity.
  rewrite lit_app.
  change (upToInLine "</summary>"
            ("Results</summary>" ++ String (chr 10) (String (chr 10) body)))
    with (Some ("Results", String (chr 10) (String (chr 10) body))).
  cbv iota beta. rewrite !trimStart_lf.
  unfold body at 1.
  change (fence ++ "json" ++ nl ++ j ++ nl ++ fence ++ nl ++ "</details>"
          ++ rest)
    with (String "`" ("``json" ++ nl ++ j ++ nl ++ fence ++ nl ++ "</details>"
                      ++ rest)).
  rewrite (trimStart_solid "`") by reflexivity.
  change (String "`" ("``json" ++ nl ++ j ++ nl ++ fence ++ nl ++ "</details>"
                      ++ rest))
    with (fence ++ "json" ++ nl ++ j ++ nl ++ fence ++ nl ++ "</details>"
          ++ rest).
  now rewrite (upTo_details j rest H).
Qed.

Lemma jsonData_rows (v : json) :
  canonical v = true -> includes fence (stringify2 (Some v)) = false ->
  jsonData (fence ++ "json" ++ nl ++ stringify2 (Some v) ++ nl ++ fence ++ nl)
  = Some v.
Proof.
  intros Hcan Hf. unfold jsonData.
  destruct (stringify_ends EmptyString v Hcan) as [Hhead Hlast].
  change (stringify EmptyString v) with (stringify2 (Some v)) in *.
  set (j := stringify2 (Some v)) in *.
  assert (Hm : matchJsonFence (fence ++ "json" ++ nl ++ j ++ nl ++ fence ++ nl)
               = Some (j ++ nl, nl)).
  { unfold matchJsonFence.
    change (fence ++ "json" ++ nl ++ j ++ nl ++ fence ++ nl)
      with ((fence ++ "json") ++ String (chr 10) (j ++ nl ++ fence ++ nl)).
    rewrite lit_app. unfold ws0. rewrite trimStart_lf.
    destruct Hhead as (c & t & E & Hc). rewrite E at 1.
    cbn [String.append]. rewrite (trimStart_solid c _ Hc).
    change (String c (t ++ nl ++ fence ++ nl))
      with (String c t ++ nl ++ fence ++ nl).
    rewrite <- E. now apply upTo_fence. }
  assert (Hs : search matchJsonFence
                 (fence ++ "json" ++ nl ++ j ++ nl ++ fence ++ nl)
               = Some (j ++ nl)).
  { destruct (fence ++ "json" ++ nl ++ j ++ nl ++ fence ++ nl) eqn:E;
      cbn [search]; now rewrite Hm. }
  rewrite Hs, (trim_stringified j Hhead Hlast).
  rewrite <- (append_empty_r j). now apply parse_stringify.
Qed.

Lemma lacks_app (a : ascii) (x y : string) :
  lacks a (x ++ y) = lacks a x && lacks a y.
Proof. apply allChars_app. Qed.

Lemma rowsBlock_text (result : json) (after : string) :
  rowsBlock result ++ after
  = (nl ++ "**" ++ Hook.glyphClipboard ++ " Query Result:** ("
     ++ toStr (prop result "row_count") ++ " row"
     ++ (if isNotOne (prop result "row_count") then "s" else EmptyString)
     ++ " returned)" ++ nl ++ nl)
    ++ ("<details open>" ++ nl ++ "<summary>Results</summary>" ++ nl ++ nl
        ++ fence ++ "json" ++ nl ++ stringify2 (prop result "data") ++ nl
        ++ fence ++ nl ++ "</details>")
    ++ nl ++ after.
Proof. unfold rowsBlock. now rewrite !append_assoc. Qed.


End DetailsFacts.
